(* ===== verification/_CoqProject ===== *)
-Q . S2P
Prelude.v
Bitmap.v
Pmm.v
Journal.v
JournalCrash.v
JournalFs.v
Block.v
BlockCache.v
Sync.v
Vmm.v
VmmProof.v
VmmSpec.v
Thread.v
ThreadProof.v
ThreadBoot.v
Kmem.v
KmemProof.v
KmemSpec.v
Vfs.v
VfsSpec.v
Mcsfs1.v
Mcsfs1Proof.v
Mcsfs1Ops.v
Mcsfs1Write.v
Mcsfs1Format.v
Mcsfs1Spec.v
Mcsfs1Name.v
Elf.v
ElfSpec.v
Console.v
ConsoleSpec.v
Arch.v
ArchSpec.v
Syscall.v
SyscallSpec.v
Memory.v
