(* ===== verification/Prelude.v ===== *)
(** * MCSOS 260502: a verification of the kernel's components

    MCSOS is a small x86_64 teaching kernel in C with a few assembly files. This
    library translates its components into executable definitions and proves
    what makes them correct. Paths below are relative to src/.

    ** The program and the files that model it

    - Frames and pages. src/pmm.c hands out 4 KiB frames from a bitmap
      ([Bitmap], [Pmm]); src/vmm.c builds four-level page tables in such frames
      ([Vmm], [VmmProof], [VmmSpec]), which it obtains through callbacks that
      kernel/core/kmain.c implements with the frame allocator.
    - Kernel heap. kernel/mm/kmem.c, a first-fit allocator with headers inside
      the memory it manages ([Kmem], [KmemProof], [KmemSpec]).
    - Threads. kernel/mcsos_thread.c and arch/x86_64/context_switch.S, a
      cooperative round-robin scheduler ([Thread], [ThreadProof], [ThreadBoot]).
    - Locks. kernel/sync: lock-order checker, spinlock and mutex ([Sync]).
    - Interrupts and console. kernel/arch/x86_64 and kernel/core/trap.c
      ([Arch], [ArchSpec]), kernel/core/serial.c, log.c and panic.c ([Console],
      [ConsoleSpec]).
    - System calls and programs. kernel/syscall with its assembly entry and the
      callbacks of kmain.c ([Syscall], [SyscallSpec]); the ELF loader
      kernel/user/m11_elf_loader.c ([Elf], [ElfSpec]).
    - Files. kernel/vfs, a RAM file system and descriptors ([Vfs], [VfsSpec]);
      fs/mcsfs1, a flat file system on a block device ([Mcsfs1], [Mcsfs1Proof],
      [Mcsfs1Ops], [Mcsfs1Write], [Mcsfs1Format], [Mcsfs1Spec], [Mcsfs1Name]);
      kernel/fs/mcsfs1j, the same idea with a write-ahead journal ([Journal],
      [JournalCrash], [JournalFs]).
    - Blocks. kernel/block: device registry, RAM disk and buffer cache
      ([Block], [BlockCache]).
    - kernel/lib/memory.c: memset, memcpy and memmove ([Memory]).

    In each group the first file holds the definitions, with the names of the C
    functions, structs and #define constants; the others hold the proofs. This
    file holds what they share.

    ** How code becomes definitions

    - An integer of [w] bits is a [Z]; wrap-around is written out with [wrap]
      (here [u8] to [u64]) at each operation that can leave the width.
    - A pointer is a [ptr], an [option] whose [None] is NULL, or, where the code
      does arithmetic on it or compares it, an address or an index.
    - A function that changes an object takes and returns it. Code that threads
      state or errors through many calls is written in the monad [M] over the
      object behind a pointer: its result is [Ok], [Err] with the code the C
      function returns, or [Ub]. [Ub] is undefined behaviour: an access outside
      an array, through NULL or to memory that is not there. Where a theorem gives
      the result of a call as [Ok] or [Err], it therefore shows that no such
      access happens.
    - On-disk and in-memory structures the C code overlays on bytes are read and
      written at byte offsets ([ld], [st]).
    - A panic does not return; its result is the error [KERNEL_PANIC].
    - The instructions of the assembly files act on records of registers and a
      stack of words.

    ** Interfaces

    What a component assumes about another is a class, discharged by an
    instance: [FrameAllocator] (page tables; the frame allocator), [BlkDriver]
    (buffer cache; the RAM disk), [BlockStore] (MCSFS1; a device in memory),
    [Ports], [Uart], [Pic] and [Pit] (console and interrupts; model devices).

    ** What is proved

    - Refinement of a simple specification by every sequence of calls: frames as
      a set, page tables as a map of pages, the ready queue as a list, the
      cache as a disk, the RAM file system as named byte sequences, MCSFS1 as a
      finite map.
    - Crash safety of the journal: whatever block write a commit and the
      recoveries after it are interrupted at, all of a transaction or none of it
      survives, and so a written file is there or not.
    - Heap isolation and complete coalescing; exact validation of ELF images and
      of user ranges; mutual exclusion and progress of the locks under every
      interleaving of their atomic accesses, and that no deadlock passes the
      lock-order checker.
    - The path of an interrupt or system call from the entry stub to the return,
      with registers and stack restored as the assembly promises; the set-up of
      descriptor table, interrupt controllers and timer; what reaches the serial
      line.
    - The modelled start-ups of kmain.c do not panic.
    - Faults of the code, each for every state in which it occurs: wrap-around in
      the frame allocator, a read past a buffer in MCSFS1J, a cached write outside
      the device, truncated physical addresses, a queue made cyclic by a second
      enqueue, truncated results of lseek, lost names and lost blocks of MCSFS1.

    ** Bounds

    Loops without a structural measure take fuel, and the theorems about them
    show it is enough: the page loops of the frame allocator have two more rounds
    than pages below the end, the list walks of the heap two more than headers
    fit ([heap_fuel]), the queue validation as many as the code itself allows
    ([validate_fuel]), path walks one more than the path has characters. The count of
    ready threads takes its fuel as an argument, because on a cyclic queue the
    loop has no end. Heap theorems are for heaps of at most 64 MiB, MCSFS1 for
    devices of 16 to 4096 blocks, which is what its bitmap can hold.

    ** What is not modelled

    - kmain itself, its made-up memory map and its demonstration threads: each
      start-up it calls is modelled and proved on its own, their sequence is not.
      The idle loops do not return and change nothing.
    - block_demo.c, m16_kernel_smoke_test with its copies between the RAM device
      and the image, and sys_vfs.c: demonstrations and test hooks over functions
      that are modelled.
    - Reading and writing CR2 and CR3, and the pause and hlt instructions: single
      privileged instructions without a model of their effect.
    - Weak memory: the atomic accesses of the locks interleave under sequential
      consistency.
    - Boot loader protocol, linker script, build and test programs. *)

From Stdlib Require Import ZArith Lia.
From Stdlib Require String Ascii.
From stdpp Require Import base list numbers option.

Local Open Scope Z_scope.

(** ** Machine integers *)

(** A [w]-bit unsigned value is a [Z]; C's implicit reduction is written out. *)
Definition wrap (w x : Z) : Z := x mod 2 ^ w.

Abbreviation u8 := (wrap 8).
Abbreviation u16 := (wrap 16).
Abbreviation u32 := (wrap 32).
Abbreviation u64 := (wrap 64).

(** [~x] at width [w]. *)
Definition wnot (w x : Z) : Z := wrap w (Z.lnot x).

Definition UINT64_MAX : Z := 2 ^ 64 - 1.

(** [x] fits in [w] bits. *)
Definition fits (w x : Z) : Prop := 0 <= x < 2 ^ w.

(** Conversion of a [w]-bit unsigned value to the signed type of that width. *)
Definition to_signed (w x : Z) : Z :=
  if x <? 2 ^ (w - 1) then x else x - 2 ^ w.

(** ** Results, pointers and the state monad of the C functions *)

(** [Ok] is the normal return, [Err rc] a return with a non-zero code,
    [Ub] an access the C standard leaves undefined. *)
Inductive res (A : Type) : Type :=
| Ok (a : A)
| Err (rc : Z)
| Ub.

Arguments Ok {A} a.
Arguments Err {A} rc.
Arguments Ub {A}.

#[export] Instance res_eq_dec {A} `{EqDecision A} : EqDecision (res A).
Proof. solve_decision. Defined.

(** A possibly NULL pointer to an object. *)
Abbreviation ptr A := (option A).

(** A function that receives a pointer to an object of type [S] and may update
    the object in place: updates made before an error return persist. *)
Definition M (S A : Type) : Type := ptr S → res A * ptr S.

Definition ret {S A} (a : A) : M S A := λ p, (Ok a, p).
Definition fail {S A} (rc : Z) : M S A := λ p, (Err rc, p).
Definition ub {S A} : M S A := λ p, (Ub, p).

Definition bind {S A B} (m : M S A) (k : A → M S B) : M S B := λ p,
  match m p with
  | (Ok a, p') => k a p'
  | (Err rc, p') => (Err rc, p')
  | (Ub, p') => (Ub, p')
  end.

(** Reading and replacing the object behind the pointer. *)
Definition deref {S} : M S S := λ p,
  match p with Some s => (Ok s, p) | None => (Ub, p) end.
Definition store {S} (s : S) : M S unit := λ p,
  match p with Some _ => (Ok tt, Some s) | None => (Ub, p) end.

(** [if (p == NULL) return rc;] *)
Definition null_check {S} (rc : Z) : M S unit := λ p,
  match p with Some _ => (Ok tt, p) | None => (Err rc, p) end.

(** [if (b) return rc;] *)
Definition fail_if {S} (b : bool) (rc : Z) : M S unit :=
  if b then fail rc else ret tt.

Declare Scope cm_scope.
Delimit Scope cm_scope with cm.
Notation "'let*' x := m 'in' k" := (bind m (λ x, k))
  (at level 10, x binder, m at level 200, k at level 200) : cm_scope.
Notation "m ;; k" := (bind m (λ _, k))
  (at level 100, right associativity) : cm_scope.

Local Open Scope cm_scope.

(** [for (i in l) body(i)], with an error or early return leaving the loop. *)
Fixpoint iterM {S A} (f : A → M S unit) (l : list A) : M S unit :=
  match l with
  | [] => ret tt
  | x :: l' => f x ;; iterM f l'
  end.


(** ** Loops *)

(** [for (i = a; i < a + n; i++) if (P(i)) return i;] *)
Fixpoint find_z (P : Z → bool) (i : Z) (n : nat) : option Z :=
  match n with
  | O => None
  | S n' => if P i then Some i else find_z P (i + 1) n'
  end.

(** [for (i = a; i < b; i++) s = f(i, s);] *)
Fixpoint for_z {S} (f : Z → S → S) (i : Z) (n : nat) (s : S) : S :=
  match n with
  | O => s
  | Datatypes.S n' => for_z f (i + 1) n' (f i s)
  end.

(** How many of the [n] values from [i] on satisfy [P]. *)
Fixpoint count_z (P : Z → bool) (i : Z) (n : nat) : Z :=
  match n with
  | O => 0
  | S n' => (if P i then 1 else 0) + count_z P (i + 1) n'
  end.

(** ** Byte buffers *)

(** A buffer is the list of its bytes; [slice] reads and [splice] overwrites a
    run of bytes at an offset, as the C byte-copy loops do ([splice] keeps the
    length of the buffer; the models only use it inside the bounds). *)
Definition slice {A} (off n : nat) (l : list A) : list A := take n (drop off l).
Definition splice {A} (off : nat) (src l : list A) : list A :=
  take off l ++ take (length l - off) src ++ drop (off + length src) l.

(** Little-endian fields of a structure laid over a buffer. *)
Fixpoint le_load (l : list Z) : Z :=
  match l with
  | [] => 0
  | b :: l' => b + 256 * le_load l'
  end.

Fixpoint le_bytes (n : nat) (v : Z) : list Z :=
  match n with
  | O => []
  | S n' => v mod 256 :: le_bytes n' (v / 256)
  end.

Definition ld (n off : nat) (l : list Z) : Z := le_load (slice off n l).
Definition st (n off : nat) (v : Z) (l : list Z) : list Z := splice off (le_bytes n v) l.

(** The characters of a literal. *)
Definition chars (s : String.string) : list Z := (λ c, Z.of_N (Ascii.N_of_ascii c)) <$> String.list_ascii_of_string s.

(** The byte-copy loops ([memcpy] and its local variants): undefined when either
    buffer is shorter than [n]. *)
Definition c_memcpy (dst src : list Z) (n : Z) : res (list Z) :=
  if (Z.of_nat (length dst) <? n) || (Z.of_nat (length src) <? n) then Ub
  else Ok (take (Z.to_nat n) src ++ drop (Z.to_nat n) dst).

(** Run a computation that does not touch the state. *)
Definition lift {S A} (r : res A) : M S A := λ p, (r, p).

(** [KERNEL_PANIC] does not return: a code of its own; [or_panic] is the check
    of a result that panics on an error. *)
Definition KERNEL_PANIC : Z := -1000.

Definition or_panic {S A} (m : M S A) : M S A := λ s,
  match m s with
  | (Err _, s') => (Err KERNEL_PANIC, s')
  | r => r
  end.

(** Change the value of a normal return. *)
Definition rmap {A B} (f : A → B) (r : res A) : res B :=
  match r with Ok a => Ok (f a) | Err rc => Err rc | Ub => Ub end.

(** [rc = m; if (rc != 0) h] *)
Definition on_error {S A} (m : M S A) (h : Z → M S A) : M S A := λ s,
  match m s with
  | (Err rc, s') => h rc s'
  | r => r
  end.

(** Every element is a byte. *)
Definition byte_ok (b : Z) : Prop := 0 <= b < 256.
Definition bytes_ok (l : list Z) : Prop := Forall byte_ok l.

(** ** Lemmas: loops *)

Lemma find_z_Some P i n j :
  find_z P i n = Some j ↔
  i <= j < i + Z.of_nat n ∧ P j = true ∧ (∀ k, i <= k < j → P k = false).
Proof.
  revert i. induction n as [|n IH]; intros i; simpl.
  { split; [done|]. lia. }
  destruct (P i) eqn:Hi.
  - split.
    + intros [= <-]. split; [lia|]. split; [done|]. lia.
    + intros (Hr & Hj & Hk). f_equal.
      destruct (decide (i = j)); [done|]. rewrite Hk in Hi by lia. done.
  - rewrite IH. split; intros (Hr & Hj & Hk); (split; [|split; [done|]]).
    + lia.
    + intros k ?. destruct (decide (k = i)) as [->|]; [done|]. apply Hk. lia.
    + destruct (decide (i = j)) as [->|]; [congruence|]. lia.
    + intros k ?. apply Hk. lia.
Qed.

Lemma find_z_None P i n :
  find_z P i n = None ↔ (∀ k, i <= k < i + Z.of_nat n → P k = false).
Proof.
  revert i. induction n as [|n IH]; intros i; simpl.
  { split; [|done]. intros _ k ?. lia. }
  destruct (P i) eqn:Hi.
  - split; [done|]. intros Hk. rewrite Hk in Hi by lia. done.
  - rewrite IH. split; intros Hk k ?; [|apply Hk; lia].
    destruct (decide (k = i)) as [->|]; [done|]. apply Hk. lia.
Qed.

Lemma find_z_ext P Q i n :
  (∀ k, i <= k < i + Z.of_nat n → P k = Q k) → find_z P i n = find_z Q i n.
Proof.
  revert i. induction n as [|n IH]; intros i H; simpl; [done|].
  rewrite H by lia. rewrite IH; [done|]. intros k ?. apply H. lia.
Qed.

Lemma count_z_bounds P i n : 0 <= count_z P i n <= Z.of_nat n.
Proof.
  revert i. induction n as [|n IH]; intros i; simpl; [lia|].
  specialize (IH (i + 1)). destruct (P i); lia.
Qed.

Lemma count_z_ext P Q i n :
  (∀ k, i <= k < i + Z.of_nat n → P k = Q k) → count_z P i n = count_z Q i n.
Proof.
  revert i. induction n as [|n IH]; intros i H; simpl; [done|].
  rewrite H by lia. rewrite (IH (i + 1)); [done|]. intros k ?. apply H. lia.
Qed.

(** Changing the predicate at one point of the range moves the count by one. *)
Lemma count_z_flip P Q i n j :
  i <= j < i + Z.of_nat n → P j = false → Q j = true →
  (∀ k, i <= k < i + Z.of_nat n → k ≠ j → P k = Q k) →
  count_z Q i n = count_z P i n + 1.
Proof.
  revert i. induction n as [|n IH]; intros i Hj HP HQ H; simpl; [lia|].
  destruct (decide (i = j)) as [->|Hne].
  - rewrite HP, HQ. rewrite (count_z_ext P Q (j + 1)); [lia|].
    intros k ?. apply H; lia.
  - rewrite (H i) by lia. rewrite (IH (i + 1)); [lia|lia|done|done|].
    intros k ? ?. apply H; lia.
Qed.

Lemma count_z_pos P i n :
  0 < count_z P i n ↔ ∃ j, i <= j < i + Z.of_nat n ∧ P j = true.
Proof.
  revert i. induction n as [|n IH]; intros i; simpl.
  { split; [lia|]. intros (j & ? & _). lia. }
  pose proof (count_z_bounds P (i + 1) n) as Hb.
  destruct (P i) eqn:Hi.
  - split; [|lia]. intros _. exists i. split; [lia|done].
  - rewrite Z.add_0_l, IH. split; intros (j & Hj & HP).
    + exists j. split; [lia|done].
    + exists j. split; [|done]. destruct (decide (i = j)); [congruence|]. lia.
Qed.

Lemma count_z_const_false P i n :
  (∀ k, i <= k < i + Z.of_nat n → P k = false) → count_z P i n = 0.
Proof.
  intros H. pose proof (count_z_bounds P i n).
  destruct (decide (0 < count_z P i n)) as [Hp|]; [|lia].
  apply count_z_pos in Hp as (j & Hj & HP). rewrite H in HP; done.
Qed.

(** Loop invariants for [for_z]. *)
Lemma for_z_ind {S} (Inv : Z → S → Prop) (f : Z → S → S) i n s :
  Inv i s →
  (∀ k t, i <= k < i + Z.of_nat n → Inv k t → Inv (k + 1) (f k t)) →
  Inv (i + Z.of_nat n) (for_z f i n s).
Proof.
  revert i s. induction n as [|n IH]; intros i s H0 Hs; simpl.
  { by rewrite Z.add_0_r. }
  replace (i + Z.of_nat (Datatypes.S n)) with (i + 1 + Z.of_nat n) by lia.
  apply IH; [apply Hs; [lia|done]|]. intros k t ?. apply Hs. lia.
Qed.

(** ** Lemmas: the state monad *)

Section monad.
Context {S A B : Type}.

Lemma bind_ok (m : M S A) (k : A → M S B) p a p' :
  m p = (Ok a, p') → bind m k p = k a p'.
Proof. intros H. unfold bind. by rewrite H. Qed.

Lemma bind_err (m : M S A) (k : A → M S B) p rc p' :
  m p = (Err rc, p') → bind m k p = (Err rc, p').
Proof. intros H. unfold bind. by rewrite H. Qed.

Lemma bind_assoc {C} (m : M S A) (k : A → M S B) (k' : B → M S C) p :
  bind (bind m k) k' p = bind m (λ a, bind (k a) k') p.
Proof. unfold bind. by destruct (m p) as [[]]. Qed.

Lemma bind_ext (m m' : M S A) (k k' : A → M S B) p :
  m p = m' p → (∀ a q, k a q = k' a q) → bind m k p = bind m' k' p.
Proof. intros Hm Hk. unfold bind. rewrite Hm. destruct (m' p) as [[]]; auto. Qed.

Lemma null_check_run (rc : Z) (s : S) : null_check rc (Some s) = (Ok tt, Some s).
Proof. done. Qed.

Lemma deref_run (s : S) : deref (Some s) = (Ok s, Some s).
Proof. done. Qed.

Lemma store_run (s s' : S) : store s' (Some s) = (Ok tt, Some s').
Proof. done. Qed.

Lemma fail_if_false (b : bool) rc (p : ptr S) :
  b = false → fail_if b rc p = (Ok tt, p).
Proof. by intros ->. Qed.

Lemma fail_if_true (b : bool) rc (p : ptr S) :
  b = true → fail_if b rc p = (Err rc, p).
Proof. by intros ->. Qed.

Lemma or_panic_ok (m : M S A) p a p' : m p = (Ok a, p') → or_panic m p = (Ok a, p').
Proof. intros H. unfold or_panic. by rewrite H. Qed.

End monad.

Lemma iterM_app {S A} (f : A → M S unit) l1 l2 p :
  iterM f (l1 ++ l2) p = bind (iterM f l1) (λ _, iterM f l2) p.
Proof.
  revert p. induction l1 as [|x l1 IH]; intros p; simpl; [done|].
  rewrite bind_assoc. apply bind_ext; [done|]. intros _ q. apply IH.
Qed.

Lemma iterM_ext_in {S A} (f g : A → M S unit) l p :
  (∀ x q, x ∈ l → f x q = g x q) → iterM f l p = iterM g l p.
Proof.
  revert p. induction l as [|x l IH]; intros p H; simpl; [done|].
  apply bind_ext; [apply H; by left|]. intros _ q. apply IH. intros y q' Hy. apply H. by right.
Qed.

Lemma iterM_ext {S A} (f g : A → M S unit) l p :
  (∀ x q, f x q = g x q) → iterM f l p = iterM g l p.
Proof. intros H. by apply iterM_ext_in. Qed.

Lemma iterM_fmap {S A B} (f : B → M S unit) (g : A → B) l p :
  iterM f (g <$> l) p = iterM (λ x, f (g x)) l p.
Proof.
  revert p. induction l as [|x l IH]; intros p; [done|].
  simpl. apply bind_ext; [done|]. intros _ q. apply IH.
Qed.

(** ** Lemmas: lists *)

Lemma existsb_ext_in {A} (f g : A → bool) l :
  (∀ x, x ∈ l → f x = g x) → existsb f l = existsb g l.
Proof.
  induction l as [|x l IH]; intros H; simpl; [done|].
  rewrite H by left. rewrite IH; [done|]. intros. apply H. by right.
Qed.

(** ** Lemmas: machine integers *)

Lemma wrap_fits w x : 0 <= w → fits w (wrap w x).
Proof. intros. apply Z.mod_pos_bound. lia. Qed.

Lemma wrap_small w x : fits w x → wrap w x = x.
Proof. apply Z.mod_small. Qed.

Lemma land_ones_mod x k : 0 <= k → Z.land x (2 ^ k - 1) = x mod 2 ^ k.
Proof. intros. rewrite <-Z.land_ones by done. by rewrite Z.ones_equiv, Z.sub_1_r. Qed.

Lemma testbit_small x w i : fits w x → w <= i → Z.testbit x i = false.
Proof.
  intros [H0 Hlt] ?. destruct (decide (x = 0)) as [->|]; [apply Z.testbit_0_l|].
  apply Z.bits_above_log2; [done|].
  apply Z.log2_lt_pow2 in Hlt; lia.
Qed.

Lemma wnot_testbit w x i :
  0 <= i < w → Z.testbit (wnot w x) i = negb (Z.testbit x i).
Proof.
  intros. unfold wnot, wrap. rewrite Z.mod_pow2_bits_low by lia.
  by rewrite Z.lnot_spec by lia.
Qed.

(** Clearing the low [k] bits rounds down to a multiple of [2 ^ k]. *)
Lemma land_wnot_mask w x k :
  0 <= k <= w → fits w x →
  Z.land x (wnot w (2 ^ k - 1)) = x - x mod 2 ^ k.
Proof.
  intros Hk Hx.
  replace (x - x mod 2 ^ k) with (Z.shiftl (Z.shiftr x k) k).
  2:{ rewrite Z.shiftl_mul_pow2, Z.shiftr_div_pow2 by lia.
      pose proof (Z.div_mod x (2 ^ k)). lia. }
  apply Z.bits_inj'. intros i Hi. rewrite Z.land_spec.
  rewrite Z.shiftl_spec by lia.
  replace (2 ^ k - 1) with (Z.ones k) by (rewrite Z.ones_equiv; lia).
  destruct (decide (i < w)).
  - rewrite wnot_testbit by lia. destruct (decide (i < k)).
    + rewrite Z.ones_spec_low by lia. simpl. rewrite andb_false_r.
      by rewrite Z.testbit_neg_r by lia.
    + rewrite Z.ones_spec_high by lia. simpl. rewrite andb_true_r.
      rewrite Z.shiftr_spec by lia. f_equal. lia.
  - rewrite (testbit_small x w i) by (done || lia). simpl.
    rewrite Z.shiftr_spec by lia. rewrite (testbit_small x w); [done..|lia].
Qed.

Lemma land_pow2 x k : 0 <= k → Z.land x (2 ^ k) = if Z.testbit x k then 2 ^ k else 0.
Proof.
  intros Hk. apply Z.bits_inj'. intros i Hi. rewrite Z.land_spec, Z.pow2_bits_eqb by done.
  destruct (Z.eqb_spec k i) as [<-|Hne].
  - rewrite andb_true_r. destruct (Z.testbit x k); [by rewrite Z.pow2_bits_true|by rewrite Z.bits_0].
  - rewrite andb_false_r. destruct (Z.testbit x k); [by rewrite Z.pow2_bits_false|by rewrite Z.bits_0].
Qed.

Lemma mod_sub_mod x m : 0 < m → (x - x mod m) mod m = 0.
Proof.
  intros. rewrite Zminus_mod_idemp_r, Z.sub_diag. apply Z.mod_0_l. lia.
Qed.

(** ** Lemmas: byte buffers *)

Section buffers.
Context {A : Type}.
Implicit Types l src : list A.

Lemma length_slice off n l : (off + n <= length l)%nat → length (slice off n l) = n.
Proof. intros. unfold slice. rewrite length_take, length_drop. lia. Qed.

Lemma length_splice off src l : length (splice off src l) = length l.
Proof. unfold splice. rewrite !length_app, !length_take, length_drop. lia. Qed.

Lemma splice_in off src l :
  (off + length src <= length l)%nat →
  splice off src l = take off l ++ src ++ drop (off + length src) l.
Proof. intros. unfold splice. by rewrite (take_ge src) by lia. Qed.

Lemma lookup_slice off n l i :
  (i < n)%nat → slice off n l !! i = l !! (off + i)%nat.
Proof. intros. unfold slice. rewrite lookup_take_lt by done. apply lookup_drop. Qed.

Lemma lookup_splice_in off src l i :
  (off + length src <= length l)%nat → (i < length src)%nat →
  splice off src l !! (off + i)%nat = src !! i.
Proof.
  intros. rewrite splice_in by done.
  rewrite lookup_app_r by (rewrite length_take; lia).
  rewrite length_take, lookup_app_l by lia. f_equal. lia.
Qed.

Lemma lookup_splice_out off src l i :
  (i < off ∨ off + length src <= i)%nat → splice off src l !! i = l !! i.
Proof.
  intros Hi. unfold splice. destruct (decide (i < length l)%nat) as [Hl|].
  2:{ rewrite !lookup_ge_None_2; [done|lia|].
      rewrite !length_app, !length_take, length_drop. lia. }
  destruct (decide (i < off)%nat).
  - rewrite lookup_app_l by (rewrite length_take; lia). by apply lookup_take_lt.
  - rewrite lookup_app_r by (rewrite length_take; lia).
    rewrite length_take, lookup_app_r by (rewrite length_take; lia).
    rewrite length_take, lookup_drop. f_equal. lia.
Qed.

Lemma slice_splice_eq off src l n :
  n = length src → (off + length src <= length l)%nat → slice off n (splice off src l) = src.
Proof.
  intros -> ?. rewrite splice_in by done. unfold slice.
  rewrite drop_app_ge by (rewrite length_take; lia).
  rewrite length_take. replace (off - off `min` length l)%nat with 0%nat by lia.
  rewrite drop_0. rewrite take_app_le by lia. apply take_ge. lia.
Qed.

Lemma slice_splice_ne off src l off' n :
  (off' + n <= off ∨ off + length src <= off')%nat →
  slice off' n (splice off src l) = slice off' n l.
Proof.
  intros Hd. apply list_eq. intros i. destruct (decide (i < n)%nat).
  - rewrite !lookup_slice by done. apply lookup_splice_out; lia.
  - rewrite !lookup_ge_None_2; [done|..]; unfold slice; rewrite length_take; lia.
Qed.

(** A second write of the same run replaces the first. *)
Lemma splice_splice_eq off src src' l :
  length src = length src' → splice off src (splice off src' l) = splice off src l.
Proof.
  intros Hs. apply list_eq. intros i.
  destruct (decide (i < length l)%nat) as [Hl|];
    [|by rewrite !lookup_ge_None_2 by (rewrite ?length_splice; lia)].
  destruct (decide (off <= i < off + length src)%nat) as [Hi|].
  - unfold splice at 1 3.
    rewrite !(lookup_app_r (take off _)), !length_take, !length_splice
      by (rewrite ?length_take, ?length_splice; lia).
    rewrite !lookup_app_l by (rewrite !length_take; lia). done.
  - rewrite !lookup_splice_out; [done|lia..].
Qed.

Lemma slice_0_full l n : length l = n → slice 0 n l = l.
Proof. intros <-. unfold slice. rewrite drop_0. by apply take_ge. Qed.

End buffers.

Lemma length_le_bytes n v : length (le_bytes n v) = n.
Proof. revert v. induction n; intros v; simpl; auto. Qed.

Lemma le_bytes_ok n v : bytes_ok (le_bytes n v).
Proof.
  revert v. induction n as [|n IH]; intros v; simpl; constructor.
  - apply Z.mod_pos_bound. lia.
  - apply IH.
Qed.

Lemma le_load_bytes n v : le_load (le_bytes n v) = v mod 2 ^ (8 * Z.of_nat n).
Proof.
  revert v. induction n as [|n IH]; intros v; simpl le_load.
  { by rewrite Z.mod_1_r. }
  rewrite IH. replace (8 * Z.of_nat (S n)) with (8 + 8 * Z.of_nat n) by lia.
  rewrite Z.pow_add_r by lia. change (2 ^ 8) with 256.
  by rewrite Z.rem_mul_r by lia.
Qed.

Lemma le_load_fits l : bytes_ok l → fits (8 * Z.of_nat (length l)) (le_load l).
Proof.
  unfold fits. induction 1 as [|b l Hb Hl IH]; [done|]. unfold byte_ok in Hb. cbn [le_load length].
  replace (8 * Z.of_nat (S (length l))) with (8 + 8 * Z.of_nat (length l)) by lia. rewrite Z.pow_add_r by lia.
  change (2 ^ 8) with 256. lia.
Qed.

Lemma ld_fits n off l : bytes_ok l → fits (8 * Z.of_nat n) (ld n off l).
Proof.
  intros H. unfold ld, slice. assert (bytes_ok (take n (drop off l))) as Hb by (by apply Forall_take, Forall_drop).
  pose proof (le_load_fits _ Hb) as [H1 H2]. split; [done|]. eapply Z.lt_le_trans; [exact H2|].
  apply Z.pow_le_mono_r; [lia|]. rewrite length_take. lia.
Qed.

Lemma length_st n off v l : length (st n off v l) = length l.
Proof. apply length_splice. Qed.

Lemma ld_st_eq n off v l :
  (off + n <= length l)%nat → fits (8 * Z.of_nat n) v → ld n off (st n off v l) = v.
Proof.
  intros Hl Hv. unfold ld, st. rewrite slice_splice_eq; rewrite ?length_le_bytes; try done.
  rewrite le_load_bytes. by apply wrap_small.
Qed.

Lemma ld_st_ne n off v l n' off' :
  (off' + n' <= off ∨ off + n <= off')%nat → ld n' off' (st n off v l) = ld n' off' l.
Proof. intros. unfold ld, st. by rewrite slice_splice_ne by (by rewrite length_le_bytes). Qed.

Lemma st_st_eq n off v v' l : st n off v (st n off v' l) = st n off v l.
Proof. apply splice_splice_eq. by rewrite !length_le_bytes. Qed.

Lemma slice_st_ne n off v l off' n' :
  (off' + n' <= off ∨ off + n <= off')%nat → slice off' n' (st n off v l) = slice off' n' l.
Proof. intros. apply slice_splice_ne. by rewrite length_le_bytes. Qed.

Lemma ld_replicate n off m : ld n off (replicate m 0) = 0.
Proof.
  unfold ld, slice. rewrite drop_replicate, take_replicate.
  generalize (n `min` (m - off))%nat as k. induction k; simpl; lia.
Qed.

Lemma bytes_ok_splice off src l :
  bytes_ok src → bytes_ok l → bytes_ok (splice off src l).
Proof.
  intros Hs Hl. unfold splice, bytes_ok.
  apply Forall_app_2; [by apply Forall_take|].
  apply Forall_app_2; [by apply Forall_take|by apply Forall_drop].
Qed.

Lemma bytes_ok_st n off v l : bytes_ok l → bytes_ok (st n off v l).
Proof. apply bytes_ok_splice, le_bytes_ok. Qed.

(** Loads from buffers built by stores, at concrete offsets. *)
Create HintDb bytes.
#[export] Hint Rewrite length_st @length_splice @length_replicate : bytes.

Ltac solve_bytes :=
  autorewrite with bytes; solve [done | lia | (unfold fits; cbn; lia)].

Ltac ldst :=
  repeat first [rewrite ld_st_eq by solve_bytes | rewrite ld_st_ne by solve_bytes].
