(* ===== verification/Bitmap.v ===== *)
(** * Byte bitmaps

    The frame allocator (src/pmm.c), MCSFS1 (fs/mcsfs1/mcsfs1.c) and MCSFS1J
    (kernel/fs/mcsfs1j/m16_mcsfs_journal.c) each keep a bitmap in an array of
    bytes and reimplement set, clear and test on it.  This file gives the three
    byte-level operations, written as those C functions write them, their
    meaning as updates of one bit, and the lemmas the clients share. *)

From Stdlib Require Import ZArith Lia.
From stdpp Require Import base list numbers option.
From S2P Require Import Prelude.

Local Open Scope Z_scope.

(** The byte that holds bit [i]; C reads [b[i / 8]] (or [b[i >> 3]]). *)
Definition bm_byte (bm : list Z) (i : Z) : Z := nth (Z.to_nat (i / 8)) bm 0.

(** [(uint8_t)(1u << (i % 8u))] *)
Definition bm_mask (i : Z) : Z := u8 (Z.shiftl 1 (i mod 8)).

(** [b[i / 8] = (uint8_t)(b[i / 8] | mask)] *)
Definition bm_set (bm : list Z) (i : Z) : list Z :=
  <[Z.to_nat (i / 8) := u8 (Z.lor (bm_byte bm i) (bm_mask i))]> bm.

(** [b[i / 8] = (uint8_t)(b[i / 8] & (uint8_t)~mask)] *)
Definition bm_clear (bm : list Z) (i : Z) : list Z :=
  <[Z.to_nat (i / 8) := u8 (Z.land (bm_byte bm i) (wnot 8 (bm_mask i)))]> bm.

(** [(b[i / 8] & mask) != 0] *)
Definition bm_test (bm : list Z) (i : Z) : bool :=
  negb (Z.land (bm_byte bm i) (bm_mask i) =? 0).

(** Bit [i] lies inside the array. *)
Definition bm_in (bm : list Z) (i : Z) : Prop := 0 <= i < 8 * Z.of_nat (length bm).

(** ** Single-bit facts *)

Lemma bm_mask_pow i : bm_mask i = 2 ^ (i mod 8).
Proof.
  unfold bm_mask. rewrite Z.shiftl_1_l. apply wrap_small.
  pose proof (Z.mod_pos_bound i 8 ltac:(lia)). split; [lia|].
  apply Z.pow_lt_mono_r; lia.
Qed.

Lemma bm_test_testbit bm i : bm_test bm i = Z.testbit (bm_byte bm i) (i mod 8).
Proof.
  unfold bm_test. rewrite bm_mask_pow.
  pose proof (Z.mod_pos_bound i 8 ltac:(lia)) as Hk.
  set (b := bm_byte bm i). set (k := i mod 8) in *.
  destruct (Z.testbit b k) eqn:Hb.
  - apply negb_true_iff, Z.eqb_neq. intros H0.
    assert (Z.testbit (Z.land b (2 ^ k)) k = true) as Ht.
    { rewrite Z.land_spec, Hb, Z.pow2_bits_true by lia. done. }
    rewrite H0, Z.testbit_0_l in Ht. done.
  - apply negb_false_iff, Z.eqb_eq, Z.bits_inj'. intros j Hj.
    rewrite Z.land_spec, Z.testbit_0_l, Z.pow2_bits_eqb by lia.
    destruct (Z.eqb_spec k j) as [<-|]; [by rewrite Hb|]. apply andb_false_r.
Qed.

Lemma bm_byte_ok bm i : bytes_ok bm → byte_ok (bm_byte bm i).
Proof.
  intros H. unfold bm_byte. destruct (decide (Z.to_nat (i / 8) < length bm)%nat).
  - by apply (List.Forall_nth byte_ok bm).
  - rewrite List.nth_overflow by lia. unfold byte_ok. lia.
Qed.

Lemma byte_fits b : byte_ok b → fits 8 b.
Proof. done. Qed.

Lemma bm_set_bit b i j :
  byte_ok b → 0 <= j < 8 →
  Z.testbit (u8 (Z.lor b (bm_mask i))) j = (Z.testbit b j || (j =? i mod 8))%bool.
Proof.
  intros Hb Hj. unfold wrap. rewrite Z.mod_pow2_bits_low by lia.
  rewrite Z.lor_spec, bm_mask_pow.
  rewrite Z.pow2_bits_eqb by (apply Z.mod_pos_bound; lia).
  f_equal. apply Z.eqb_sym.
Qed.

Lemma bm_clear_bit b i j :
  byte_ok b → 0 <= j < 8 →
  Z.testbit (u8 (Z.land b (wnot 8 (bm_mask i)))) j =
  (Z.testbit b j && negb (j =? i mod 8))%bool.
Proof.
  intros Hb Hj. unfold wrap at 1. rewrite Z.mod_pow2_bits_low by lia.
  rewrite Z.land_spec, wnot_testbit by lia. rewrite bm_mask_pow.
  rewrite Z.pow2_bits_eqb by (apply Z.mod_pos_bound; lia).
  by rewrite (Z.eqb_sym j).
Qed.

(** ** Whole-bitmap facts *)

Lemma bm_in_index bm i : bm_in bm i → (Z.to_nat (i / 8) < length bm)%nat.
Proof.
  intros [? Hi]. assert (i / 8 < Z.of_nat (length bm)).
  { apply Z.div_lt_upper_bound; lia. }
  pose proof (Z.div_pos i 8). lia.
Qed.

Lemma length_bm_set bm i : length (bm_set bm i) = length bm.
Proof. apply length_insert. Qed.

Lemma length_bm_clear bm i : length (bm_clear bm i) = length bm.
Proof. apply length_insert. Qed.

Lemma bytes_ok_insert bm n b : bytes_ok bm → byte_ok b → bytes_ok (<[n := b]> bm).
Proof. intros. by apply Forall_insert. Qed.

Lemma bytes_ok_bm_set bm i : bytes_ok bm → bytes_ok (bm_set bm i).
Proof. intros. apply bytes_ok_insert; [done|]. by apply (wrap_fits 8). Qed.

Lemma bytes_ok_bm_clear bm i : bytes_ok bm → bytes_ok (bm_clear bm i).
Proof. intros. apply bytes_ok_insert; [done|]. by apply (wrap_fits 8). Qed.

Lemma bm_byte_insert bm i j b :
  bm_in bm i → 0 <= j →
  bm_byte (<[Z.to_nat (i / 8) := b]> bm) j =
  if i / 8 =? j / 8 then b else bm_byte bm j.
Proof.
  intros Hi Hj. unfold bm_byte. rewrite !nth_lookup.
  pose proof (bm_in_index _ _ Hi). destruct Hi as [Hi _].
  destruct (Z.eqb_spec (i / 8) (j / 8)) as [<-|Hne].
  - by rewrite list_lookup_insert_eq by lia.
  - rewrite list_lookup_insert_ne; [done|].
    pose proof (Z.div_pos i 8). pose proof (Z.div_pos j 8). lia.
Qed.

Lemma eqb_div_mod i j :
  ((i / 8 =? j / 8) && (j mod 8 =? i mod 8))%bool = (j =? i).
Proof.
  pose proof (Z.div_mod i 8). pose proof (Z.div_mod j 8).
  destruct (Z.eqb_spec (i / 8) (j / 8)), (Z.eqb_spec (j mod 8) (i mod 8)),
    (Z.eqb_spec j i); simpl; try done; subst; try lia.
Qed.

Lemma bm_test_set bm i j :
  bytes_ok bm → bm_in bm i → 0 <= j →
  bm_test (bm_set bm i) j = (bm_test bm j || (j =? i))%bool.
Proof.
  intros Hok Hi Hj. rewrite !bm_test_testbit. unfold bm_set.
  rewrite bm_byte_insert by done.
  rewrite <-(eqb_div_mod i j).
  destruct (Z.eqb_spec (i / 8) (j / 8)) as [He|]; [|simpl; by rewrite orb_false_r].
  rewrite bm_set_bit by (try apply bm_byte_ok; try apply Z.mod_pos_bound; done || lia).
  simpl. f_equal. unfold bm_byte. by rewrite He.
Qed.

Lemma bm_test_clear bm i j :
  bytes_ok bm → bm_in bm i → 0 <= j →
  bm_test (bm_clear bm i) j = (bm_test bm j && negb (j =? i))%bool.
Proof.
  intros Hok Hi Hj. rewrite !bm_test_testbit. unfold bm_clear.
  rewrite bm_byte_insert by done.
  rewrite <-(eqb_div_mod i j).
  destruct (Z.eqb_spec (i / 8) (j / 8)) as [He|]; [|simpl; by rewrite andb_true_r].
  rewrite bm_clear_bit by (try apply bm_byte_ok; try apply Z.mod_pos_bound; done || lia).
  simpl. f_equal. unfold bm_byte. by rewrite He.
Qed.

Lemma bm_in_set bm i j : bm_in (bm_set bm i) j ↔ bm_in bm j.
Proof. unfold bm_in. by rewrite length_bm_set. Qed.

Lemma bm_in_clear bm i j : bm_in (bm_clear bm i) j ↔ bm_in bm j.
Proof. unfold bm_in. by rewrite length_bm_clear. Qed.
