(* ===== verification/Pmm.v ===== *)
(** * Physical memory manager (src/pmm.c, include/pmm.h)

    A bitmap with one bit per 4 KiB frame (1 = in use) and counters.  The file
    models every function of src/pmm.c on the [pmm_state] record, gives the
    representation invariant [pmm_inv], and shows that the allocator implements
    the abstract specification "a set of free frames, of which allocation takes
    the lowest". *)

From Stdlib Require Import ZArith Lia.
From stdpp Require Import base list numbers option gmap.
From S2P Require Import Prelude Bitmap.

Local Open Scope Z_scope.

(** ** Data *)

Definition PMM_PAGE_SIZE : Z := 4096.
Definition PMM_INVALID_FRAME : Z := 0xffffffffffffffff.
Definition BOOT_MEM_USABLE : Z := 1.
Definition BOOT_MEM_RESERVED : Z := 2.
Definition BOOT_MEM_KERNEL_AND_MODULES : Z := 4.

Record boot_mem_region := mk_region {
  mr_base : Z;
  mr_length : Z;
  mr_type : Z
}.

(** [p_bitmap] is the array behind the [bitmap] pointer ([[]] for NULL). *)
Record pmm_state := mk_pmm {
  p_bitmap : list Z;
  p_bitmap_bytes : Z;
  p_max_phys : Z;
  p_frame_count : Z;
  p_free_frames : Z;
  p_used_frames : Z;
  p_reserved_frames : Z;
  p_ignored_frames : Z;
  p_next_hint : Z;
  p_initialized : bool
}.

(** ** Helpers *)

Definition align_down (value align : Z) : Z :=
  Z.land value (wnot 64 (u64 (align - 1))).

Definition align_up (value align : Z) : Z :=
  Z.land (u64 (u64 (value + align) - 1)) (wnot 64 (u64 (align - 1))).

Definition checked_add_u64 (a b : Z) : option Z :=
  if u64 (UINT64_MAX - a) <? b then None else Some (u64 (a + b)).

Definition bitmap_set (bitmap : list Z) (index : Z) : list Z :=
  <[Z.to_nat (Z.shiftr index 3) :=
      u8 (Z.lor (nth (Z.to_nat (Z.shiftr index 3)) bitmap 0)
                (u8 (Z.shiftl 1 (Z.land index 7))))]> bitmap.

Definition bitmap_clear (bitmap : list Z) (index : Z) : list Z :=
  <[Z.to_nat (Z.shiftr index 3) :=
      u8 (Z.land (nth (Z.to_nat (Z.shiftr index 3)) bitmap 0)
                 (wnot 8 (u8 (Z.shiftl 1 (Z.land index 7)))))]> bitmap.

Definition bitmap_test (bitmap : list Z) (index : Z) : bool :=
  negb (Z.land (nth (Z.to_nat (Z.shiftr index 3)) bitmap 0)
               (u8 (Z.shiftl 1 (Z.land index 7))) =? 0).

Definition mark_frame_free (pmm : pmm_state) (frame : Z) : pmm_state :=
  if p_frame_count pmm <=? frame then pmm
  else if bitmap_test (p_bitmap pmm) frame then
    mk_pmm (bitmap_clear (p_bitmap pmm) frame)
      (p_bitmap_bytes pmm) (p_max_phys pmm) (p_frame_count pmm)
      (u64 (p_free_frames pmm + 1))
      (if 0 <? p_used_frames pmm then u64 (p_used_frames pmm - 1) else p_used_frames pmm)
      (p_reserved_frames pmm) (p_ignored_frames pmm)
      (if frame <? p_next_hint pmm then frame else p_next_hint pmm)
      (p_initialized pmm)
  else pmm.

Definition mark_frame_used (pmm : pmm_state) (frame : Z) : pmm_state :=
  if p_frame_count pmm <=? frame then pmm
  else if negb (bitmap_test (p_bitmap pmm) frame) then
    mk_pmm (bitmap_set (p_bitmap pmm) frame)
      (p_bitmap_bytes pmm) (p_max_phys pmm) (p_frame_count pmm)
      (if 0 <? p_free_frames pmm then u64 (p_free_frames pmm - 1) else p_free_frames pmm)
      (u64 (p_used_frames pmm + 1))
      (p_reserved_frames pmm) (p_ignored_frames pmm) (p_next_hint pmm)
      (p_initialized pmm)
  else pmm.

(** [for (addr = start; addr < stop; addr += PMM_PAGE_SIZE) body(addr / PMM_PAGE_SIZE)];
    [fuel] bounds the iterations, see [page_fuel]. *)
Fixpoint page_loop (fuel : nat) (body : pmm_state → Z → pmm_state)
    (addr stop : Z) (pmm : pmm_state) : pmm_state :=
  match fuel with
  | O => pmm
  | S fuel' =>
      if addr <? stop then
        page_loop fuel' body (u64 (addr + PMM_PAGE_SIZE)) stop
          (body pmm (addr / PMM_PAGE_SIZE))
      else pmm
  end.

Definition page_fuel (stop : Z) : nat := Z.to_nat (stop / PMM_PAGE_SIZE + 2).

Definition add_ignored (pmm : pmm_state) (n : Z) : pmm_state :=
  mk_pmm (p_bitmap pmm) (p_bitmap_bytes pmm) (p_max_phys pmm) (p_frame_count pmm)
    (p_free_frames pmm) (p_used_frames pmm) (p_reserved_frames pmm)
    (u64 (p_ignored_frames pmm + n)) (p_next_hint pmm) (p_initialized pmm).

Definition incr_reserved (pmm : pmm_state) : pmm_state :=
  mk_pmm (p_bitmap pmm) (p_bitmap_bytes pmm) (p_max_phys pmm) (p_frame_count pmm)
    (p_free_frames pmm) (p_used_frames pmm) (u64 (p_reserved_frames pmm + 1))
    (p_ignored_frames pmm) (p_next_hint pmm) (p_initialized pmm).

Definition set_hint (pmm : pmm_state) (hint : Z) : pmm_state :=
  mk_pmm (p_bitmap pmm) (p_bitmap_bytes pmm) (p_max_phys pmm) (p_frame_count pmm)
    (p_free_frames pmm) (p_used_frames pmm) (p_reserved_frames pmm)
    (p_ignored_frames pmm) hint (p_initialized pmm).

Definition mark_range_free (pmm : pmm_state) (base length : Z) : pmm_state :=
  if length =? 0 then pmm else
  match checked_add_u64 base length with
  | None => pmm
  | Some e =>
      let start := align_up base PMM_PAGE_SIZE in
      let stop := align_down e PMM_PAGE_SIZE in
      if stop <=? start then pmm
      else if p_max_phys pmm <=? start then pmm
      else if p_max_phys pmm <? stop then
        let stop' := p_max_phys pmm in
        let pmm' := add_ignored pmm
          (u64 (align_down e PMM_PAGE_SIZE - stop') / PMM_PAGE_SIZE) in
        page_loop (page_fuel stop') mark_frame_free start stop' pmm'
      else page_loop (page_fuel stop) mark_frame_free start stop pmm
  end.

(** The loop body of [mark_range_used]. *)
Definition reserve_frame (pmm : pmm_state) (frame : Z) : pmm_state :=
  let was_free := negb (bitmap_test (p_bitmap pmm) frame) in
  let pmm' := mark_frame_used pmm frame in
  if was_free then incr_reserved pmm' else pmm'.

Definition mark_range_used (pmm : pmm_state) (base length : Z) : pmm_state :=
  if length =? 0 then pmm else
  match checked_add_u64 base length with
  | None => pmm
  | Some e =>
      let start := align_down base PMM_PAGE_SIZE in
      let stop := align_up e PMM_PAGE_SIZE in
      if stop <=? start then pmm
      else if p_max_phys pmm <=? start then pmm
      else
        let stop' := if p_max_phys pmm <? stop then p_max_phys pmm else stop in
        page_loop (page_fuel stop') reserve_frame start stop' pmm
  end.

(** ** Interface functions *)

Definition pmm_zero_state (pmm : ptr pmm_state) : ptr pmm_state :=
  match pmm with
  | None => None
  | Some _ => Some (mk_pmm [] 0 0 0 0 0 0 0 0 false)
  end.

Definition free_usable (pmm : pmm_state) (r : boot_mem_region) : pmm_state :=
  if mr_type r =? BOOT_MEM_USABLE then mark_range_free pmm (mr_base r) (mr_length r) else pmm.

Definition reserve_unusable (pmm : pmm_state) (r : boot_mem_region) : pmm_state :=
  if mr_type r =? BOOT_MEM_USABLE then pmm else mark_range_used pmm (mr_base r) (mr_length r).

(** The record [pmm_init_from_map] has filled in before it walks the map: the
    first [required] bytes of the storage are 0xff. *)
Definition pmm_all_used (storage : list Z) (required frame_count max_phys : Z) : pmm_state :=
  mk_pmm (replicate (Z.to_nat required) 0xff ++ drop (Z.to_nat required) storage)
    required max_phys frame_count 0 frame_count 0 0 0 false.

Definition set_initialized (pmm : pmm_state) : pmm_state :=
  mk_pmm (p_bitmap pmm) (p_bitmap_bytes pmm) (p_max_phys pmm) (p_frame_count pmm)
    (p_free_frames pmm) (p_used_frames pmm) (p_reserved_frames pmm)
    (p_ignored_frames pmm) (p_next_hint pmm) true.

(** [regions] with [region_count] is the list of the array's entries. *)
Definition pmm_init_from_map (pmm : ptr pmm_state) (regions : ptr (list boot_mem_region))
    (bitmap_storage : ptr (list Z)) (bitmap_storage_bytes max_phys_bytes : Z)
    : bool * ptr pmm_state :=
  match pmm, regions, bitmap_storage with
  | Some p, Some rs, Some storage =>
      if (Z.of_nat (length rs) =? 0) then (false, pmm)
      else if (max_phys_bytes =? 0)
        || negb (Z.land max_phys_bytes (PMM_PAGE_SIZE - 1) =? 0) then (false, pmm)
      else
        let frame_count := max_phys_bytes / PMM_PAGE_SIZE in
        let required_bitmap_bytes := u64 (frame_count + 7) / 8 in
        if bitmap_storage_bytes <? required_bitmap_bytes then (false, pmm)
        else
          let p0 := pmm_all_used storage required_bitmap_bytes frame_count max_phys_bytes in
          let p1 := foldl free_usable p0 rs in
          let p2 := mark_range_used p1 0 PMM_PAGE_SIZE in
          let p3 := foldl reserve_unusable p2 rs in
          (true, Some (set_initialized p3))
  | _, _, _ => (false, pmm)
  end.

(** [for (frame = from; frame < to; frame++) if (!bitmap_test(...)) ...] *)
Definition scan_free (pmm : pmm_state) (from to : Z) : option Z :=
  find_z (λ frame, negb (bitmap_test (p_bitmap pmm) frame)) from (Z.to_nat (to - from)).

Definition take_frame (pmm : pmm_state) (frame : Z) : Z * pmm_state :=
  (u64 (frame * PMM_PAGE_SIZE), set_hint (mark_frame_used pmm frame) (u64 (frame + 1))).

Definition pmm_alloc_frame (pmm : ptr pmm_state) : Z * ptr pmm_state :=
  match pmm with
  | None => (PMM_INVALID_FRAME, None)
  | Some p =>
      if negb (p_initialized p) || (p_free_frames p =? 0) then (PMM_INVALID_FRAME, Some p)
      else
        match scan_free p (p_next_hint p) (p_frame_count p) with
        | Some frame => let '(a, p') := take_frame p frame in (a, Some p')
        | None =>
            match scan_free p 0 (p_next_hint p) with
            | Some frame => let '(a, p') := take_frame p frame in (a, Some p')
            | None => (PMM_INVALID_FRAME, Some p)
            end
        end
  end.

Definition pmm_free_frame (pmm : ptr pmm_state) (phys_addr : Z) : bool * ptr pmm_state :=
  match pmm with
  | None => (false, None)
  | Some p =>
      if negb (p_initialized p) then (false, Some p)
      else if negb (Z.land phys_addr (PMM_PAGE_SIZE - 1) =? 0)
        || (phys_addr =? 0) || (p_max_phys p <=? phys_addr) then (false, Some p)
      else
        let frame := phys_addr / PMM_PAGE_SIZE in
        if negb (bitmap_test (p_bitmap p) frame) then (false, Some p)
        else (true, Some (mark_frame_free p frame))
  end.

Definition pmm_reserve_range (pmm : ptr pmm_state) (base length : Z) : bool * ptr pmm_state :=
  match pmm with
  | None => (false, None)
  | Some p =>
      if negb (p_initialized p) || (length =? 0) then (false, Some p)
      else (true, Some (mark_range_used p base length))
  end.

Definition pmm_is_frame_free (pmm : ptr pmm_state) (phys_addr : Z) : bool :=
  match pmm with
  | None => false
  | Some p =>
      if negb (p_initialized p) then false
      else if negb (Z.land phys_addr (PMM_PAGE_SIZE - 1) =? 0)
        || (p_max_phys p <=? phys_addr) then false
      else negb (bitmap_test (p_bitmap p) (phys_addr / PMM_PAGE_SIZE))
  end.

Definition pmm_free_count (pmm : ptr pmm_state) : Z :=
  match pmm with Some p => p_free_frames p | None => 0 end.
Definition pmm_used_count (pmm : ptr pmm_state) : Z :=
  match pmm with Some p => p_used_frames p | None => 0 end.
Definition pmm_frame_count (pmm : ptr pmm_state) : Z :=
  match pmm with Some p => p_frame_count p | None => 0 end.

(** ** Invariant and abstraction *)

(** Frame [k] is free: its bit is clear. *)
Definition is_free (p : pmm_state) (k : Z) : bool := negb (bitmap_test (p_bitmap p) k).

Record pmm_inv (p : pmm_state) : Prop := {
  inv_max : 0 < p_max_phys p < 2 ^ 64 ∧ p_max_phys p mod PMM_PAGE_SIZE = 0;
  inv_count : p_frame_count p = p_max_phys p / PMM_PAGE_SIZE;
  inv_bytes : p_bitmap_bytes p = (p_frame_count p + 7) / 8;
  inv_len : p_bitmap_bytes p <= Z.of_nat (length (p_bitmap p));
  inv_ok : bytes_ok (p_bitmap p);
  inv_free : p_free_frames p = count_z (is_free p) 0 (Z.to_nat (p_frame_count p));
  inv_used : p_used_frames p = p_frame_count p - p_free_frames p;
  inv_hint : 0 <= p_next_hint p <= p_frame_count p;
  inv_below_hint : ∀ k, 0 <= k < p_next_hint p → is_free p k = false
}.

(** ** Arithmetic and bitmap lemmas *)

Lemma shiftr3 i : Z.shiftr i 3 = i / 8.
Proof. by rewrite Z.shiftr_div_pow2 by lia. Qed.

Lemma land7 i : Z.land i 7 = i mod 8.
Proof. apply (land_ones_mod i 3). lia. Qed.

Lemma bitmap_set_bm bm i : bitmap_set bm i = bm_set bm i.
Proof. unfold bitmap_set. by rewrite shiftr3, land7. Qed.

Lemma bitmap_clear_bm bm i : bitmap_clear bm i = bm_clear bm i.
Proof. unfold bitmap_clear. by rewrite shiftr3, land7. Qed.

Lemma bitmap_test_bm bm i : bitmap_test bm i = bm_test bm i.
Proof. unfold bitmap_test. by rewrite shiftr3, land7. Qed.

Lemma land_page_mask a : Z.land a (PMM_PAGE_SIZE - 1) = a mod PMM_PAGE_SIZE.
Proof. apply (land_ones_mod a 12). lia. Qed.

Lemma align_down_spec v :
  fits 64 v → align_down v PMM_PAGE_SIZE = v - v mod PMM_PAGE_SIZE.
Proof.
  intros. unfold align_down. rewrite (wrap_small 64 (PMM_PAGE_SIZE - 1)).
  - by apply (land_wnot_mask 64 v 12).
  - unfold fits, PMM_PAGE_SIZE. lia.
Qed.

(** Rounding up wraps to 0 for the last, partial page of the address space. *)
Lemma align_up_spec v :
  fits 64 v →
  align_up v PMM_PAGE_SIZE =
  if v <=? 2 ^ 64 - PMM_PAGE_SIZE
  then (v + PMM_PAGE_SIZE - 1) / PMM_PAGE_SIZE * PMM_PAGE_SIZE else 0.
Proof.
  intros [H0 H1]. unfold align_up.
  assert (u64 (u64 (v + PMM_PAGE_SIZE) - 1) = u64 (v + PMM_PAGE_SIZE - 1)) as ->.
  { unfold wrap. by rewrite Zminus_mod_idemp_l. }
  rewrite (wrap_small 64 (PMM_PAGE_SIZE - 1)) by (unfold fits, PMM_PAGE_SIZE; lia).
  rewrite (land_wnot_mask 64 _ 12) by (try apply wrap_fits; lia).
  change (2 ^ 12) with PMM_PAGE_SIZE. unfold wrap.
  destruct (Z.leb_spec v (2 ^ 64 - PMM_PAGE_SIZE)); unfold PMM_PAGE_SIZE in *.
  - rewrite (Z.mod_small _ (2 ^ 64)) by lia.
    pose proof (Z.div_mod (v + 4096 - 1) 4096). lia.
  - replace ((v + 4096 - 1) mod 2 ^ 64) with (v + 4096 - 1 - 2 ^ 64).
    + rewrite Z.mod_small by lia. lia.
    + symmetry. rewrite <-(Z.mod_add _ (-1)) by lia. apply Z.mod_small. lia.
Qed.

Lemma checked_add_spec a b :
  fits 64 a → fits 64 b →
  checked_add_u64 a b = if a + b <? 2 ^ 64 then Some (a + b) else None.
Proof.
  intros [] []. unfold checked_add_u64, UINT64_MAX.
  rewrite (wrap_small 64 (2 ^ 64 - 1 - a)) by (unfold fits; lia).
  destruct (Z.ltb_spec (2 ^ 64 - 1 - a) b), (Z.ltb_spec (a + b) (2 ^ 64)); try lia; [done|].
  by rewrite wrap_small by (unfold fits; lia).
Qed.

(** The page loop visits the frames from [start / 4096] up to [stop / 4096]. *)
Lemma page_loop_for_z fuel body start stop p :
  start mod PMM_PAGE_SIZE = 0 → stop mod PMM_PAGE_SIZE = 0 →
  0 <= start → stop < 2 ^ 64 →
  (Z.to_nat ((stop - start) / PMM_PAGE_SIZE) < fuel)%nat →
  page_loop fuel body start stop p =
  for_z (λ f q, body q f) (start / PMM_PAGE_SIZE)
    (Z.to_nat ((stop - start) / PMM_PAGE_SIZE)) p.
Proof.
  revert start p. induction fuel as [|fuel IH]; intros start p Hs He H0 H1 Hf; [lia|].
  unfold PMM_PAGE_SIZE in *. simpl. destruct (Z.ltb_spec start stop) as [Hlt|].
  - assert ((stop - start) / 4096 = (stop - (start + 4096)) / 4096 + 1) as Heq.
    { replace (stop - start) with (stop - (start + 4096) + 1 * 4096) by lia.
      by rewrite Z.div_add by lia. }
    pose proof (Z.div_mod start 4096). pose proof (Z.div_mod stop 4096).
    assert (start + 4096 <= stop) by lia.
    assert (0 <= (stop - (start + 4096)) / 4096) by (apply Z.div_pos; lia).
    unfold PMM_PAGE_SIZE in *.
    rewrite (wrap_small 64) by (unfold fits; lia).
    rewrite IH; unfold PMM_PAGE_SIZE in *.
    + rewrite Heq. rewrite Z2Nat.inj_add, Nat.add_1_r by lia. simpl.
      replace ((start + 4096) / 4096) with (start / 4096 + 1); [done|].
      replace (start + 4096) with (start + 1 * 4096) by lia. by rewrite Z.div_add by lia.
    + replace (start + 4096) with (start + 1 * 4096) by lia. by rewrite Z.mod_add by lia.
    + done.
    + lia.
    + done.
    + rewrite Heq in Hf. lia.
  - replace (Z.to_nat ((stop - start) / 4096)) with 0%nat; [done|].
    assert ((stop - start) / 4096 <= 0) by (apply Z.div_le_upper_bound; lia). lia.
Qed.

(** ** Effect of the frame operations *)

(** The parts of the record no operation after initialisation changes. *)
Definition same_shape (p q : pmm_state) : Prop :=
  p_max_phys q = p_max_phys p ∧ p_frame_count q = p_frame_count p ∧
  p_bitmap_bytes q = p_bitmap_bytes p ∧ length (p_bitmap q) = length (p_bitmap p) ∧
  p_initialized q = p_initialized p.

(** [q] differs from [p] by giving frame [k] the status [F k]. *)
Definition updates (F : Z → bool) (p q : pmm_state) : Prop :=
  pmm_inv q ∧ same_shape p q ∧
  ∀ k, 0 <= k < p_frame_count p → is_free q k = F k.

#[global] Instance same_shape_equiv : Equivalence same_shape.
Proof.
  split; unfold same_shape.
  - intros p. done.
  - intros p q (?&?&?&?&?). auto.
  - intros p q r (?&?&?&?&?) (?&?&?&?&?). repeat split; congruence.
Qed.

Lemma pmm_frame_bounds p : pmm_inv p → 0 <= p_frame_count p < 2 ^ 52.
Proof.
  intros H. rewrite (inv_count p H). destruct (inv_max p H) as [[? ?] _].
  unfold PMM_PAGE_SIZE. split; [apply Z.div_pos; lia|].
  apply Z.div_lt_upper_bound; lia.
Qed.

(** Every frame index below [frame_count] stays inside the bitmap storage. *)
Lemma frame_in_bitmap p k :
  pmm_inv p → 0 <= k < p_frame_count p → bm_in (p_bitmap p) k.
Proof.
  intros H Hk. pose proof (inv_len p H) as Hl. rewrite (inv_bytes p H) in Hl.
  unfold bm_in. pose proof (Z.div_mod (p_frame_count p + 7) 8).
  pose proof (Z.mod_pos_bound (p_frame_count p + 7) 8). lia.
Qed.

Lemma pmm_free_bounds p : pmm_inv p → 0 <= p_free_frames p <= p_frame_count p.
Proof.
  intros H. pose proof (pmm_frame_bounds p H). rewrite (inv_free p H).
  pose proof (count_z_bounds (is_free p) 0 (Z.to_nat (p_frame_count p))). lia.
Qed.

Lemma updates_refl p : pmm_inv p → updates (is_free p) p p.
Proof. intros. split; [done|]. split; [reflexivity|]. done. Qed.

Lemma updates_ext F G p q :
  (∀ k, 0 <= k < p_frame_count p → F k = G k) → updates F p q → updates G p q.
Proof.
  intros Hfg (Hi & Hs & Hk). split; [done|]. split; [done|].
  intros k ?. rewrite <-Hfg by done. by apply Hk.
Qed.

(** Status and number of the free frames after clearing or setting one bit. *)
Lemma is_free_clear p f k :
  pmm_inv p → 0 <= f < p_frame_count p → 0 <= k →
  negb (bitmap_test (bitmap_clear (p_bitmap p) f) k) = (is_free p k || (k =? f))%bool.
Proof.
  intros H Hf Hk. unfold is_free. rewrite bitmap_clear_bm, !bitmap_test_bm.
  rewrite bm_test_clear by (try apply inv_ok; try apply frame_in_bitmap; done).
  by rewrite negb_andb, negb_involutive.
Qed.

Lemma is_free_set p f k :
  pmm_inv p → 0 <= f < p_frame_count p → 0 <= k →
  negb (bitmap_test (bitmap_set (p_bitmap p) f) k) = (is_free p k && negb (k =? f))%bool.
Proof.
  intros H Hf Hk. unfold is_free. rewrite bitmap_set_bm, !bitmap_test_bm.
  rewrite bm_test_set by (try apply inv_ok; try apply frame_in_bitmap; done).
  by rewrite negb_orb.
Qed.

Lemma count_clear p f :
  pmm_inv p → 0 <= f < p_frame_count p → is_free p f = false →
  count_z (λ k, negb (bitmap_test (bitmap_clear (p_bitmap p) f) k)) 0
    (Z.to_nat (p_frame_count p)) = p_free_frames p + 1.
Proof.
  intros H Hf Ht. rewrite (inv_free p H).
  apply (count_z_flip _ _ _ _ f); [lia|done|..].
  - rewrite is_free_clear by (done || lia). by rewrite Z.eqb_refl, orb_true_r.
  - intros k ? Hne. rewrite is_free_clear by (done || lia).
    apply Z.eqb_neq in Hne as ->. by rewrite orb_false_r.
Qed.

Lemma count_set p f :
  pmm_inv p → 0 <= f < p_frame_count p → is_free p f = true →
  count_z (λ k, negb (bitmap_test (bitmap_set (p_bitmap p) f) k)) 0
    (Z.to_nat (p_frame_count p)) = p_free_frames p - 1.
Proof.
  intros H Hf Ht. rewrite (inv_free p H).
  rewrite (count_z_flip (λ k, negb (bitmap_test (bitmap_set (p_bitmap p) f) k))
             (is_free p) _ _ f); [lia|lia| |done|].
  - rewrite is_free_set by (done || lia). by rewrite Z.eqb_refl, andb_false_r.
  - intros k ? Hne. rewrite is_free_set by (done || lia).
    apply Z.eqb_neq in Hne as ->. by rewrite andb_true_r.
Qed.

Lemma mark_frame_free_updates p f :
  pmm_inv p → 0 <= f →
  updates (λ k, is_free p k || (k =? f))%bool p (mark_frame_free p f).
Proof.
  intros H Hf. unfold mark_frame_free.
  pose proof (pmm_frame_bounds p H). pose proof (pmm_free_bounds p H).
  destruct (Z.leb_spec (p_frame_count p) f) as [Hge|Hlt].
  { apply (updates_ext (is_free p)); [|by apply updates_refl].
    intros k ?. destruct (Z.eqb_spec k f); [lia|]. by rewrite orb_false_r. }
  destruct (bitmap_test (p_bitmap p) f) eqn:Ht.
  2:{ apply (updates_ext (is_free p)); [|by apply updates_refl].
      intros k ?. destruct (Z.eqb_spec k f) as [->|]; [|by rewrite orb_false_r].
      unfold is_free. by rewrite Ht. }
  assert (is_free p f = false) as Hnf by (unfold is_free; by rewrite Ht).
  pose proof (count_clear p f H ltac:(lia) Hnf) as Hcnt.
  pose proof (count_z_bounds (λ k, negb (bitmap_test (bitmap_clear (p_bitmap p) f) k)) 0
                (Z.to_nat (p_frame_count p))).
  pose proof (inv_used p H). pose proof (inv_hint p H).
  split; [|split].
  - constructor; simpl; try apply H.
    + rewrite bitmap_clear_bm, length_bm_clear. apply H.
    + rewrite bitmap_clear_bm. apply bytes_ok_bm_clear, H.
    + rewrite wrap_small by (unfold fits; lia). by rewrite <-Hcnt.
    + rewrite !wrap_small by (unfold fits; lia).
      destruct (Z.ltb_spec 0 (p_used_frames p)); lia.
    + destruct (Z.ltb_spec f (p_next_hint p)); lia.
    + intros k Hk. unfold is_free. simpl. rewrite is_free_clear by (done || lia).
      destruct (Z.ltb_spec f (p_next_hint p)).
      all: rewrite (inv_below_hint p H) by lia; apply Z.eqb_neq; lia.
  - unfold same_shape. simpl. by rewrite bitmap_clear_bm, length_bm_clear.
  - intros k ?. unfold is_free at 1. simpl. by rewrite is_free_clear by (done || lia).
Qed.

Lemma mark_frame_used_updates p f :
  pmm_inv p → 0 <= f →
  updates (λ k, is_free p k && negb (k =? f))%bool p (mark_frame_used p f).
Proof.
  intros H Hf. unfold mark_frame_used.
  pose proof (pmm_frame_bounds p H). pose proof (pmm_free_bounds p H).
  destruct (Z.leb_spec (p_frame_count p) f) as [Hge|Hlt].
  { apply (updates_ext (is_free p)); [|by apply updates_refl].
    intros k ?. destruct (Z.eqb_spec k f); [lia|]. by rewrite andb_true_r. }
  destruct (bitmap_test (p_bitmap p) f) eqn:Ht; simpl.
  { apply (updates_ext (is_free p)); [|by apply updates_refl].
    intros k ?. destruct (Z.eqb_spec k f) as [->|]; [|by rewrite andb_true_r].
    unfold is_free. by rewrite Ht. }
  assert (is_free p f = true) as Hnf by (unfold is_free; by rewrite Ht).
  pose proof (count_set p f H ltac:(lia) Hnf) as Hcnt.
  pose proof (count_z_bounds (λ k, negb (bitmap_test (bitmap_set (p_bitmap p) f) k)) 0
                (Z.to_nat (p_frame_count p))).
  pose proof (inv_used p H).
  split; [|split].
  - constructor; simpl; try apply H.
    + rewrite bitmap_set_bm, length_bm_set. apply H.
    + rewrite bitmap_set_bm. apply bytes_ok_bm_set, H.
    + rewrite wrap_small by (unfold fits; lia).
      destruct (Z.ltb_spec 0 (p_free_frames p)); [by rewrite <-Hcnt|lia].
    + rewrite !wrap_small by (unfold fits; lia).
      destruct (Z.ltb_spec 0 (p_free_frames p)); lia.
    + intros k Hk. unfold is_free. simpl.
      rewrite is_free_set by (done || (pose proof (inv_hint p H); lia)).
      by rewrite (inv_below_hint p H) by lia.
  - unfold same_shape. simpl. by rewrite bitmap_set_bm, length_bm_set.
  - intros k ?. unfold is_free at 1. simpl. by rewrite is_free_set by (done || lia).
Qed.

Lemma updates_trans F G p q r :
  updates F p q → updates G q r → updates G p r.
Proof.
  intros (_ & Hs & _) (Hi & Hs' & Hk). split; [done|].
  split; [by etrans|]. intros k ?. apply Hk. destruct Hs as (_ & -> & _). done.
Qed.

(** Only the reserved/ignored counters and the hint differ. *)
Lemma updates_counters F p q q' :
  updates F p q → p_bitmap q' = p_bitmap q → same_shape q q' →
  p_free_frames q' = p_free_frames q → p_used_frames q' = p_used_frames q →
  0 <= p_next_hint q' <= p_frame_count q' →
  (∀ k, 0 <= k < p_next_hint q' → is_free q' k = false) →
  updates F p q'.
Proof.
  intros ([] & Hs & Hk) Hb Hs' Hfr Hus Hh Hbh.
  assert (∀ k, is_free q' k = is_free q k) as Hf by (intros; unfold is_free; by rewrite Hb).
  pose proof Hs' as (? & ? & ? & ? & ?).
  split; [|split].
  - constructor; try done; try congruence.
    rewrite Hfr, inv_free0. replace (p_frame_count q') with (p_frame_count q) by done.
    apply count_z_ext. intros. by rewrite Hf.
  - by etrans.
  - intros k ?. rewrite Hf. by apply Hk.
Qed.

Lemma reserve_frame_updates p f :
  pmm_inv p → 0 <= f →
  updates (λ k, is_free p k && negb (k =? f))%bool p (reserve_frame p f).
Proof.
  intros H Hf. pose proof (mark_frame_used_updates p f H Hf) as Hu.
  unfold reserve_frame. destruct (negb _); [|done].
  eapply updates_counters; try exact Hu; try done; apply Hu.
Qed.

(** A loop that gives frame [i], ..., [i + n - 1] in turn the status [f]. *)
Lemma for_z_updates (body : pmm_state → Z → pmm_state) (b : bool) p i n :
  (∀ q f, pmm_inv q → 0 <= f →
    updates (λ k, if k =? f then b else is_free q k) q (body q f)) →
  pmm_inv p → 0 <= i →
  updates (λ k, if (i <=? k) && (k <? i + Z.of_nat n) then b else is_free p k)
    p (for_z (λ f q, body q f) i n p).
Proof.
  intros Hbody Hp Hi.
  apply (for_z_ind (λ j q, i <= j ∧
    updates (λ k, if (i <=? k) && (k <? j) then b else is_free p k) p q)).
  - split; [lia|]. apply (updates_ext (is_free p)); [|by apply updates_refl].
    intros k ?. destruct (Z.leb_spec i k), (Z.ltb_spec k i); simpl; done || lia.
  - intros j q Hj [Hij Hq]. split; [lia|].
    pose proof (updates_trans _ _ _ _ _ Hq (Hbody q j (proj1 Hq) ltac:(lia))) as Hr.
    refine (updates_ext _ _ _ _ _ Hr). intros k Hk. simpl.
    destruct Hq as (_ & _ & ->); [|done].
    destruct (Z.eqb_spec k j), (Z.leb_spec i k), (Z.ltb_spec k j),
      (Z.ltb_spec k (j + 1)); simpl; done || lia.
Qed.

Lemma for_z_free_updates p i n :
  pmm_inv p → 0 <= i →
  updates (λ k, if (i <=? k) && (k <? i + Z.of_nat n) then true else is_free p k)
    p (for_z (λ f q, mark_frame_free q f) i n p).
Proof.
  apply (for_z_updates mark_frame_free true). intros q f Hq Hf.
  refine (updates_ext _ _ _ _ _ (mark_frame_free_updates q f Hq Hf)).
  intros k _. simpl. destruct (k =? f), (is_free q k); done.
Qed.

Lemma for_z_reserve_updates p i n :
  pmm_inv p → 0 <= i →
  updates (λ k, if (i <=? k) && (k <? i + Z.of_nat n) then false else is_free p k)
    p (for_z (λ f q, reserve_frame q f) i n p).
Proof.
  apply (for_z_updates reserve_frame false). intros q f Hq Hf.
  refine (updates_ext _ _ _ _ _ (reserve_frame_updates q f Hq Hf)).
  intros k _. simpl. destruct (k =? f), (is_free q k); done.
Qed.

(** ** Effect of the range operations *)

(** Frame [k] lies wholly inside / touches the byte range [base, base + len). *)
Definition covered (base len k : Z) : bool :=
  (base <=? k * PMM_PAGE_SIZE) && ((k + 1) * PMM_PAGE_SIZE <=? base + len).
Definition touched (base len k : Z) : bool :=
  (0 <? len) && (k * PMM_PAGE_SIZE <? base + len) && (base <? (k + 1) * PMM_PAGE_SIZE).

(** The frames [mark_range_free] releases; a [base] in the last page of the
    address space makes [align_up] wrap and releases every frame. *)
Definition freed_by (base len k : Z) : bool :=
  if base <=? 2 ^ 64 - PMM_PAGE_SIZE then (base + len <? 2 ^ 64) && covered base len k
  else (0 <? len) && (base + len <? 2 ^ 64).

(** The frames [mark_range_used] reserves; a range that ends in the last page
    of the address space reserves nothing. *)
Definition reserved_by (base len k : Z) : bool :=
  (base + len <=? 2 ^ 64 - PMM_PAGE_SIZE) && touched base len k.

Lemma page_loop_updates (body : pmm_state → Z → pmm_state) (b : bool) p start stop :
  (∀ i n, 0 <= i →
    updates (λ k, if (i <=? k) && (k <? i + Z.of_nat n) then b else is_free p k)
      p (for_z (λ f q, body q f) i n p)) →
  start mod PMM_PAGE_SIZE = 0 → stop mod PMM_PAGE_SIZE = 0 →
  0 <= start <= stop → stop < 2 ^ 64 →
  updates (λ k, if (start <=? k * PMM_PAGE_SIZE) && ((k + 1) * PMM_PAGE_SIZE <=? stop)
                then b else is_free p k)
    p (page_loop (page_fuel stop) body start stop p).
Proof.
  intros Hbody Hs He H0 H1. unfold PMM_PAGE_SIZE in *.
  pose proof (Z.div_mod start 4096). pose proof (Z.div_mod stop 4096).
  assert ((stop - start) / 4096 = stop / 4096 - start / 4096) as Hd.
  { replace (stop - start) with ((stop / 4096 - start / 4096) * 4096) by lia.
    apply Z.div_mul. lia. }
  rewrite page_loop_for_z; unfold PMM_PAGE_SIZE in *; try done; [|lia..|].
  2:{ rewrite Hd. unfold page_fuel, PMM_PAGE_SIZE. lia. }
  refine (updates_ext _ _ _ _ _ (Hbody (start / 4096) _ ltac:(lia))).
  intros k Hk. rewrite Hd, Z2Nat.id by lia.
  destruct (Z.leb_spec (start / 4096) k),
    (Z.ltb_spec k (start / 4096 + (stop / 4096 - start / 4096))),
    (Z.leb_spec start (k * 4096)), (Z.leb_spec ((k + 1) * 4096) stop); simpl; done || lia.
Qed.

(** Frames below [frame_count] end at or before [max_phys]. *)
Lemma frame_end_le p k :
  pmm_inv p → 0 <= k < p_frame_count p → (k + 1) * PMM_PAGE_SIZE <= p_max_phys p.
Proof.
  intros H Hk. rewrite (inv_count p H) in Hk. unfold PMM_PAGE_SIZE in *.
  pose proof (Z.div_mod (p_max_phys p) 4096). pose proof (Z.mod_pos_bound (p_max_phys p) 4096).
  lia.
Qed.

(** The clipped loop both range functions run. *)
Lemma clipped_loop_updates (body : pmm_state → Z → pmm_state) (b : bool) p start stop :
  pmm_inv p →
  (∀ i n, 0 <= i →
    updates (λ k, if (i <=? k) && (k <? i + Z.of_nat n) then b else is_free p k)
      p (for_z (λ f q, body q f) i n p)) →
  start mod PMM_PAGE_SIZE = 0 → stop mod PMM_PAGE_SIZE = 0 →
  0 <= start → start < stop < 2 ^ 64 → start < p_max_phys p →
  let stop' := if p_max_phys p <? stop then p_max_phys p else stop in
  updates (λ k, if (start <=? k * PMM_PAGE_SIZE) && ((k + 1) * PMM_PAGE_SIZE <=? stop)
                then b else is_free p k)
    p (page_loop (page_fuel stop') body start stop' p).
Proof.
  intros H Hbody Hs He H0 H1 H2 stop'.
  destruct (inv_max p H) as [Hm Hmm].
  assert (stop' mod PMM_PAGE_SIZE = 0 ∧ start <= stop' < 2 ^ 64) as [? ?].
  { unfold stop'. destruct (Z.ltb_spec (p_max_phys p) stop); split; done || lia. }
  refine (updates_ext _ _ _ _ _
    (page_loop_updates body b p start stop' Hbody Hs _ _ _)); [|done|lia|lia].
  intros k Hk. pose proof (frame_end_le p k H Hk).
  unfold stop'. destruct (Z.ltb_spec (p_max_phys p) stop); [|done].
  destruct (Z.leb_spec ((k + 1) * PMM_PAGE_SIZE) (p_max_phys p)),
    (Z.leb_spec ((k + 1) * PMM_PAGE_SIZE) stop); done || lia.
Qed.

(** Rounding as inequalities against page boundaries. *)
Lemma round_up_le v k :
  0 <= k → ((v + PMM_PAGE_SIZE - 1) / PMM_PAGE_SIZE * PMM_PAGE_SIZE <=? k * PMM_PAGE_SIZE)
  = (v <=? k * PMM_PAGE_SIZE).
Proof.
  intros. unfold PMM_PAGE_SIZE. pose proof (Z.div_mod (v + 4096 - 1) 4096).
  pose proof (Z.mod_pos_bound (v + 4096 - 1) 4096).
  destruct (Z.leb_spec ((v + 4096 - 1) / 4096 * 4096) (k * 4096)),
    (Z.leb_spec v (k * 4096)); done || lia.
Qed.

Lemma round_down_ge v k :
  ((k + 1) * PMM_PAGE_SIZE <=? v - v mod PMM_PAGE_SIZE) = ((k + 1) * PMM_PAGE_SIZE <=? v).
Proof.
  unfold PMM_PAGE_SIZE. pose proof (Z.div_mod v 4096).
  pose proof (Z.mod_pos_bound v 4096).
  destruct (Z.leb_spec ((k + 1) * 4096) (v - v mod 4096)),
    (Z.leb_spec ((k + 1) * 4096) v); done || lia.
Qed.

Lemma round_down_le v k :
  (v - v mod PMM_PAGE_SIZE <=? k * PMM_PAGE_SIZE) = (v <? (k + 1) * PMM_PAGE_SIZE).
Proof.
  unfold PMM_PAGE_SIZE. pose proof (Z.div_mod v 4096).
  pose proof (Z.mod_pos_bound v 4096).
  destruct (Z.leb_spec (v - v mod 4096) (k * 4096)),
    (Z.ltb_spec v ((k + 1) * 4096)); done || lia.
Qed.

Lemma round_up_ge v k :
  ((k + 1) * PMM_PAGE_SIZE <=? (v + PMM_PAGE_SIZE - 1) / PMM_PAGE_SIZE * PMM_PAGE_SIZE)
  = (k * PMM_PAGE_SIZE <? v).
Proof.
  unfold PMM_PAGE_SIZE. pose proof (Z.div_mod (v + 4096 - 1) 4096).
  pose proof (Z.mod_pos_bound (v + 4096 - 1) 4096).
  destruct (Z.leb_spec ((k + 1) * 4096) ((v + 4096 - 1) / 4096 * 4096)),
    (Z.ltb_spec (k * 4096) v); done || lia.
Qed.

Lemma updates_same F p :
  pmm_inv p → (∀ k, 0 <= k < p_frame_count p → F k = is_free p k) → updates F p p.
Proof. intros H HF. eapply updates_ext; [|by apply updates_refl]. intros. by rewrite HF. Qed.

Lemma aligned_round_up v : (v / PMM_PAGE_SIZE * PMM_PAGE_SIZE) mod PMM_PAGE_SIZE = 0.
Proof. apply Z.mod_mul. unfold PMM_PAGE_SIZE. lia. Qed.

Lemma mark_range_used_updates p base len :
  pmm_inv p → fits 64 base → fits 64 len →
  updates (λ k, is_free p k && negb (reserved_by base len k))%bool
    p (mark_range_used p base len).
Proof.
  intros H [Hb0 Hb1] [Hl0 Hl1]. unfold mark_range_used, reserved_by, touched.
  destruct (Z.eqb_spec len 0) as [->|Hne].
  { apply updates_same; [done|]. intros k _. by rewrite !andb_false_r, andb_true_r. }
  rewrite checked_add_spec by done.
  destruct (Z.ltb_spec (base + len) (2 ^ 64)) as [Hlt|Hge].
  2:{ apply updates_same; [done|]. intros k _.
      destruct (Z.leb_spec (base + len) (2 ^ 64 - PMM_PAGE_SIZE)) as [Hx|];
        [unfold PMM_PAGE_SIZE in Hx; lia|]. simpl. by rewrite andb_true_r. }
  rewrite align_down_spec by done. rewrite align_up_spec by (split; lia).
  pose proof (Z.mod_pos_bound base PMM_PAGE_SIZE ltac:(done)) as Hbm.
  pose proof (Z.mod_le base PMM_PAGE_SIZE ltac:(lia) ltac:(done)).
  destruct (Z.leb_spec (base + len) (2 ^ 64 - PMM_PAGE_SIZE)) as [Hw|Hw]; simpl.
  2:{ destruct (Z.leb_spec 0 (base - base mod PMM_PAGE_SIZE)); [|lia].
      apply updates_same; [done|]. intros k _. by rewrite andb_true_r. }
  set (e := base + len) in *. set (stop := (e + PMM_PAGE_SIZE - 1) / PMM_PAGE_SIZE * PMM_PAGE_SIZE).
  assert (e <= stop < 2 ^ 64) as Hstop.
  { unfold stop, PMM_PAGE_SIZE in *. pose proof (Z.div_mod (e + 4096 - 1) 4096).
    pose proof (Z.mod_pos_bound (e + 4096 - 1) 4096). lia. }
  destruct (Z.leb_spec stop (base - base mod PMM_PAGE_SIZE)); [lia|].
  destruct (Z.leb_spec (p_max_phys p) (base - base mod PMM_PAGE_SIZE)).
  { apply updates_same; [done|]. intros k Hk. pose proof (frame_end_le p k H Hk).
    destruct (Z.ltb_spec base ((k + 1) * PMM_PAGE_SIZE)); [lia|].
    by rewrite andb_false_r, andb_true_r. }
  refine (updates_ext _ _ _ _ _
    (clipped_loop_updates reserve_frame false p (base - base mod PMM_PAGE_SIZE) stop H
      (λ i n, for_z_reserve_updates p i n H) _ _ _ _ _)); try lia.
  - intros k Hk. rewrite round_down_le. unfold stop. rewrite round_up_ge.
    destruct (Z.ltb_spec 0 len); [|lia]. simpl.
    destruct (base <? (k + 1) * PMM_PAGE_SIZE), (k * PMM_PAGE_SIZE <? e),
      (is_free p k); done.
  - by apply mod_sub_mod.
  - apply aligned_round_up.
Qed.

(** The bounds of the loop of [mark_range_free]. *)
Definition free_start (base : Z) : Z :=
  if base <=? 2 ^ 64 - PMM_PAGE_SIZE
  then (base + PMM_PAGE_SIZE - 1) / PMM_PAGE_SIZE * PMM_PAGE_SIZE else 0.
Definition free_stop (e : Z) : Z := e - e mod PMM_PAGE_SIZE.

Lemma free_start_aligned base :
  0 <= base → free_start base mod PMM_PAGE_SIZE = 0 ∧ 0 <= free_start base.
Proof.
  intros. unfold free_start. destruct (_ <=? _); [|done].
  split; [apply aligned_round_up|].
  unfold PMM_PAGE_SIZE. pose proof (Z.div_pos (base + 4096 - 1) 4096). lia.
Qed.

Lemma free_stop_aligned e :
  fits 64 e → free_stop e mod PMM_PAGE_SIZE = 0 ∧ 0 <= free_stop e < 2 ^ 64.
Proof.
  intros []. unfold free_stop. split; [by apply mod_sub_mod|].
  pose proof (Z.mod_pos_bound e PMM_PAGE_SIZE ltac:(done)).
  pose proof (Z.mod_le e PMM_PAGE_SIZE ltac:(lia) ltac:(done)). lia.
Qed.

Lemma freed_by_bounds p base len k :
  pmm_inv p → 0 <= base → 0 < len → base + len < 2 ^ 64 → 0 <= k < p_frame_count p →
  freed_by base len k =
  ((free_start base <=? k * PMM_PAGE_SIZE)
   && ((k + 1) * PMM_PAGE_SIZE <=? free_stop (base + len)))%bool.
Proof.
  intros H Hb Hl Hlt Hk. unfold freed_by, covered, free_start, free_stop.
  rewrite round_down_ge.
  destruct (Z.ltb_spec (base + len) (2 ^ 64)); [|lia].
  destruct (Z.leb_spec base (2 ^ 64 - PMM_PAGE_SIZE)) as [|Hw].
  { by rewrite round_up_le by lia. }
  pose proof (frame_end_le p k H Hk). destruct (inv_max p H) as [? Hmm].
  assert (p_max_phys p <= 2 ^ 64 - PMM_PAGE_SIZE).
  { unfold PMM_PAGE_SIZE in *. pose proof (Z.div_mod (p_max_phys p) 4096).
    pose proof (Z.div_mod (2 ^ 64) 4096). lia. }
  destruct (Z.ltb_spec 0 len), (Z.leb_spec 0 (k * PMM_PAGE_SIZE)),
    (Z.leb_spec ((k + 1) * PMM_PAGE_SIZE) (base + len)); simpl;
    done || (unfold PMM_PAGE_SIZE in *; lia).
Qed.

Lemma add_ignored_updates p n : pmm_inv p → updates (is_free p) p (add_ignored p n).
Proof. intros H. split; [destruct H; constructor; done|]. split; done. Qed.

(** The loop of [mark_range_free], started from [p] or from [p] with a new
    [ignored_frames]. *)
Lemma free_loop_updates p q start stop :
  pmm_inv p → updates (is_free p) p q → p_max_phys q = p_max_phys p →
  start mod PMM_PAGE_SIZE = 0 → stop mod PMM_PAGE_SIZE = 0 →
  0 <= start → start < stop < 2 ^ 64 → start < p_max_phys p →
  let stop' := if p_max_phys p <? stop then p_max_phys p else stop in
  updates (λ k, is_free p k ||
             ((start <=? k * PMM_PAGE_SIZE) && ((k + 1) * PMM_PAGE_SIZE <=? stop)))%bool
    p (page_loop (page_fuel stop') mark_frame_free start stop' q).
Proof.
  intros H Hq Hm Hs He H0 H1 H2. pose proof (proj1 Hq) as Hi.
  pose proof (clipped_loop_updates mark_frame_free true q start stop Hi
    (λ i n, for_z_free_updates _ i n Hi) Hs He H0 H1 ltac:(lia)) as Hu.
  rewrite Hm in Hu. apply (updates_trans _ _ _ _ _ Hq) in Hu.
  refine (updates_ext _ _ _ _ _ Hu). intros k Hk. simpl.
  destruct Hq as (_ & _ & ->); [|done].
  destruct ((start <=? _) && _)%bool, (is_free p k); done.
Qed.

Lemma mark_range_free_updates p base len :
  pmm_inv p → fits 64 base → fits 64 len →
  updates (λ k, is_free p k || freed_by base len k)%bool p (mark_range_free p base len).
Proof.
  intros H [Hb0 Hb1] [Hl0 Hl1]. unfold mark_range_free.
  destruct (Z.eqb_spec len 0) as [->|Hne].
  { apply updates_same; [done|]. intros k ?. unfold freed_by, covered, PMM_PAGE_SIZE.
    destruct (Z.leb_spec base (k * 4096)), (Z.leb_spec ((k + 1) * 4096) (base + 0)); try lia.
    all: simpl; destruct (base <=? _); by rewrite ?andb_false_r, orb_false_r. }
  rewrite checked_add_spec by done.
  destruct (Z.ltb_spec (base + len) (2 ^ 64)) as [Hlt|Hge].
  2:{ apply updates_same; [done|]. intros k _. unfold freed_by.
      destruct (Z.ltb_spec (base + len) (2 ^ 64)); [lia|].
      destruct (base <=? _); by rewrite ?andb_false_r, orb_false_r. }
  rewrite align_up_spec by done. rewrite align_down_spec by (split; lia).
  fold (free_start base) (free_stop (base + len)).
  pose proof (free_start_aligned base Hb0) as [Hsm Hs0].
  pose proof (free_stop_aligned (base + len) ltac:(split; lia)) as [Hem Hst].
  apply (updates_ext (λ k, is_free p k ||
    ((free_start base <=? k * PMM_PAGE_SIZE)
     && ((k + 1) * PMM_PAGE_SIZE <=? free_stop (base + len))))%bool).
  { intros k Hk. by rewrite (freed_by_bounds p base len k H) by (done || lia). }
  destruct (Z.leb_spec (free_stop (base + len)) (free_start base)).
  { apply updates_same; [done|]. intros k Hk. unfold PMM_PAGE_SIZE.
    destruct (Z.leb_spec (free_start base) (k * 4096)),
      (Z.leb_spec ((k + 1) * 4096) (free_stop (base + len)));
      simpl; rewrite ?orb_false_r; done || lia. }
  destruct (Z.leb_spec (p_max_phys p) (free_start base)).
  { apply updates_same; [done|]. intros k Hk.
    pose proof (frame_end_le p k H Hk). unfold PMM_PAGE_SIZE in *.
    destruct (Z.leb_spec (free_start base) (k * 4096));
      simpl; rewrite ?orb_false_r; done || lia. }
  set (q := add_ignored p _).
  pose proof (free_loop_updates p q _ (free_stop (base + len)) H
    (add_ignored_updates p _ H) eq_refl Hsm Hem Hs0) as Hq.
  pose proof (free_loop_updates p p _ (free_stop (base + len)) H
    (updates_refl p H) eq_refl Hsm Hem Hs0) as Hp.
  simpl in Hq, Hp. destruct (_ <? free_stop _); [apply Hq|apply Hp]; lia.
Qed.

(** ** Initialisation *)

Definition region_fits (r : boot_mem_region) : Prop :=
  fits 64 (mr_base r) ∧ fits 64 (mr_length r).

Lemma foldl_updates {A} (step : pmm_state → A → pmm_state) (F : A → bool → Z → bool) p l :
  (∀ q x, x ∈ l → pmm_inv q → updates (λ k, F x (is_free q k) k) q (step q x)) →
  pmm_inv p →
  updates (λ k, foldl (λ b x, F x b k) (is_free p k) l) p (foldl step p l).
Proof.
  revert p. induction l as [|x l IH]; intros p Hstep Hp; simpl.
  { by apply updates_refl. }
  assert (updates (λ k, F x (is_free p k) k) p (step p x)) as Hx.
  { apply Hstep; [left|done]. }
  pose proof (updates_trans _ _ _ _ _ Hx (IH (step p x)
    (λ q y Hy, Hstep q y (list_elem_of_further _ _ _ Hy)) (proj1 Hx))) as Hr.
  refine (updates_ext _ _ _ _ _ Hr). intros k Hk. simpl.
  by destruct Hx as (_ & _ & ->).
Qed.

Definition usable (r : boot_mem_region) : bool := mr_type r =? BOOT_MEM_USABLE.

Lemma free_usable_fold p rs :
  pmm_inv p → Forall region_fits rs →
  updates (λ k, is_free p k ||
      existsb (λ r, usable r && freed_by (mr_base r) (mr_length r) k) rs)%bool
    p (foldl free_usable p rs).
Proof.
  intros Hp Hrs. rewrite Forall_forall in Hrs.
  refine (updates_ext _ _ _ _ _ (foldl_updates free_usable
    (λ r b k, b || (usable r && freed_by (mr_base r) (mr_length r) k))%bool p rs _ Hp)).
  - intros k _. generalize (is_free p k). clear. induction rs as [|r rs IH]; intros b; simpl.
    + by rewrite orb_false_r.
    + by rewrite IH, orb_assoc.
  - intros q r Hr Hq. unfold free_usable. fold (usable r). destruct (usable r).
    + apply mark_range_free_updates; [done|apply Hrs..]; done.
    + apply updates_same; [done|]. intros. by rewrite orb_false_r.
Qed.

Lemma reserve_unusable_fold p rs :
  pmm_inv p → Forall region_fits rs →
  updates (λ k, is_free p k &&
      negb (existsb (λ r, negb (usable r) && reserved_by (mr_base r) (mr_length r) k) rs))%bool
    p (foldl reserve_unusable p rs).
Proof.
  intros Hp Hrs. rewrite Forall_forall in Hrs.
  refine (updates_ext _ _ _ _ _ (foldl_updates reserve_unusable
    (λ r b k, b && negb (negb (usable r) && reserved_by (mr_base r) (mr_length r) k))%bool
    p rs _ Hp)).
  - intros k _. generalize (is_free p k). clear. induction rs as [|r rs IH]; intros b; simpl.
    + by rewrite andb_true_r.
    + by rewrite IH, negb_orb, andb_assoc.
  - intros q r Hr Hq. unfold reserve_unusable. fold (usable r). destruct (usable r).
    + apply updates_same; [done|]. intros. by rewrite andb_true_r.
    + apply mark_range_used_updates; [done|apply Hrs..]; done.
Qed.

Lemma pmm_all_used_inv storage max :
  0 < max < 2 ^ 64 → max mod PMM_PAGE_SIZE = 0 → bytes_ok storage →
  (max / PMM_PAGE_SIZE + 7) / 8 <= Z.of_nat (length storage) →
  let p := pmm_all_used storage ((max / PMM_PAGE_SIZE + 7) / 8) (max / PMM_PAGE_SIZE) max in
  pmm_inv p ∧ ∀ k, 0 <= k < max / PMM_PAGE_SIZE → is_free p k = false.
Proof.
  intros Hm Hmm Hok Hlen p. set (fc := max / PMM_PAGE_SIZE) in *.
  assert (0 <= fc) by (apply Z.div_pos; [lia|done]).
  pose proof (Z.div_mod (fc + 7) 8). pose proof (Z.mod_pos_bound (fc + 7) 8).
  assert (∀ k, 0 <= k < fc → is_free p k = false) as Hused.
  { intros k Hk. unfold is_free. rewrite bitmap_test_bm, bm_test_testbit.
    unfold bm_byte, p, pmm_all_used. simpl. rewrite nth_lookup.
    assert (k / 8 < (fc + 7) / 8) by (apply Z.div_lt_upper_bound; lia).
    pose proof (Z.div_pos k 8). rewrite lookup_app_l by (rewrite length_replicate; lia).
    rewrite lookup_replicate_2 by lia. simpl.
    apply negb_false_iff. change 255 with (Z.ones 8).
    apply Z.ones_spec_low, Z.mod_pos_bound. lia. }
  split; [|done]. constructor; simpl; try done; fold fc.
  - rewrite length_app, length_replicate, length_drop. lia.
  - apply Forall_app_2; [by apply Forall_replicate|by apply Forall_drop].
  - symmetry. apply count_z_const_false. intros k Hk. apply Hused. lia.
  - lia.
  - intros. lia.
Qed.

(** What the map asks for: the frames wholly inside a usable region, except
    frame 0 and every frame a non-usable region touches. *)
Definition map_free (rs : list boot_mem_region) (k : Z) : bool :=
  existsb (λ r, usable r && covered (mr_base r) (mr_length r) k) rs
  && negb (k =? 0)
  && negb (existsb (λ r, negb (usable r) && touched (mr_base r) (mr_length r) k) rs).

(** A region whose end does not reach the last page of the address space. *)
Definition region_low (r : boot_mem_region) : Prop :=
  0 <= mr_base r ∧ 0 <= mr_length r ∧ mr_base r + mr_length r <= 2 ^ 64 - PMM_PAGE_SIZE.

Lemma region_low_fits r : region_low r → region_fits r.
Proof. unfold region_low, region_fits, fits, PMM_PAGE_SIZE. lia. Qed.

Lemma map_free_low rs k :
  Forall region_low rs → 0 <= k →
  map_free rs k =
  ((false || existsb (λ r, usable r && freed_by (mr_base r) (mr_length r) k) rs)
   && negb (reserved_by 0 PMM_PAGE_SIZE k)
   && negb (existsb (λ r, negb (usable r) && reserved_by (mr_base r) (mr_length r) k) rs))%bool.
Proof.
  intros Hrs Hk. rewrite Forall_forall in Hrs. unfold map_free. f_equal; [f_equal|].
  - simpl. apply existsb_ext_in. intros r Hr. f_equal. apply Hrs in Hr as (? & ? & ?).
    unfold freed_by, PMM_PAGE_SIZE in *.
    destruct (Z.leb_spec (mr_base r) (2 ^ 64 - 4096)); [|lia].
    destruct (Z.ltb_spec (mr_base r + mr_length r) (2 ^ 64)); [done|lia].
  - unfold reserved_by, touched, PMM_PAGE_SIZE. simpl. f_equal.
    destruct (Z.eqb_spec k 0), (Z.ltb_spec (k * 4096) 4096),
      (Z.ltb_spec 0 ((k + 1) * 4096)); done || lia.
  - f_equal. apply existsb_ext_in. intros r Hr. f_equal. apply Hrs in Hr as (? & ? & ?).
    unfold reserved_by. destruct (Z.leb_spec (mr_base r + mr_length r) (2 ^ 64 - PMM_PAGE_SIZE));
      [done|lia].
Qed.

(** ** Allocation and release *)

Lemma scan_free_Some p a b f :
  scan_free p a b = Some f →
  a <= f < b ∧ is_free p f = true ∧ ∀ g, a <= g < f → is_free p g = false.
Proof.
  unfold scan_free. intros (? & ? & ?)%find_z_Some. split; [lia|]. done.
Qed.

Lemma scan_free_None p a b :
  scan_free p a b = None → ∀ g, a <= g < b → is_free p g = false.
Proof. unfold scan_free. intros H g ?. apply (proj1 (find_z_None _ _ _) H). lia. Qed.

(** Under the invariant the scan from the hint finds the lowest free frame of
    all, and it finds one exactly when the free counter is not zero. *)
Lemma scan_from_hint p f :
  pmm_inv p → scan_free p (p_next_hint p) (p_frame_count p) = Some f →
  0 <= f < p_frame_count p ∧ is_free p f = true ∧ ∀ g, 0 <= g < f → is_free p g = false.
Proof.
  intros H (Hr & Hf & Hb)%scan_free_Some. pose proof (inv_hint p H).
  split; [lia|]. split; [done|]. intros g Hg.
  destruct (decide (g < p_next_hint p)); [apply inv_below_hint|apply Hb]; done || lia.
Qed.

Lemma scan_from_hint_None p :
  pmm_inv p → scan_free p (p_next_hint p) (p_frame_count p) = None →
  ∀ k, 0 <= k < p_frame_count p → is_free p k = false.
Proof.
  intros H Hn k Hk. pose proof (scan_free_None _ _ _ Hn k).
  destruct (decide (k < p_next_hint p)); [apply inv_below_hint; done || lia|].
  apply H0. lia.
Qed.

Lemma free_frames_zero p :
  pmm_inv p →
  p_free_frames p = 0 ↔ ∀ k, 0 <= k < p_frame_count p → is_free p k = false.
Proof.
  intros H. rewrite (inv_free p H). pose proof (pmm_frame_bounds p H).
  split.
  - intros Hz k Hk. destruct (is_free p k) eqn:Hf; [|done].
    assert (0 < count_z (is_free p) 0 (Z.to_nat (p_frame_count p))); [|lia].
    apply count_z_pos. exists k. split; [lia|done].
  - intros Hk. apply count_z_const_false. intros k ?. apply Hk. lia.
Qed.

Lemma take_frame_updates p f :
  pmm_inv p → 0 <= f < p_frame_count p → (∀ g, 0 <= g < f → is_free p g = false) →
  fst (take_frame p f) = f * PMM_PAGE_SIZE ∧
  updates (λ k, is_free p k && negb (k =? f))%bool p (snd (take_frame p f)).
Proof.
  intros H Hf Hlow. pose proof (pmm_frame_bounds p H).
  pose proof (mark_frame_used_updates p f H ltac:(lia)) as Hu.
  unfold take_frame. simpl. split.
  { apply wrap_small. unfold fits, PMM_PAGE_SIZE. lia. }
  pose proof Hu as (_ & (_ & Hfc & _) & Hk).
  eapply updates_counters; try exact Hu; try done; simpl;
    rewrite wrap_small by (unfold fits; lia).
  - lia.
  - intros k Hk'. change (is_free (mark_frame_used p f) k = false).
    rewrite Hk by lia. destruct (Z.eqb_spec k f); [apply andb_false_r|].
    rewrite Hlow by lia. done.
Qed.

Lemma pmm_alloc_cases p :
  pmm_inv p → p_initialized p = true →
  (pmm_alloc_frame (Some p) = (PMM_INVALID_FRAME, Some p) ∧
   ∀ k, 0 <= k < p_frame_count p → is_free p k = false) ∨
  ∃ f q, pmm_alloc_frame (Some p) = (f * PMM_PAGE_SIZE, Some q) ∧
    0 <= f < p_frame_count p ∧ is_free p f = true ∧
    (∀ g, 0 <= g < f → is_free p g = false) ∧
    updates (λ k, is_free p k && negb (k =? f))%bool p q.
Proof.
  intros H Hi. unfold pmm_alloc_frame. rewrite Hi. cbn [negb orb].
  destruct (Z.eqb_spec (p_free_frames p) 0) as [H0|H0].
  { left. split; [done|]. by apply free_frames_zero. }
  destruct (scan_free p (p_next_hint p) (p_frame_count p)) as [f|] eqn:Hs.
  - right. apply scan_from_hint in Hs as (? & ? & Hlow); [|done].
    destruct (take_frame_updates p f H) as [Ha Hu]; [done..|].
    destruct (take_frame p f) as [a q]. simpl in Ha, Hu. subst a. by exists f, q.
  - destruct H0. apply free_frames_zero; [done|]. by apply scan_from_hint_None.
Qed.

Lemma pmm_free_cases p a :
  pmm_inv p → p_initialized p = true → fits 64 a →
  let ok := a mod PMM_PAGE_SIZE = 0 ∧ 0 < a < p_max_phys p ∧
            is_free p (a / PMM_PAGE_SIZE) = false in
  (ok ∧ ∃ q, pmm_free_frame (Some p) a = (true, Some q) ∧
     updates (λ k, is_free p k || (k =? a / PMM_PAGE_SIZE))%bool p q) ∨
  (¬ ok ∧ pmm_free_frame (Some p) a = (false, Some p)).
Proof.
  intros H Hi Ha. simpl. unfold pmm_free_frame. rewrite Hi, land_page_mask. simpl.
  destruct (Z.eqb_spec (a mod PMM_PAGE_SIZE) 0); simpl; [|right; naive_solver].
  destruct (Z.eqb_spec a 0); simpl; [right; naive_solver lia|].
  destruct (Z.leb_spec (p_max_phys p) a); [right; naive_solver lia|].
  unfold is_free. destruct (bitmap_test _ _) eqn:Ht; simpl; [|right; naive_solver].
  left. destruct Ha. split; [split; [done|]; split; [lia|done]|].
  eexists. split; [done|].
  apply (mark_frame_free_updates p (a / PMM_PAGE_SIZE) H). apply Z.div_pos; [lia|done].
Qed.

(** ** Abstract specification *)

Inductive pmm_op :=
| OpAlloc
| OpFree (phys_addr : Z)
| OpReserve (base len : Z).

Inductive pmm_ret :=
| RetAddr (a : Z)
| RetBool (b : bool).

Definition op_fits (o : pmm_op) : Prop :=
  match o with
  | OpAlloc => True
  | OpFree a => fits 64 a
  | OpReserve base len => fits 64 base ∧ fits 64 len
  end.

(** A call of an interface function on the allocator object. *)
Definition pmm_call (p : ptr pmm_state) (o : pmm_op) : pmm_ret * ptr pmm_state :=
  match o with
  | OpAlloc => let '(a, q) := pmm_alloc_frame p in (RetAddr a, q)
  | OpFree a => let '(b, q) := pmm_free_frame p a in (RetBool b, q)
  | OpReserve base len => let '(b, q) := pmm_reserve_range p base len in (RetBool b, q)
  end.

Fixpoint pmm_calls (p : ptr pmm_state) (os : list pmm_op) : list pmm_ret * ptr pmm_state :=
  match os with
  | [] => ([], p)
  | o :: os' =>
      let '(r, q) := pmm_call p o in
      let '(rs, q') := pmm_calls q os' in (r :: rs, q')
  end.

(** The free frames as a set. *)
Definition pmm_abs (p : pmm_state) : gset Z :=
  list_to_set (filter (λ k, is_free p k = true) (seqZ 0 (p_frame_count p))).

(** One call on the abstract allocator, whose state is the set of free frames. *)
Definition spec_call (max : Z) (F : gset Z) (o : pmm_op) (r : pmm_ret) (F' : gset Z) : Prop :=
  match o with
  | OpAlloc =>
      (F = ∅ ∧ r = RetAddr PMM_INVALID_FRAME ∧ F' = F) ∨
      ∃ f, f ∈ F ∧ (∀ g, g ∈ F → f <= g) ∧
        r = RetAddr (f * PMM_PAGE_SIZE) ∧ F' = F ∖ {[f]}
  | OpFree a =>
      let ok := a mod PMM_PAGE_SIZE = 0 ∧ 0 < a < max ∧ a / PMM_PAGE_SIZE ∉ F in
      (ok ∧ r = RetBool true ∧ F' = {[a / PMM_PAGE_SIZE]} ∪ F) ∨
      (¬ ok ∧ r = RetBool false ∧ F' = F)
  | OpReserve base len =>
      r = RetBool (negb (len =? 0)) ∧
      ∀ k, k ∈ F' ↔ k ∈ F ∧ reserved_by base len k = false
  end.

Inductive spec_calls (max : Z) : gset Z → list pmm_op → list pmm_ret → gset Z → Prop :=
| spec_nil F : spec_calls max F [] [] F
| spec_cons F o r F1 os rs F2 :
    spec_call max F o r F1 → spec_calls max F1 os rs F2 →
    spec_calls max F (o :: os) (r :: rs) F2.

Lemma elem_of_pmm_abs p k :
  k ∈ pmm_abs p ↔ 0 <= k < p_frame_count p ∧ is_free p k = true.
Proof.
  unfold pmm_abs. rewrite elem_of_list_to_set, list_elem_of_filter, elem_of_seqZ.
  rewrite Z.add_0_l. tauto.
Qed.

Lemma updates_abs F p q k :
  updates F p q → k ∈ pmm_abs q ↔ 0 <= k < p_frame_count p ∧ F k = true.
Proof.
  intros (_ & (_ & Hfc & _) & Hk). rewrite elem_of_pmm_abs, Hfc.
  split; intros [Hr Hx]; (split; [done|]); [rewrite <-Hk|rewrite Hk]; done.
Qed.

(** ** Refinement *)

(** A call of [o] on [p] returns, keeps the invariant, and is a call of the
    abstract allocator. *)
Definition call_refines (p : pmm_state) (o : pmm_op) : Prop :=
  ∃ r q, pmm_call (Some p) o = (r, Some q) ∧ pmm_inv q ∧ p_initialized q = true ∧
    p_max_phys q = p_max_phys p ∧ spec_call (p_max_phys p) (pmm_abs p) o r (pmm_abs q).

Lemma updates_call_refines F p q o r :
  p_initialized p = true → updates F p q → pmm_call (Some p) o = (r, Some q) →
  spec_call (p_max_phys p) (pmm_abs p) o r (pmm_abs q) → call_refines p o.
Proof.
  intros Hi (Hq & (Hm & _ & _ & _ & Hin) & _) Hc Hs. exists r, q.
  split; [done|]. split; [done|]. split; [congruence|]. done.
Qed.

Lemma pmm_alloc_refines p :
  pmm_inv p → p_initialized p = true → call_refines p OpAlloc.
Proof.
  intros H Hi. destruct (pmm_alloc_cases p H Hi)
    as [[Ha Hnone]|(f & q & Ha & Hf & Hff & Hlow & Hu)].
  - apply (updates_call_refines _ p p _ (RetAddr PMM_INVALID_FRAME) Hi (updates_refl p H)).
    { unfold pmm_call. by rewrite Ha. }
    left. split; [|done]. apply set_eq. intros k. rewrite elem_of_pmm_abs.
    split; [|set_solver]. intros [Hk Hkf]. rewrite Hnone in Hkf; done.
  - apply (updates_call_refines _ p q _ (RetAddr (f * PMM_PAGE_SIZE)) Hi Hu).
    { unfold pmm_call. by rewrite Ha. }
    right. exists f. rewrite elem_of_pmm_abs. split; [done|]. split; [|split; [done|]].
    + intros g [Hg Hgf]%elem_of_pmm_abs. destruct (decide (g < f)); [|lia].
      rewrite Hlow in Hgf by lia. done.
    + apply set_eq. intros k. rewrite (updates_abs _ _ _ _ Hu).
      rewrite elem_of_difference, elem_of_singleton, elem_of_pmm_abs.
      rewrite andb_true_iff, negb_true_iff, Z.eqb_neq. tauto.
Qed.

Lemma frame_of_addr p a :
  pmm_inv p → a mod PMM_PAGE_SIZE = 0 → 0 < a < p_max_phys p →
  0 <= a / PMM_PAGE_SIZE < p_frame_count p.
Proof.
  intros H Ham Ha. rewrite (inv_count p H). destruct (inv_max p H) as [_ Hm].
  unfold PMM_PAGE_SIZE in *. pose proof (Z.div_mod a 4096).
  pose proof (Z.div_mod (p_max_phys p) 4096). lia.
Qed.

Lemma pmm_free_refines p a :
  pmm_inv p → p_initialized p = true → fits 64 a → call_refines p (OpFree a).
Proof.
  intros H Hi Ho.
  destruct (pmm_free_cases p a H Hi Ho) as [[(Ham & Har & Hf) (q & Ha & Hu)]|[Hok Ha]].
  - apply (updates_call_refines _ p q _ (RetBool true) Hi Hu).
    { unfold pmm_call. by rewrite Ha. }
    left. rewrite elem_of_pmm_abs. split; [naive_solver congruence|]. split; [done|].
    apply set_eq. intros k. rewrite (updates_abs _ _ _ _ Hu).
    rewrite elem_of_union, elem_of_singleton, elem_of_pmm_abs, orb_true_iff, Z.eqb_eq.
    pose proof (frame_of_addr p a H Ham Har). split; [tauto|]. intros [->|?]; tauto.
  - apply (updates_call_refines _ p p _ (RetBool false) Hi (updates_refl p H)).
    { unfold pmm_call. by rewrite Ha. }
    right. split; [|done]. intros (Ham & Har & Hf). apply Hok. split; [done|].
    split; [done|]. apply not_true_iff_false. intros Ht. apply Hf, elem_of_pmm_abs.
    split; [by apply frame_of_addr|done].
Qed.

Lemma pmm_reserve_refines p base len :
  pmm_inv p → p_initialized p = true → fits 64 base → fits 64 len →
  call_refines p (OpReserve base len).
Proof.
  intros H Hi Hb Hl. destruct (Z.eqb_spec len 0) as [->|Hne].
  - apply (updates_call_refines _ p p _ (RetBool false) Hi (updates_refl p H)).
    { simpl. by rewrite Hi. }
    split; [done|]. intros k. unfold reserved_by, touched. simpl.
    rewrite andb_false_r. tauto.
  - pose proof (mark_range_used_updates p base len H Hb Hl) as Hu.
    apply Z.eqb_neq in Hne.
    apply (updates_call_refines _ p _ _ (RetBool true) Hi Hu).
    { simpl. by rewrite Hi, Hne. }
    split; [by rewrite Hne|]. intros k. rewrite (updates_abs _ _ _ _ Hu).
    rewrite elem_of_pmm_abs, andb_true_iff, negb_true_iff. tauto.
Qed.

Lemma pmm_call_refines p o :
  pmm_inv p → p_initialized p = true → op_fits o → call_refines p o.
Proof.
  intros H Hi. destruct o as [|a|base len].
  - intros _. by apply pmm_alloc_refines.
  - by apply pmm_free_refines.
  - intros []. by apply pmm_reserve_refines.
Qed.

(** ** Properties *)

(** A boot map with one usable and one reserved region, used by the witnesses. *)
Definition demo_map : list boot_mem_region :=
  [mk_region 0 0x20000 BOOT_MEM_USABLE; mk_region 0x3000 0x1800 BOOT_MEM_RESERVED].
Definition demo_zero : pmm_state := mk_pmm [] 0 0 0 0 0 0 0 0 false.

(** C15: [pmm_init_from_map] accepts a well-formed request (at least one region,
    [max_phys] a non-zero multiple of the page size, enough bitmap storage) whose
    regions end at or below the start of the last page of the address space, and
    builds a state that satisfies the invariant (counters equal to the number of
    clear/set bits, hint below every free frame) and in which a managed frame is
    free exactly when it lies wholly inside a usable region, is not frame 0, and
    is not touched by any region of another type. *)
Theorem pmm_init_correct p rs storage max :
  rs ≠ [] → Forall region_low rs → 0 < max < 2 ^ 64 → max mod PMM_PAGE_SIZE = 0 →
  bytes_ok storage → (max / PMM_PAGE_SIZE + 7) / 8 <= Z.of_nat (length storage) →
  ∃ q, pmm_init_from_map (Some p) (Some rs) (Some storage) (Z.of_nat (length storage)) max
         = (true, Some q) ∧
    pmm_inv q ∧ p_initialized q = true ∧ p_frame_count q = max / PMM_PAGE_SIZE ∧
    ∀ k, 0 <= k < p_frame_count q → is_free q k = map_free rs k.
Proof.
  intros Hrs Hlow Hmax Hmm Hok Hlen. unfold pmm_init_from_map.
  destruct (Z.eqb_spec (Z.of_nat (length rs)) 0); [by destruct rs|].
  rewrite land_page_mask, Hmm. destruct (Z.eqb_spec max 0); [lia|]. cbn [negb orb Z.eqb].
  assert (fits 64 (max / PMM_PAGE_SIZE + 7)) as Hfit.
  { unfold PMM_PAGE_SIZE. pose proof (Z.div_pos max 4096).
    assert (max / 4096 < 2 ^ 52) by (apply Z.div_lt_upper_bound; lia). split; lia. }
  rewrite (wrap_small 64) by done.
  destruct (Z.ltb_spec (Z.of_nat (length storage)) ((max / PMM_PAGE_SIZE + 7) / 8)); [lia|].
  destruct (pmm_all_used_inv storage max Hmax Hmm Hok Hlen) as [H0 Hused].
  set (p0 := pmm_all_used _ _ _ _) in *.
  assert (Forall region_fits rs) as Hfits.
  { eapply Forall_impl; [exact Hlow|]. apply region_low_fits. }
  pose proof (free_usable_fold p0 rs H0 Hfits) as U1.
  pose proof (mark_range_used_updates _ 0 PMM_PAGE_SIZE (proj1 U1)
    ltac:(done) ltac:(done)) as U2.
  pose proof (reserve_unusable_fold _ rs (proj1 U2) Hfits) as U3.
  set (p3 := foldl reserve_unusable _ rs) in *.
  pose proof (updates_trans _ _ _ _ _ U1 (updates_trans _ _ _ _ _ U2 U3)) as U.
  exists (set_initialized p3). split; [done|]. destruct U as (Hi3 & (_ & Hfc & _) & Hk3).
  split; [destruct Hi3; by constructor|]. split; [done|]. split; [done|].
  intros k Hk. change (p_frame_count (set_initialized p3)) with (p_frame_count p3) in Hk.
  rewrite Hfc in Hk. change (is_free (set_initialized p3) k) with (is_free p3 k).
  rewrite Hk3 by done. rewrite map_free_low by (done || lia).
  destruct U1 as (? & (_ & Hfc1 & _) & Hk1), U2 as (_ & _ & Hk2).
  rewrite Hk2, Hk1, Hused by (rewrite ?Hfc1; done). done.
Qed.

Lemma pmm_init_correct_witness :
  ∃ q, pmm_init_from_map (Some demo_zero) (Some demo_map) (Some (replicate 8 7)) 8 0x40000
         = (true, Some q) ∧
    pmm_inv q ∧ p_initialized q = true ∧ p_frame_count q = 64 ∧
    ∀ k, 0 <= k < p_frame_count q → is_free q k = map_free demo_map k.
Proof.
  apply (pmm_init_correct demo_zero demo_map (replicate 8 7) 0x40000).
  - done.
  - repeat constructor; vm_compute; congruence.
  - lia.
  - reflexivity.
  - apply Forall_replicate. unfold byte_ok. lia.
  - vm_compute. congruence.
Defined.

Definition demo_pmm : pmm_state := Eval vm_compute in
  match pmm_init_from_map (Some demo_zero) (Some demo_map) (Some (replicate 8 7)) 8 0x40000 with
  | (_, Some q) => q
  | _ => demo_zero
  end.

Lemma demo_pmm_inv : pmm_inv demo_pmm.
Proof.
  constructor; try (vm_compute; intuition congruence).
  - repeat constructor; vm_compute; congruence.
  - intros k Hk. change (p_next_hint demo_pmm) with 0 in Hk. lia.
Qed.

(** C2: the allocator refines its specification.  From any initialised state
    that satisfies the invariant, every sequence of [pmm_alloc_frame],
    [pmm_free_frame] and [pmm_reserve_range] calls with 64-bit arguments returns
    what the abstract set of free frames returns (allocation takes the lowest
    free frame or fails when there is none, release succeeds exactly on an
    aligned non-zero address below [max_phys] whose frame is in use,
    reservation removes the touched frames), and the invariant holds after it. *)
Theorem pmm_calls_refine p os :
  pmm_inv p → p_initialized p = true → Forall op_fits os →
  ∃ rs q, pmm_calls (Some p) os = (rs, Some q) ∧ pmm_inv q ∧
    spec_calls (p_max_phys p) (pmm_abs p) os rs (pmm_abs q).
Proof.
  intros H Hi Hos. revert p H Hi. induction Hos as [|o os Ho _ IH]; intros p H Hi.
  { exists [], p. split; [done|]. split; [done|constructor]. }
  destruct (pmm_call_refines p o H Hi Ho) as (r & q & Hc & Hq & Hqi & Hm & Hs).
  destruct (IH q Hq Hqi) as (rs & q' & Hcs & Hq' & Hss).
  exists (r :: rs), q'. simpl. rewrite Hc, Hcs. split; [done|]. split; [done|].
  rewrite Hm in Hss. by econstructor.
Qed.

Lemma pmm_calls_refine_witness :
  ∃ rs q, pmm_calls (Some demo_pmm) [OpAlloc; OpFree 4096; OpFree 4096; OpReserve 0x1000 0x5000]
            = (rs, Some q) ∧ pmm_inv q ∧
    spec_calls (p_max_phys demo_pmm) (pmm_abs demo_pmm)
      [OpAlloc; OpFree 4096; OpFree 4096; OpReserve 0x1000 0x5000] rs (pmm_abs q).
Proof.
  apply (pmm_calls_refine demo_pmm).
  - exact demo_pmm_inv.
  - vm_compute. reflexivity.
  - repeat constructor; vm_compute; congruence.
Defined.

(** Allocation and release are inverse.  When a frame is free, allocation
    returns an aligned non-negative address below [max_phys] of a frame that was
    free and is not free afterwards, and releasing that address (unless it is
    frame 0, which release refuses) succeeds and restores the status of every
    frame; releasing it a second time is refused. *)
Theorem pmm_alloc_free_roundtrip p k :
  pmm_inv p → p_initialized p = true → 0 <= k < p_frame_count p → is_free p k = true →
  ∃ a q, pmm_alloc_frame (Some p) = (a, Some q) ∧
    pmm_is_frame_free (Some p) a = true ∧ pmm_is_frame_free (Some q) a = false ∧
    (a ≠ 0 → ∃ r, pmm_free_frame (Some q) a = (true, Some r) ∧
      (∀ j, 0 <= j < p_frame_count p → is_free r j = is_free p j) ∧
      p_free_frames r = p_free_frames p ∧
      pmm_free_frame (Some r) a = (false, Some r)).
Proof.
  intros H Hi Hk Hfk.
  destruct (pmm_alloc_cases p H Hi) as [[_ Hnone]|(f & q & Ha & Hf & Hff & _ & Hu)].
  { by rewrite Hnone in Hfk. }
  pose proof Hu as (Hq & (Hm & Hfc & _ & _ & Hqi) & Hkq).
  assert ((f * PMM_PAGE_SIZE) / PMM_PAGE_SIZE = f) as Hdiv by (apply Z.div_mul; done).
  assert ((f * PMM_PAGE_SIZE) mod PMM_PAGE_SIZE = 0) as Hmod by (apply Z.mod_mul; done).
  pose proof (frame_end_le p f H Hf) as Hend. pose proof (pmm_frame_bounds p H).
  assert (f * PMM_PAGE_SIZE < p_max_phys p) as Hlt by (unfold PMM_PAGE_SIZE in *; lia).
  assert (∀ s, pmm_inv s → p_initialized s = true → p_max_phys s = p_max_phys p →
    pmm_is_frame_free (Some s) (f * PMM_PAGE_SIZE) = is_free s f) as Hisf.
  { intros s Hs His Hms. unfold pmm_is_frame_free.
    rewrite His, land_page_mask, Hmod, Hms, Hdiv. simpl.
    destruct (Z.leb_spec (p_max_phys p) (f * PMM_PAGE_SIZE)); [lia|done]. }
  exists (f * PMM_PAGE_SIZE), q. split; [done|].
  rewrite !Hisf by (done || congruence). split; [done|].
  split; [rewrite Hkq by done; by rewrite Z.eqb_refl, andb_false_r|].
  intros Hne.
  destruct (pmm_free_cases q (f * PMM_PAGE_SIZE) Hq ltac:(congruence)) as [[_ (r & Hr & Hv)]|[Hno _]].
  { destruct (inv_max p H). unfold fits, PMM_PAGE_SIZE in *. lia. }
  2:{ destruct Hno. split; [done|]. split; [unfold PMM_PAGE_SIZE in *; lia|].
      rewrite Hdiv, Hkq by done. by rewrite Z.eqb_refl, andb_false_r. }
  rewrite Hdiv in Hv. pose proof Hv as (Hri & (Hrm & Hrfc & _ & _ & Hrin) & Hkr).
  exists r. split; [done|]. rewrite Hfc in Hkr.
  assert (∀ j, 0 <= j < p_frame_count p → is_free r j = is_free p j) as Hsame.
  { intros j Hj. rewrite Hkr, Hkq by done.
    destruct (Z.eqb_spec j f) as [->|]; [by rewrite Hff|].
    by rewrite orb_false_r, andb_true_r. }
  split; [done|]. split.
  { rewrite (inv_free r Hri), (inv_free p H), Hrfc, Hfc. apply count_z_ext.
    intros j Hj. apply Hsame. lia. }
  destruct (pmm_free_cases r (f * PMM_PAGE_SIZE) Hri ltac:(congruence)) as [[(_ & _ & Hx) _]|[_ Hx]].
  { destruct (inv_max p H). unfold fits, PMM_PAGE_SIZE in *. lia. }
  - rewrite Hdiv, Hsame in Hx by done. congruence.
  - done.
Qed.

Lemma pmm_alloc_free_roundtrip_witness :
  ∃ a q, pmm_alloc_frame (Some demo_pmm) = (a, Some q) ∧
    pmm_is_frame_free (Some demo_pmm) a = true ∧ pmm_is_frame_free (Some q) a = false ∧
    (a ≠ 0 → ∃ r, pmm_free_frame (Some q) a = (true, Some r) ∧
      (∀ j, 0 <= j < p_frame_count demo_pmm → is_free r j = is_free demo_pmm j) ∧
      p_free_frames r = p_free_frames demo_pmm ∧
      pmm_free_frame (Some r) a = (false, Some r)).
Proof.
  apply (pmm_alloc_free_roundtrip demo_pmm 1).
  - exact demo_pmm_inv.
  - reflexivity.
  - vm_compute. intuition congruence.
  - reflexivity.
Defined.

(** C32: [mark_range_free] on a usable region that begins past the start of the
    last page of the 64-bit address space (and ends below 2^64) releases every
    frame below [max_phys]: [align_up]
    wraps to 0, so the loop starts at frame 0.  The code means to release only
    frames inside the region. *)
Theorem mark_range_free_wraps p base len :
  pmm_inv p → 2 ^ 64 - PMM_PAGE_SIZE < base → 0 < len → base + len < 2 ^ 64 →
  ∀ k, 0 <= k < p_frame_count p → is_free (mark_range_free p base len) k = true.
Proof.
  intros H Hb Hl Hlt k Hk.
  destruct (mark_range_free_updates p base len H) as (_ & _ & ->);
    [unfold fits, PMM_PAGE_SIZE in *; lia..| |done].
  unfold freed_by. destruct (Z.leb_spec base (2 ^ 64 - PMM_PAGE_SIZE)); [lia|].
  destruct (Z.ltb_spec 0 len), (Z.ltb_spec (base + len) (2 ^ 64)); [|lia..].
  apply orb_true_r.
Qed.

Lemma mark_range_free_wraps_witness :
  is_free demo_pmm 3 = false ∧
  is_free (mark_range_free demo_pmm 0xfffffffffffff001 0xffe) 3 = true.
Proof.
  split; [reflexivity|].
  apply (mark_range_free_wraps demo_pmm 0xfffffffffffff001 0xffe); try (vm_compute; congruence).
  - exact demo_pmm_inv.
  - vm_compute. intuition congruence.
Defined.

(** C33: [pmm_reserve_range] on a range that ends in (or past) the last page of
    the address space reports success and reserves nothing, although the range
    can cover every frame. *)
Theorem pmm_reserve_range_wraps p base len :
  pmm_inv p → p_initialized p = true → fits 64 base → fits 64 len → len ≠ 0 →
  2 ^ 64 - PMM_PAGE_SIZE < base + len →
  ∃ q, pmm_reserve_range (Some p) base len = (true, Some q) ∧
    ∀ k, 0 <= k < p_frame_count p → is_free q k = is_free p k.
Proof.
  intros H Hi Hb Hl Hne Hw. unfold pmm_reserve_range. rewrite Hi.
  apply Z.eqb_neq in Hne. rewrite Hne. cbn [negb orb]. eexists. split; [reflexivity|]. intros k Hk.
  destruct (mark_range_used_updates p base len H Hb Hl) as (_ & _ & ->); [|done].
  unfold reserved_by. destruct (Z.leb_spec (base + len) (2 ^ 64 - PMM_PAGE_SIZE)); [lia|].
  apply andb_true_r.
Qed.

Lemma pmm_reserve_range_wraps_witness :
  ∃ q, pmm_reserve_range (Some demo_pmm) 0x1000 0xffffffffffffeffe = (true, Some q) ∧
    ∀ k, 0 <= k < p_frame_count demo_pmm → is_free q k = is_free demo_pmm k.
Proof.
  apply (pmm_reserve_range_wraps demo_pmm 0x1000 0xffffffffffffeffe);
    try (vm_compute; intuition congruence).
  exact demo_pmm_inv.
Defined.
