(* ===== verification/Journal.v ===== *)
(** * MCSFS1J: file system with a write-ahead journal
      (kernel/fs/mcsfs1j/m16_mcsfs_journal.c)

    The device is an array of 512-byte blocks with the source's fault injection
    counter [fail_after]: once it reaches 0 every write fails, so the blocks a
    run leaves behind are what a power loss after that many writes leaves.  The
    on-disk structures are byte offsets into a block, as the C code overlays its
    structs on block buffers. *)

From Stdlib Require Import ZArith Lia.
From stdpp Require Import base list numbers option.
From S2P Require Import Prelude Bitmap.

Local Open Scope Z_scope.
Local Open Scope cm_scope.

(** ** Constants (lines 9-36) *)

Definition M16_BLOCK_SIZE : Z := 512.
Definition M16_MAX_BLOCKS : Z := 128.
Definition M16_MAX_INODES : Z := 16.
Definition M16_MAX_NAME : Z := 32.
Definition M16_MAGIC : Z := 0x4d43534631564a31.
Definition M16_JMAGIC : Z := 0x4d43534a524e4c31.
Definition M16_VERSION : Z := 1.
Definition M16_J_EMPTY : Z := 0.
Definition M16_J_COMMITTED : Z := 2.
Definition M16_JOURNAL_MAX_RECORDS : Z := 8.
Definition M16_JOURNAL_START : Z := 1.
Definition M16_JOURNAL_BLOCKS : Z := 1 + 2 * M16_JOURNAL_MAX_RECORDS.
Definition M16_INODE_BITMAP_LBA : Z := M16_JOURNAL_START + M16_JOURNAL_BLOCKS.
Definition M16_BLOCK_BITMAP_LBA : Z := M16_INODE_BITMAP_LBA + 1.
Definition M16_INODE_TABLE_LBA : Z := M16_BLOCK_BITMAP_LBA + 1.
Definition M16_INODE_TABLE_BLOCKS : Z := 4.
Definition M16_ROOT_DIR_LBA : Z := M16_INODE_TABLE_LBA + M16_INODE_TABLE_BLOCKS.
Definition M16_DATA_START_LBA : Z := M16_ROOT_DIR_LBA + 1.

Definition M16_E_INVAL : Z := -1.
Definition M16_E_IO : Z := -2.
Definition M16_E_NOSPC : Z := -3.
Definition M16_E_EXISTS : Z := -4.
Definition M16_E_NOENT : Z := -5.
Definition M16_E_CORRUPT : Z := -6.
Definition M16_E_TOOLONG : Z := -7.

(** Offsets of the fields of [struct m16_super], [m16_inode], [m16_dirent],
    [m16_journal_header] and [m16_journal_desc] (lines 45-91), and the sizes of
    the structures that are array elements. *)
Module Off.
Definition sb_magic : nat := 0.
Definition sb_version : nat := 8.
Definition sb_block_size : nat := 12.
Definition sb_total_blocks : nat := 16.
Definition sb_journal_start : nat := 20.
Definition sb_journal_blocks : nat := 24.
Definition sb_inode_bitmap_lba : nat := 28.
Definition sb_block_bitmap_lba : nat := 32.
Definition sb_inode_table_lba : nat := 36.
Definition sb_inode_table_blocks : nat := 40.
Definition sb_root_dir_lba : nat := 44.
Definition sb_data_start_lba : nat := 48.
Definition sb_clean_generation : nat := 52.
Definition inode_size : nat := 128.
Definition i_used : nat := 0.
Definition i_kind : nat := 4.
Definition i_size : nat := 8.
Definition i_direct0 : nat := 12.
Definition dirent_size : nat := 40.
Definition d_used : nat := 0.
Definition d_ino : nat := 4.
Definition d_name : nat := 8.
Definition h_magic : nat := 0.
Definition h_version : nat := 8.
Definition h_state : nat := 12.
Definition h_seq : nat := 16.
Definition h_count : nat := 20.
Definition h_checksum : nat := 24.
Definition j_magic : nat := 0.
Definition j_target_lba : nat := 8.
Definition j_payload_checksum : nat := 12.
End Off.

(** ** Data *)

Record m16_blockdev := mk_dev {
  blocks : list (list Z);
  total_blocks : Z;
  writes : Z;
  fail_after : Z
}.

Record m16_jrec := mk_jrec {
  target_lba : Z;
  payload : list Z
}.

(** [struct m16_tx]: the first [count] entries of its record array. *)
Definition m16_tx : Type := list m16_jrec.

(** ** Byte helpers *)

Definition m16_zero (n : nat) : list Z := replicate n 0.

Definition m16_copy (dst src : list Z) (n : Z) : list Z :=
  take (Z.to_nat n) src ++ drop (Z.to_nat n) dst.

(** [s[i]] of a C string; the byte after the last one is the terminator. *)
Definition char_at (s : list Z) (i : nat) : Z := nth i s 0.

Fixpoint strlen_from (s : list Z) (n fuel : nat) : nat :=
  match fuel with
  | O => n
  | S fuel' => if char_at s n =? 0 then n else strlen_from s (S n) fuel'
  end.

Definition m16_strlen_bounded (s : list Z) (max : Z) : Z :=
  Z.of_nat (strlen_from s 0 (Z.to_nat max)).

Fixpoint streq_from (a b : list Z) (i fuel : nat) : bool :=
  match fuel with
  | O => true
  | S fuel' =>
      if negb (char_at a i =? char_at b i) then false
      else if char_at a i =? 0 then true
      else streq_from a b (S i) fuel'
  end.

Definition m16_streq (a b : list Z) : bool := streq_from a b 0 (Z.to_nat M16_MAX_NAME).

Definition m16_checksum (bytes : list Z) : Z :=
  foldl (λ h b, u32 (u32 (Z.lxor h b) * 16777619)) 2166136261 bytes.

(** ** Block access *)

Definition m16_valid_lba (dev : m16_blockdev) (lba : Z) : bool :=
  (lba <? total_blocks dev) && (lba <? M16_MAX_BLOCKS).

Definition m16_read_block (lba : Z) : M m16_blockdev (list Z) :=
  null_check M16_E_INVAL ;;
  let* dev := deref in
  fail_if (negb (m16_valid_lba dev lba)) M16_E_INVAL ;;
  ret (nth (Z.to_nat lba) (blocks dev) []).

Definition m16_write_block (lba : Z) (data : list Z) : M m16_blockdev unit :=
  null_check M16_E_INVAL ;;
  let* dev := deref in
  fail_if (negb (m16_valid_lba dev lba)) M16_E_INVAL ;;
  fail_if (fail_after dev =? 0) M16_E_IO ;;
  store (mk_dev
    (<[Z.to_nat lba := m16_copy (nth (Z.to_nat lba) (blocks dev) []) data M16_BLOCK_SIZE]> (blocks dev))
    (total_blocks dev) (u64 (writes dev + 1))
    (if 0 <? fail_after dev then fail_after dev - 1 else fail_after dev)).

Definition zero_blocks : list (list Z) :=
  replicate (Z.to_nat M16_MAX_BLOCKS) (m16_zero (Z.to_nat M16_BLOCK_SIZE)).

Definition m16_dev_init (dev : ptr m16_blockdev) : ptr m16_blockdev :=
  match dev with
  | None => None
  | Some _ => Some (mk_dev zero_blocks M16_MAX_BLOCKS 0 (-1))
  end.

Definition m16_bitmap_set (bm : list Z) (bit : Z) : list Z := bm_set bm bit.
Definition m16_bitmap_get (bm : list Z) (bit : Z) : bool := bm_test bm bit.

(** ** Transactions *)

(** The inode table is the 2048 bytes of its four blocks. *)
Definition m16_load_inode_table : M m16_blockdev (list Z) :=
  let* b0 := m16_read_block (M16_INODE_TABLE_LBA + 0) in
  let* b1 := m16_read_block (M16_INODE_TABLE_LBA + 1) in
  let* b2 := m16_read_block (M16_INODE_TABLE_LBA + 2) in
  let* b3 := m16_read_block (M16_INODE_TABLE_LBA + 3) in
  ret (b0 ++ b1 ++ b2 ++ b3).

Definition inode_block (inodes : list Z) (i : Z) : list Z :=
  slice (Z.to_nat (i * M16_BLOCK_SIZE)) (Z.to_nat M16_BLOCK_SIZE) inodes.

Definition m16_store_inode_table (tx : m16_tx) (inodes : list Z) : res m16_tx :=
  if M16_JOURNAL_MAX_RECORDS <? Z.of_nat (length tx) + M16_INODE_TABLE_BLOCKS
  then Err M16_E_NOSPC
  else Ok (tx ++ ((λ i, mk_jrec (M16_INODE_TABLE_LBA + i) (inode_block inodes i))
                   <$> seqZ 0 M16_INODE_TABLE_BLOCKS)).

Definition m16_tx_add (tx : m16_tx) (lba : Z) (data : list Z) : res m16_tx :=
  if M16_JOURNAL_MAX_RECORDS <=? Z.of_nat (length tx) then Err M16_E_NOSPC
  else Ok (tx ++ [mk_jrec lba (take (Z.to_nat M16_BLOCK_SIZE) data)]).

(** The field is zeroed for the sum and restored afterwards. *)
Definition m16_header_checksum (h : list Z) : Z := m16_checksum (st 4 Off.h_checksum 0 h).

Definition m16_journal_clear : M m16_blockdev unit :=
  m16_write_block M16_JOURNAL_START (m16_zero 512).

Definition desc_lba (i : Z) : Z := M16_JOURNAL_START + 1 + i * 2.

Definition journal_desc (r : m16_jrec) : list Z :=
  let d := m16_zero 512 in
  let d := st 8 Off.j_magic M16_JMAGIC d in
  let d := st 4 Off.j_target_lba (target_lba r) d in
  st 4 Off.j_payload_checksum (m16_checksum (payload r)) d.

Definition journal_header (seq count : Z) : list Z :=
  let h := m16_zero 512 in
  let h := st 8 Off.h_magic M16_JMAGIC h in
  let h := st 4 Off.h_version M16_VERSION h in
  let h := st 4 Off.h_state M16_J_COMMITTED h in
  let h := st 4 Off.h_seq seq h in
  let h := st 4 Off.h_count count h in
  st 4 Off.h_checksum (m16_header_checksum h) h.

Definition m16_journal_commit (tx : m16_tx) (seq : Z) (stop_after_commit_record : Z)
    : M m16_blockdev unit :=
  null_check M16_E_INVAL ;;
  fail_if (M16_JOURNAL_MAX_RECORDS <? Z.of_nat (length tx)) M16_E_INVAL ;;
  m16_journal_clear ;;
  iterM (λ '(i, r),
    m16_write_block (desc_lba i) (journal_desc r) ;;
    m16_write_block (desc_lba i + 1) (payload r))
    (zip (seqZ 0 (Z.of_nat (length tx))) tx) ;;
  m16_write_block M16_JOURNAL_START (journal_header seq (Z.of_nat (length tx))) ;;
  if negb (stop_after_commit_record =? 0) then ret tt
  else
    iterM (λ r, m16_write_block (target_lba r) (payload r)) tx ;;
    m16_journal_clear.

(** One iteration of the replay loop. *)
Definition m16_replay_record (i : Z) : M m16_blockdev unit :=
  let* d := m16_read_block (desc_lba i) in
  let* dev := deref in
  fail_if (negb (ld 8 Off.j_magic d =? M16_JMAGIC)
    || negb (m16_valid_lba dev (ld 4 Off.j_target_lba d))) M16_E_CORRUPT ;;
  let* data := m16_read_block (desc_lba i + 1) in
  fail_if (negb (m16_checksum data =? ld 4 Off.j_payload_checksum d)) M16_E_CORRUPT ;;
  m16_write_block (ld 4 Off.j_target_lba d) data.

Definition m16_journal_recover : M m16_blockdev unit :=
  null_check M16_E_INVAL ;;
  let* h := m16_read_block M16_JOURNAL_START in
  if (ld 8 Off.h_magic h =? 0) && (ld 4 Off.h_state h =? M16_J_EMPTY) then ret tt
  else
    fail_if (negb (ld 8 Off.h_magic h =? M16_JMAGIC) || negb (ld 4 Off.h_version h =? M16_VERSION)
      || negb (ld 4 Off.h_state h =? M16_J_COMMITTED)
      || (M16_JOURNAL_MAX_RECORDS <? ld 4 Off.h_count h)) M16_E_CORRUPT ;;
    fail_if (negb (m16_header_checksum h =? ld 4 Off.h_checksum h)) M16_E_CORRUPT ;;
    iterM m16_replay_record (seqZ 0 (ld 4 Off.h_count h)) ;;
    m16_journal_clear.

(** ** Format and mount *)

Definition super_block (total : Z) : list Z :=
  let sb := m16_zero 512 in
  let sb := st 8 Off.sb_magic M16_MAGIC sb in
  let sb := st 4 Off.sb_version M16_VERSION sb in
  let sb := st 4 Off.sb_block_size M16_BLOCK_SIZE sb in
  let sb := st 4 Off.sb_total_blocks total sb in
  let sb := st 4 Off.sb_journal_start M16_JOURNAL_START sb in
  let sb := st 4 Off.sb_journal_blocks M16_JOURNAL_BLOCKS sb in
  let sb := st 4 Off.sb_inode_bitmap_lba M16_INODE_BITMAP_LBA sb in
  let sb := st 4 Off.sb_block_bitmap_lba M16_BLOCK_BITMAP_LBA sb in
  let sb := st 4 Off.sb_inode_table_lba M16_INODE_TABLE_LBA sb in
  let sb := st 4 Off.sb_inode_table_blocks M16_INODE_TABLE_BLOCKS sb in
  let sb := st 4 Off.sb_root_dir_lba M16_ROOT_DIR_LBA sb in
  let sb := st 4 Off.sb_data_start_lba M16_DATA_START_LBA sb in
  st 4 Off.sb_clean_generation 1 sb.

Definition inode_field (ino : Z) (field : nat) : nat := (Off.inode_size * Z.to_nat ino + field)%nat.
Definition dirent_field (slot : Z) (field : nat) : nat := (Off.dirent_size * Z.to_nat slot + field)%nat.

Definition fresh_inodes : list Z :=
  let t := m16_zero 2048 in
  let t := st 4 (inode_field 0 Off.i_used) 1 t in
  let t := st 4 (inode_field 0 Off.i_kind) 2 t in
  let t := st 4 (inode_field 0 Off.i_size) 0 t in
  st 4 (inode_field 0 Off.i_direct0) M16_ROOT_DIR_LBA t.

Definition m16_format : M m16_blockdev unit :=
  null_check M16_E_INVAL ;;
  let* dev := deref in
  store (mk_dev zero_blocks (total_blocks dev) (writes dev) (fail_after dev)) ;;
  m16_write_block 0 (super_block (total_blocks dev)) ;;
  let ib := m16_bitmap_set (m16_zero 512) 0 in
  let bb := foldl m16_bitmap_set (m16_zero 512) (seqZ 0 M16_DATA_START_LBA) in
  m16_write_block M16_INODE_BITMAP_LBA ib ;;
  m16_write_block M16_BLOCK_BITMAP_LBA bb ;;
  iterM (λ i, m16_write_block (M16_INODE_TABLE_LBA + i) (inode_block fresh_inodes i))
    (seqZ 0 M16_INODE_TABLE_BLOCKS) ;;
  m16_write_block M16_ROOT_DIR_LBA (m16_zero 512) ;;
  m16_journal_clear.

(** The result is the superblock the C function fills in. *)
Definition m16_mount : M m16_blockdev (list Z) :=
  null_check M16_E_INVAL ;;
  m16_journal_recover ;;
  let* sb := m16_read_block 0 in
  fail_if (negb (ld 8 Off.sb_magic sb =? M16_MAGIC) || negb (ld 4 Off.sb_version sb =? M16_VERSION)
    || negb (ld 4 Off.sb_block_size sb =? M16_BLOCK_SIZE)) M16_E_CORRUPT ;;
  fail_if (negb (ld 4 Off.sb_data_start_lba sb =? M16_DATA_START_LBA)
    || negb (ld 4 Off.sb_root_dir_lba sb =? M16_ROOT_DIR_LBA)) M16_E_CORRUPT ;;
  ret sb.

(** ** Searches *)

Definition or_code (o : option Z) (rc : Z) : Z := match o with Some i => i | None => rc end.

Definition m16_find_free_inode (ib : list Z) : Z :=
  or_code (find_z (λ i, negb (m16_bitmap_get ib i)) 1 (Z.to_nat (M16_MAX_INODES - 1))) M16_E_NOSPC.

Definition m16_find_free_block (bb : list Z) : Z :=
  or_code (find_z (λ i, negb (m16_bitmap_get bb i)) M16_DATA_START_LBA
             (Z.to_nat (M16_MAX_BLOCKS - M16_DATA_START_LBA))) M16_E_NOSPC.

(** [M16_BLOCK_SIZE / sizeof(struct m16_dirent)] *)
Definition dirent_count : Z := M16_BLOCK_SIZE / Z.of_nat Off.dirent_size.

Definition dirent_used (dir : list Z) (i : Z) : Z := ld 4 (dirent_field i Off.d_used) dir.
Definition dirent_ino (dir : list Z) (i : Z) : Z := ld 4 (dirent_field i Off.d_ino) dir.
Definition dirent_name (dir : list Z) (i : Z) : list Z :=
  slice (dirent_field i Off.d_name) (Z.to_nat M16_MAX_NAME) dir.

Definition m16_find_dirent (dir name : list Z) : Z :=
  or_code (find_z (λ i, negb (dirent_used dir i =? 0) && m16_streq (dirent_name dir i) name)
             0 (Z.to_nat dirent_count)) M16_E_NOENT.

Definition m16_find_free_dirent (dir : list Z) : Z :=
  or_code (find_z (λ i, dirent_used dir i =? 0) 0 (Z.to_nat dirent_count)) M16_E_NOSPC.

(** ** Files *)

Definition set_inode (inodes : list Z) (ino size data_block : Z) : list Z :=
  let t := st 4 (inode_field ino Off.i_used) 1 inodes in
  let t := st 4 (inode_field ino Off.i_kind) 1 t in
  let t := st 4 (inode_field ino Off.i_size) size t in
  st 4 (inode_field ino Off.i_direct0) data_block t.

Definition set_dirent (dir : list Z) (slot ino : Z) (name : list Z) (name_len : Z) : list Z :=
  let d := st 4 (dirent_field slot Off.d_used) 1 dir in
  let d := st 4 (dirent_field slot Off.d_ino) ino d in
  let d := splice (dirent_field slot Off.d_name) (m16_zero (Z.to_nat M16_MAX_NAME)) d in
  splice (dirent_field slot Off.d_name) (take (Z.to_nat name_len) name) d.

(** The first transaction: bitmaps and inode table. *)
Definition meta_tx (ib bb inodes : list Z) : res m16_tx :=
  match m16_tx_add [] M16_INODE_BITMAP_LBA ib with
  | Ok tx =>
      match m16_tx_add tx M16_BLOCK_BITMAP_LBA bb with
      | Ok tx => m16_store_inode_table tx inodes
      | e => e
      end
  | e => e
  end.

(** The second transaction: root directory and data block. *)
Definition data_tx (dir : list Z) (data_block : Z) (data_blk : list Z) : res m16_tx :=
  match m16_tx_add [] M16_ROOT_DIR_LBA dir with
  | Ok tx => m16_tx_add tx data_block data_blk
  | e => e
  end.

Definition m16_write_file_ex (name data : ptr (list Z)) (size : Z) (stop_after_commit_record : Z)
    : M m16_blockdev unit :=
  null_check M16_E_INVAL ;;
  match name, data with
  | Some name, Some data =>
      let name_len := m16_strlen_bounded name M16_MAX_NAME in
      fail_if ((name_len =? 0) || (M16_MAX_NAME <=? name_len)) M16_E_TOOLONG ;;
      fail_if (M16_BLOCK_SIZE <? size) M16_E_INVAL ;;
      let* sb := m16_mount in
      let* ib := m16_read_block M16_INODE_BITMAP_LBA in
      let* bb := m16_read_block M16_BLOCK_BITMAP_LBA in
      let* inodes := m16_load_inode_table in
      let* dir := m16_read_block M16_ROOT_DIR_LBA in
      fail_if (0 <=? m16_find_dirent dir name) M16_E_EXISTS ;;
      let ino := m16_find_free_inode ib in
      fail_if (ino <? 0) ino ;;
      let data_block := m16_find_free_block bb in
      fail_if (data_block <? 0) data_block ;;
      let slot := m16_find_free_dirent dir in
      fail_if (slot <? 0) slot ;;
      if Z.of_nat (length data) <? size then ub
      else
        let data_blk := m16_copy (m16_zero 512) data size in
        let ib := m16_bitmap_set ib ino in
        let bb := m16_bitmap_set bb data_block in
        let inodes := set_inode inodes ino size data_block in
        let dir := set_dirent dir slot ino name name_len in
        let* tx := lift (meta_tx ib bb inodes) in
        m16_journal_commit tx (u32 (ld 4 Off.sb_clean_generation sb + 1)) 0 ;;
        let* tx := lift (data_tx dir data_block data_blk) in
        m16_journal_commit tx (u32 (ld 4 Off.sb_clean_generation sb + 2)) stop_after_commit_record
  | _, _ => fail M16_E_INVAL
  end.

Definition m16_write_file (name data : ptr (list Z)) (size : Z) : M m16_blockdev unit :=
  m16_write_file_ex name data size 0.

Definition inode_get (inodes : list Z) (ino : Z) (field : nat) : Z :=
  ld 4 (inode_field ino field) inodes.

(** The result is the new content of [out] and the value of [*out_size].  The
    byte copy from the 512-byte local [blk] is undefined when the inode's size
    is larger. *)
Definition m16_read_file (name out : ptr (list Z)) (out_cap : Z) (out_size : ptr Z)
    : M m16_blockdev (list Z * Z) :=
  null_check M16_E_INVAL ;;
  match name, out, out_size with
  | Some name, Some out, Some _ =>
      m16_mount ;;
      let* inodes := m16_load_inode_table in
      let* dir := m16_read_block M16_ROOT_DIR_LBA in
      let slot := m16_find_dirent dir name in
      fail_if (slot <? 0) slot ;;
      let ino := dirent_ino dir slot in
      fail_if ((M16_MAX_INODES <=? ino) || (inode_get inodes ino Off.i_used =? 0)
        || negb (inode_get inodes ino Off.i_kind =? 1)) M16_E_CORRUPT ;;
      let* dev := deref in
      fail_if ((out_cap <? inode_get inodes ino Off.i_size)
        || (total_blocks dev <=? inode_get inodes ino Off.i_direct0)) M16_E_INVAL ;;
      let* blk := m16_read_block (inode_get inodes ino Off.i_direct0) in
      let size := inode_get inodes ino Off.i_size in
      if M16_BLOCK_SIZE <? size then ub
      else ret (m16_copy out blk size, size)
  | _, _, _ => fail M16_E_INVAL
  end.

(** The check of one directory entry. *)
Definition fsck_dirent (total : Z) (ib bb inodes dir : list Z) (i : Z) : M m16_blockdev unit :=
  if dirent_used dir i =? 0 then ret tt
  else
    let ino := dirent_ino dir i in
    fail_if ((M16_MAX_INODES <=? ino) || negb (m16_bitmap_get ib ino)) M16_E_CORRUPT ;;
    fail_if ((inode_get inodes ino Off.i_used =? 0) || negb (inode_get inodes ino Off.i_kind =? 1)
      || (M16_BLOCK_SIZE <? inode_get inodes ino Off.i_size)) M16_E_CORRUPT ;;
    let d0 := inode_get inodes ino Off.i_direct0 in
    fail_if ((d0 <? M16_DATA_START_LBA) || (total <=? d0) || negb (m16_bitmap_get bb d0))
      M16_E_CORRUPT.

Definition m16_fsck : M m16_blockdev unit :=
  null_check M16_E_INVAL ;;
  m16_mount ;;
  let* ib := m16_read_block M16_INODE_BITMAP_LBA in
  let* bb := m16_read_block M16_BLOCK_BITMAP_LBA in
  let* inodes := m16_load_inode_table in
  let* dir := m16_read_block M16_ROOT_DIR_LBA in
  fail_if (negb (m16_bitmap_get ib 0) || negb (inode_get inodes 0 Off.i_used =? 1)
    || negb (inode_get inodes 0 Off.i_kind =? 2)
    || negb (inode_get inodes 0 Off.i_direct0 =? M16_ROOT_DIR_LBA)) M16_E_CORRUPT ;;
  iterM (λ b, fail_if (negb (m16_bitmap_get bb b)) M16_E_CORRUPT) (seqZ 0 M16_DATA_START_LBA) ;;
  let* dev := deref in
  iterM (fsck_dirent (total_blocks dev) ib bb inodes dir) (seqZ 0 dirent_count).

(** ** Block writes as a list *)

Abbreviation wr := (Z * list Z)%type.

(** The blocks after the writes [ws]. *)
Definition apply_writes (bs : list (list Z)) (ws : list wr) : list (list Z) :=
  foldl (λ bs w, <[Z.to_nat w.1 := w.2]> bs) bs ws.

Definition writeM (ws : list wr) : M m16_blockdev unit :=
  iterM (λ w, m16_write_block w.1 w.2) ws.

Definition block_ok (b : list Z) : Prop := length b = 512%nat ∧ bytes_ok b.

Record dev_wf (dev : m16_blockdev) : Prop := {
  wf_len : length (blocks dev) = 128%nat;
  wf_blocks : Forall block_ok (blocks dev);
  wf_total : M16_DATA_START_LBA <= total_blocks dev
}.

Definition blk (bs : list (list Z)) (lba : Z) : list Z := nth (Z.to_nat lba) bs [].

(** Blocks and fault counter of [dev] replaced. *)
Definition with_blocks (dev : m16_blockdev) (bs : list (list Z)) (w f : Z) : m16_blockdev :=
  mk_dev bs (total_blocks dev) w f.

Definition write_ok (dev : m16_blockdev) (w : wr) : Prop :=
  0 <= w.1 ∧ m16_valid_lba dev w.1 = true ∧ block_ok w.2.

Lemma valid_lba_iff dev lba :
  m16_valid_lba dev lba = true ↔ lba < total_blocks dev ∧ lba < M16_MAX_BLOCKS.
Proof. unfold m16_valid_lba. by rewrite andb_true_iff, !Z.ltb_lt. Qed.

Lemma meta_lba_valid dev lba :
  dev_wf dev → lba < M16_DATA_START_LBA → m16_valid_lba dev lba = true.
Proof.
  intros [_ _ Ht] ?. apply valid_lba_iff. unfold M16_MAX_BLOCKS.
  split; [lia|]. assert (M16_DATA_START_LBA = 25) by done. lia.
Qed.

Lemma read_block_run dev lba :
  m16_valid_lba dev lba = true →
  m16_read_block lba (Some dev) = (Ok (blk (blocks dev) lba), Some dev).
Proof.
  intros Hv. unfold m16_read_block. rewrite (bind_ok _ _ _ tt (Some dev)) by done.
  rewrite (bind_ok _ _ _ dev (Some dev)) by done.
  by rewrite (bind_ok _ _ _ tt (Some dev)) by (apply fail_if_false; by rewrite Hv).
Qed.

Lemma block_copy b d : length b = 512%nat → length d = 512%nat → m16_copy b d M16_BLOCK_SIZE = d.
Proof.
  intros Hb Hd. unfold m16_copy. change (Z.to_nat M16_BLOCK_SIZE) with 512%nat.
  rewrite take_ge, drop_ge by lia. apply app_nil_r.
Qed.

Lemma blk_lookup bs lba :
  length bs = 128%nat → 0 <= lba < 128 → bs !! Z.to_nat lba = Some (blk bs lba).
Proof.
  intros Hl Hb. unfold blk. rewrite nth_lookup.
  destruct (lookup_lt_is_Some_2 bs (Z.to_nat lba)) as [b Hlk]; [lia|].
  by rewrite Hlk.
Qed.

Lemma blk_ok dev lba : dev_wf dev → 0 <= lba < 128 → block_ok (blk (blocks dev) lba).
Proof.
  intros H Hb. pose proof (blk_lookup (blocks dev) lba (wf_len _ H) Hb) as Hl.
  eapply Forall_lookup_1 in Hl; [exact Hl|apply H].
Qed.

Lemma write_block_run dev w :
  dev_wf dev → write_ok dev w →
  m16_write_block w.1 w.2 (Some dev) =
  if fail_after dev =? 0 then (Err M16_E_IO, Some dev)
  else (Ok tt, Some (with_blocks dev (apply_writes (blocks dev) [w]) (u64 (writes dev + 1))
                       (if 0 <? fail_after dev then fail_after dev - 1 else fail_after dev))).
Proof.
  intros H (H0 & Hv & Hok). unfold m16_write_block.
  rewrite (bind_ok _ _ _ tt (Some dev)) by done.
  rewrite (bind_ok _ _ _ dev (Some dev)) by done.
  rewrite (bind_ok _ _ _ tt (Some dev)) by (apply fail_if_false; by rewrite Hv).
  destruct (fail_after dev =? 0) eqn:Hf; [done|].
  rewrite (bind_ok _ _ _ tt (Some dev)) by done.
  apply valid_lba_iff in Hv as [_ Hv]. unfold M16_MAX_BLOCKS in Hv.
  rewrite store_run. unfold with_blocks. simpl. fold (blk (blocks dev) w.1).
  rewrite block_copy; [done|by apply blk_ok|apply Hok].
Qed.

Lemma length_apply_writes bs ws : length (apply_writes bs ws) = length bs.
Proof.
  revert bs. induction ws as [|w ws IH]; intros bs; simpl; [done|].
  unfold apply_writes in *. rewrite IH. apply length_insert.
Qed.

Lemma apply_writes_app bs ws1 ws2 :
  apply_writes bs (ws1 ++ ws2) = apply_writes (apply_writes bs ws1) ws2.
Proof. apply foldl_app. Qed.

Lemma apply_writes_ok bs ws :
  Forall block_ok bs → Forall (λ w, block_ok w.2) ws → Forall block_ok (apply_writes bs ws).
Proof.
  intros Hb Hw. revert bs Hb. induction Hw as [|w ws Hw _ IH]; intros bs Hb; [done|].
  apply IH. by apply Forall_insert.
Qed.

Lemma with_blocks_wf dev ws w f :
  dev_wf dev → Forall (λ w, block_ok w.2) ws →
  dev_wf (with_blocks dev (apply_writes (blocks dev) ws) w f).
Proof.
  intros [Hl Hb Ht] Hw. constructor; simpl.
  - by rewrite length_apply_writes.
  - by apply apply_writes_ok.
  - done.
Qed.

(** What a list of writes leaves behind, under any fault counter: a prefix of
    them, all of them when no fault hits. *)
Lemma writeM_run ws dev :
  dev_wf dev → Forall (write_ok dev) ws →
  ∃ n r w f, writeM ws (Some dev) =
      (r, Some (with_blocks dev (apply_writes (blocks dev) (take n ws)) w f)) ∧
    (n <= length ws)%nat ∧
    ((r = Ok tt ∧ n = length ws) ∨ (r = Err M16_E_IO ∧ 0 <= fail_after dev)) ∧
    (fail_after dev < 0 → f = fail_after dev).
Proof.
  revert dev. induction ws as [|w ws IH]; intros dev H Hws.
  { exists 0%nat, (Ok tt), (writes dev), (fail_after dev). destruct dev.
    split; [done|]. split; [simpl; lia|]. split; [by left|done]. }
  inversion Hws as [|?? Hw Hws']; subst. unfold writeM in *. simpl iterM.
  pose proof (write_block_run dev w H Hw) as Hrun.
  destruct (Z.eqb_spec (fail_after dev) 0) as [Hf|Hf].
  - rewrite (bind_err _ _ _ _ _ Hrun).
    exists 0%nat, (Err M16_E_IO), (writes dev), (fail_after dev). destruct dev. simpl in *.
    split; [done|]. split; [lia|]. split; [right; split; [done|lia]|done].
  - rewrite (bind_ok _ _ _ _ _ Hrun).
    set (dev1 := with_blocks dev _ _ _) in *.
    assert (dev_wf dev1) as H1.
    { apply (with_blocks_wf dev [w]); [done|]. constructor; [apply Hw|done]. }
    destruct (IH dev1 H1 Hws') as (n & r & w' & f & Hr & Hn & Hres & Hneg).
    exists (S n), r, w', f. rewrite Hr. split; [done|]. split; [simpl; lia|].
    simpl in Hres, Hneg. split.
    + destruct Hres as [[-> ->]|[-> Hge]]; [by left|right; split; [done|]].
      destruct (Z.ltb_spec 0 (fail_after dev)); lia.
    + intros Hl. destruct (Z.ltb_spec 0 (fail_after dev)); [lia|]. auto.
Qed.
