(* ===== verification/JournalCrash.v ===== *)
(** * Crash atomicity of the MCSFS1J journal

    The blocks outside the journal area are the file system's home blocks.  A
    device state stands for a home content: its own when the journal is empty,
    the content after replay when the journal holds a committed transaction.
    Commit moves the device from one home content to the next in a single block
    write, and recovery, however often it is interrupted, keeps the content. *)

From Stdlib Require Import ZArith Lia.
From stdpp Require Import base sets list numbers option.
From S2P Require Import Prelude Bitmap Journal.

Local Open Scope Z_scope.
Local Open Scope cm_scope.

(** ** Definitions *)

Definition in_journal (lba : Z) : Prop :=
  M16_JOURNAL_START <= lba < M16_JOURNAL_START + M16_JOURNAL_BLOCKS.

(** The two block arrays agree outside the journal. *)
Definition same_home (bs bs' : list (list Z)) : Prop :=
  ∀ i : nat, ¬ in_journal (Z.of_nat i) → bs !! i = bs' !! i.

Definition home (tx : m16_tx) : list wr := (λ r, (target_lba r, payload r)) <$> tx.

Record rec_ok (dev : m16_blockdev) (r : m16_jrec) : Prop := {
  rec_nonneg : 0 <= target_lba r;
  rec_valid : m16_valid_lba dev (target_lba r) = true;
  rec_home : ¬ in_journal (target_lba r);
  rec_payload : block_ok (payload r)
}.

Definition tx_ok (dev : m16_blockdev) (tx : m16_tx) : Prop :=
  Z.of_nat (length tx) <= M16_JOURNAL_MAX_RECORDS ∧ Forall (rec_ok dev) tx.

(** The header the recovery takes for an empty journal. *)
Definition journal_empty (bs : list (list Z)) : Prop :=
  ld 8 Off.h_magic (blk bs M16_JOURNAL_START) = 0 ∧
  ld 4 Off.h_state (blk bs M16_JOURNAL_START) = M16_J_EMPTY.

Fixpoint records_from (i : Z) (tx : m16_tx) (bs : list (list Z)) : Prop :=
  match tx with
  | [] => True
  | r :: tx' =>
      blk bs (desc_lba i) = journal_desc r ∧ blk bs (desc_lba i + 1) = payload r ∧
      records_from (i + 1) tx' bs
  end.

(** The journal holds the committed transaction [tx]. *)
Definition journal_holds (tx : m16_tx) (bs : list (list Z)) : Prop :=
  (∃ seq, blk bs M16_JOURNAL_START = journal_header seq (Z.of_nat (length tx))) ∧
  records_from 0 tx bs.

(** [dev] stands for the home content [H]. *)
Definition stands_for (dev : m16_blockdev) (H : list (list Z)) : Prop :=
  dev_wf dev ∧
  ((journal_empty (blocks dev) ∧ same_home (blocks dev) H) ∨
   (∃ tx, tx_ok dev tx ∧ journal_holds tx (blocks dev) ∧
          same_home (apply_writes (blocks dev) (home tx)) H)).

Fixpoint log_writes (i : Z) (tx : m16_tx) : list wr :=
  match tx with
  | [] => []
  | r :: tx' =>
      (desc_lba i, journal_desc r) :: (desc_lba i + 1, payload r) :: log_writes (i + 1) tx'
  end.

Definition clear_write : wr := (M16_JOURNAL_START, m16_zero 512).

(** The block writes of [m16_journal_commit], in order. *)
Definition install_writes (tx : m16_tx) : list wr := home tx ++ [clear_write].
Definition commit_writes (tx : m16_tx) (seq stop : Z) : list wr :=
  (clear_write :: log_writes 0 tx) ++
  (M16_JOURNAL_START, journal_header seq (Z.of_nat (length tx))) ::
  (if negb (stop =? 0) then [] else install_writes tx).

(** The device after a power cycle: the blocks survive, and the next fault comes
    after [f] writes (never when [f] is negative). *)
Definition reboot (f : Z) (dev : m16_blockdev) : m16_blockdev :=
  mk_dev (blocks dev) (total_blocks dev) (writes dev) f.

(** Recovery started once per element of [fs], each run interrupted after that
    many writes. *)
Definition crashed_recoveries (fs : list Z) (dev : ptr m16_blockdev) : ptr m16_blockdev :=
  foldl (λ p f, snd (m16_journal_recover (option_map (reboot f) p))) dev fs.

(** Arithmetic on block addresses. *)
Ltac lba_lia :=
  unfold clear_write, in_journal, desc_lba, M16_JOURNAL_START, M16_JOURNAL_BLOCKS, M16_JOURNAL_MAX_RECORDS,
    M16_MAX_BLOCKS in *; simpl in *; lia.

(** ** Home contents *)

#[export] Instance same_home_equiv : Equivalence same_home.
Proof.
  split.
  - by intros bs i _.
  - intros bs bs' H i Hi. symmetry. by apply H.
  - intros a b c Hab Hbc i Hi. rewrite Hab by done. by apply Hbc.
Qed.

Lemma same_home_length bs bs' : same_home bs bs' → length bs = 128%nat → length bs' = 128%nat.
Proof.
  intros H Hl.
  assert (bs !! 127%nat = bs' !! 127%nat) as H1 by (apply H; lba_lia).
  assert (bs !! 128%nat = bs' !! 128%nat) as H2 by (apply H; lba_lia).
  rewrite (lookup_ge_None_2 bs 128) in H2 by lia. symmetry in H2.
  apply lookup_ge_None in H2.
  destruct (lookup_lt_is_Some_2 bs 127) as [b Hb]; [lia|].
  rewrite Hb in H1. symmetry in H1. apply lookup_lt_Some in H1. lia.
Qed.

#[export] Instance apply_writes_proper : Proper (same_home ==> eq ==> same_home) apply_writes.
Proof.
  intros bs bs' H ws ? <-. revert bs bs' H.
  induction ws as [|w ws IH]; intros bs bs' H; [done|]. apply IH.
  intros i Hi. destruct (decide (Z.to_nat w.1 = i)) as [<-|].
  - destruct (decide (Z.to_nat w.1 < length bs)%nat) as [Hl|Hl].
    + rewrite list_lookup_insert_eq by done.
      destruct (lookup_lt_is_Some_2 _ _ Hl) as [b Hb]. rewrite H in Hb by done.
      apply lookup_lt_Some in Hb. by rewrite list_lookup_insert_eq.
    + rewrite !list_insert_ge; [by apply H|..]; [|lia].
      apply lookup_ge_None. rewrite <-H by done. apply lookup_ge_None. lia.
  - rewrite !list_lookup_insert_ne by done. by apply H.
Qed.

Lemma same_home_blk bs bs' lba :
  same_home bs bs' → 0 <= lba → ¬ in_journal lba → blk bs lba = blk bs' lba.
Proof.
  intros H H0 Hj. unfold blk. rewrite !nth_lookup. rewrite H; [done|].
  by rewrite Z2Nat.id by done.
Qed.

(** Writes into the journal area leave the home content alone. *)
Lemma journal_writes_home bs ws :
  Forall (λ w, in_journal w.1) ws → same_home (apply_writes bs ws) bs.
Proof.
  intros Hws. revert bs. induction Hws as [|w ws Hw _ IH]; intros bs; [done|].
  simpl. etransitivity; [apply IH|]. intros i Hi.
  apply list_lookup_insert_ne. intros <-. apply Hi.
  rewrite Z2Nat.id; [done|lba_lia].
Qed.

(** ** Lists of writes *)

Lemma blk_write_eq bs w :
  length bs = 128%nat → 0 <= w.1 < 128 → blk (apply_writes bs [w]) w.1 = w.2.
Proof.
  intros Hl Hw. unfold blk, apply_writes. simpl.
  rewrite nth_lookup, list_lookup_insert_eq by lia. done.
Qed.

Lemma blk_write_ne bs ws lba :
  0 <= lba → Forall (λ w, 0 <= w.1 ∧ w.1 ≠ lba) ws → blk (apply_writes bs ws) lba = blk bs lba.
Proof.
  intros H0 Hws. revert bs. induction Hws as [|w ws Hw _ IH]; intros bs; [done|].
  simpl. rewrite IH. unfold blk. rewrite !nth_lookup.
  rewrite list_lookup_insert_ne by lia. done.
Qed.

(** A write that a later one overrides does not matter. *)
Lemma apply_writes_absorb bs ws lba d :
  lba ∈ ws.*1 → apply_writes (<[Z.to_nat lba := d]> bs) ws = apply_writes bs ws.
Proof.
  revert bs. induction ws as [|w ws IH]; intros bs Hin; [by apply elem_of_nil in Hin|].
  simpl. destruct (decide (Z.to_nat w.1 = Z.to_nat lba)) as [->|Hne].
  - by rewrite list_insert_insert_eq.
  - rewrite list_insert_insert_ne by done. apply IH.
    apply elem_of_cons in Hin as [->|]; done.
Qed.

Lemma apply_writes_again bs ws pre :
  pre.*1 ⊆ ws.*1 → apply_writes (apply_writes bs pre) ws = apply_writes bs ws.
Proof.
  revert bs. induction pre as [|w pre IH]; intros bs Hsub; [done|].
  simpl in *. unfold apply_writes at 2. simpl.
  change (foldl _ ?b pre) with (apply_writes b pre).
  rewrite IH by set_solver. apply apply_writes_absorb. set_solver.
Qed.

Lemma apply_writes_replay bs ws n :
  apply_writes (apply_writes bs (take n ws)) ws = apply_writes bs ws.
Proof.
  apply apply_writes_again. intros x Hx. apply list_elem_of_fmap in Hx as (w & -> & Hw).
  apply list_elem_of_fmap. exists w. split; [done|].
  apply elem_of_take in Hw as (i & Hi & _). by eapply list_elem_of_lookup_2.
Qed.

Lemma writeM_app ws1 ws2 p :
  writeM (ws1 ++ ws2) p = bind (writeM ws1) (λ _, writeM ws2) p.
Proof. apply iterM_app. Qed.

Lemma writeM_one w p : writeM [w] p = m16_write_block w.1 w.2 p.
Proof.
  unfold writeM, bind; simpl. unfold bind. by destruct (m16_write_block w.1 w.2 p) as [[[]| |]].
Qed.

Lemma home_ok dev tx : Forall (rec_ok dev) tx → Forall (write_ok dev) (home tx).
Proof. intros H. apply Forall_fmap. eapply Forall_impl; [|exact H]. by intros r []. Qed.

(** Home writes do not touch the journal. *)
Lemma home_keeps_journal dev bs tx lba :
  Forall (rec_ok dev) tx → 0 <= lba → in_journal lba →
  blk (apply_writes bs (home tx)) lba = blk bs lba.
Proof.
  intros Htx H0 Hj. apply blk_write_ne; [done|]. apply Forall_fmap.
  eapply Forall_impl; [|exact Htx]. intros r [? _ Hr _]. simpl. split; [done|]. by intros <-.
Qed.

(** ** The on-disk records *)

Lemma bytes_ok_zero n : bytes_ok (m16_zero n).
Proof. apply Forall_replicate. unfold byte_ok. lia. Qed.

Lemma zero_block_ok : block_ok (m16_zero 512).
Proof. split; [apply length_replicate|apply bytes_ok_zero]. Qed.

Lemma checksum_fits l : fits 32 (m16_checksum l).
Proof.
  unfold m16_checksum. assert (fits 32 2166136261) as H by (unfold fits; lia). revert H.
  generalize 2166136261. induction l as [|b l IH]; intros h Hh; simpl; [done|].
  apply IH, wrap_fits. lia.
Qed.

Lemma journal_desc_ok r : block_ok (journal_desc r).
Proof.
  split; [unfold journal_desc; autorewrite with bytes; apply length_replicate|].
  repeat apply bytes_ok_st. apply bytes_ok_zero.
Qed.

Lemma journal_header_ok seq n : block_ok (journal_header seq n).
Proof.
  split; [unfold journal_header; autorewrite with bytes; apply length_replicate|].
  repeat apply bytes_ok_st. apply bytes_ok_zero.
Qed.

Lemma read_meta_run dev lba :
  dev_wf dev → lba < 25 →
  m16_read_block lba (Some dev) = (Ok (blk (blocks dev) lba), Some dev).
Proof. intros. apply read_block_run. by apply meta_lba_valid. Qed.

(** The recovery reads back the descriptor that commit wrote. *)
Lemma journal_desc_fields r :
  fits 32 (target_lba r) →
  ld 8 Off.j_magic (journal_desc r) = M16_JMAGIC ∧
  ld 4 Off.j_target_lba (journal_desc r) = target_lba r ∧
  ld 4 Off.j_payload_checksum (journal_desc r) = m16_checksum (payload r).
Proof.
  intros Ht. pose proof (checksum_fits (payload r)) as Hc.
  unfold journal_desc, Off.j_magic, Off.j_target_lba, Off.j_payload_checksum, m16_zero.
  split_and!; ldst; done.
Qed.

(** The checksum does not depend on the field it is stored in. *)
Lemma header_checksum_st v h :
  m16_header_checksum (st 4 Off.h_checksum v h) = m16_header_checksum h.
Proof. unfold m16_header_checksum. by rewrite st_st_eq. Qed.

(** The recovery accepts the header that commit wrote. *)
Lemma journal_header_fields seq n :
  0 <= n <= M16_JOURNAL_MAX_RECORDS →
  let h := journal_header seq n in
  ld 8 Off.h_magic h = M16_JMAGIC ∧ ld 4 Off.h_version h = M16_VERSION ∧
  ld 4 Off.h_state h = M16_J_COMMITTED ∧ ld 4 Off.h_count h = n ∧
  m16_header_checksum h = ld 4 Off.h_checksum h.
Proof.
  intros Hn h. subst h. unfold M16_JOURNAL_MAX_RECORDS in Hn. unfold journal_header.
  remember (st 4 Off.h_count n _) as h0 eqn:Hh0.
  pose proof (checksum_fits (st 4 Off.h_checksum 0 h0)) as Hc.
  assert (length h0 = 512%nat) as Hl by (subst h0; by autorewrite with bytes).
  rewrite header_checksum_st, (ld_st_eq 4 Off.h_checksum); [|rewrite Hl; unfold Off.h_checksum; lia|exact Hc].
  rewrite !(ld_st_ne 4 Off.h_checksum)
    by (unfold Off.h_magic, Off.h_version, Off.h_state, Off.h_count, Off.h_checksum; lia).
  subst h0. unfold Off.h_magic, Off.h_version, Off.h_state, Off.h_seq, Off.h_count, m16_zero.
  split_and!; ldst; done.
Qed.

Lemma clear_empty bs : length bs = 128%nat → journal_empty (apply_writes bs [clear_write]).
Proof.
  intros Hl. unfold journal_empty.
  change M16_JOURNAL_START with (clear_write.1).
  rewrite (blk_write_eq bs clear_write); [|done|lba_lia]. done.
Qed.

(** ** Commit as a list of writes *)

Lemma log_writes_run i tx p :
  iterM (λ '(i, r), m16_write_block (desc_lba i) (journal_desc r) ;;
                    m16_write_block (desc_lba i + 1) (payload r))
    (zip (seqZ i (Z.of_nat (length tx))) tx) p = writeM (log_writes i tx) p.
Proof.
  revert i p. induction tx as [|r tx IH]; intros i p.
  { by rewrite zip_with_nil_r. }
  rewrite seqZ_cons by (simpl; lia).
  replace (Z.pred (Z.of_nat (length (r :: tx)))) with (Z.of_nat (length tx)) by (simpl; lia).
  unfold writeM. cbn [zip zip_with iterM log_writes fst snd]. rewrite bind_assoc.
  apply bind_ext; [done|]. intros _ q. apply bind_ext; [done|]. intros _ q'.
  rewrite <-Z.add_1_r. apply IH.
Qed.

Lemma home_writes_run tx p :
  iterM (λ r, m16_write_block (target_lba r) (payload r)) tx p = writeM (home tx) p.
Proof. unfold writeM, home. by rewrite iterM_fmap. Qed.

Lemma install_run tx p :
  bind (iterM (λ r, m16_write_block (target_lba r) (payload r)) tx) (λ _, m16_journal_clear) p =
  writeM (install_writes tx) p.
Proof.
  unfold install_writes. rewrite writeM_app. apply bind_ext; [apply home_writes_run|].
  intros _ q. by rewrite writeM_one.
Qed.

Lemma commit_run dev tx seq stop :
  tx_ok dev tx →
  m16_journal_commit tx seq stop (Some dev) = writeM (commit_writes tx seq stop) (Some dev).
Proof.
  intros [Hl _]. unfold m16_journal_commit, commit_writes.
  rewrite (bind_ok _ _ _ tt (Some dev)) by done.
  rewrite (bind_ok _ _ _ tt (Some dev)) by (apply fail_if_false; apply Z.ltb_ge; lia).
  rewrite (writeM_app (clear_write :: _)).
  change (writeM (clear_write :: ?l)) with (m16_journal_clear ;; writeM l).
  rewrite bind_assoc. apply bind_ext; [done|]. intros _ q.
  apply bind_ext; [apply log_writes_run|]. intros _ q'.
  unfold writeM. cbn [iterM]. apply bind_ext; [done|]. intros _ q2.
  destruct (stop =? 0); simpl; [apply install_run|done].
Qed.

Lemma log_writes_in_journal i tx :
  0 <= i → i + Z.of_nat (length tx) <= M16_JOURNAL_MAX_RECORDS →
  Forall (λ w, 2 * i + 2 <= w.1 ∧ in_journal w.1) (log_writes i tx).
Proof.
  revert i. induction tx as [|r tx IH]; intros i Hi Hl; [constructor|]. simpl in *.
  constructor; [lba_lia|]. constructor; [lba_lia|].
  eapply Forall_impl; [|apply IH; lia]. simpl. intros w []. split; [lia|done].
Qed.

Lemma log_writes_ok dev i tx :
  dev_wf dev → 0 <= i → i + Z.of_nat (length tx) <= M16_JOURNAL_MAX_RECORDS →
  Forall (rec_ok dev) tx → Forall (write_ok dev) (log_writes i tx).
Proof.
  intros Hd. revert i. induction tx as [|r tx IH]; intros i Hi Hl Htx; [constructor|].
  inversion Htx as [|?? Hr Htx']; subst. simpl in *.
  assert (M16_DATA_START_LBA = 25) as Hs by done.
  constructor; [|constructor; [|apply IH; [lia|lia|done]]]; (split; [lba_lia|split]).
  - apply meta_lba_valid; [done|lba_lia].
  - apply journal_desc_ok.
  - apply meta_lba_valid; [done|lba_lia].
  - apply Hr.
Qed.

Lemma clear_write_ok dev : dev_wf dev → write_ok dev clear_write.
Proof.
  intros Hd. split; [lba_lia|]. split; [|apply zero_block_ok].
  apply meta_lba_valid; [done|]. assert (M16_DATA_START_LBA = 25) by done. lba_lia.
Qed.

Lemma install_writes_ok dev tx :
  dev_wf dev → Forall (rec_ok dev) tx → Forall (write_ok dev) (install_writes tx).
Proof.
  intros. apply Forall_app_2; [by apply home_ok|]. constructor; [by apply clear_write_ok|done].
Qed.

Lemma commit_writes_ok dev tx seq stop :
  dev_wf dev → tx_ok dev tx → Forall (write_ok dev) (commit_writes tx seq stop).
Proof.
  intros Hd [Hl Htx]. pose proof (clear_write_ok dev Hd) as (? & ? & ?).
  apply Forall_app_2; constructor.
  - by apply clear_write_ok.
  - apply log_writes_ok; [done|lia|lia|done].
  - split; [lba_lia|]. split; [done|apply journal_header_ok].
  - destruct (negb _); [constructor|]. by apply install_writes_ok.
Qed.

(** ** The log of a transaction *)

Lemma records_from_ext i tx bs bs' :
  0 <= i → i + Z.of_nat (length tx) <= M16_JOURNAL_MAX_RECORDS →
  (∀ lba, 2 * i + 2 <= lba → in_journal lba → blk bs' lba = blk bs lba) →
  records_from i tx bs → records_from i tx bs'.
Proof.
  revert i. induction tx as [|r tx IH]; intros i Hi Hl He; [done|]. simpl in *.
  intros (H1 & H2 & H3). split_and!.
  - rewrite He; [done|lba_lia|lba_lia].
  - rewrite He; [done|lba_lia|lba_lia].
  - apply IH; [lia|lia| |done]. intros lba ??. apply He; [lia|done].
Qed.

Lemma log_writes_records i tx bs :
  length bs = 128%nat → 0 <= i → i + Z.of_nat (length tx) <= M16_JOURNAL_MAX_RECORDS →
  records_from i tx (apply_writes bs (log_writes i tx)).
Proof.
  revert i bs. induction tx as [|r tx IH]; intros i bs Hb Hi Hl; [done|]. simpl in Hl.
  change (log_writes i (r :: tx)) with
    ([(desc_lba i, journal_desc r)] ++ [(desc_lba i + 1, payload r)] ++ log_writes (i + 1) tx).
  rewrite !apply_writes_app.
  set (bs1 := apply_writes bs _). set (bs2 := apply_writes bs1 [_]).
  assert (length bs1 = 128%nat) as Hb1 by (subst bs1; by rewrite length_apply_writes).
  assert (length bs2 = 128%nat) as Hb2 by (subst bs2; by rewrite length_apply_writes).
  assert (∀ lba, 0 <= lba < 2 * i + 4 →
    blk (apply_writes bs2 (log_writes (i + 1) tx)) lba = blk bs2 lba) as Hlow.
  { intros lba ?. apply blk_write_ne; [lia|].
    eapply Forall_impl; [|apply log_writes_in_journal; lia]. simpl. intros; lba_lia. }
  split_and!.
  - rewrite Hlow by lba_lia. unfold bs2. rewrite blk_write_ne; [|lba_lia|].
    + apply (blk_write_eq bs (desc_lba i, journal_desc r)); [done|lba_lia].
    + constructor; [lba_lia|constructor].
  - rewrite Hlow by lba_lia.
    apply (blk_write_eq bs1 (desc_lba i + 1, payload r)); [done|lba_lia].
  - apply IH; [done|lia|lia].
Qed.

Lemma rec_lba_fits dev r : rec_ok dev r → fits 32 (target_lba r).
Proof.
  intros [H0 Hv _ _]. apply valid_lba_iff in Hv as [_ Hv]. unfold fits. lba_lia.
Qed.

Lemma replay_record_run dev i r :
  dev_wf dev → rec_ok dev r → 0 <= i < M16_JOURNAL_MAX_RECORDS →
  blk (blocks dev) (desc_lba i) = journal_desc r →
  blk (blocks dev) (desc_lba i + 1) = payload r →
  m16_replay_record i (Some dev) = m16_write_block (target_lba r) (payload r) (Some dev).
Proof.
  intros Hd Hr Hi Hdesc Hpay. assert (M16_DATA_START_LBA = 25) as Hs by done.
  destruct (journal_desc_fields r (rec_lba_fits _ _ Hr)) as (Hm & Ht & Hc).
  unfold m16_replay_record.
  rewrite (bind_ok _ _ _ _ _ (read_meta_run dev (desc_lba i) Hd ltac:(lba_lia))), Hdesc.
  rewrite (bind_ok _ _ _ dev (Some dev)) by done. rewrite Hm, Ht, Hc.
  rewrite (bind_ok _ _ _ tt (Some dev)) by (apply fail_if_false; by rewrite (rec_valid _ _ Hr)).
  rewrite (bind_ok _ _ _ _ _ (read_meta_run dev (desc_lba i + 1) Hd ltac:(lba_lia))), Hpay.
  by rewrite (bind_ok _ _ _ tt (Some dev)) by (apply fail_if_false; by rewrite Z.eqb_refl).
Qed.

Lemma rec_ok_blocks dev bs w f r : rec_ok dev r → rec_ok (with_blocks dev bs w f) r.
Proof. by intros []. Qed.

(** Replaying the records is the list of home writes. *)
Lemma replay_run dev i tx :
  dev_wf dev → Forall (rec_ok dev) tx → 0 <= i →
  i + Z.of_nat (length tx) <= M16_JOURNAL_MAX_RECORDS → records_from i tx (blocks dev) →
  iterM m16_replay_record (seqZ i (Z.of_nat (length tx))) (Some dev) = writeM (home tx) (Some dev).
Proof.
  revert i dev. induction tx as [|r tx IH]; intros i dev Hd Htx Hi Hl Hrec; [done|].
  inversion Htx as [|?? Hr Htx']; subst. destruct Hrec as (H1 & H2 & H3).
  rewrite seqZ_cons by (simpl; lia).
  replace (Z.pred (Z.of_nat (length (r :: tx)))) with (Z.of_nat (length tx)) by (simpl; lia).
  simpl in Hl. unfold writeM. cbn [iterM home fmap list_fmap fst snd].
  unfold bind at 1 2. rewrite (replay_record_run dev i r); [|done..|lba_lia|done|done].
  assert (write_ok dev (target_lba r, payload r)) as Hw by (by destruct Hr).
  pose proof (write_block_run dev _ Hd Hw) as Hrun. cbn [fst snd] in Hrun. rewrite Hrun.
  destruct (fail_after dev =? 0); [done|]. rewrite <-Z.add_1_r. apply IH.
  - apply (with_blocks_wf dev [_]); [done|]. constructor; [apply Hr|done].
  - eapply Forall_impl; [|exact Htx']. intros x. apply rec_ok_blocks.
  - lia.
  - lia.
  - eapply records_from_ext; [lia|lia| |exact H3]. intros lba Hlba Hj. simpl.
    apply (home_keeps_journal dev _ [r]); [by constructor|lba_lia|done].
Qed.

Lemma recover_holds_run dev tx :
  dev_wf dev → tx_ok dev tx → journal_holds tx (blocks dev) →
  m16_journal_recover (Some dev) = writeM (install_writes tx) (Some dev).
Proof.
  intros Hd [Hl Htx] [[seq Hh] Hrec]. assert (M16_DATA_START_LBA = 25) as Hs by done.
  destruct (journal_header_fields seq (Z.of_nat (length tx))) as (Hm & Hv & Hst & Hc & Hk);
    [lia|].
  unfold m16_journal_recover. rewrite (bind_ok _ _ _ tt (Some dev)) by done.
  rewrite (bind_ok _ _ _ _ _ (read_meta_run dev M16_JOURNAL_START Hd ltac:(lba_lia))), Hh.
  rewrite Hm, Hv, Hst, Hc, Hk, Z.eqb_refl. cbn [andb].
  change (M16_JMAGIC =? 0) with false. cbn [andb].
  rewrite (bind_ok _ _ _ tt (Some dev)) by (apply fail_if_false; apply Z.ltb_ge; lia).
  rewrite (bind_ok _ _ _ tt (Some dev)) by (apply fail_if_false; by rewrite Z.eqb_refl).
  unfold install_writes. rewrite writeM_app. apply bind_ext.
  - by apply replay_run.
  - intros _ q. by rewrite writeM_one.
Qed.

Lemma recover_empty_run dev :
  dev_wf dev → journal_empty (blocks dev) → m16_journal_recover (Some dev) = (Ok tt, Some dev).
Proof.
  intros Hd [H1 H2]. assert (M16_DATA_START_LBA = 25) as Hs by done.
  unfold m16_journal_recover. rewrite (bind_ok _ _ _ tt (Some dev)) by done.
  rewrite (bind_ok _ _ _ _ _ (read_meta_run dev M16_JOURNAL_START Hd ltac:(lba_lia))).
  by rewrite H1, H2.
Qed.

(** ** Interrupted installs and recoveries *)

Lemma tx_ok_blocks dev bs w f tx : tx_ok dev tx → tx_ok (with_blocks dev bs w f) tx.
Proof.
  intros [Hl Htx]. split; [done|]. eapply Forall_impl; [|exact Htx]. intros r. apply rec_ok_blocks.
Qed.

Lemma block_ok_writes dev ws : Forall (write_ok dev) ws → Forall (λ w, block_ok w.2) ws.
Proof. intros H. eapply Forall_impl; [|exact H]. by intros w (_ & _ & ?). Qed.

Lemma home_holds dev bs tx tx' n :
  tx_ok dev tx → tx_ok dev tx' → journal_holds tx bs →
  journal_holds tx (apply_writes bs (take n (home tx'))).
Proof.
  intros [Hl _] [_ Htx] [[seq Hh] Hr]. unfold home. rewrite <-fmap_take.
  assert (Forall (rec_ok dev) (take n tx')) as Htx' by (by apply Forall_take).
  split.
  - exists seq. rewrite <-Hh. apply (home_keeps_journal dev); [done|lba_lia|lba_lia].
  - eapply records_from_ext; [lia|lia| |exact Hr]. intros lba ??.
    apply (home_keeps_journal dev); [done|lba_lia|done].
Qed.

(** A device that holds [tx], after any prefix of its install writes. *)
Lemma install_prefix dev H tx n w f :
  dev_wf dev → tx_ok dev tx → journal_holds tx (blocks dev) →
  same_home (apply_writes (blocks dev) (home tx)) H →
  stands_for (with_blocks dev (apply_writes (blocks dev) (take n (install_writes tx))) w f) H.
Proof.
  intros Hd Htx Hh Hs. split.
  { apply with_blocks_wf; [done|]. apply Forall_take.
    apply (block_ok_writes dev), install_writes_ok; [done|apply Htx]. }
  unfold install_writes. simpl. rewrite take_app. rewrite apply_writes_app.
  destruct (n - length (home tx))%nat as [|m] eqn:Hn.
  - right. exists tx. rewrite take_0. split; [by apply tx_ok_blocks|]. split.
    + by eapply home_holds.
    + simpl. by rewrite apply_writes_replay.
  - left. rewrite (take_ge (home tx)) by lia. rewrite take_ge by (simpl; lia). split.
    + apply clear_empty. rewrite length_apply_writes. apply Hd.
    + rewrite <-Hs. apply journal_writes_home. constructor; [lba_lia|done].
Qed.

(** Recovery under any fault counter keeps the home content the device stands
    for; a run that no fault hits succeeds and leaves the journal empty. *)
Lemma recover_stands dev H :
  stands_for dev H →
  ∃ r dev', m16_journal_recover (Some dev) = (r, Some dev') ∧ stands_for dev' H ∧
    (r = Ok tt → journal_empty (blocks dev') ∧ same_home (blocks dev') H) ∧
    (fail_after dev < 0 → r = Ok tt) ∧ total_blocks dev' = total_blocks dev.
Proof.
  intros [Hd [[He Hs]|(tx & Htx & Hh & Hs)]].
  { exists (Ok tt), dev. rewrite recover_empty_run by done.
    split; [done|]. split; [|done]. split; [done|]. by left. }
  rewrite (recover_holds_run dev tx Hd Htx Hh).
  destruct (writeM_run (install_writes tx) dev Hd) as (n & r & w & f & -> & Hn & Hres & _).
  { apply install_writes_ok; [done|apply Htx]. }
  eexists r, _. split; [done|]. split; [by apply install_prefix|].
  split; [|split; [intros; destruct Hres as [[]|[]]; [done|lia]|done]].
  intros ->. destruct Hres as [[_ ->]|[]]; [|done].
  rewrite firstn_all. simpl. unfold install_writes. rewrite apply_writes_app. split.
  - apply clear_empty. rewrite length_apply_writes. apply Hd.
  - rewrite <-Hs. apply journal_writes_home. constructor; [lba_lia|done].
Qed.

Lemma stands_for_reboot f dev H : stands_for dev H → stands_for (reboot f dev) H.
Proof.
  intros [[Hl Hb Ht] Hs]. split; [done|]. destruct Hs as [?|(tx & Htx & ?)]; [by left|].
  right. exists tx. split; [|done]. by apply (tx_ok_blocks dev (blocks dev) (writes dev) f) in Htx.
Qed.

Lemma crashed_recoveries_stand fs dev H :
  stands_for dev H →
  ∃ dev', crashed_recoveries fs (Some dev) = Some dev' ∧ stands_for dev' H ∧
          total_blocks dev' = total_blocks dev.
Proof.
  revert dev. induction fs as [|f fs IH]; intros dev Hs; [by exists dev|].
  destruct (recover_stands (reboot f dev) H) as (r & dev' & Hr & Hs' & _ & _ & Ht);
    [by apply stands_for_reboot|].
  destruct (IH dev' Hs') as (dev2 & H2 & ? & Ht2). exists dev2.
  split; [|split; [done|by rewrite Ht2, Ht]].
  unfold crashed_recoveries in *. simpl. by rewrite Hr.
Qed.

Lemma recovered dev H fs :
  stands_for dev H →
  ∃ d2 d3, crashed_recoveries fs (Some dev) = Some d2 ∧
    m16_journal_recover (Some (reboot (-1) d2)) = (Ok tt, Some d3) ∧ dev_wf d3 ∧
    journal_empty (blocks d3) ∧ same_home (blocks d3) H ∧ total_blocks d3 = total_blocks dev.
Proof.
  intros Hs. destruct (crashed_recoveries_stand fs dev H Hs) as (d2 & H2 & Hs2 & Ht2).
  destruct (recover_stands (reboot (-1) d2) H) as (r & d3 & Hr & [Hd3 _] & Hok & Hneg & Ht3);
    [by apply stands_for_reboot|].
  rewrite Hneg in * by done. exists d2, d3. destruct Hok; [done|].
  split_and!; try done. by rewrite Ht3.
Qed.

Lemma take_app_cases {A} n (l1 l2 : list A) (x : A) :
  (∃ m, take n (l1 ++ x :: l2) = take m l1) ∨ (∃ m, take n (l1 ++ x :: l2) = l1 ++ x :: take m l2).
Proof.
  rewrite take_app. destruct (n - length l1)%nat as [|m] eqn:Hn.
  - left. exists n. simpl. by rewrite app_nil_r.
  - right. exists m. by rewrite take_ge by lia.
Qed.

(** Before the header is written the device stands for the old content. *)
Lemma log_prefix dev tx m w f :
  dev_wf dev → journal_empty (blocks dev) → tx_ok dev tx →
  stands_for (with_blocks dev
    (apply_writes (blocks dev) (take m (clear_write :: log_writes 0 tx))) w f) (blocks dev).
Proof.
  intros Hd He [Hl Htx].
  pose proof (log_writes_in_journal 0 tx ltac:(lia) ltac:(lia)) as Hj.
  assert (Forall (write_ok dev) (clear_write :: log_writes 0 tx)) as Hok.
  { constructor; [by apply clear_write_ok|]. apply log_writes_ok; [done|lia|lia|done]. }
  split; [apply with_blocks_wf; [done|]; apply Forall_take; by apply (block_ok_writes dev)|].
  left. simpl. split; destruct m as [|m]; try done.
  - change (take (S m) (clear_write :: ?l)) with ([clear_write] ++ take m l).
    rewrite apply_writes_app. pose proof (clear_empty (blocks dev) (wf_len _ Hd)) as Hc.
    unfold journal_empty. rewrite blk_write_ne; [done|lba_lia|].
    apply Forall_take. eapply Forall_impl; [|exact Hj]. simpl. intros x ?. lba_lia.
  - apply journal_writes_home, Forall_take. constructor; [lba_lia|].
    eapply Forall_impl; [|exact Hj]. by intros x [].
Qed.

(** The header write commits the logged transaction. *)
Lemma log_holds dev tx seq :
  dev_wf dev → tx_ok dev tx →
  let bs := apply_writes (blocks dev) ((clear_write :: log_writes 0 tx) ++
              [(M16_JOURNAL_START, journal_header seq (Z.of_nat (length tx)))]) in
  journal_holds tx bs ∧ same_home bs (blocks dev).
Proof.
  intros Hd [Hl Htx] bs. subst bs.
  pose proof (log_writes_in_journal 0 tx ltac:(lia) ltac:(lia)) as Hj.
  rewrite apply_writes_app. split; [split|].
  - exists seq. apply (blk_write_eq _ (M16_JOURNAL_START, _)); [|lba_lia].
    rewrite length_apply_writes. apply Hd.
  - change (clear_write :: ?l) with ([clear_write] ++ l). rewrite (apply_writes_app _ [clear_write]).
    eapply records_from_ext; [lia|lia| |apply log_writes_records; [|lia|lia]].
    + intros lba Hlba _. apply blk_write_ne; [lia|]. constructor; [lba_lia|done].
    + rewrite length_apply_writes. apply Hd.
  - rewrite journal_writes_home; [|constructor; [lba_lia|done]].
    apply journal_writes_home. constructor; [lba_lia|].
    eapply Forall_impl; [|exact Hj]. by intros x [].
Qed.

(** After it, any prefix of the remaining writes stands for the new content. *)
Lemma commit_suffix dev tx seq stop m w f :
  dev_wf dev → tx_ok dev tx →
  stands_for (with_blocks dev (apply_writes (blocks dev)
    ((clear_write :: log_writes 0 tx) ++
     (M16_JOURNAL_START, journal_header seq (Z.of_nat (length tx))) ::
     take m (if negb (stop =? 0) then [] else install_writes tx))) w f)
    (apply_writes (blocks dev) (home tx)).
Proof.
  intros Hd Htx. destruct (log_holds dev tx seq Hd Htx) as [Hh Hs].
  change (?l ++ ?x :: ?l') with (l ++ [x] ++ l'). rewrite app_assoc, apply_writes_app.
  set (bs1 := apply_writes (blocks dev) _) in *.
  assert (dev_wf (with_blocks dev bs1 w f)) as Hd1.
  { apply with_blocks_wf; [done|]. apply (block_ok_writes dev).
    pose proof (commit_writes_ok dev tx seq 1 Hd Htx) as Hc. exact Hc. }
  pose proof (tx_ok_blocks dev bs1 w f tx Htx) as Htx1.
  assert (same_home (apply_writes bs1 (home tx)) (apply_writes (blocks dev) (home tx))) as Hs1
    by (by rewrite Hs).
  destruct (negb _).
  - rewrite take_nil. apply (install_prefix (with_blocks dev bs1 w f) _ tx 0); done.
  - apply (install_prefix (with_blocks dev bs1 w f) _ tx m); done.
Qed.

(** Commit under any fault counter: the device stands for the old content or for
    the one with the whole transaction applied, the latter when commit reports
    success. *)
Lemma commit_stands dev tx seq stop :
  dev_wf dev → journal_empty (blocks dev) → tx_ok dev tx →
  ∃ r dev', m16_journal_commit tx seq stop (Some dev) = (r, Some dev') ∧
    (stands_for dev' (blocks dev) ∨ stands_for dev' (apply_writes (blocks dev) (home tx))) ∧
    (r = Ok tt → stands_for dev' (apply_writes (blocks dev) (home tx)) ∧
                 (stop = 0 → journal_empty (blocks dev'))) ∧
    (r = Ok tt ∨ r = Err M16_E_IO) ∧ (fail_after dev < 0 → r = Ok tt ∧ fail_after dev' = fail_after dev) ∧
    total_blocks dev' = total_blocks dev.
Proof.
  intros Hd He Htx. rewrite (commit_run dev tx seq stop Htx).
  pose proof (commit_writes_ok dev tx seq stop Hd Htx) as Hok.
  destruct (writeM_run (commit_writes tx seq stop) dev Hd Hok)
    as (n & r & w & f & -> & Hn & Hres & Hneg).
  eexists r, _. split; [done|].
  change (fail_after (with_blocks _ _ _ ?x)) with x.
  unfold commit_writes in *. split_and!.
  - destruct (take_app_cases n (clear_write :: log_writes 0 tx)
      (if negb (stop =? 0) then [] else install_writes tx)
      (M16_JOURNAL_START, journal_header seq (Z.of_nat (length tx)))) as [[m ->]|[m ->]].
    + left. by apply log_prefix.
    + right. by apply commit_suffix.
  - intros ->. destruct Hres as [[_ ->]|[]]; [|done]. rewrite firstn_all. split.
    + pose proof (commit_suffix dev tx seq stop
        (length (if negb (stop =? 0) then [] else install_writes tx)) w f Hd Htx) as Hc.
      by rewrite firstn_all in Hc.
    + intros ->. simpl negb. cbv iota. unfold install_writes. simpl blocks.
      rewrite app_comm_cons, app_assoc, apply_writes_app. apply clear_empty.
      rewrite length_apply_writes, length_insert. apply Hd.
  - destruct Hres as [[]|[]]; auto.
  - intros Hf. destruct Hres as [[]|[]]; [auto|lia].
  - done.
Qed.

(** ** Claims *)

(** C1: crash atomicity of the journal.  Commit of a transaction is interrupted
    after any number of block writes, then recovery is interrupted any number of
    times after any number of writes, then recovery runs to its end: it returns
    success, the journal is empty and the blocks outside the journal are either
    all as before the commit or all as after the whole transaction; they are the
    latter when commit reported success, which it does when no fault hits it. *)
Theorem commit_crash_atomic dev tx seq stop fs :
  dev_wf dev → journal_empty (blocks dev) → tx_ok dev tx →
  ∃ r d1 d2 d3,
    m16_journal_commit tx seq stop (Some dev) = (r, Some d1) ∧
    crashed_recoveries fs (Some d1) = Some d2 ∧
    m16_journal_recover (Some (reboot (-1) d2)) = (Ok tt, Some d3) ∧
    journal_empty (blocks d3) ∧
    (same_home (blocks d3) (blocks dev) ∨
     same_home (blocks d3) (apply_writes (blocks dev) (home tx))) ∧
    (r = Ok tt → same_home (blocks d3) (apply_writes (blocks dev) (home tx))) ∧
    (fail_after dev < 0 → r = Ok tt).
Proof.
  intros Hd He Htx.
  destruct (commit_stands dev tx seq stop Hd He Htx) as (r & d1 & Hc & Hs & Hok & Hr & Hn & _).
  destruct (decide (r = Ok tt)) as [->|Hne].
  - destruct (recovered d1 _ fs (proj1 (Hok eq_refl))) as (d2 & d3 & ? & ? & ? & ? & ? & _).
    exists (Ok tt), d1, d2, d3. split_and!; auto.
  - destruct Hs as [Hs|Hs]; destruct (recovered d1 _ fs Hs) as (d2 & d3 & ? & ? & ? & ? & ? & _);
      exists r, d1, d2, d3; naive_solver.
Qed.

Definition demo_dev (f : Z) : m16_blockdev := mk_dev zero_blocks 128 0 f.
Definition demo_tx : m16_tx :=
  [mk_jrec 25 (replicate 512 7); mk_jrec 18 (replicate 512 9)].

Lemma demo_dev_wf f : dev_wf (demo_dev f).
Proof.
  constructor; [apply length_replicate| |done].
  apply Forall_replicate. apply zero_block_ok.
Qed.

Lemma demo_tx_ok f : tx_ok (demo_dev f) demo_tx.
Proof.
  split; [vm_compute; congruence|].
  assert (∀ n, byte_ok n → block_ok (replicate 512 n)) as Hb.
  { intros n Hn. split; [apply length_replicate|by apply Forall_replicate]. }
  constructor; [|constructor; [|constructor]];
    (constructor; simpl; [lia|done|lba_lia|apply Hb; unfold byte_ok; lia]).
Qed.

Lemma commit_crash_atomic_witness :
  ∃ r d1 d2 d3,
    m16_journal_commit demo_tx 2 0 (Some (demo_dev 7)) = (r, Some d1) ∧
    crashed_recoveries [1; 0; 2] (Some d1) = Some d2 ∧
    m16_journal_recover (Some (reboot (-1) d2)) = (Ok tt, Some d3) ∧
    journal_empty (blocks d3) ∧
    (same_home (blocks d3) (blocks (demo_dev 7)) ∨
     same_home (blocks d3) (apply_writes (blocks (demo_dev 7)) (home demo_tx))) ∧
    (r = Ok tt → same_home (blocks d3) (apply_writes (blocks (demo_dev 7)) (home demo_tx))) ∧
    (fail_after (demo_dev 7) < 0 → r = Ok tt).
Proof.
  apply (commit_crash_atomic (demo_dev 7) demo_tx 2 0 [1; 0; 2]).
  - apply demo_dev_wf.
  - split; vm_compute; reflexivity.
  - apply demo_tx_ok.
Defined.
