(* ===== verification/JournalFs.v ===== *)
(** * Files of MCSFS1J: what the file operations show of the home blocks

    On a device that stands for a home content, mount, read and fsck are
    functions of that content.  Writing a file moves the content through two
    transactions: the first (bitmaps and inode table) is invisible to every
    reader, the second (directory and data) makes the file appear. *)

From Stdlib Require Import ZArith Lia.
From stdpp Require Import base sets list numbers option.
From S2P Require Import Prelude Bitmap Journal JournalCrash.

Local Open Scope Z_scope.
Local Open Scope cm_scope.

(** ** The content as the readers see it *)

Definition ib_of (bs : list (list Z)) : list Z := blk bs M16_INODE_BITMAP_LBA.
Definition bb_of (bs : list (list Z)) : list Z := blk bs M16_BLOCK_BITMAP_LBA.
Definition it_of (bs : list (list Z)) : list Z :=
  blk bs (M16_INODE_TABLE_LBA + 0) ++ blk bs (M16_INODE_TABLE_LBA + 1) ++
  blk bs (M16_INODE_TABLE_LBA + 2) ++ blk bs (M16_INODE_TABLE_LBA + 3).
Definition dir_of (bs : list (list Z)) : list Z := blk bs M16_ROOT_DIR_LBA.

Definition super_ok (sb : list Z) : bool :=
  (ld 8 Off.sb_magic sb =? M16_MAGIC) && (ld 4 Off.sb_version sb =? M16_VERSION) &&
  (ld 4 Off.sb_block_size sb =? M16_BLOCK_SIZE) &&
  (ld 4 Off.sb_data_start_lba sb =? M16_DATA_START_LBA) &&
  (ld 4 Off.sb_root_dir_lba sb =? M16_ROOT_DIR_LBA).

(** The outcome of [m16_read_file] once the entry is found, and after the mount. *)
Definition view_slot (bs : list (list Z)) (slot : Z) (out : list Z) (out_cap : Z)
    : res (list Z * Z) :=
  let ino := dirent_ino (dir_of bs) slot in
  let get := inode_get (it_of bs) ino in
  if (M16_MAX_INODES <=? ino) || (get Off.i_used =? 0) || negb (get Off.i_kind =? 1)
  then Err M16_E_CORRUPT
  else if (out_cap <? get Off.i_size) || (128 <=? get Off.i_direct0) then Err M16_E_INVAL
  else if M16_BLOCK_SIZE <? get Off.i_size then Ub
  else Ok (m16_copy out (blk bs (get Off.i_direct0)) (get Off.i_size), get Off.i_size).

Definition view_read (bs : list (list Z)) (name out : list Z) (out_cap : Z) : res (list Z * Z) :=
  let slot := m16_find_dirent (dir_of bs) name in
  if slot <? 0 then Err slot else view_slot bs slot out out_cap.

(** A used directory entry that [m16_fsck] accepts. *)
Record dirent_ok (bs : list (list Z)) (i : Z) : Prop := {
  de_ino : dirent_ino (dir_of bs) i < M16_MAX_INODES;
  de_bit : m16_bitmap_get (ib_of bs) (dirent_ino (dir_of bs) i) = true;
  de_used : inode_get (it_of bs) (dirent_ino (dir_of bs) i) Off.i_used ≠ 0;
  de_kind : inode_get (it_of bs) (dirent_ino (dir_of bs) i) Off.i_kind = 1;
  de_size : inode_get (it_of bs) (dirent_ino (dir_of bs) i) Off.i_size <= M16_BLOCK_SIZE;
  de_data : M16_DATA_START_LBA <= inode_get (it_of bs) (dirent_ino (dir_of bs) i) Off.i_direct0 < 128;
  de_bbit : m16_bitmap_get (bb_of bs)
              (inode_get (it_of bs) (dirent_ino (dir_of bs) i) Off.i_direct0) = true
}.

(** What [m16_fsck] accepts. *)
Record fs_ok (bs : list (list Z)) : Prop := {
  fs_super : super_ok (blk bs 0) = true;
  fs_root_bit : m16_bitmap_get (ib_of bs) 0 = true;
  fs_root_used : inode_get (it_of bs) 0 Off.i_used = 1;
  fs_root_kind : inode_get (it_of bs) 0 Off.i_kind = 2;
  fs_root_block : inode_get (it_of bs) 0 Off.i_direct0 = M16_ROOT_DIR_LBA;
  fs_meta_bits : ∀ b, 0 <= b < M16_DATA_START_LBA → m16_bitmap_get (bb_of bs) b = true;
  fs_dirents : ∀ i, 0 <= i < dirent_count → dirent_used (dir_of bs) i ≠ 0 → dirent_ok bs i
}.

(** A device with an empty journal and the full 128 blocks of [m16_dev_init]. *)
Record clean_dev (dev : m16_blockdev) : Prop := {
  cd_wf : dev_wf dev;
  cd_empty : journal_empty (blocks dev);
  cd_total : total_blocks dev = M16_MAX_BLOCKS
}.

(** The two contents a successful [m16_write_file] goes through. *)
Definition meta_content (bs : list (list Z)) (ino db size : Z) : list (list Z) :=
  apply_writes bs
    ((M16_INODE_BITMAP_LBA, m16_bitmap_set (ib_of bs) ino) ::
     (M16_BLOCK_BITMAP_LBA, m16_bitmap_set (bb_of bs) db) ::
     ((λ i, (M16_INODE_TABLE_LBA + i, inode_block (set_inode (it_of bs) ino size db) i))
        <$> seqZ 0 M16_INODE_TABLE_BLOCKS)).

Definition file_content (bs : list (list Z)) (slot ino db : Z) (name data : list Z) (size : Z)
    : list (list Z) :=
  apply_writes bs
    [(M16_ROOT_DIR_LBA, set_dirent (dir_of bs) slot ino name (m16_strlen_bounded name M16_MAX_NAME));
     (db, m16_copy (m16_zero 512) data size)].

(** What the searches of [m16_write_file_ex] find for a new file. *)
Record alloc_ok (bs : list (list Z)) (name : list Z) (slot ino db : Z) : Prop := {
  al_new : m16_find_dirent (dir_of bs) name < 0;
  al_ino : m16_find_free_inode (ib_of bs) = ino;
  al_ino_range : 1 <= ino < M16_MAX_INODES;
  al_ino_free : m16_bitmap_get (ib_of bs) ino = false;
  al_db : m16_find_free_block (bb_of bs) = db;
  al_db_range : M16_DATA_START_LBA <= db < 128;
  al_db_free : m16_bitmap_get (bb_of bs) db = false;
  al_slot : m16_find_free_dirent (dir_of bs) = slot;
  al_slot_range : 0 <= slot < dirent_count;
  al_slot_free : dirent_used (dir_of bs) slot = 0
}.

(** Entry [i] of [bs] means the same in [bs']. *)
Record keeps (bs bs' : list (list Z)) (i : Z) : Prop := {
  kp_ino : dirent_ino (dir_of bs') i = dirent_ino (dir_of bs) i;
  kp_inode : ∀ f, (f + 4 <= 128)%nat →
    inode_get (it_of bs') (dirent_ino (dir_of bs) i) f = inode_get (it_of bs) (dirent_ino (dir_of bs) i) f;
  kp_ibit : m16_bitmap_get (ib_of bs') (dirent_ino (dir_of bs) i) =
            m16_bitmap_get (ib_of bs) (dirent_ino (dir_of bs) i);
  kp_data : blk bs' (inode_get (it_of bs) (dirent_ino (dir_of bs) i) Off.i_direct0) =
            blk bs (inode_get (it_of bs) (dirent_ino (dir_of bs) i) Off.i_direct0);
  kp_bbit : m16_bitmap_get (bb_of bs') (inode_get (it_of bs) (dirent_ino (dir_of bs) i) Off.i_direct0) =
            m16_bitmap_get (bb_of bs) (inode_get (it_of bs) (dirent_ino (dir_of bs) i) Off.i_direct0)
}.

(** ** Running the readers *)

Lemma mount_run dev :
  clean_dev dev → super_ok (blk (blocks dev) 0) = true →
  m16_mount (Some dev) = (Ok (blk (blocks dev) 0), Some dev).
Proof.
  intros [Hd He _] Hs. unfold m16_mount. rewrite (bind_ok _ _ _ tt (Some dev)) by done.
  rewrite (bind_ok _ _ _ _ _ (recover_empty_run dev Hd He)).
  rewrite (bind_ok _ _ _ _ _ (read_meta_run dev 0 Hd ltac:(lia))).
  unfold super_ok in Hs. rewrite !andb_true_iff in Hs. destruct Hs as [[[[H1 H2] H3] H4] H5].
  rewrite H1, H2, H3, H4, H5. done.
Qed.

Lemma load_table_run dev :
  dev_wf dev → m16_load_inode_table (Some dev) = (Ok (it_of (blocks dev)), Some dev).
Proof.
  intros Hd. unfold m16_load_inode_table.
  rewrite (bind_ok _ _ _ _ _ (read_meta_run dev (M16_INODE_TABLE_LBA + 0) Hd ltac:(done))).
  rewrite (bind_ok _ _ _ _ _ (read_meta_run dev (M16_INODE_TABLE_LBA + 1) Hd ltac:(done))).
  rewrite (bind_ok _ _ _ _ _ (read_meta_run dev (M16_INODE_TABLE_LBA + 2) Hd ltac:(done))).
  rewrite (bind_ok _ _ _ _ _ (read_meta_run dev (M16_INODE_TABLE_LBA + 3) Hd ltac:(done))).
  done.
Qed.

Lemma read_file_run dev name out cap os :
  clean_dev dev → super_ok (blk (blocks dev) 0) = true →
  m16_read_file (Some name) (Some out) cap (Some os) (Some dev) =
  (view_read (blocks dev) name out cap, Some dev).
Proof.
  intros H Hs. pose proof (cd_wf _ H) as Hd. unfold m16_read_file, view_read.
  rewrite (bind_ok _ _ _ tt (Some dev)) by done.
  rewrite (bind_ok _ _ _ _ _ (mount_run dev H Hs)).
  rewrite (bind_ok _ _ _ _ _ (load_table_run dev Hd)).
  rewrite (bind_ok _ _ _ _ _ (read_meta_run dev M16_ROOT_DIR_LBA Hd ltac:(done))).
  change (blk (blocks dev) M16_ROOT_DIR_LBA) with (dir_of (blocks dev)).
  generalize (m16_find_dirent (dir_of (blocks dev)) name). intros slot.
  destruct (slot <? 0); [done|]. rewrite (bind_ok _ _ _ tt (Some dev)) by done.
  unfold view_slot. generalize (dirent_ino (dir_of (blocks dev)) slot). intros ino.
  destruct (_ || _ || _); [done|].
  rewrite (bind_ok _ _ _ tt (Some dev)), (bind_ok _ _ _ dev (Some dev)) by done.
  rewrite (cd_total _ H). change M16_MAX_BLOCKS with 128.
  destruct ((cap <? _) || _) eqn:Hv; [done|].
  rewrite (bind_ok _ _ _ tt (Some dev)) by done.
  apply orb_false_iff in Hv as [_ Hv]. apply Z.leb_gt in Hv.
  assert (m16_valid_lba dev (inode_get (it_of (blocks dev)) ino Off.i_direct0) = true) as Hl.
  { apply valid_lba_iff. rewrite (cd_total _ H). unfold M16_MAX_BLOCKS. lia. }
  rewrite (bind_ok _ _ _ _ _ (read_block_run dev _ Hl)).
  by destruct (M16_BLOCK_SIZE <? _).
Qed.

(** A loop of checks that do not touch the state. *)
Lemma iterM_checks {S A} (f : A → M S unit) l (s : S) :
  (∀ x, x ∈ l → ∃ r, f x (Some s) = (r, Some s)) →
  iterM f l (Some s) = (Ok tt, Some s) ↔ (∀ x, x ∈ l → f x (Some s) = (Ok tt, Some s)).
Proof.
  induction l as [|x l IH]; intros Hp; simpl.
  { split; [|done]. by intros _ x ?%elem_of_nil. }
  destruct (Hp x) as [r Hr]; [left|]. unfold bind. rewrite Hr.
  assert (∀ y, y ∈ l → ∃ r, f y (Some s) = (r, Some s)) as Hp' by (intros; apply Hp; by right).
  specialize (IH Hp'). split.
  - destruct r as [[]| |]; [|done|done]. intros H y [->|Hy]%elem_of_cons; [done|].
    by apply IH.
  - intros H. specialize (H x ltac:(left)) as Hx. rewrite Hr in Hx. injection Hx as ->.
    apply IH. intros y Hy. apply H. by right.
Qed.

Lemma bind_iterM_iff {S A B} (f : A → M S unit) l (k : M S B) (s : S) r :
  (∀ x, x ∈ l → ∃ r, f x (Some s) = (r, Some s)) →
  (iterM f l ;; k) (Some s) = (Ok r, Some s) ↔
  (∀ x, x ∈ l → f x (Some s) = (Ok tt, Some s)) ∧ k (Some s) = (Ok r, Some s).
Proof.
  intros Hp. rewrite <-iterM_checks by done. unfold bind.
  assert (∃ r', iterM f l (Some s) = (r', Some s)) as [r' Hr].
  { clear r. induction l as [|x l IH]; [by eexists|]. simpl. unfold bind.
    destruct (Hp x) as [[[]| |] ->]; [left|..]; [|by eexists..].
    apply IH. intros; apply Hp. by right. }
  rewrite Hr. destruct r' as [[]| |]; naive_solver.
Qed.

Lemma fail_if_ok_iff {S} (b : bool) rc (s : S) :
  fail_if b rc (Some s) = (Ok tt, Some s) ↔ b = false.
Proof. destruct b; [|done]. split; [|done]. unfold fail_if, fail. congruence. Qed.

Lemma bind_check_iff {S A} (b : bool) rc (k : M S A) (s : S) r :
  (fail_if b rc ;; k) (Some s) = (Ok r, Some s) ↔ b = false ∧ k (Some s) = (Ok r, Some s).
Proof.
  destruct b; simpl.
  - split; [|by intros []]. unfold bind, fail_if, fail. congruence.
  - rewrite (bind_ok _ _ _ tt (Some s)) by done. naive_solver.
Qed.

Lemma fsck_dirent_iff dev i :
  dirent_used (dir_of (blocks dev)) i ≠ 0 →
  fsck_dirent 128 (ib_of (blocks dev)) (bb_of (blocks dev)) (it_of (blocks dev))
    (dir_of (blocks dev)) i (Some dev) = (Ok tt, Some dev) ↔ dirent_ok (blocks dev) i.
Proof.
  intros Hu. unfold fsck_dirent. apply Z.eqb_neq in Hu. rewrite Hu.
  rewrite !bind_check_iff, fail_if_ok_iff, !orb_false_iff, !negb_false_iff.
  rewrite !Z.leb_gt, !Z.ltb_ge, !Z.eqb_neq, Z.eqb_eq.
  split; [intros (? & ? & ?); constructor; naive_solver lia|intros []; naive_solver lia].
Qed.

Lemma fsck_dirent_pure dev i :
  ∃ r, fsck_dirent 128 (ib_of (blocks dev)) (bb_of (blocks dev)) (it_of (blocks dev))
    (dir_of (blocks dev)) i (Some dev) = (r, Some dev).
Proof.
  unfold fsck_dirent. destruct (_ =? 0); [by eexists|].
  unfold bind, fail_if, fail, ret. repeat destruct (_ || _); by eexists.
Qed.

(** [m16_fsck] succeeds exactly on the contents of [fs_ok]. *)
Lemma fsck_run dev :
  clean_dev dev → m16_fsck (Some dev) = (Ok tt, Some dev) ↔ fs_ok (blocks dev).
Proof.
  intros H. pose proof (cd_wf _ H) as Hd. unfold m16_fsck.
  rewrite (bind_ok _ _ _ tt (Some dev)) by done.
  destruct (super_ok (blk (blocks dev) 0)) eqn:Hs.
  2:{ split; [|intros []; congruence]. intros Hf. exfalso. revert Hf.
      unfold m16_mount. rewrite !bind_assoc. rewrite (bind_ok _ _ _ tt (Some dev)) by done.
      rewrite bind_assoc, (bind_ok _ _ _ _ _ (recover_empty_run dev Hd (cd_empty _ H))).
      rewrite bind_assoc, (bind_ok _ _ _ _ _ (read_meta_run dev 0 Hd ltac:(lia))).
      unfold super_ok in Hs. unfold bind, fail_if, fail.
      destruct (_ =? M16_MAGIC), (_ =? M16_VERSION), (_ =? M16_BLOCK_SIZE); try done.
      by destruct (_ =? M16_DATA_START_LBA), (_ =? M16_ROOT_DIR_LBA). }
  rewrite (bind_ok _ _ _ _ _ (mount_run dev H Hs)).
  rewrite (bind_ok _ _ _ _ _ (read_meta_run dev M16_INODE_BITMAP_LBA Hd ltac:(done))).
  rewrite (bind_ok _ _ _ _ _ (read_meta_run dev M16_BLOCK_BITMAP_LBA Hd ltac:(done))).
  rewrite (bind_ok _ _ _ _ _ (load_table_run dev Hd)).
  rewrite (bind_ok _ _ _ _ _ (read_meta_run dev M16_ROOT_DIR_LBA Hd ltac:(done))).
  rewrite bind_check_iff.
  rewrite bind_iterM_iff.
  2:{ intros x _. unfold fail_if, fail, ret. destruct (negb _); by eexists. }
  rewrite (bind_ok _ _ _ dev (Some dev)), (cd_total _ H) by done. change M16_MAX_BLOCKS with 128.
  rewrite iterM_checks by (intros x _; apply fsck_dirent_pure).
  rewrite !orb_false_iff, !negb_false_iff, !Z.eqb_eq.
  setoid_rewrite elem_of_seqZ. setoid_rewrite fail_if_ok_iff. setoid_rewrite negb_false_iff.
  split.
  - intros ([[[? ?] ?] ?] & Hb & Hde). constructor; auto.
    intros i Hi Hu. apply fsck_dirent_iff; [done|]. by apply Hde.
  - intros []. split_and!; auto.
    intros i Hi. destruct (decide (dirent_used (dir_of (blocks dev)) i = 0)) as [Hz|Hz].
    + unfold dir_of in Hz. unfold fsck_dirent. by rewrite Hz.
    + apply fsck_dirent_iff; auto.
Qed.

(** ** Reading back a list of writes *)

Definition last_write (ws : list wr) (x : Z) : option (list Z) :=
  foldl (λ acc w, if w.1 =? x then Some w.2 else acc) None ws.

Lemma blk_apply bs ws x :
  length bs = 128%nat → 0 <= x < 128 → Forall (λ w, 0 <= w.1) ws →
  blk (apply_writes bs ws) x = default (blk bs x) (last_write ws x).
Proof.
  intros Hl Hx. induction ws as [|w ws IH] using rev_ind; [done|]. intros [Hws Hw]%Forall_app.
  inversion Hw; subst. unfold last_write. rewrite apply_writes_app, foldl_snoc.
  destruct (Z.eqb_spec w.1 x) as [<-|].
  - apply blk_write_eq; [|lia]. by rewrite length_apply_writes.
  - rewrite blk_write_ne; [by apply IH|lia|]. by constructor.
Qed.

Lemma content_blk bs ws x :
  length bs = 128%nat → 0 <= x < 128 → forallb (λ w, 0 <=? w.1) ws = true →
  blk (apply_writes bs ws) x = default (blk bs x) (last_write ws x).
Proof.
  intros ? ? H. apply blk_apply; [done..|]. apply Forall_forall. intros w Hw.
  rewrite forallb_forall in H. specialize (H w).
  apply Z.leb_le. auto.
Qed.

Lemma inode_blocks_concat t :
  length t = 2048%nat →
  inode_block t 0 ++ inode_block t 1 ++ inode_block t 2 ++ inode_block t 3 = t.
Proof.
  intros Hl. unfold inode_block, slice.
  change (Z.to_nat (0 * M16_BLOCK_SIZE)) with 0%nat.
  change (Z.to_nat (1 * M16_BLOCK_SIZE)) with 512%nat.
  change (Z.to_nat (2 * M16_BLOCK_SIZE)) with (512 + 512)%nat.
  change (Z.to_nat (3 * M16_BLOCK_SIZE)) with (512 + 512 + 512)%nat.
  change (Z.to_nat M16_BLOCK_SIZE) with 512%nat.
  rewrite <-!drop_drop, drop_0.
  rewrite (take_ge (drop 512 (drop 512 (drop 512 t)))) by (rewrite !length_drop; lia).
  by rewrite !take_drop.
Qed.

Lemma inode_block_ok t i :
  length t = 2048%nat → bytes_ok t → 0 <= i < 4 → block_ok (inode_block t i).
Proof.
  intros Hl Hb Hi. unfold inode_block, M16_BLOCK_SIZE. split.
  - apply length_slice. lia.
  - apply Forall_take, Forall_drop. done.
Qed.

Definition bs_ok (bs : list (list Z)) : Prop := length bs = 128%nat ∧ Forall block_ok bs.

Lemma bs_blk_ok bs lba : bs_ok bs → 0 <= lba < 128 → block_ok (blk bs lba).
Proof.
  intros [Hl Hb] Hx. eapply Forall_lookup_1; [exact Hb|]. by apply blk_lookup.
Qed.

Lemma it_ok bs : bs_ok bs → length (it_of bs) = 2048%nat ∧ bytes_ok (it_of bs).
Proof.
  intros H. unfold it_of.
  destruct (bs_blk_ok bs (M16_INODE_TABLE_LBA + 0) H ltac:(done)) as [? ?].
  destruct (bs_blk_ok bs (M16_INODE_TABLE_LBA + 1) H ltac:(done)) as [? ?].
  destruct (bs_blk_ok bs (M16_INODE_TABLE_LBA + 2) H ltac:(done)) as [? ?].
  destruct (bs_blk_ok bs (M16_INODE_TABLE_LBA + 3) H ltac:(done)) as [? ?].
  split; [rewrite !length_app; lia|]. by repeat apply Forall_app_2.
Qed.

Section content.
Context (bs : list (list Z)) (ino db size : Z).
Hypothesis Hbs : bs_ok bs.

Lemma meta_content_blk x :
  0 <= x < 128 → ¬ 18 <= x < 24 → blk (meta_content bs ino db size) x = blk bs x.
Proof.
  intros Hx Hn. apply blk_write_ne; [lia|].
  change (seqZ 0 M16_INODE_TABLE_BLOCKS) with [0; 1; 2; 3].
  change M16_INODE_BITMAP_LBA with 18. change M16_BLOCK_BITMAP_LBA with 19.
  change M16_INODE_TABLE_LBA with 20.
  cbn [fmap list_fmap]. repeat (constructor; [cbn [fst]; lia|]). constructor.
Qed.

Lemma meta_ib : ib_of (meta_content bs ino db size) = m16_bitmap_set (ib_of bs) ino.
Proof. unfold ib_of at 1, meta_content. by rewrite content_blk by (try apply Hbs; done). Qed.

Lemma meta_bb : bb_of (meta_content bs ino db size) = m16_bitmap_set (bb_of bs) db.
Proof. unfold bb_of at 1, meta_content. by rewrite content_blk by (try apply Hbs; done). Qed.

Lemma meta_dir : dir_of (meta_content bs ino db size) = dir_of bs.
Proof. apply meta_content_blk; change M16_ROOT_DIR_LBA with 24; lia. Qed.

Lemma set_inode_ok : length (set_inode (it_of bs) ino size db) = 2048%nat ∧
  bytes_ok (set_inode (it_of bs) ino size db).
Proof.
  destruct (it_ok bs Hbs). unfold set_inode. split; [by autorewrite with bytes|].
  by repeat apply bytes_ok_st.
Qed.

Lemma meta_it : it_of (meta_content bs ino db size) = set_inode (it_of bs) ino size db.
Proof.
  unfold it_of at 1, meta_content. rewrite !content_blk by (try apply Hbs; done).
  etransitivity; [|apply inode_blocks_concat, set_inode_ok]. reflexivity.
Qed.

End content.

(** ** Inode and directory entry fields *)

Lemma inode_get_set_ne t ino size db k f :
  0 <= k → 0 <= ino → k ≠ ino → (f + 4 <= 128)%nat →
  inode_get (set_inode t ino size db) k f = inode_get t k f.
Proof.
  intros Hk Hi Hne Hf. unfold inode_get, set_inode.
  unfold inode_field, Off.inode_size, Off.i_used, Off.i_kind, Off.i_size, Off.i_direct0.
  assert (Z.to_nat k < Z.to_nat ino ∨ Z.to_nat ino < Z.to_nat k)%nat as Hd by lia.
  rewrite !ld_st_ne by lia. done.
Qed.

Lemma inode_get_set t ino size db :
  length t = 2048%nat → 0 <= ino < 16 → fits 32 size → fits 32 db →
  let t' := set_inode t ino size db in
  inode_get t' ino Off.i_used = 1 ∧ inode_get t' ino Off.i_kind = 1 ∧
  inode_get t' ino Off.i_size = size ∧ inode_get t' ino Off.i_direct0 = db.
Proof.
  intros Hl Hi Hs Hd t'. subst t'. unfold inode_get, set_inode.
  unfold inode_field, Off.inode_size, Off.i_used, Off.i_kind, Off.i_size, Off.i_direct0.
  assert (Z.to_nat ino < 16)%nat as Hn by lia.
  split_and!; repeat first
    [rewrite ld_st_eq by (autorewrite with bytes; solve [lia | done]) | rewrite ld_st_ne by lia];
    done.
Qed.

Lemma slice_st_dir_ne d s f v slot f' n :
  (f + 4 <= 40)%nat → (f' + n <= 40)%nat → 0 <= s → 0 <= slot → s ≠ slot →
  slice (dirent_field s f') n (st 4 (dirent_field slot f) v d) = slice (dirent_field s f') n d.
Proof.
  intros ? ? ? ? ?. unfold dirent_field, Off.dirent_size.
  assert (Z.to_nat s < Z.to_nat slot ∨ Z.to_nat slot < Z.to_nat s)%nat as Hd by lia.
  apply slice_st_ne. lia.
Qed.

Section dirents.
Context (dir : list Z) (slot ino : Z) (name : list Z).
Let name_len := m16_strlen_bounded name M16_MAX_NAME.
Let dir' := set_dirent dir slot ino name name_len.
Hypothesis Hdir : length dir = 512%nat.
Hypothesis Hslot : 0 <= slot < dirent_count.
Hypothesis Hino : 0 <= ino < 16.
Hypothesis Hname : 0 <= name_len < M16_MAX_NAME.
Hypothesis Hlen : name_len <= Z.of_nat (length name).

Lemma slice_set_dirent_ne s f n :
  (f + n <= 40)%nat → 0 <= s → s ≠ slot →
  slice (dirent_field s f) n dir' = slice (dirent_field s f) n dir.
Proof.
  intros Hf Hs Hne. unfold dir', set_dirent. rewrite !slice_splice_ne.
  - unfold Off.d_used, Off.d_ino. rewrite !slice_st_dir_ne by lia. done.
  - unfold m16_zero, M16_MAX_NAME. rewrite length_replicate.
    unfold dirent_field, Off.dirent_size, Off.d_name. lia.
  - rewrite length_take. unfold dirent_field, Off.dirent_size, Off.d_name.
    unfold M16_MAX_NAME in *. lia.
Qed.

Lemma dirent_used_ne s : 0 <= s → s ≠ slot → dirent_used dir' s = dirent_used dir s.
Proof.
  intros. unfold dirent_used, ld. rewrite slice_set_dirent_ne; [done|unfold Off.d_used; lia|done..].
Qed.

Lemma dirent_ino_ne s : 0 <= s → s ≠ slot → dirent_ino dir' s = dirent_ino dir s.
Proof.
  intros. unfold dirent_ino, ld. rewrite slice_set_dirent_ne; [done|unfold Off.d_ino; lia|done..].
Qed.

Lemma dirent_name_ne s : 0 <= s → s ≠ slot → dirent_name dir' s = dirent_name dir s.
Proof.
  intros. apply slice_set_dirent_ne; [unfold Off.d_name, M16_MAX_NAME; lia|done..].
Qed.

Lemma slot_nat : (Z.to_nat slot < 12)%nat.
Proof. change dirent_count with 12 in Hslot. lia. Qed.

Lemma dirent_used_eq : dirent_used dir' slot = 1.
Proof.
  pose proof slot_nat. unfold dirent_used, dir', set_dirent, ld.
  rewrite !slice_splice_ne; unfold dirent_field, Off.dirent_size, Off.d_used, Off.d_name; [|lia..].
  fold (ld 4 (40 * Z.to_nat slot + 0) (st 4 (40 * Z.to_nat slot + Off.d_ino) ino
    (st 4 (40 * Z.to_nat slot + 0) 1 dir))). unfold Off.d_ino.
  rewrite ld_st_ne by lia. apply ld_st_eq; [lia|done].
Qed.

Lemma dirent_ino_eq : dirent_ino dir' slot = ino.
Proof.
  pose proof slot_nat. unfold dirent_ino, dir', set_dirent, ld.
  rewrite !slice_splice_ne; unfold dirent_field, Off.dirent_size, Off.d_ino, Off.d_name; [|lia..].
  apply (ld_st_eq 4 (40 * Z.to_nat slot + 4)); [autorewrite with bytes; lia|].
  unfold fits. simpl. lia.
Qed.

Lemma dirent_name_char j :
  (j < 32)%nat →
  char_at (dirent_name dir' slot) j = if (j <? Z.to_nat name_len)%nat then char_at name j else 0.
Proof.
  intros Hj. pose proof slot_nat as Hs. unfold char_at. rewrite !nth_lookup.
  unfold dirent_name. rewrite lookup_slice by (unfold M16_MAX_NAME; lia).
  unfold dir', set_dirent. set (o := dirent_field slot Off.d_name).
  assert (o + 32 <= 512)%nat as Ho
    by (unfold o, dirent_field, Off.dirent_size, Off.d_name; lia).
  assert (length (take (Z.to_nat name_len) name) = Z.to_nat name_len) as Hn
    by (rewrite length_take; lia).
  unfold M16_MAX_NAME in *.
  destruct (Nat.ltb_spec j (Z.to_nat name_len)).
  - rewrite lookup_splice_in by (autorewrite with bytes; lia).
    by rewrite lookup_take_lt.
  - rewrite lookup_splice_out by lia. rewrite lookup_splice_in.
    + unfold m16_zero. by rewrite lookup_replicate_2 by lia.
    + autorewrite with bytes. unfold m16_zero. rewrite length_replicate. lia.
    + unfold m16_zero. rewrite length_replicate. lia.
Qed.

End dirents.

(** ** Names *)

Lemma streq_from_ext a a' b i n :
  (∀ j, (i <= j < i + n)%nat → (∀ k, (i <= k < j)%nat → char_at a k ≠ 0) →
        char_at a j = char_at a' j) →
  streq_from a b i n = streq_from a' b i n.
Proof.
  revert i. induction n as [|n IH]; intros i H; simpl; [done|].
  rewrite <-(H i) by lia.
  destruct (negb _); [done|]. destruct (Z.eqb_spec (char_at a i) 0); [done|].
  apply IH. intros j Hj Hk. apply H; [lia|]. intros k ?.
  destruct (decide (k = i)) as [->|]; [done|]. apply Hk. lia.
Qed.

Lemma streq_refl a i n : streq_from a a i n = true.
Proof.
  revert i. induction n as [|n IH]; intros i; simpl; [done|].
  rewrite Z.eqb_refl. simpl. destruct (_ =? 0); [done|apply IH].
Qed.

Lemma strlen_from_spec s i n :
  let r := strlen_from s i n in
  (i <= r <= i + n)%nat ∧ (∀ k, (i <= k < r)%nat → char_at s k ≠ 0) ∧
  ((r < i + n)%nat → char_at s r = 0).
Proof.
  revert i. induction n as [|n IH]; intros i; simpl.
  { split; [lia|]. split; lia. }
  destruct (Z.eqb_spec (char_at s i) 0) as [Hz|Hz].
  - split; [lia|]. split; [lia|done].
  - destruct (IH (S i)) as (H1 & H2 & H3). split; [lia|]. split.
    + intros k ?. destruct (decide (k = i)) as [->|]; [done|]. apply H2. lia.
    + intros. apply H3. lia.
Qed.

Lemma strlen_le s max : m16_strlen_bounded s max <= Z.of_nat (length s).
Proof.
  unfold m16_strlen_bounded. destruct (strlen_from_spec s 0 (Z.to_nat max)) as (_ & H & _).
  destruct (decide (strlen_from s 0 (Z.to_nat max) <= length s)%nat); [lia|].
  destruct (H (length s)); [lia|]. unfold char_at. by rewrite nth_overflow.
Qed.

(** The stored name matches exactly what the name matches. *)
Lemma stored_name_streq dir slot ino name b :
  length dir = 512%nat → 0 <= slot < dirent_count → 0 <= ino < 16 →
  m16_strlen_bounded name M16_MAX_NAME < M16_MAX_NAME →
  m16_streq (dirent_name (set_dirent dir slot ino name (m16_strlen_bounded name M16_MAX_NAME)) slot) b
  = m16_streq name b.
Proof.
  intros Hd Hs Hi Hn. pose proof (strlen_le name M16_MAX_NAME) as Hle.
  assert (0 <= m16_strlen_bounded name M16_MAX_NAME) as H0 by (unfold m16_strlen_bounded; lia).
  unfold m16_streq. symmetry. apply streq_from_ext. intros j Hj Hk.
  change (Z.to_nat M16_MAX_NAME) with 32%nat in Hj.
  rewrite dirent_name_char by (done || lia).
  destruct (Nat.ltb_spec j (Z.to_nat (m16_strlen_bounded name M16_MAX_NAME))) as [|Hge]; [done|].
  unfold m16_strlen_bounded in *. rewrite Nat2Z.id in Hge.
  destruct (strlen_from_spec name 0 (Z.to_nat M16_MAX_NAME)) as (H1 & H2 & H3).
  specialize (H3 ltac:(lia)). destruct (decide (j = strlen_from name 0 (Z.to_nat M16_MAX_NAME)))
    as [->|]; [done|]. by specialize (Hk (strlen_from name 0 (Z.to_nat M16_MAX_NAME)) ltac:(lia)).
Qed.

(** ** Entries that are kept *)

Lemma keeps_view bs bs' i out cap : keeps bs bs' i → view_slot bs' i out cap = view_slot bs i out cap.
Proof.
  intros [H1 H2 _ H4 _]. unfold view_slot. rewrite H1.
  rewrite !H2 by (unfold Off.i_used, Off.i_kind, Off.i_size, Off.i_direct0; lia). by rewrite H4.
Qed.

Lemma keeps_ok bs bs' i : keeps bs bs' i → dirent_ok bs i → dirent_ok bs' i.
Proof.
  intros [H1 H2 H3 _ H5] [? ? ? ? ? ? ?].
  constructor; rewrite H1; rewrite ?H2 by (unfold Off.i_used, Off.i_kind, Off.i_size, Off.i_direct0; lia);
    rewrite ?H3, ?H5; done.
Qed.

Lemma find_dirent_cases dir name :
  let i := m16_find_dirent dir name in
  (i < 0 ∧ ∀ k, 0 <= k < dirent_count → dirent_used dir k ≠ 0 →
                m16_streq (dirent_name dir k) name = false) ∨
  (0 <= i < dirent_count ∧ dirent_used dir i ≠ 0 ∧ m16_streq (dirent_name dir i) name = true).
Proof.
  cbv zeta. unfold m16_find_dirent. destruct (find_z _ _ _) as [i|] eqn:Hf; simpl.
  - right. apply find_z_Some in Hf as (Hi & [Hu Hs]%andb_true_iff & _).
    apply negb_true_iff, Z.eqb_neq in Hu. change (Z.of_nat (Z.to_nat dirent_count)) with dirent_count in Hi.
    split_and!; [lia|lia|done|done].
  - left. split; [done|]. intros k Hk Hu. rewrite find_z_None in Hf.
    change (Z.of_nat (Z.to_nat dirent_count)) with dirent_count in Hf.
    specialize (Hf k ltac:(lia)). apply Z.eqb_neq in Hu. by rewrite Hu in Hf.
Qed.

Lemma find_dirent_ext dir dir' name :
  (∀ k, 0 <= k < dirent_count → (dirent_used dir k =? 0) = (dirent_used dir' k =? 0) ∧
     (dirent_used dir k ≠ 0 → dirent_name dir k = dirent_name dir' k)) →
  m16_find_dirent dir name = m16_find_dirent dir' name.
Proof.
  intros H. unfold m16_find_dirent. erewrite find_z_ext; [reflexivity|]. intros k Hk. simpl.
  change (Z.of_nat (Z.to_nat dirent_count)) with dirent_count in Hk.
  destruct (H k) as [H1 H2]; [lia|]. rewrite <-H1.
  destruct (Z.eqb_spec (dirent_used dir k) 0); simpl; [done|]. by rewrite H2.
Qed.

(** A bit that was set stays set, and setting a clear bit moves no other. *)
Lemma bit_kept bm i k :
  block_ok bm → 0 <= i < 4096 → 0 <= k → m16_bitmap_get bm i = false →
  m16_bitmap_get bm k = true → m16_bitmap_get (m16_bitmap_set bm i) k = m16_bitmap_get bm k.
Proof.
  intros [Hl Hb] Hi Hk Hc Hs. unfold m16_bitmap_get, m16_bitmap_set in *.
  rewrite bm_test_set by (try done; unfold bm_in; lia). by rewrite Hs.
Qed.

Lemma bit_set bm i :
  block_ok bm → 0 <= i < 4096 → m16_bitmap_get (m16_bitmap_set bm i) i = true.
Proof.
  intros [Hl Hb] Hi. unfold m16_bitmap_get, m16_bitmap_set.
  rewrite bm_test_set by (try done; unfold bm_in; lia). by rewrite Z.eqb_refl, orb_true_r.
Qed.

Lemma ld_nonneg n o l : bytes_ok l → 0 <= ld n o l.
Proof.
  intros H. unfold ld, slice. assert (bytes_ok (take n (drop o l))) as Hb
    by (by apply Forall_take, Forall_drop).
  induction Hb as [|b r Hx _ IH]; simpl; [lia|]. unfold byte_ok in Hx. lia.
Qed.

(** ** The contents of a new file *)

Section new_file.
Context (bs : list (list Z)) (name data : list Z) (slot ino db size : Z).
Hypothesis Hbs : bs_ok bs.
Hypothesis Hfs : fs_ok bs.
Hypothesis Hal : alloc_ok bs name slot ino db.
Hypothesis Hsize : 0 <= size <= M16_BLOCK_SIZE.
Hypothesis Hdata : size <= Z.of_nat (length data).
Hypothesis Hbytes : bytes_ok data.
Hypothesis Hnbytes : bytes_ok name.
Hypothesis Hname : m16_strlen_bounded name M16_MAX_NAME < M16_MAX_NAME.

Let mid := meta_content bs ino db size.
Let new := file_content mid slot ino db name data size.

Lemma ib_block_ok : block_ok (ib_of bs).
Proof. by apply bs_blk_ok. Qed.
Lemma bb_block_ok : block_ok (bb_of bs).
Proof. by apply bs_blk_ok. Qed.
Lemma dir_block_ok : block_ok (dir_of bs).
Proof. by apply bs_blk_ok. Qed.

Lemma ino_range : 1 <= ino < 16.
Proof. apply (al_ino_range _ _ _ _ _ Hal). Qed.
Lemma db_range : 25 <= db < 128.
Proof. apply (al_db_range _ _ _ _ _ Hal). Qed.

Lemma set_dirent_ok d s i len :
  block_ok d → block_ok (set_dirent d s i name len).
Proof.
  intros [Hl Hb]. unfold set_dirent. split; [by autorewrite with bytes|].
  apply bytes_ok_splice; [by apply Forall_take|]. apply bytes_ok_splice; [apply bytes_ok_zero|].
  by repeat apply bytes_ok_st.
Qed.

Lemma data_blk_ok : block_ok (m16_copy (m16_zero 512) data size).
Proof.
  unfold m16_copy. change M16_BLOCK_SIZE with 512 in Hsize. split.
  - rewrite length_app, length_take, length_drop. unfold m16_zero. rewrite length_replicate. lia.
  - apply Forall_app_2; [by apply Forall_take|]. apply Forall_drop. apply bytes_ok_zero.
Qed.

Lemma mid_ok : bs_ok mid.
Proof.
  destruct Hbs as [Hl Hb]. unfold mid, meta_content. split; [by rewrite length_apply_writes|].
  destruct ib_block_ok, bb_block_ok. destruct (set_inode_ok bs ino db size Hbs) as [Hsl Hsb].
  apply apply_writes_ok; [done|]. constructor; [|constructor].
  - split; [by etransitivity; [apply length_bm_set|]|by apply bytes_ok_bm_set].
  - split; [by etransitivity; [apply length_bm_set|]|by apply bytes_ok_bm_set].
  - apply Forall_fmap, Forall_seqZ. intros i Hi. simpl. apply inode_block_ok; done || lia.
Qed.

Lemma new_blk x :
  0 <= x < 128 → blk new x = if x =? db then m16_copy (m16_zero 512) data size
                             else if x =? M16_ROOT_DIR_LBA
                             then set_dirent (dir_of mid) slot ino name (m16_strlen_bounded name M16_MAX_NAME)
                             else blk mid x.
Proof.
  intros Hx. pose proof db_range. unfold new, file_content. rewrite blk_apply; [|apply mid_ok|done|].
  - unfold last_write. cbn [foldl fst snd]. rewrite (Z.eqb_sym x db), (Z.eqb_sym x).
    by destruct (db =? x), (M16_ROOT_DIR_LBA =? x).
  - constructor; [done|]. constructor; [simpl; lia|constructor].
Qed.

Lemma new_meta x : 0 <= x < 24 → blk new x = blk mid x.
Proof.
  intros Hx. pose proof db_range. rewrite new_blk by lia. change M16_ROOT_DIR_LBA with 24.
  destruct (Z.eqb_spec x db); [lia|]. destruct (Z.eqb_spec x 24); [lia|done].
Qed.

Lemma new_ib : ib_of new = m16_bitmap_set (ib_of bs) ino.
Proof. unfold ib_of at 1. rewrite new_meta by done. by apply meta_ib. Qed.
Lemma new_bb : bb_of new = m16_bitmap_set (bb_of bs) db.
Proof. unfold bb_of at 1. rewrite new_meta by done. by apply meta_bb. Qed.
Lemma new_it : it_of new = set_inode (it_of bs) ino size db.
Proof. unfold it_of at 1. rewrite !new_meta by done. by apply meta_it. Qed.
Lemma new_dir :
  dir_of new = set_dirent (dir_of bs) slot ino name (m16_strlen_bounded name M16_MAX_NAME).
Proof.
  pose proof db_range. unfold dir_of at 1. rewrite new_blk by done.
  destruct (Z.eqb_spec M16_ROOT_DIR_LBA db); [change M16_ROOT_DIR_LBA with 24 in *; lia|].
  rewrite Z.eqb_refl. unfold mid. by rewrite meta_dir.
Qed.

(** No entry in use refers to the new inode or the new block. *)
Lemma used_apart i :
  0 <= i < dirent_count → dirent_used (dir_of bs) i ≠ 0 →
  0 <= dirent_ino (dir_of bs) i < 16 ∧ dirent_ino (dir_of bs) i ≠ ino ∧
  25 <= inode_get (it_of bs) (dirent_ino (dir_of bs) i) Off.i_direct0 < 128 ∧
  inode_get (it_of bs) (dirent_ino (dir_of bs) i) Off.i_direct0 ≠ db.
Proof.
  intros Hi Hu. destruct (fs_dirents _ Hfs i Hi Hu) as [H1 H2 _ _ _ H6 H7].
  destruct Hal as [_ _ _ Hf _ _ Hg _ _ _]. split_and!.
  - apply ld_nonneg, dir_block_ok.
  - exact H1.
  - congruence.
  - apply H6.
  - apply H6.
  - congruence.
Qed.

Lemma mid_keeps i :
  0 <= i < dirent_count → dirent_used (dir_of bs) i ≠ 0 → keeps bs mid i.
Proof.
  intros Hi Hu. destruct (used_apart i Hi Hu) as (H1 & H2 & H3 & H4).
  destruct (fs_dirents _ Hfs i Hi Hu) as [_ Hb _ _ _ _ Hbb].
  pose proof ino_range. pose proof db_range. destruct Hal. unfold mid. constructor.
  - by rewrite meta_dir.
  - intros f Hf. rewrite meta_it by done. apply inode_get_set_ne; lia.
  - rewrite meta_ib by done. apply bit_kept; (apply ib_block_ok || lia || done).
  - apply meta_content_blk; lia.
  - rewrite meta_bb by done. apply bit_kept; (apply bb_block_ok || lia || done).
Qed.

Lemma slot_apart i : dirent_used (dir_of bs) i ≠ 0 → i ≠ slot.
Proof. intros Hu ->. by destruct Hal. Qed.

Lemma name_len_range : 0 <= m16_strlen_bounded name M16_MAX_NAME < M16_MAX_NAME.
Proof. split; [unfold m16_strlen_bounded; lia|done]. Qed.

Lemma new_keeps i :
  0 <= i < dirent_count → dirent_used (dir_of bs) i ≠ 0 → keeps bs new i.
Proof.
  intros Hi Hu. destruct (used_apart i Hi Hu) as (H1 & H2 & H3 & H4).
  destruct (mid_keeps i Hi Hu) as [K1 K2 K3 K4 K5]. pose proof (slot_apart i Hu).
  pose proof name_len_range. pose proof dir_block_ok as [Hdl _]. pose proof ino_range.
  constructor.
  - rewrite new_dir. apply dirent_ino_ne; (done || lia || apply Hal || apply strlen_le).
  - intros f Hf. rewrite <-K2 by done. unfold it_of. by rewrite !new_meta.
  - rewrite <-K3. unfold ib_of. by rewrite !new_meta.
  - rewrite <-K4. rewrite new_blk by lia. change M16_ROOT_DIR_LBA with 24.
    destruct (Z.eqb_spec (inode_get (it_of bs) (dirent_ino (dir_of bs) i) Off.i_direct0) db); [done|].
    by destruct (Z.eqb_spec (inode_get (it_of bs) (dirent_ino (dir_of bs) i) Off.i_direct0) 24); [lia|].
  - rewrite <-K5. unfold bb_of. by rewrite !new_meta.
Qed.

(** Readers do not see the first transaction. *)
Lemma mid_view n out cap : view_read mid n out cap = view_read bs n out cap.
Proof.
  unfold view_read. assert (dir_of mid = dir_of bs) as -> by (by apply meta_dir).
  destruct (find_dirent_cases (dir_of bs) n) as [[Hn _]|(Hi & Hu & _)].
  - by rewrite (proj2 (Z.ltb_lt _ _) Hn).
  - rewrite (proj2 (Z.ltb_ge _ _)) by lia. by apply keeps_view, mid_keeps.
Qed.

Lemma mid_fs_ok : fs_ok mid.
Proof.
  pose proof ino_range. pose proof db_range. destruct Hfs, Hal.
  assert (it_of mid = set_inode (it_of bs) ino size db) as Hit by (by apply meta_it).
  constructor.
  - unfold mid. by rewrite meta_content_blk by lia.
  - unfold mid. rewrite meta_ib by done. rewrite bit_kept; (apply ib_block_ok || lia || done).
  - rewrite Hit, inode_get_set_ne; (unfold Off.i_used; lia || done).
  - rewrite Hit, inode_get_set_ne; (unfold Off.i_kind; lia || done).
  - rewrite Hit, inode_get_set_ne; (unfold Off.i_direct0; lia || done).
  - intros b Hb. unfold mid. rewrite meta_bb by done.
    rewrite bit_kept; (apply bb_block_ok || lia || auto).
  - unfold mid at 1. rewrite meta_dir by done. intros i Hi Hu.
    eapply keeps_ok; [by apply mid_keeps|auto].
Qed.

Lemma new_dirent :
  dirent_used (dir_of new) slot = 1 ∧ dirent_ino (dir_of new) slot = ino ∧
  (∀ n, m16_streq (dirent_name (dir_of new) slot) n = m16_streq name n) ∧
  (∀ i, 0 <= i → i ≠ slot → dirent_used (dir_of new) i = dirent_used (dir_of bs) i ∧
                            dirent_name (dir_of new) i = dirent_name (dir_of bs) i).
Proof.
  pose proof dir_block_ok as [Hdl _]. pose proof ino_range. pose proof name_len_range.
  destruct Hal. rewrite new_dir. split_and!.
  - apply dirent_used_eq; done || lia.
  - apply dirent_ino_eq; done || lia.
  - intros n. apply stored_name_streq; done || lia.
  - intros i Hi Hne. split; [apply dirent_used_ne|apply dirent_name_ne];
      (done || lia || apply strlen_le).
Qed.

Lemma new_inode :
  inode_get (it_of new) ino Off.i_used = 1 ∧ inode_get (it_of new) ino Off.i_kind = 1 ∧
  inode_get (it_of new) ino Off.i_size = size ∧ inode_get (it_of new) ino Off.i_direct0 = db.
Proof.
  pose proof ino_range. pose proof db_range. change M16_BLOCK_SIZE with 512 in Hsize.
  rewrite new_it. apply inode_get_set; [apply it_ok, Hbs|lia|unfold fits; lia..].
Qed.

Lemma new_fs_ok : fs_ok new.
Proof.
  pose proof mid_fs_ok as Hm. pose proof db_range. pose proof ino_range.
  destruct new_dirent as (Hu1 & Hi1 & _ & Hoth), new_inode as (I1 & I2 & I3 & I4).
  assert (it_of new = it_of mid) as Hit by (rewrite new_it; symmetry; by apply meta_it).
  assert (ib_of new = ib_of mid) as Hib by (rewrite new_ib; symmetry; by apply meta_ib).
  assert (bb_of new = bb_of mid) as Hbb by (rewrite new_bb; symmetry; by apply meta_bb).
  destruct Hm. constructor; rewrite ?Hit, ?Hib, ?Hbb; try done.
  - by rewrite new_meta by lia.
  - intros i Hi Hu. destruct (decide (i = slot)) as [->|Hne].
    + constructor; rewrite Hi1, ?I1, ?I2, ?I3, ?I4; try done || lia.
      * apply ino_range.
      * rewrite new_ib. apply bit_set; [apply ib_block_ok|lia].
      * rewrite new_bb. apply bit_set; [apply bb_block_ok|lia].
    + destruct (Hoth i ltac:(lia) Hne) as [Hu2 _]. rewrite Hu2 in Hu.
      eapply keeps_ok; [by apply new_keeps|]. by apply Hfs.
Qed.

(** Other names read the same, the new name reads the new data. *)
Lemma new_view_other n out cap :
  m16_streq name n = false → view_read new n out cap = view_read bs n out cap.
Proof.
  intros Hn. destruct new_dirent as (Hu1 & _ & Hs & Hoth).
  assert (m16_find_dirent (dir_of new) n = m16_find_dirent (dir_of bs) n) as Hf.
  { unfold m16_find_dirent. erewrite find_z_ext; [reflexivity|]. intros i Hi. simpl.
    destruct (decide (i = slot)) as [->|Hne].
    - rewrite Hs, Hn, (al_slot_free _ _ _ _ _ Hal). by rewrite andb_false_r.
    - destruct (Hoth i ltac:(lia) Hne) as [-> ->]. done. }
  unfold view_read. rewrite Hf.
  destruct (find_dirent_cases (dir_of bs) n) as [[Hneg _]|(Hi & Hu & _)].
  - by rewrite (proj2 (Z.ltb_lt _ _) Hneg).
  - rewrite (proj2 (Z.ltb_ge _ _)) by lia. by apply keeps_view, new_keeps.
Qed.

Lemma new_view_self n out cap :
  m16_streq name n = true → (∀ k, 0 <= k < dirent_count → dirent_used (dir_of bs) k ≠ 0 →
    m16_streq (dirent_name (dir_of bs) k) n = false) →
  view_read new n out cap =
  if cap <? size then Err M16_E_INVAL else Ok (m16_copy out data size, size).
Proof.
  intros Hn Hold. destruct new_dirent as (Hu1 & Hi1 & Hs & Hoth), new_inode as (I1 & I2 & I3 & I4).
  pose proof ino_range. pose proof db_range. change M16_BLOCK_SIZE with 512 in Hsize.
  assert (m16_find_dirent (dir_of new) n = slot) as Hf.
  { destruct (find_dirent_cases (dir_of new) n) as [[_ Hno]|(Hi & Hu & Hm)].
    - specialize (Hno slot (al_slot_range _ _ _ _ _ Hal)). rewrite Hu1, Hs in Hno.
      rewrite Hno in Hn by done. done.
    - destruct (decide (m16_find_dirent (dir_of new) n = slot)) as [|Hne]; [done|].
      destruct (Hoth _ (proj1 Hi) Hne) as [Hu2 Hn2]. rewrite Hu2 in Hu. rewrite Hn2 in Hm.
      rewrite Hold in Hm; done. }
  unfold view_read, view_slot. rewrite Hf, Hi1, I1, I2, I3, I4.
  destruct (al_slot_range _ _ _ _ _ Hal) as [Hs0 _].
  rewrite (proj2 (Z.ltb_ge slot 0)) by lia. change M16_MAX_INODES with 16.
  rewrite (proj2 (Z.leb_gt 16 ino)), (proj2 (Z.leb_gt 128 db)) by lia. cbn [orb negb Z.eqb].
  change (negb (1 =? 1)) with false. cbn [orb]. rewrite orb_false_r.
  destruct (cap <? size); [done|]. change M16_BLOCK_SIZE with 512.
  rewrite (proj2 (Z.ltb_ge 512 size)) by lia.
  rewrite new_blk, Z.eqb_refl by lia. unfold m16_copy.
  rewrite take_app_le by (rewrite length_take; lia). by rewrite take_take, Nat.min_id.
Qed.

End new_file.

(** ** Contents that agree at home *)

Section same.
Context (bs bs' : list (list Z)).
Hypothesis Hsame : same_home bs bs'.

Lemma same_blk x : 0 <= x → ¬ in_journal x → blk bs' x = blk bs x.
Proof. intros. symmetry. by apply same_home_blk. Qed.

Lemma same_meta x : 18 <= x → blk bs' x = blk bs x.
Proof. intros. apply same_blk; lba_lia. Qed.

Lemma same_ib : ib_of bs' = ib_of bs.
Proof. by apply same_meta. Qed.
Lemma same_bb : bb_of bs' = bb_of bs.
Proof. by apply same_meta. Qed.
Lemma same_dir : dir_of bs' = dir_of bs.
Proof. by apply same_meta. Qed.
Lemma same_it : it_of bs' = it_of bs.
Proof. unfold it_of. by rewrite !same_meta. Qed.

Lemma same_keeps i : dirent_ok bs i → keeps bs bs' i.
Proof.
  intros [_ _ _ _ _ Hd _]. change M16_DATA_START_LBA with 25 in Hd.
  constructor; rewrite ?same_dir, ?same_it, ?same_ib, ?same_bb; try done.
  apply same_meta. lia.
Qed.

Lemma same_fs_ok : fs_ok bs → fs_ok bs'.
Proof.
  intros [? ? ? ? ? ? Hd]. constructor; rewrite ?same_dir, ?same_it, ?same_ib, ?same_bb; try done.
  - rewrite same_blk; [done|lia|lba_lia].
  - intros i Hi Hu. apply (keeps_ok bs); [apply same_keeps|]; auto.
Qed.

Lemma same_view n out cap : fs_ok bs → view_read bs' n out cap = view_read bs n out cap.
Proof.
  intros Hfs. unfold view_read. rewrite same_dir.
  destruct (find_dirent_cases (dir_of bs) n) as [[Hn _]|(Hi & Hu & _)].
  - by rewrite (proj2 (Z.ltb_lt _ _) Hn).
  - rewrite (proj2 (Z.ltb_ge _ _)) by lia. apply keeps_view, same_keeps. by apply Hfs.
Qed.

End same.

(** ** Running the writer *)

Lemma wf_bs_ok dev : dev_wf dev → bs_ok (blocks dev).
Proof. by intros []. Qed.

Lemma or_code_find P i n rc :
  0 <= i → rc < 0 →
  let r := or_code (find_z P i n) rc in
  (r = rc ∧ ∀ k, i <= k < i + Z.of_nat n → P k = false) ∨ (i <= r < i + Z.of_nat n ∧ P r = true).
Proof.
  intros Hi Hrc r. subst r. destruct (find_z P i n) as [j|] eqn:Hf; simpl.
  - right. by apply find_z_Some in Hf as (? & ? & _).
  - left. split; [done|]. by apply find_z_None.
Qed.

(** A file can be created: the name is new and inode, block and entry are left. *)
Definition can_create (bs : list (list Z)) (name : list Z) : Prop :=
  m16_find_dirent (dir_of bs) name < 0 ∧ 0 <= m16_find_free_inode (ib_of bs) ∧
  0 <= m16_find_free_block (bb_of bs) ∧ 0 <= m16_find_free_dirent (dir_of bs).

Lemma can_create_alloc bs name :
  can_create bs name → alloc_ok bs name (m16_find_free_dirent (dir_of bs))
    (m16_find_free_inode (ib_of bs)) (m16_find_free_block (bb_of bs)).
Proof.
  intros (H1 & H2 & H3 & H4).
  unfold m16_find_free_inode, m16_find_free_block, m16_find_free_dirent in H2, H3, H4.
  destruct (or_code_find (λ i, negb (m16_bitmap_get (ib_of bs) i)) 1
    (Z.to_nat (M16_MAX_INODES - 1)) M16_E_NOSPC ltac:(lia) ltac:(done)) as [[Hr _]|[Hr1 Hp1]];
    [rewrite Hr in H2; unfold M16_E_NOSPC in H2; lia|].
  destruct (or_code_find (λ i, negb (m16_bitmap_get (bb_of bs) i)) M16_DATA_START_LBA
    (Z.to_nat (M16_MAX_BLOCKS - M16_DATA_START_LBA)) M16_E_NOSPC ltac:(done) ltac:(done))
    as [[Hr _]|[Hr2 Hp2]]; [rewrite Hr in H3; unfold M16_E_NOSPC in H3; lia|].
  destruct (or_code_find (λ i, dirent_used (dir_of bs) i =? 0) 0
    (Z.to_nat dirent_count) M16_E_NOSPC ltac:(lia) ltac:(done)) as [[Hr _]|[Hr3 Hp3]];
    [rewrite Hr in H4; unfold M16_E_NOSPC in H4; lia|].
  constructor; try done.
  - by apply negb_true_iff in Hp1.
  - by apply negb_true_iff in Hp2.
  - by apply Z.eqb_eq in Hp3.
Qed.

Lemma take_block (b : list Z) : length b = 512%nat → take (Z.to_nat M16_BLOCK_SIZE) b = b.
Proof. intros. apply take_ge. unfold M16_BLOCK_SIZE. lia. Qed.

Lemma meta_tx_run ib bb t :
  length ib = 512%nat → length bb = 512%nat →
  ∃ tx, meta_tx ib bb t = Ok tx ∧ length tx = 6%nat ∧
    home tx = (M16_INODE_BITMAP_LBA, ib) :: (M16_BLOCK_BITMAP_LBA, bb) ::
      ((λ i, (M16_INODE_TABLE_LBA + i, inode_block t i)) <$> seqZ 0 M16_INODE_TABLE_BLOCKS).
Proof.
  intros Hi Hb. unfold meta_tx, m16_tx_add, m16_store_inode_table.
  rewrite !take_block by done. eexists. split; [reflexivity|]. by split.
Qed.

Lemma data_tx_run dir db d :
  length dir = 512%nat → length d = 512%nat →
  ∃ tx, data_tx dir db d = Ok tx ∧ length tx = 2%nat ∧ home tx = [(M16_ROOT_DIR_LBA, dir); (db, d)].
Proof.
  intros Hi Hb. unfold data_tx, m16_tx_add. rewrite !take_block by done.
  eexists. split; [reflexivity|]. by split.
Qed.

Lemma tx_ok_home dev tx :
  total_blocks dev = 128 → (length tx <= 8)%nat →
  Forall (λ w, 18 <= w.1 < 128 ∧ block_ok w.2) (home tx) → tx_ok dev tx.
Proof.
  intros Ht Hl Hw. split; [unfold M16_JOURNAL_MAX_RECORDS; lia|].
  unfold home in Hw. rewrite Forall_fmap in Hw. eapply Forall_impl; [|exact Hw].
  intros r [H1 H2]. simpl in *. constructor; [lia| |lba_lia|done].
  apply valid_lba_iff. rewrite Ht. unfold M16_MAX_BLOCKS. lia.
Qed.

Section write.
Context (dev : m16_blockdev) (name data : list Z) (size : Z).
Hypothesis Hdev : clean_dev dev.
Hypothesis Hfs : fs_ok (blocks dev).
Hypothesis Hname : 0 < m16_strlen_bounded name M16_MAX_NAME < M16_MAX_NAME.
Hypothesis Hsize : 0 <= size <= M16_BLOCK_SIZE.
Hypothesis Hdata : size <= Z.of_nat (length data).
Hypothesis Hbytes : bytes_ok data.
Hypothesis Hnbytes : bytes_ok name.

Let bs := blocks dev.
Let slot := m16_find_free_dirent (dir_of bs).
Let ino := m16_find_free_inode (ib_of bs).
Let db := m16_find_free_block (bb_of bs).
Let mid := meta_content bs ino db size.
Let new := file_content mid slot ino db name data size.

Definition write_txs (stop : Z) : M m16_blockdev unit :=
  let* tx := lift (meta_tx (m16_bitmap_set (ib_of bs) ino) (m16_bitmap_set (bb_of bs) db)
                     (set_inode (it_of bs) ino size db)) in
  m16_journal_commit tx (u32 (ld 4 Off.sb_clean_generation (blk bs 0) + 1)) 0 ;;
  let* tx := lift (data_tx (set_dirent (dir_of bs) slot ino name
                              (m16_strlen_bounded name M16_MAX_NAME)) db
                     (m16_copy (m16_zero 512) data size)) in
  m16_journal_commit tx (u32 (ld 4 Off.sb_clean_generation (blk bs 0) + 2)) stop.

Lemma write_file_body stop :
  m16_write_file_ex (Some name) (Some data) size stop (Some dev) =
  (fail_if (0 <=? m16_find_dirent (dir_of bs) name) M16_E_EXISTS ;; fail_if (ino <? 0) ino ;;
   fail_if (db <? 0) db ;; fail_if (slot <? 0) slot ;; write_txs stop) (Some dev).
Proof.
  unfold m16_write_file_ex.
  rewrite (bind_ok _ _ _ tt (Some dev)) by done. cbv zeta.
  rewrite (bind_ok _ _ _ tt (Some dev)) by (apply fail_if_false, orb_false_iff; split;
    [apply Z.eqb_neq|apply Z.leb_gt]; lia).
  rewrite (bind_ok _ _ _ tt (Some dev)) by (apply fail_if_false, Z.ltb_ge; lia).
  pose proof (cd_wf _ Hdev) as Hd.
  rewrite (bind_ok _ _ _ _ _ (mount_run dev Hdev (fs_super _ Hfs))).
  rewrite (bind_ok _ _ _ _ _ (read_meta_run dev M16_INODE_BITMAP_LBA Hd ltac:(done))).
  rewrite (bind_ok _ _ _ _ _ (read_meta_run dev M16_BLOCK_BITMAP_LBA Hd ltac:(done))).
  rewrite (bind_ok _ _ _ _ _ (load_table_run dev Hd)).
  rewrite (bind_ok _ _ _ _ _ (read_meta_run dev M16_ROOT_DIR_LBA Hd ltac:(done))).
  rewrite (proj2 (Z.ltb_ge (Z.of_nat (length data)) size)) by lia. reflexivity.
Qed.

(** The writer either refuses and changes nothing, or commits two transactions. *)
Lemma write_file_refuses stop :
  ¬ can_create bs name →
  ∃ e, m16_write_file_ex (Some name) (Some data) size stop (Some dev) = (Err e, Some dev) ∧
    ((e = M16_E_EXISTS ∧ 0 <= m16_find_dirent (dir_of bs) name) ∨
     (e = M16_E_NOSPC ∧ m16_find_dirent (dir_of bs) name < 0)).
Proof.
  intros Hc. rewrite write_file_body. unfold can_create in Hc. fold slot ino db in Hc.
  destruct (Z.leb_spec 0 (m16_find_dirent (dir_of bs) name)) as [He|He].
  { exists M16_E_EXISTS. by split; [|left]. }
  rewrite (bind_ok _ _ _ tt (Some dev)) by done.
  destruct (Z.ltb_spec ino 0) as [Hi|Hi].
  { exists ino. split; [done|]. right. split; [|lia]. unfold ino, m16_find_free_inode in *.
    destruct (or_code_find (λ i, negb (m16_bitmap_get (ib_of bs) i)) 1
      (Z.to_nat (M16_MAX_INODES - 1)) M16_E_NOSPC ltac:(lia) ltac:(done)) as [[]|[]]; [done|lia]. }
  rewrite (bind_ok _ _ _ tt (Some dev)) by done.
  destruct (Z.ltb_spec db 0) as [Hb|Hb].
  { exists db. split; [done|]. right. split; [|lia]. unfold db, m16_find_free_block in *.
    destruct (or_code_find (λ i, negb (m16_bitmap_get (bb_of bs) i)) M16_DATA_START_LBA
      (Z.to_nat (M16_MAX_BLOCKS - M16_DATA_START_LBA)) M16_E_NOSPC ltac:(done) ltac:(done))
      as [[]|[]]; [done|]. change M16_DATA_START_LBA with 25 in *. lia. }
  rewrite (bind_ok _ _ _ tt (Some dev)) by done.
  destruct (Z.ltb_spec slot 0) as [Hs|Hs]; [|naive_solver lia].
  exists slot. split; [done|]. right. split; [|lia]. unfold slot, m16_find_free_dirent in *.
  destruct (or_code_find (λ i, dirent_used (dir_of bs) i =? 0) 0
    (Z.to_nat dirent_count) M16_E_NOSPC ltac:(lia) ltac:(done)) as [[]|[]]; [done|lia].
Qed.

Lemma write_file_commits stop :
  can_create bs name →
  ∃ tx1 tx2 seq1 seq2, tx_ok dev tx1 ∧ tx_ok dev tx2 ∧
    apply_writes bs (home tx1) = mid ∧ apply_writes mid (home tx2) = new ∧
    m16_write_file_ex (Some name) (Some data) size stop (Some dev) =
    (m16_journal_commit tx1 seq1 0 ;; m16_journal_commit tx2 seq2 stop) (Some dev).
Proof.
  intros Hc. pose proof (can_create_alloc _ _ Hc) as Hal. fold slot ino db in Hal.
  pose proof (wf_bs_ok _ (cd_wf _ Hdev)) as Hbs. fold bs in Hbs.
  destruct Hc as (H1 & H2 & H3 & H4). fold slot ino db in H2, H3, H4.
  pose proof (bs_blk_ok bs M16_INODE_BITMAP_LBA Hbs ltac:(done)) as [Hl1 Hb1].
  pose proof (bs_blk_ok bs M16_BLOCK_BITMAP_LBA Hbs ltac:(done)) as [Hl2 Hb2].
  pose proof (bs_blk_ok bs M16_ROOT_DIR_LBA Hbs ltac:(done)) as Hdir.
  pose proof (set_dirent_ok name Hnbytes (dir_of bs) slot ino
    (m16_strlen_bounded name M16_MAX_NAME) Hdir) as Hdir'.
  pose proof (data_blk_ok data size Hsize Hdata Hbytes) as Hdb.
  pose proof (set_inode_ok bs ino db size Hbs) as [Hil Hib].
  pose proof (al_db_range _ _ _ _ _ Hal) as Hdbr. change M16_DATA_START_LBA with 25 in Hdbr.
  destruct (meta_tx_run (m16_bitmap_set (ib_of bs) ino) (m16_bitmap_set (bb_of bs) db)
    (set_inode (it_of bs) ino size db)) as (tx1 & Ht1 & Hn1 & Hh1);
    [by etransitivity; [apply length_bm_set|]..|].
  destruct (data_tx_run (set_dirent (dir_of bs) slot ino name
    (m16_strlen_bounded name M16_MAX_NAME)) db (m16_copy (m16_zero 512) data size))
    as (tx2 & Ht2 & Hn2 & Hh2); [apply Hdir'|apply Hdb|].
  exists tx1, tx2. eexists _, _. split_and!.
  - apply tx_ok_home; [apply Hdev|lia|]. rewrite Hh1.
    constructor; [|constructor; [|apply Forall_fmap, Forall_seqZ; intros i Hi]].
    + split; [done|]. split; [by etransitivity; [apply length_bm_set|]|by apply bytes_ok_bm_set].
    + split; [done|]. split; [by etransitivity; [apply length_bm_set|]|by apply bytes_ok_bm_set].
    + change M16_INODE_TABLE_BLOCKS with 4 in Hi. simpl. change M16_INODE_TABLE_LBA with 20.
      split; [lia|]. apply inode_block_ok; done || lia.
  - apply tx_ok_home; [apply Hdev|lia|]. rewrite Hh2.
    constructor; [by split|]. constructor; [|constructor]. split; [simpl; lia|done].
  - by rewrite Hh1.
  - rewrite Hh2. unfold new, file_content.
    by assert (dir_of mid = dir_of bs) as -> by (by apply meta_dir).
  - rewrite write_file_body. rewrite (proj2 (Z.leb_gt 0 (m16_find_dirent (dir_of bs) name))) by lia.
    rewrite (proj2 (Z.ltb_ge ino 0)), (proj2 (Z.ltb_ge db 0)), (proj2 (Z.ltb_ge slot 0)) by lia.
    do 4 rewrite (bind_ok _ _ _ tt (Some dev)) by done.
    unfold write_txs. rewrite Ht1, Ht2. rewrite (bind_ok _ _ _ tx1 (Some dev)) by done.
    apply bind_ext; [done|]. intros _ q. by rewrite (bind_ok _ _ _ tx2 q).
Qed.

End write.

(** ** Crashes *)

Lemma empty_stands dev H :
  stands_for dev H → journal_empty (blocks dev) → same_home (blocks dev) H.
Proof.
  intros [_ [[_ Hs]|(tx & [Hl _] & [[seq Hh] _] & _)]] [He _]; [done|].
  destruct (journal_header_fields seq (Z.of_nat (length tx))) as (Hm & _); [lia|].
  rewrite Hh, Hm in He. by vm_compute in He.
Qed.

Lemma stands_for_same dev H H' : same_home H H' → stands_for dev H → stands_for dev H'.
Proof.
  intros Hs [Hd [[? ?]|(tx & ? & ? & ?)]]; (split; [done|]).
  - left. split; [done|]. by etransitivity.
  - right. exists tx. split_and!; [done..|]. by etransitivity.
Qed.

(** Writing a file leaves the device standing for the old content, for the one
    after the first transaction or for the new one. *)
Lemma write_file_stands dev name data size stop :
  clean_dev dev → fs_ok (blocks dev) →
  0 < m16_strlen_bounded name M16_MAX_NAME < M16_MAX_NAME →
  0 <= size <= M16_BLOCK_SIZE → size <= Z.of_nat (length data) → bytes_ok data → bytes_ok name →
  can_create (blocks dev) name →
  let slot := m16_find_free_dirent (dir_of (blocks dev)) in
  let ino := m16_find_free_inode (ib_of (blocks dev)) in
  let db := m16_find_free_block (bb_of (blocks dev)) in
  let mid := meta_content (blocks dev) ino db size in
  let new := file_content mid slot ino db name data size in
  ∃ r d1, m16_write_file_ex (Some name) (Some data) size stop (Some dev) = (r, Some d1) ∧
    total_blocks d1 = total_blocks dev ∧
    (stands_for d1 (blocks dev) ∨ stands_for d1 mid ∨ stands_for d1 new) ∧
    (r = Ok tt → stands_for d1 new ∧ (stop = 0 → journal_empty (blocks d1))) ∧
    (r = Ok tt ∨ r = Err M16_E_IO) ∧ (fail_after dev < 0 → r = Ok tt).
Proof.
  intros Hdev Hfs Hn Hs Hd Hb Hnb Hc slot ino db mid new.
  destruct (write_file_commits dev name data size Hdev Hfs Hn Hs Hd Hb Hnb stop Hc)
    as (tx1 & tx2 & seq1 & seq2 & Htx1 & Htx2 & Hm & Hnew & ->).
  fold slot ino db in Hm, Hnew. fold mid in Hm, Hnew. fold new in Hnew.
  destruct (commit_stands dev tx1 seq1 0 (cd_wf _ Hdev) (cd_empty _ Hdev) Htx1)
    as (r1 & d1 & Hc1 & Hs1 & Hok1 & Hr1 & Hf1 & Ht1). rewrite Hm in Hs1, Hok1.
  destruct Hr1 as [->| ->].
  2:{ rewrite (bind_err _ _ _ _ _ Hc1). exists (Err M16_E_IO), d1. split; [done|].
      split; [done|]. split; [tauto|]. split; [done|]. split; [by right|]. naive_solver. }
  rewrite (bind_ok _ _ _ _ _ Hc1). destruct (Hok1 eq_refl) as [Hst1 He1].
  specialize (He1 eq_refl). pose proof (empty_stands _ _ Hst1 He1) as Hh1.
  assert (tx_ok d1 tx2) as Htx2'.
  { destruct Htx2 as [? Hf]. split; [done|]. eapply Forall_impl; [|exact Hf].
    intros r []. constructor; try done. by rewrite valid_lba_iff, Ht1, <-valid_lba_iff. }
  destruct (commit_stands d1 tx2 seq2 stop (proj1 Hst1) He1 Htx2')
    as (r2 & d2 & Hc2 & Hs2 & Hok2 & Hr2 & Hf2 & Ht2).
  assert (same_home (apply_writes (blocks d1) (home tx2)) new) as Hh2 by (by rewrite Hh1, Hnew).
  rewrite Hc2. exists r2, d2. split; [done|]. split; [congruence|].
  pose proof (stands_for_same d2 _ _ Hh1). pose proof (stands_for_same d2 _ _ Hh2).
  split; [destruct Hs2; auto|]. split; [intros Hr; destruct (Hok2 Hr); auto|].
  split; [done|]. intros Hf. destruct (Hf1 Hf) as [_ Hfa]. apply Hf2. by rewrite Hfa.
Qed.

Lemma mount_recovered d d3 :
  m16_journal_recover (Some d) = (Ok tt, Some d3) → dev_wf d3 → journal_empty (blocks d3) →
  m16_mount (Some d) = m16_mount (Some d3).
Proof.
  intros Hr Hd He. unfold m16_mount. rewrite (bind_ok _ _ (Some d) tt (Some d)) by done.
  rewrite (bind_ok _ _ (Some d3) tt (Some d3)) by done.
  rewrite (bind_ok _ _ _ _ _ Hr). by rewrite (bind_ok _ _ _ _ _ (recover_empty_run d3 Hd He)).
Qed.

Lemma fsck_recovered d d3 :
  m16_journal_recover (Some d) = (Ok tt, Some d3) → dev_wf d3 → journal_empty (blocks d3) →
  m16_fsck (Some d) = m16_fsck (Some d3).
Proof.
  intros Hr Hd He. unfold m16_fsck. rewrite (bind_ok _ _ (Some d) tt (Some d)) by done.
  rewrite (bind_ok _ _ (Some d3) tt (Some d3)) by done.
  unfold bind at 1 11. by rewrite (mount_recovered d d3 Hr Hd He).
Qed.

Lemma streq_from_same a b d i n :
  streq_from a b i n = true → streq_from d a i n = streq_from d b i n.
Proof.
  revert i. induction n as [|n IH]; intros i; simpl; [done|].
  destruct (Z.eqb_spec (char_at a i) (char_at b i)) as [->|]; simpl; [|done].
  destruct (Z.eqb_spec (char_at d i) (char_at b i)) as [->|]; simpl; [|done].
  destruct (char_at b i =? 0); [done|]. apply IH.
Qed.

(** What [m16_read_file] returns for [name] on the device. *)
Definition reads (d : m16_blockdev) (name out : list Z) (cap : Z) : res (list Z * Z) :=
  fst (m16_read_file (Some name) (Some out) cap (Some 0) (Some d)).

(** The files of [d'] are those of [d]. *)
Definition same_files (d d' : m16_blockdev) : Prop :=
  ∀ n out cap, reads d' n out cap = reads d n out cap.

(** The files of [d'] are those of [d] and [name], which holds [size] bytes of
    [data]. *)
Definition with_file (d : m16_blockdev) (name data : list Z) (size : Z) (d' : m16_blockdev) : Prop :=
  (∀ n out cap, m16_streq name n = true → reads d' n out cap =
     if cap <? size then Err M16_E_INVAL else Ok (m16_copy out data size, size)) ∧
  (∀ n out cap, m16_streq name n = false → reads d' n out cap = reads d n out cap).

Lemma reads_view d n out cap :
  clean_dev d → fs_ok (blocks d) → reads d n out cap = view_read (blocks d) n out cap.
Proof. intros H [Hs _ _ _ _ _ _]. unfold reads. by rewrite read_file_run. Qed.

(** A name that is not there is not there under any equal spelling. *)
Lemma absent_streq bs name n k :
  m16_find_dirent (dir_of bs) name < 0 → m16_streq name n = true → 0 <= k < dirent_count →
  dirent_used (dir_of bs) k ≠ 0 → m16_streq (dirent_name (dir_of bs) k) n = false.
Proof.
  intros Hn Hs Hk Hu.
  destruct (find_dirent_cases (dir_of bs) name) as [[_ Hno]|[? _]]; [|lia].
  rewrite <-(Hno k Hk Hu). symmetry. by apply streq_from_same.
Qed.

Section recovered.
Context (dev d3 : m16_blockdev) (name data : list Z) (size : Z).
Hypothesis Hdev : clean_dev dev.
Hypothesis Hfs : fs_ok (blocks dev).
Hypothesis Hd3 : clean_dev d3.
Hypothesis Hname : 0 < m16_strlen_bounded name M16_MAX_NAME < M16_MAX_NAME.
Hypothesis Hsize : 0 <= size <= M16_BLOCK_SIZE.
Hypothesis Hdata : size <= Z.of_nat (length data).
Hypothesis Hbytes : bytes_ok data.
Hypothesis Hnbytes : bytes_ok name.
Let bs := blocks dev.
Let slot := m16_find_free_dirent (dir_of bs).
Let ino := m16_find_free_inode (ib_of bs).
Let db := m16_find_free_block (bb_of bs).
Let mid := meta_content bs ino db size.
Let new := file_content mid slot ino db name data size.

Lemma recovered_old : same_home (blocks d3) bs → fs_ok (blocks d3) ∧ same_files dev d3.
Proof.
  intros Hs. symmetry in Hs. pose proof (same_fs_ok _ _ Hs Hfs) as Hfs3. split; [done|].
  intros n out cap. rewrite !reads_view by done. by apply same_view.
Qed.

Lemma recovered_mid :
  can_create bs name → same_home (blocks d3) mid → fs_ok (blocks d3) ∧ same_files dev d3.
Proof.
  intros Hc Hs. symmetry in Hs. pose proof (can_create_alloc _ _ Hc) as Hal.
  pose proof (wf_bs_ok _ (cd_wf _ Hdev)) as Hbs.
  assert (fs_ok mid) as Hfm by (eapply mid_fs_ok; done).
  pose proof (same_fs_ok _ _ Hs Hfm) as Hfs3. split; [done|].
  intros n out cap. rewrite !reads_view by done. rewrite (same_view _ _ Hs n out cap Hfm).
  eapply mid_view; done.
Qed.

Lemma recovered_new :
  can_create bs name → same_home (blocks d3) new →
  fs_ok (blocks d3) ∧ with_file dev name data size d3.
Proof.
  intros Hc Hs. symmetry in Hs. pose proof (can_create_alloc _ _ Hc) as Hal.
  pose proof (wf_bs_ok _ (cd_wf _ Hdev)) as Hbs.
  assert (fs_ok new) as Hfn by (eapply new_fs_ok; done || lia).
  pose proof (same_fs_ok _ _ Hs Hfn) as Hfs3. split; [done|].
  split; intros n out cap Hn; rewrite !reads_view, (same_view _ _ Hs n out cap Hfn) by done.
  - apply new_view_self; try done || lia. intros k. apply (absent_streq bs name); [apply Hc|done].
  - apply new_view_other; done || lia.
Qed.

End recovered.

#[export] Instance can_create_dec bs name : Decision (can_create bs name).
Proof. unfold can_create. apply _. Defined.

(** The content a write leaves the device standing for, and what its readers see. *)
Lemma write_file_outcome dev name data size stop :
  clean_dev dev → m16_fsck (Some dev) = (Ok tt, Some dev) →
  0 < m16_strlen_bounded name M16_MAX_NAME < M16_MAX_NAME →
  0 <= size <= M16_BLOCK_SIZE → size <= Z.of_nat (length data) → bytes_ok data → bytes_ok name →
  ∃ r d1 H,
    m16_write_file_ex (Some name) (Some data) size stop (Some dev) = (r, Some d1) ∧
    stands_for d1 H ∧ total_blocks d1 = M16_MAX_BLOCKS ∧ fs_ok H ∧
    (∀ d3, clean_dev d3 → same_home (blocks d3) H →
       (same_files dev d3 ∨ with_file dev name data size d3) ∧
       (r = Ok tt → with_file dev name data size d3)) ∧
    (fail_after dev < 0 → if decide (can_create (blocks dev) name) then r = Ok tt else d1 = dev ∧
       ((r = Err M16_E_EXISTS ∧ 0 <= m16_find_dirent (dir_of (blocks dev)) name) ∨
        (r = Err M16_E_NOSPC ∧ m16_find_dirent (dir_of (blocks dev)) name < 0))) ∧
    (r = Ok tt → stop = 0 → journal_empty (blocks d1)).
Proof.
  intros Hdev Hfsck Hn Hs Hd Hb Hnb. pose proof (proj1 (fsck_run dev Hdev) Hfsck) as Hfs.
  pose proof (wf_bs_ok _ (cd_wf _ Hdev)) as Hbs. pose proof (cd_total _ Hdev) as Htot.
  destruct (decide (can_create (blocks dev) name)) as [Hc|Hc].
  2:{ destruct (write_file_refuses dev name data size Hdev Hfs Hn Hs Hd stop Hc) as (e & He & Hcode).
      exists (Err e), dev, (blocks dev). split_and!; try done.
      - split; [apply Hdev|]. left. split; [apply Hdev|done].
      - intros d3 Hc3 Hsh. split; [|done]. left.
        by destruct (recovered_old dev d3 Hdev Hfs Hc3 Hsh).
      - intros _. split; [done|]. naive_solver. }
  pose proof (can_create_alloc _ _ Hc) as Hal.
  destruct (write_file_stands dev name data size stop Hdev Hfs Hn Hs Hd Hb Hnb Hc)
    as (r & d1 & Hr & Ht & Hst & Hok & Hcode & Hf). rewrite Htot in Ht.
  exists r, d1. destruct Hcode as [->| ->]; [|destruct Hst as [Hst|[Hst|Hst]]].
  - eexists. split; [done|]. destruct (Hok eq_refl) as [Hst' He]. split; [exact Hst'|].
    split; [done|]. split; [eapply new_fs_ok; done || lia|]. split; [|done].
    intros d3 Hc3 Hsh. edestruct (recovered_new dev d3 name data size); try done. auto.
  - eexists. split; [done|]. split; [exact Hst|]. split; [done|]. split; [done|].
    split; [|split; [intros; by apply Hf|done]].
    intros d3 Hc3 Hsh. edestruct (recovered_old dev d3); try done. split; [auto|done].
  - eexists. split; [done|]. split; [exact Hst|]. split; [done|].
    split; [eapply mid_fs_ok; done|]. split; [|split; [intros; by apply Hf|done]].
    intros d3 Hc3 Hsh. edestruct (recovered_mid dev d3 name data size); try done. split; [auto|done].
  - eexists. split; [done|]. split; [exact Hst|]. split; [done|].
    split; [eapply new_fs_ok; done || lia|]. split; [|split; [intros; by apply Hf|done]].
    intros d3 Hc3 Hsh. edestruct (recovered_new dev d3 name data size); try done. split; [auto|done].
Qed.

(** ** Format *)

Definition format_writes (total : Z) : list wr :=
  (0, super_block total) ::
  (M16_INODE_BITMAP_LBA, m16_bitmap_set (m16_zero 512) 0) ::
  (M16_BLOCK_BITMAP_LBA, foldl m16_bitmap_set (m16_zero 512) (seqZ 0 M16_DATA_START_LBA)) ::
  (((λ i, (M16_INODE_TABLE_LBA + i, inode_block fresh_inodes i)) <$> seqZ 0 M16_INODE_TABLE_BLOCKS) ++
   [(M16_ROOT_DIR_LBA, m16_zero 512); clear_write]).

Definition fresh_content : list (list Z) := apply_writes zero_blocks (format_writes M16_MAX_BLOCKS).

Lemma format_run dev :
  m16_format (Some dev) =
  writeM (format_writes (total_blocks dev))
    (Some (mk_dev zero_blocks (total_blocks dev) (writes dev) (fail_after dev))).
Proof.
  unfold m16_format, format_writes. rewrite (bind_ok _ _ _ tt (Some dev)) by done.
  rewrite (bind_ok _ _ _ dev (Some dev)) by done.
  set (dev0 := mk_dev zero_blocks _ _ _). rewrite (bind_ok _ _ _ tt (Some dev0)) by done.
  unfold writeM. cbn [iterM fst snd]. apply bind_ext; [done|]. intros _ q1.
  apply bind_ext; [done|]. intros _ q2. apply bind_ext; [done|]. intros _ q3.
  rewrite iterM_app. apply bind_ext; [by rewrite iterM_fmap|]. intros _ q4.
  cbn [iterM fst snd]. apply bind_ext; [done|]. intros _ q5.
  symmetry. apply (writeM_one clear_write).
Qed.

Definition block_okb (b : list Z) : bool :=
  (length b =? 512)%nat && forallb (λ x, (0 <=? x) && (x <? 256)) b.

Lemma block_okb_ok b : block_okb b = true → block_ok b.
Proof.
  unfold block_okb. rewrite andb_true_iff, Nat.eqb_eq. intros [Hl Hb]. split; [done|].
  apply Forall_forall. intros x Hx. rewrite forallb_forall in Hb. specialize (Hb x Hx).
  apply andb_true_iff in Hb as [?%Z.leb_le ?%Z.ltb_lt]. by split.
Qed.

Lemma format_writes_ok dev :
  total_blocks dev = 128 → Forall (write_ok dev) (format_writes M16_MAX_BLOCKS).
Proof.
  intros Ht. assert (forallb (λ w, (0 <=? w.1) && (w.1 <? 128) && block_okb w.2)
    (format_writes M16_MAX_BLOCKS) = true) as H by (vm_compute; reflexivity).
  apply Forall_forall. intros w Hw. rewrite forallb_forall in H. specialize (H w Hw).
  rewrite !andb_true_iff, Z.leb_le, Z.ltb_lt in H. destruct H as [[H1 H2] H3].
  split; [done|]. split; [|by apply block_okb_ok]. apply valid_lba_iff. rewrite Ht.
  unfold M16_MAX_BLOCKS. lia.
Qed.

Lemma fresh_fs_ok : fs_ok fresh_content.
Proof.
  constructor; [vm_compute; reflexivity..| |].
  - assert (forallb (m16_bitmap_get (bb_of fresh_content)) (seqZ 0 M16_DATA_START_LBA) = true) as H
      by (vm_compute; reflexivity).
    intros b Hb. rewrite forallb_forall in H. apply H. apply list_elem_of_In, elem_of_seqZ. lia.
  - assert (forallb (λ i, dirent_used (dir_of fresh_content) i =? 0) (seqZ 0 dirent_count) = true) as H
      by (vm_compute; reflexivity).
    intros i Hi Hu. exfalso. apply Hu. rewrite forallb_forall in H.
    apply Z.eqb_eq, H, list_elem_of_In, elem_of_seqZ. lia.
Qed.

Lemma fresh_no_file name : m16_find_dirent (dir_of fresh_content) name = M16_E_NOENT.
Proof.
  unfold m16_find_dirent.
  assert (dir_of fresh_content = m16_zero 512) as -> by (vm_compute; reflexivity).
  erewrite (find_z_ext _ (λ _, false)); [reflexivity|]. intros k Hk. simpl.
  unfold dirent_used, m16_zero. by rewrite ld_replicate.
Qed.

Lemma format_outcome dev :
  total_blocks dev = M16_MAX_BLOCKS → fail_after dev < 0 →
  ∃ d, m16_format (Some dev) = (Ok tt, Some d) ∧ clean_dev d ∧ blocks d = fresh_content ∧
       fail_after d = fail_after dev.
Proof.
  intros Ht Hf. rewrite format_run, Ht.
  set (dev0 := mk_dev zero_blocks M16_MAX_BLOCKS (writes dev) (fail_after dev)).
  assert (dev_wf dev0) as Hd0.
  { constructor; [apply length_replicate|apply Forall_replicate, zero_block_ok|done]. }
  pose proof (format_writes_ok dev0 ltac:(done)) as Hok.
  destruct (writeM_run _ dev0 Hd0 Hok) as (n & r & w & f & -> & _ & Hres & Hneg).
  destruct Hres as [[-> ->]|[_ Hge]]; [|simpl in Hge; lia]. rewrite firstn_all.
  eexists. split; [done|]. split; [|split; [done|simpl; by apply Hneg]]. constructor; [|split|done].
  - apply with_blocks_wf; [done|]. by apply (block_ok_writes dev0).
  - vm_compute. reflexivity.
  - vm_compute. reflexivity.
Qed.

(** ** Claims *)

(** C3: writing a file is atomic under power loss.  On a device that passes fsck,
    [m16_write_file_ex] interrupted after any number of block writes (or stopped
    after the commit record), then recovery interrupted any number of times, then
    a complete fsck: fsck succeeds, and either every file reads as before the
    write or the new file reads back its data and every other name reads as
    before; the latter when the write reported success. *)
Theorem write_file_crash_atomic dev name data size stop fs :
  clean_dev dev → m16_fsck (Some dev) = (Ok tt, Some dev) →
  0 < m16_strlen_bounded name M16_MAX_NAME < M16_MAX_NAME →
  0 <= size <= M16_BLOCK_SIZE → size <= Z.of_nat (length data) → bytes_ok data → bytes_ok name →
  ∃ r d1 d2 d3,
    m16_write_file_ex (Some name) (Some data) size stop (Some dev) = (r, Some d1) ∧
    crashed_recoveries fs (Some d1) = Some d2 ∧
    m16_fsck (Some (reboot (-1) d2)) = (Ok tt, Some d3) ∧
    (same_files dev d3 ∨ with_file dev name data size d3) ∧
    (r = Ok tt → with_file dev name data size d3).
Proof.
  intros Hdev Hfsck Hn Hs Hd Hb Hnb.
  destruct (write_file_outcome dev name data size stop Hdev Hfsck Hn Hs Hd Hb Hnb)
    as (r & d1 & H & Hr & Hst & Ht & HfH & Hview & _).
  destruct (recovered d1 H fs Hst) as (d2 & d3 & H2 & H3 & Hw & He & Hsh & Ht3).
  assert (clean_dev d3) as Hc3 by (constructor; [done|done|by rewrite Ht3, Ht]).
  exists r, d1, d2, d3. rewrite (fsck_recovered _ d3 H3 Hw He).
  destruct (Hview d3 Hc3 Hsh). split_and!; try done.
  apply fsck_run; [done|]. by apply (same_fs_ok H).
Qed.

(** C16: [m16_write_file] without faults.  On a device that passes fsck it refuses
    with [M16_E_EXISTS] when the name is there and with [M16_E_NOSPC] when no
    inode, block or directory entry is left, changing nothing; otherwise it
    succeeds, fsck accepts the result, the new name reads back the data, and
    every other name reads as before. *)
Theorem write_file_correct dev name data size :
  clean_dev dev → m16_fsck (Some dev) = (Ok tt, Some dev) →
  0 < m16_strlen_bounded name M16_MAX_NAME < M16_MAX_NAME →
  0 <= size <= M16_BLOCK_SIZE → size <= Z.of_nat (length data) → bytes_ok data → bytes_ok name →
  fail_after dev < 0 →
  ∃ r d1, m16_write_file (Some name) (Some data) size (Some dev) = (r, Some d1) ∧
    if decide (can_create (blocks dev) name) then
      r = Ok tt ∧ m16_fsck (Some d1) = (Ok tt, Some d1) ∧ with_file dev name data size d1
    else d1 = dev ∧
      ((r = Err M16_E_EXISTS ∧ 0 <= m16_find_dirent (dir_of (blocks dev)) name) ∨
       (r = Err M16_E_NOSPC ∧ m16_find_dirent (dir_of (blocks dev)) name < 0)).
Proof.
  intros Hdev Hfsck Hn Hs Hd Hb Hnb Hf.
  destruct (write_file_outcome dev name data size 0 Hdev Hfsck Hn Hs Hd Hb Hnb)
    as (r & d1 & H & Hr & Hst & Ht & HfH & Hview & Hcode & He).
  exists r, d1. split; [done|]. specialize (Hcode Hf). destruct (decide _); [|done].
  subst r. specialize (He eq_refl eq_refl). pose proof (empty_stands _ _ Hst He) as Hsh.
  assert (clean_dev d1) as Hc1 by (constructor; [apply Hst|done|done]).
  split; [done|]. split; [|by apply Hview]. apply fsck_run; [done|]. by apply (same_fs_ok H).
Qed.

(** [m16_format] on a device of 128 blocks, whatever it held, succeeds, and
    the result passes fsck and holds no file under any name. *)
Theorem format_correct dev :
  total_blocks dev = M16_MAX_BLOCKS → fail_after dev < 0 →
  ∃ d, m16_format (Some dev) = (Ok tt, Some d) ∧ m16_fsck (Some d) = (Ok tt, Some d) ∧
    ∀ n out cap, reads d n out cap = Err M16_E_NOENT.
Proof.
  intros Ht Hf. destruct (format_outcome dev Ht Hf) as (d & Hr & Hc & Hb & _). exists d.
  assert (fs_ok (blocks d)) as Hfs by (rewrite Hb; apply fresh_fs_ok).
  split; [done|]. split; [by apply fsck_run|]. intros n out cap.
  rewrite reads_view by done. unfold view_read. rewrite Hb, fresh_no_file. done.
Qed.

(** A freshly formatted device whose power fails after [f] writes. *)
Definition demo_fs (f : Z) : m16_blockdev := mk_dev fresh_content M16_MAX_BLOCKS 0 f.

Lemma demo_fs_clean f : clean_dev (demo_fs f).
Proof.
  destruct (format_outcome (mk_dev [] M16_MAX_BLOCKS 0 (-1)) eq_refl eq_refl)
    as (d & _ & [[H1 H2 H3] He Ht] & Hb & _). rewrite Hb in *.
  constructor; [by constructor|done|done].
Qed.

Lemma demo_fsck f : m16_fsck (Some (demo_fs f)) = (Ok tt, Some (demo_fs f)).
Proof. apply fsck_run; [apply demo_fs_clean|apply fresh_fs_ok]. Qed.

Lemma format_correct_witness :
  ∃ d, m16_format (Some (mk_dev [] 128 5 (-1))) = (Ok tt, Some d) ∧
    m16_fsck (Some d) = (Ok tt, Some d) ∧ ∀ n out cap, reads d n out cap = Err M16_E_NOENT.
Proof. apply (format_correct (mk_dev [] 128 5 (-1))); [reflexivity|done]. Defined.

Lemma write_file_crash_atomic_witness :
  ∃ r d1 d2 d3,
    m16_write_file_ex (Some [97; 98]) (Some [1; 2; 3]) 3 0 (Some (demo_fs 20)) = (r, Some d1) ∧
    crashed_recoveries [1; 0] (Some d1) = Some d2 ∧
    m16_fsck (Some (reboot (-1) d2)) = (Ok tt, Some d3) ∧
    (same_files (demo_fs 20) d3 ∨ with_file (demo_fs 20) [97; 98] [1; 2; 3] 3 d3) ∧
    (r = Ok tt → with_file (demo_fs 20) [97; 98] [1; 2; 3] 3 d3).
Proof.
  apply (write_file_crash_atomic (demo_fs 20) [97; 98] [1; 2; 3] 3 0 [1; 0]).
  - apply demo_fs_clean.
  - apply demo_fsck.
  - vm_compute; split; reflexivity.
  - unfold M16_BLOCK_SIZE; lia.
  - simpl; lia.
  - repeat constructor; unfold byte_ok; lia.
  - repeat constructor; unfold byte_ok; lia.
Defined.

Lemma write_file_correct_witness :
  ∃ r d1, m16_write_file (Some [97; 98]) (Some [1; 2; 3]) 3 (Some (demo_fs (-1))) = (r, Some d1) ∧
    if decide (can_create (blocks (demo_fs (-1))) [97; 98]) then
      r = Ok tt ∧ m16_fsck (Some d1) = (Ok tt, Some d1) ∧
      with_file (demo_fs (-1)) [97; 98] [1; 2; 3] 3 d1
    else d1 = demo_fs (-1) ∧
      ((r = Err M16_E_EXISTS ∧ 0 <= m16_find_dirent (dir_of (blocks (demo_fs (-1)))) [97; 98]) ∨
       (r = Err M16_E_NOSPC ∧ m16_find_dirent (dir_of (blocks (demo_fs (-1)))) [97; 98] < 0)).
Proof.
  apply (write_file_correct (demo_fs (-1)) [97; 98] [1; 2; 3] 3).
  - apply demo_fs_clean.
  - apply demo_fsck.
  - vm_compute; split; reflexivity.
  - unfold M16_BLOCK_SIZE; lia.
  - simpl; lia.
  - repeat constructor; unfold byte_ok; lia.
  - repeat constructor; unfold byte_ok; lia.
  - done.
Defined.

(** On a device that passes fsck, [m16_read_file] never leaves its block
    buffer, and what it returns fits the caller's capacity and one block. *)
Theorem read_file_safe dev n out cap :
  clean_dev dev → m16_fsck (Some dev) = (Ok tt, Some dev) →
  match reads dev n out cap with
  | Ok (_, size) => 0 <= size <= cap ∧ size <= M16_BLOCK_SIZE
  | Err e => e = M16_E_NOENT ∨ e = M16_E_INVAL
  | Ub => False
  end.
Proof.
  intros Hdev Hf%fsck_run; [|done]. rewrite reads_view by done. unfold view_read.
  destruct (find_dirent_cases (dir_of (blocks dev)) n) as [[Hn _]|(Hi & Hu & _)].
  - rewrite (proj2 (Z.ltb_lt _ _) Hn). left. unfold m16_find_dirent in *.
    by destruct (or_code_find (λ i, negb (dirent_used (dir_of (blocks dev)) i =? 0) &&
      m16_streq (dirent_name (dir_of (blocks dev)) i) n) 0 (Z.to_nat dirent_count) M16_E_NOENT
      ltac:(lia) ltac:(done)) as [[]|[]]; [|lia].
  - rewrite (proj2 (Z.ltb_ge _ _)) by lia.
    destruct (fs_dirents _ Hf _ Hi Hu) as [H1 _ H3 H4 H5 H6 _]. unfold view_slot.
    rewrite (proj2 (Z.leb_gt _ _) H1), (proj2 (Z.eqb_neq _ _) H3), (proj2 (Z.eqb_eq _ _) H4).
    cbn [orb negb]. rewrite (proj2 (Z.leb_gt 128 _)) by lia. rewrite orb_false_r.
    destruct (Z.ltb_spec cap (inode_get (it_of (blocks dev))
      (dirent_ino (dir_of (blocks dev)) (m16_find_dirent (dir_of (blocks dev)) n)) Off.i_size));
      [by right|].
    rewrite (proj2 (Z.ltb_ge _ _)) by lia. split; [|done]. split; [|lia].
    apply ld_nonneg, it_ok, wf_bs_ok, Hdev.
Qed.

Lemma read_file_safe_witness :
  match reads (demo_fs (-1)) [97] [] 16 with
  | Ok (_, size) => 0 <= size <= 16 ∧ size <= M16_BLOCK_SIZE
  | Err e => e = M16_E_NOENT ∨ e = M16_E_INVAL
  | Ub => False
  end.
Proof.
  apply (read_file_safe (demo_fs (-1)) [97] [] 16); [apply demo_fs_clean|apply demo_fsck].
Defined.

(** C34: [m16_read_file] checks the inode's size against the caller's capacity but
    not against the block size: a mountable image whose inode claims more than
    512 bytes makes it copy past its 512-byte block buffer. *)
Theorem read_file_overread dev n out cap :
  clean_dev dev → super_ok (blk (blocks dev) 0) = true →
  let slot := m16_find_dirent (dir_of (blocks dev)) n in
  let ino := dirent_ino (dir_of (blocks dev)) slot in
  0 <= slot → ino < M16_MAX_INODES →
  inode_get (it_of (blocks dev)) ino Off.i_used ≠ 0 →
  inode_get (it_of (blocks dev)) ino Off.i_kind = 1 →
  inode_get (it_of (blocks dev)) ino Off.i_direct0 < 128 →
  M16_BLOCK_SIZE < inode_get (it_of (blocks dev)) ino Off.i_size <= cap →
  m16_read_file (Some n) (Some out) cap (Some 0) (Some dev) = (Ub, Some dev).
Proof.
  intros Hdev Hs slot ino H0 H1 H2 H3 H4 H5. rewrite read_file_run by done.
  unfold view_read, view_slot. fold slot. fold ino.
  rewrite (proj2 (Z.ltb_ge slot 0)), (proj2 (Z.leb_gt M16_MAX_INODES ino)) by lia.
  rewrite (proj2 (Z.eqb_neq _ _) H2), (proj2 (Z.eqb_eq _ _) H3). cbn [orb negb].
  rewrite (proj2 (Z.ltb_ge cap _)), (proj2 (Z.leb_gt 128 _)) by lia. cbn [orb].
  by rewrite (proj2 (Z.ltb_lt M16_BLOCK_SIZE _)) by lia.
Qed.

(** An image with one entry "a" whose inode claims 600 bytes. *)
Definition bad_content : list (list Z) := Eval vm_compute in
  apply_writes fresh_content
    [(M16_ROOT_DIR_LBA, set_dirent (m16_zero 512) 0 1 [97] 1);
     (M16_INODE_TABLE_LBA, inode_block (set_inode fresh_inodes 1 600 25) 0)].

Lemma bad_clean : clean_dev (mk_dev bad_content M16_MAX_BLOCKS 0 (-1)).
Proof.
  constructor; [|split; vm_compute; reflexivity|reflexivity].
  constructor; [reflexivity| |done].
  assert (forallb block_okb bad_content = true) as H by (vm_compute; reflexivity).
  apply Forall_forall. intros b Hb. rewrite forallb_forall in H. by apply block_okb_ok, H.
Qed.

Lemma read_file_overread_witness :
  m16_read_file (Some [97]) (Some []) 1024 (Some 0) (Some (mk_dev bad_content M16_MAX_BLOCKS 0 (-1)))
  = (Ub, Some (mk_dev bad_content M16_MAX_BLOCKS 0 (-1))).
Proof.
  apply (read_file_overread (mk_dev bad_content M16_MAX_BLOCKS 0 (-1)) [97] [] 1024 bad_clean);
    vm_compute; try reflexivity; try (split; [reflexivity|]); congruence.
Defined.
