(* ===== verification/Block.v ===== *)
(** * Block layer: registry, RAM disk and buffer cache
      (kernel/block/block.c, ramblk.c, bcache.c, include/mcsos/block.h)

    A device carries a table of driver operations; the cache works on any driver
    that satisfies the class [BlkDriver], which the RAM disk is shown to be an
    instance of.  Pointers to devices are indices into the list of devices. *)

From Stdlib Require Import ZArith Lia.
From stdpp Require Import base list numbers option.
From S2P Require Import Prelude.

Local Open Scope Z_scope.
Local Open Scope cm_scope.

(** ** Devices *)

Definition MCSOS_BLK_NAME_MAX : Z := 16.
Definition MCSOS_BLK_MAX_DEVICES : Z := 8.
Definition MCSOS_BLK_DEFAULT_SECTOR_SIZE : Z := 512.
Definition MCSOS_BLK_EINVAL : Z := -1.
Definition MCSOS_BLK_ERANGE : Z := -2.
Definition MCSOS_BLK_EFULL : Z := -3.

(** Driver entry points receive the device's block size and driver data. *)
Record blk_ops (D : Type) := mk_ops {
  op_read : ptr (Z → ptr D → Z → Z → ptr (list Z) → res (list Z));
  op_write : ptr (Z → ptr D → Z → Z → ptr (list Z) → res D);
  op_flush : ptr (Z → ptr D → Z → Z → ptr (list Z) → res unit)
}.
Arguments mk_ops {D}. Arguments op_read {D}. Arguments op_write {D}. Arguments op_flush {D}.

Record blk_device (D : Type) := mk_blkdev {
  d_name : list Z;
  d_block_size : Z;
  d_block_count : Z;
  d_flags : Z;
  d_ops : ptr (blk_ops D);
  d_driver : ptr D
}.
Arguments mk_blkdev {D}. Arguments d_name {D}. Arguments d_block_size {D}.
Arguments d_block_count {D}. Arguments d_flags {D}. Arguments d_ops {D}. Arguments d_driver {D}.

Definition set_driver {D} (dev : blk_device D) (dd : D) : blk_device D :=
  mk_blkdev (d_name dev) (d_block_size dev) (d_block_count dev) (d_flags dev) (d_ops dev) (Some dd).

Definition mcsos_is_power_of_two_u32 (value : Z) : bool :=
  negb (value =? 0) && (Z.land value (wrap 32 (value - 1)) =? 0).

Definition mcsos_name_is_nonempty (s : ptr (list Z)) : bool :=
  match s with Some (c :: _) => negb (c =? 0) | _ => false end.

(** [src] is a C string; the byte after its last one is the terminator. *)
Fixpoint copy_name_from (src : list Z) (n : nat) : list Z :=
  match n, src with
  | S n', c :: src' => if c =? 0 then [] else c :: copy_name_from src' n'
  | _, _ => []
  end.

Definition mcsos_copy_name (dst : list Z) (src : ptr (list Z)) : list Z :=
  match src with
  | None => splice 0 [0] dst
  | Some src => splice 0 (copy_name_from src (Z.to_nat (MCSOS_BLK_NAME_MAX - 1)) ++ [0]) dst
  end.

Definition mcsos_blk_copy_name_for_driver := mcsos_copy_name.

(** The registry: [g_blk_devices] and [g_blk_count]. *)
Record blk_registry := mk_registry {
  g_blk_devices : list (ptr nat);
  g_blk_count : Z
}.

Definition mcsos_blk_registry_reset (r : blk_registry) : blk_registry :=
  mk_registry (replicate (Z.to_nat MCSOS_BLK_MAX_DEVICES) None) 0.

Section devices.
Context {D : Type}.
Implicit Types dev : ptr (blk_device D).

Definition mcsos_blk_register (r : blk_registry) (dev : ptr (nat * blk_device D))
    : res unit * blk_registry :=
  match dev with
  | None => (Err MCSOS_BLK_EINVAL, r)
  | Some (p, d) =>
      match d_ops d with
      | Some (mk_ops (Some _) (Some _) _) =>
          if negb (mcsos_name_is_nonempty (Some (d_name d))) || (d_block_count d =? 0)
             || (d_block_size d <? MCSOS_BLK_DEFAULT_SECTOR_SIZE)
             || negb (mcsos_is_power_of_two_u32 (d_block_size d))
          then (Err MCSOS_BLK_EINVAL, r)
          else if MCSOS_BLK_MAX_DEVICES <=? g_blk_count r then (Err MCSOS_BLK_EFULL, r)
          else (Ok tt, mk_registry (<[Z.to_nat (g_blk_count r) := Some p]> (g_blk_devices r))
                                   (wrap 32 (g_blk_count r + 1)))
      | _ => (Err MCSOS_BLK_EINVAL, r)
      end
  end.

Definition mcsos_blk_get (r : blk_registry) (index : Z) : ptr nat :=
  if g_blk_count r <=? index then None else nth (Z.to_nat index) (g_blk_devices r) None.

Definition mcsos_blk_count (r : blk_registry) : Z := g_blk_count r.

Definition mcsos_blk_validate_range dev (lba count : Z) (buffer : ptr (list Z)) : res (blk_device D) :=
  match dev, buffer with
  | Some d, Some _ =>
      if (count =? 0) || (if d_ops d then false else true) then Err MCSOS_BLK_EINVAL
      else if d_block_count d <=? lba then Err MCSOS_BLK_ERANGE
      else if d_block_count d - lba <? count then Err MCSOS_BLK_ERANGE
      else Ok d
  | _, _ => Err MCSOS_BLK_EINVAL
  end.

Definition mcsos_blk_read dev (lba count : Z) (buffer : ptr (list Z)) : res (list Z) :=
  match mcsos_blk_validate_range dev lba count buffer with
  | Ok d =>
      match d_ops d ≫= op_read with
      | None => Err MCSOS_BLK_EINVAL
      | Some f => f (d_block_size d) (d_driver d) lba count buffer
      end
  | Err e => Err e
  | Ub => Ub
  end.

(** The result is the device with its driver data updated. *)
Definition mcsos_blk_write dev (lba count : Z) (buffer : ptr (list Z)) : res (blk_device D) :=
  match mcsos_blk_validate_range dev lba count buffer with
  | Ok d =>
      match d_ops d ≫= op_write with
      | None => Err MCSOS_BLK_EINVAL
      | Some f =>
          match f (d_block_size d) (d_driver d) lba count buffer with
          | Ok dd => Ok (set_driver d dd)
          | Err e => Err e
          | Ub => Ub
          end
      end
  | Err e => Err e
  | Ub => Ub
  end.

Definition mcsos_blk_flush dev : res unit :=
  match dev with
  | None => Err MCSOS_BLK_EINVAL
  | Some d =>
      match d_ops d with
      | None => Err MCSOS_BLK_EINVAL
      | Some ops =>
          match op_flush ops with
          | None => Ok tt
          | Some f => f (d_block_size d) (d_driver d) 0 0 None
          end
      end
  end.

End devices.

(** ** RAM disk *)

Record mcsos_ramblk := mk_ramblk {
  storage : list Z;
  storage_size : Z
}.

Definition ramblk_range (block_size : Z) (ram : mcsos_ramblk) (lba count : Z) : res (Z * Z) :=
  let byte_offset := u64 (lba * block_size) in
  let byte_count := u64 (count * block_size) in
  if (storage_size ram <? byte_offset) || (storage_size ram - byte_offset <? byte_count)
  then Err MCSOS_BLK_ERANGE else Ok (byte_offset, byte_count).

(** [mcsos_ramblk_rw] with [is_write == 0] and [is_write == 1]. *)
Definition mcsos_ramblk_read (block_size : Z) (dd : ptr mcsos_ramblk) (lba count : Z)
    (buffer : ptr (list Z)) : res (list Z) :=
  match dd, buffer with
  | Some ram, Some buf =>
      match ramblk_range block_size ram lba count with
      | Ok (off, n) => c_memcpy buf (drop (Z.to_nat off) (storage ram)) n
      | Err e => Err e
      | Ub => Ub
      end
  | _, _ => Err MCSOS_BLK_EINVAL
  end.

Definition mcsos_ramblk_write (block_size : Z) (dd : ptr mcsos_ramblk) (lba count : Z)
    (buffer : ptr (list Z)) : res mcsos_ramblk :=
  match dd, buffer with
  | Some ram, Some buf =>
      match ramblk_range block_size ram lba count with
      | Ok (off, n) =>
          match c_memcpy (drop (Z.to_nat off) (storage ram)) buf n with
          | Ok tail => Ok (mk_ramblk (take (Z.to_nat off) (storage ram) ++ tail) (storage_size ram))
          | Err e => Err e
          | Ub => Ub
          end
      | Err e => Err e
      | Ub => Ub
      end
  | _, _ => Err MCSOS_BLK_EINVAL
  end.

Definition mcsos_ramblk_flush (block_size : Z) (dd : ptr mcsos_ramblk) (lba count : Z)
    (buffer : ptr (list Z)) : res unit := Ok tt.

Definition g_ramblk_ops : blk_ops mcsos_ramblk :=
  mk_ops (Some mcsos_ramblk_read) (Some mcsos_ramblk_write) (Some mcsos_ramblk_flush).

Definition mcsos_ramblk_init (dev : ptr (blk_device mcsos_ramblk)) (ram : ptr mcsos_ramblk)
    (name storage : ptr (list Z)) (storage_size block_size : Z)
    : res (blk_device mcsos_ramblk) :=
  match dev, ram, storage, name with
  | Some d, Some _, Some bytes, Some nm =>
      if (block_size <? MCSOS_BLK_DEFAULT_SECTOR_SIZE) || negb (mcsos_is_power_of_two_u32 block_size)
      then Err MCSOS_BLK_EINVAL
      else if (storage_size <? block_size) || negb (storage_size mod block_size =? 0)
      then Err MCSOS_BLK_EINVAL
      else Ok (mk_blkdev (mcsos_blk_copy_name_for_driver (d_name d) (Some nm)) block_size
                 (storage_size / block_size) 0 (Some g_ramblk_ops)
                 (Some (mk_ramblk bytes storage_size)))
  | _, _, _, _ => Err MCSOS_BLK_EINVAL
  end.

(** ** Buffer cache *)

Record bcache_entry := mk_entry {
  e_data : list Z;
  e_capacity : Z;
  e_lba : Z;
  e_valid : bool;
  e_dirty : bool;
  e_dev : ptr nat
}.

Record mcsos_bcache := mk_bcache {
  c_entries : ptr (list bcache_entry);
  c_entry_count : Z;
  c_block_size : Z;
  c_clock_hand : Z
}.

Definition entry_matches (dev : nat) (lba : Z) (e : bcache_entry) : bool :=
  e_valid e && bool_decide (e_dev e = Some dev) && (e_lba e =? lba).

(** [cache->entries[i]]; a missing entry never matches. *)
Definition entry_at (c : mcsos_bcache) (i : Z) : option bcache_entry :=
  c_entries c ≫= λ es, es !! Z.to_nat i.

Definition entry_is (P : bcache_entry → bool) (c : mcsos_bcache) (i : Z) : bool :=
  match entry_at c i with Some e => P e | None => false end.

(** The result is the index of the entry. *)
Definition mcsos_bcache_find (c : mcsos_bcache) (dev : nat) (lba : Z) : option Z :=
  find_z (entry_is (entry_matches dev lba) c) 0 (Z.to_nat (c_entry_count c)).

Section cache.
Context {D : Type}.

(** The cache and the devices its entries point to. *)
Record world := mk_world {
  w_cache : mcsos_bcache;
  w_devs : list (blk_device D)
}.

Definition set_cache (c : mcsos_bcache) : M world unit :=
  let* w := deref in store (mk_world c (w_devs w)).

(** [cache->entries[i] = e] *)
Definition put_entry (c : mcsos_bcache) (i : Z) (e : bcache_entry) : mcsos_bcache :=
  mk_bcache ((λ es, <[Z.to_nat i := e]> es) <$> c_entries c) (c_entry_count c) (c_block_size c)
    (c_clock_hand c).

Definition set_entry (i : Z) (e : bcache_entry) : M world unit :=
  let* w := deref in store (mk_world (put_entry (w_cache w) i e) (w_devs w)).

Definition get_entry (i : Z) : M world bcache_entry :=
  let* w := deref in
  match entry_at (w_cache w) i with Some e => ret e | None => ub end.

Definition set_hand (hand : Z) : M world unit :=
  let* w := deref in
  let c := w_cache w in
  set_cache (mk_bcache (c_entries c) (c_entry_count c) (c_block_size c) hand).

(** [mcsos_blk_write] and [mcsos_blk_read] through a device pointer. *)
Definition dev_write (dev : ptr nat) (lba count : Z) (buffer : list Z) : M world unit :=
  let* w := deref in
  match dev with
  | None => let* d := lift (mcsos_blk_write (None : ptr (blk_device D)) lba count (Some buffer)) in ret tt
  | Some p =>
      match w_devs w !! p with
      | None => ub
      | Some d =>
          let* d' := lift (mcsos_blk_write (Some d) lba count (Some buffer)) in
          store (mk_world (w_cache w) (<[p := d']> (w_devs w)))
      end
  end.

Definition dev_read (dev : nat) (lba count : Z) (buffer : list Z) : M world (list Z) :=
  let* w := deref in
  match w_devs w !! dev with
  | None => ub
  | Some d => lift (mcsos_blk_read (Some d) lba count (Some buffer))
  end.

Definition with_dirty (e : bcache_entry) (b : bool) : bcache_entry :=
  mk_entry (e_data e) (e_capacity e) (e_lba e) (e_valid e) b (e_dev e).
Definition with_data (e : bcache_entry) (d : list Z) : bcache_entry :=
  mk_entry d (e_capacity e) (e_lba e) (e_valid e) (e_dirty e) (e_dev e).
Definition with_valid (e : bcache_entry) (b : bool) : bcache_entry :=
  mk_entry (e_data e) (e_capacity e) (e_lba e) b (e_dirty e) (e_dev e).
(** [e->dev = dev; e->lba = lba; e->valid = 1; e->dirty = 0;] *)
Definition retarget (e : bcache_entry) (dev : nat) (lba : Z) : bcache_entry :=
  mk_entry (e_data e) (e_capacity e) lba true false (Some dev).

(** The entry pointer is the index [i] (never NULL in the callers). *)
Definition mcsos_bcache_flush_entry (i : Z) : M world unit :=
  let* e := get_entry i in
  if negb (e_valid e) || negb (e_dirty e) then ret tt
  else
    dev_write (e_dev e) (e_lba e) 1 (e_data e) ;;
    set_entry i (with_dirty e false).

Definition mcsos_bcache_select_victim : M world Z :=
  null_check MCSOS_BLK_EINVAL ;;
  let* w := deref in
  let c := w_cache w in
  let n := c_entry_count c in
  fail_if (n =? 0) MCSOS_BLK_EINVAL ;;
  let start := c_clock_hand c mod n in
  match find_z (λ pass, negb (entry_is e_valid c (wrap 32 (start + pass) mod n))) 0 (Z.to_nat n) with
  | Some pass =>
      let idx := wrap 32 (start + pass) mod n in
      set_hand (wrap 32 (idx + 1)) ;;
      ret idx
  | None =>
      set_hand (wrap 32 (start + 1)) ;;
      mcsos_bcache_flush_entry start ;;
      ret start
  end.

Definition init_entry (pool : list Z) (block_size i : Z) : bcache_entry :=
  mk_entry (slice (Z.to_nat (i * block_size)) (Z.to_nat block_size) pool) block_size 0 false false None.

(** [entries] is the caller's array; initialising more entries than it has is
    undefined, and what follows them is kept. *)
Definition mcsos_bcache_init (cache : ptr mcsos_bcache) (entries : ptr (list bcache_entry))
    (entry_count : Z) (data_pool : ptr (list Z)) (block_size : Z) : res mcsos_bcache :=
  match cache, entries, data_pool with
  | Some _, Some es, Some pool =>
      if (entry_count =? 0) || (block_size =? 0) then Err MCSOS_BLK_EINVAL
      else if Z.of_nat (length es) <? entry_count then Ub
      else Ok (mk_bcache (Some ((init_entry pool block_size <$> seqZ 0 entry_count) ++ drop (Z.to_nat entry_count) es))
                 entry_count block_size 0)
  | _, _, _ => Err MCSOS_BLK_EINVAL
  end.

(** The common head of read and write: parameter checks and the device lookup. *)
Definition bcache_guard (dev : ptr nat) : M world (nat * blk_device D) :=
  null_check MCSOS_BLK_EINVAL ;;
  let* w := deref in
  match dev with
  | None => fail MCSOS_BLK_EINVAL
  | Some p =>
      match w_devs w !! p with
      | None => ub
      | Some d =>
          fail_if (negb (c_block_size (w_cache w) =? d_block_size d)) MCSOS_BLK_EINVAL ;;
          ret (p, d)
      end
  end.

(** [if (st != OK) { e->valid = 0; return st; }] around the driver's read; a
    driver that fails leaves the entry's buffer alone. *)
Definition fill_entry (i : Z) (p : nat) (lba : Z) : M world unit :=
  let* e := get_entry i in
  let* w := deref in
  match dev_read p lba 1 (e_data e) (Some w) with
  | (Ok d, _) => set_entry i (retarget (with_data e d) p lba)
  | (Err rc, _) => set_entry i (with_valid e false) ;; fail rc
  | (Ub, _) => ub
  end.

Definition mcsos_bcache_read (dev : ptr nat) (lba : Z) (buffer : ptr (list Z)) : M world (list Z) :=
  match buffer with
  | None => fail MCSOS_BLK_EINVAL
  | Some buf =>
      let* pd := bcache_guard dev in
      let* w := deref in
      let* i :=
        match mcsos_bcache_find (w_cache w) (fst pd) lba with
        | Some i => ret i
        | None =>
            let* i := mcsos_bcache_select_victim in
            fill_entry i (fst pd) lba ;;
            ret i
        end in
      let* e := get_entry i in
      let* w := deref in
      lift (c_memcpy buf (e_data e) (c_block_size (w_cache w)))
  end.

Definition mcsos_bcache_write (dev : ptr nat) (lba : Z) (buffer : ptr (list Z)) : M world unit :=
  match buffer with
  | None => fail MCSOS_BLK_EINVAL
  | Some buf =>
      let* pd := bcache_guard dev in
      let* w := deref in
      let* i :=
        match mcsos_bcache_find (w_cache w) (fst pd) lba with
        | Some i => ret i
        | None =>
            let* i := mcsos_bcache_select_victim in
            let* e := get_entry i in
            set_entry i (retarget e (fst pd) lba) ;;
            ret i
        end in
      let* e := get_entry i in
      let* w := deref in
      let* d := lift (c_memcpy (e_data e) buf (c_block_size (w_cache w))) in
      set_entry i (with_dirty (with_data e d) true)
  end.

Definition mcsos_bcache_flush_all : M world unit :=
  null_check MCSOS_BLK_EINVAL ;;
  let* w := deref in
  match c_entries (w_cache w) with
  | None => fail MCSOS_BLK_EINVAL
  | Some _ => iterM mcsos_bcache_flush_entry (seqZ 0 (c_entry_count (w_cache w)))
  end.

End cache.
Arguments world : clear implicits.
