(* ===== verification/BlockCache.v ===== *)
(** * Buffer cache: coherence with an abstract disk

    The cache is proved against the driver interface [BlkDriver]: whatever the
    driver, reads through the cache return the last block written through it,
    and flushing brings the devices up to date.  The RAM disk discharges the
    interface. *)

From Stdlib Require Import ZArith Lia.
From stdpp Require Import base list numbers option.
From S2P Require Import Prelude Block.

Local Open Scope Z_scope.
Local Open Scope cm_scope.

(** ** The driver interface *)

(** What the cache relies on: single-block reads and writes inside the device
    succeed, and a write changes the block it addresses and no other. *)
Class BlkDriver {D : Type} (ops : blk_ops D) := {
  drv_ok : Z → Z → D → Prop;
  drv_block : Z → D → Z → list Z;
  drv_len bs n d lba : drv_ok bs n d → 0 <= lba < n → Z.of_nat (length (drv_block bs d lba)) = bs;
  drv_read bs n d lba buf :
    drv_ok bs n d → 0 <= lba < n → Z.of_nat (length buf) = bs →
    ∃ f, op_read ops = Some f ∧ f bs (Some d) lba 1 (Some buf) = Ok (drv_block bs d lba);
  drv_write bs n d lba buf :
    drv_ok bs n d → 0 <= lba < n → Z.of_nat (length buf) = bs →
    ∃ f d', op_write ops = Some f ∧ f bs (Some d) lba 1 (Some buf) = Ok d' ∧ drv_ok bs n d' ∧
      drv_block bs d' lba = buf ∧
      (∀ l, 0 <= l < n → l ≠ lba → drv_block bs d' l = drv_block bs d l)
}.

(** ** The RAM disk is a driver *)

Record ram_ok (bs n : Z) (ram : mcsos_ramblk) : Prop := {
  ram_bs : 0 < bs;
  ram_n : 0 <= n;
  ram_bytes : storage_size ram = n * bs;
  ram_len : Z.of_nat (length (storage ram)) = n * bs;
  ram_fits : n * bs < 2 ^ 64
}.

Definition ram_block (bs : Z) (ram : mcsos_ramblk) (lba : Z) : list Z :=
  slice (Z.to_nat (lba * bs)) (Z.to_nat bs) (storage ram).

Lemma ramblk_range_ok bs n ram lba count :
  ram_ok bs n ram → 0 <= lba → 0 <= count → lba + count <= n →
  ramblk_range bs ram lba count = Ok (lba * bs, count * bs).
Proof.
  intros [Hb Hn Hs _ Hf] Hl Hc Hle. unfold ramblk_range.
  rewrite !wrap_small by (unfold fits; nia). rewrite Hs.
  rewrite (proj2 (Z.ltb_ge _ _)), (proj2 (Z.ltb_ge _ _)) by nia. done.
Qed.

Lemma c_memcpy_all dst src n :
  Z.of_nat (length dst) = n → n <= Z.of_nat (length src) → c_memcpy dst src n = Ok (take (Z.to_nat n) src).
Proof.
  intros Hd Hs. unfold c_memcpy. rewrite !(proj2 (Z.ltb_ge _ _)) by lia. simpl.
  rewrite (drop_ge dst) by lia. by rewrite app_nil_r.
Qed.

Lemma ramblk_write_run bs n ram lba count buf :
  ram_ok bs n ram → 0 <= lba → 0 <= count → lba + count <= n →
  Z.of_nat (length buf) = count * bs →
  mcsos_ramblk_write bs (Some ram) lba count (Some buf) =
  Ok (mk_ramblk (splice (Z.to_nat (lba * bs)) buf (storage ram)) (storage_size ram)).
Proof.
  intros H Hl Hc Hle Hb. unfold mcsos_ramblk_write.
  rewrite (ramblk_range_ok bs n) by done. destruct H as [Hbs Hn Hs Hlen Hf].
  unfold c_memcpy. rewrite length_drop.
  rewrite (proj2 (Z.ltb_ge _ _)), (proj2 (Z.ltb_ge _ _)) by nia. simpl.
  rewrite splice_in by nia. rewrite (take_ge buf) by lia. rewrite drop_drop.
  by replace (length buf) with (Z.to_nat (count * bs)) by lia.
Qed.

Lemma ramblk_read_run bs n ram lba count buf :
  ram_ok bs n ram → 0 <= lba → 0 <= count → lba + count <= n →
  Z.of_nat (length buf) = count * bs →
  mcsos_ramblk_read bs (Some ram) lba count (Some buf) =
  Ok (slice (Z.to_nat (lba * bs)) (Z.to_nat (count * bs)) (storage ram)).
Proof.
  intros H Hl Hc Hle Hb. unfold mcsos_ramblk_read.
  rewrite (ramblk_range_ok bs n) by done. destruct H as [Hbs Hn Hs Hlen Hf].
  rewrite c_memcpy_all; [done|done|]. rewrite length_drop. nia.
Qed.

Lemma ram_ok_splice bs n ram off buf :
  ram_ok bs n ram → ram_ok bs n (mk_ramblk (splice off buf (storage ram)) (storage_size ram)).
Proof. intros [? ? ? ? ?]. constructor; simpl; rewrite ?length_splice; done. Qed.

#[export] Instance ramblk_driver : BlkDriver g_ramblk_ops.
Proof.
  refine {| drv_ok := ram_ok; drv_block := ram_block |}.
  - intros bs n d lba [Hb Hn _ Hl _] Hr. unfold ram_block.
    rewrite length_slice; [lia|]. nia.
  - intros bs n d lba buf Hok Hl Hb. eexists. split; [reflexivity|].
    rewrite (ramblk_read_run bs n) by (done || lia). unfold ram_block. by rewrite Z.mul_1_l.
  - intros bs n d lba buf Hok Hl Hb. eexists _, _. split; [reflexivity|].
    split; [apply (ramblk_write_run bs n); done || lia|]. split; [by apply ram_ok_splice|].
    destruct Hok as [Hbs Hn _ Hlen _]. unfold ram_block. simpl. split.
    + apply slice_splice_eq; nia.
    + intros l Hl' Hne. apply slice_splice_ne.
      destruct (decide (l < lba)); [left|right]; nia.
Defined.

(** ** The abstract disk and the coherence relation *)

Section coherence.
Context {D : Type} (ops : blk_ops D) `{!BlkDriver ops}.
Implicit Types (w : world D) (d : blk_device D) (A : nat → Z → list Z).

(** A device driven by [ops]. *)
Definition dev_ok d : Prop :=
  d_ops d = Some ops ∧
  ∃ dd, d_driver d = Some dd ∧ drv_ok (d_block_size d) (d_block_count d) dd.

Definition dev_blk d (lba : Z) : list Z :=
  match d_driver d with Some dd => drv_block (d_block_size d) dd lba | None => [] end.

(** The block [lba] of the device [p] exists and has the cache's block size. *)
Definition addresses w (p : nat) (lba : Z) : Prop :=
  ∃ d, w_devs w !! p = Some d ∧ d_block_size d = c_block_size (w_cache w) ∧
       0 <= lba < d_block_count d.

(** [w] with entries [es] is coherent with the disk [A]: valid entries hold the
    abstract block, at most one per block, and the device does too unless a
    dirty entry covers the block. *)
Record coherent w (es : list bcache_entry) A : Prop := {
  co_entries : c_entries (w_cache w) = Some es;
  co_count : Z.of_nat (length es) = c_entry_count (w_cache w);
  co_pos : 0 < c_entry_count (w_cache w) < 2 ^ 31;
  co_bs : 0 < c_block_size (w_cache w);
  co_devs : ∀ p d, w_devs w !! p = Some d → dev_ok d;
  co_len : ∀ i e, es !! i = Some e → Z.of_nat (length (e_data e)) = c_block_size (w_cache w);
  co_addr : ∀ i e, es !! i = Some e → e_valid e = true →
    ∃ p, e_dev e = Some p ∧ addresses w p (e_lba e) ∧ e_data e = A p (e_lba e);
  co_uniq : ∀ i j e f, es !! i = Some e → es !! j = Some f → e_valid e = true → e_valid f = true →
    e_dev e = e_dev f → e_lba e = e_lba f → i = j;
  co_dev : ∀ p d l, w_devs w !! p = Some d → 0 <= l < d_block_count d →
    (∀ i e, es !! i = Some e → entry_matches p l e = true → e_dirty e = false) →
    dev_blk d l = A p l
}.

(** The cache and devices of [w'] have the shape of those of [w]. *)
Definition same_layout w w' : Prop :=
  c_block_size (w_cache w') = c_block_size (w_cache w) ∧
  ∀ p, (λ d, (d_block_size d, d_block_count d)) <$> w_devs w' !! p =
       (λ d, (d_block_size d, d_block_count d)) <$> w_devs w !! p.

#[local] Instance same_layout_preorder : PreOrder same_layout.
Proof.
  split; [done|]. intros w1 w2 w3 [H1 H2] [H3 H4]. split; [congruence|].
  intros p. by rewrite H4.
Qed.

Lemma addresses_layout w w' p l : same_layout w w' → addresses w p l → addresses w' p l.
Proof.
  intros [Hb Hd] (d & Hp & Hs & Hl). specialize (Hd p). rewrite Hp in Hd. simpl in Hd.
  destruct (w_devs w' !! p) as [d'|] eqn:Hp'; [|done]. simpl in Hd. injection Hd as Hs' Hc'.
  exists d'. rewrite Hb. split; [done|]. split; [congruence|]. lia.
Qed.

Lemma entry_matches_iff p l e :
  entry_matches p l e = true ↔ e_valid e = true ∧ e_dev e = Some p ∧ e_lba e = l.
Proof.
  unfold entry_matches. rewrite !andb_true_iff, bool_decide_eq_true, Z.eqb_eq. tauto.
Qed.

Lemma entry_at_lookup w es A i :
  coherent w es A → entry_at (w_cache w) i = es !! Z.to_nat i.
Proof. intros H. unfold entry_at. by rewrite (co_entries _ _ _ H). Qed.

(** ** Running the device operations *)

Lemma dev_write_run w es A p d lba buf :
  coherent w es A → w_devs w !! p = Some d → 0 <= lba < d_block_count d →
  Z.of_nat (length buf) = d_block_size d →
  ∃ d', dev_write (Some p) lba 1 buf (Some w) =
        (Ok tt, Some (mk_world (w_cache w) (<[p := d']> (w_devs w)))) ∧
    dev_ok d' ∧ d_block_size d' = d_block_size d ∧ d_block_count d' = d_block_count d ∧
    dev_blk d' lba = buf ∧ ∀ l, 0 <= l < d_block_count d → l ≠ lba → dev_blk d' l = dev_blk d l.
Proof.
  intros H Hp Hl Hb. destruct (co_devs _ _ _ H p d Hp) as [Hops (dd & Hdd & Hok)].
  destruct (drv_write _ _ dd lba buf Hok Hl Hb) as (f & dd' & Hf & Hw & Hok' & Hblk & Hoth).
  exists (set_driver d dd'). unfold dev_write.
  rewrite (bind_ok _ _ _ w (Some w)) by done. rewrite Hp. unfold mcsos_blk_write.
  unfold mcsos_blk_validate_range. rewrite Hops. cbn [orb].
  change (1 =? 0) with false. cbn [orb].
  rewrite (proj2 (Z.leb_gt _ _)) by lia. rewrite (proj2 (Z.ltb_ge _ _)) by lia.
  rewrite Hops. change (Some ops ≫= op_write) with (op_write ops). rewrite Hf, Hdd, Hw.
  split; [done|]. split; [split; [done|by exists dd']|]. split_and!; try done.
  intros l Hl' Hne. unfold dev_blk. simpl. rewrite Hdd. by apply Hoth.
Qed.

Lemma dev_read_run w es A p d lba buf :
  coherent w es A → w_devs w !! p = Some d → 0 <= lba < d_block_count d →
  Z.of_nat (length buf) = d_block_size d →
  dev_read p lba 1 buf (Some w) = (Ok (dev_blk d lba), Some w) ∧
  Z.of_nat (length (dev_blk d lba)) = d_block_size d.
Proof.
  intros H Hp Hl Hb. destruct (co_devs _ _ _ H p d Hp) as [Hops (dd & Hdd & Hok)].
  destruct (drv_read _ _ dd lba buf Hok Hl Hb) as (f & Hf & Hr).
  unfold dev_read. rewrite (bind_ok _ _ _ w (Some w)) by done. rewrite Hp.
  unfold mcsos_blk_read, mcsos_blk_validate_range. rewrite Hops.
  change (1 =? 0) with false. cbn [orb].
  rewrite (proj2 (Z.leb_gt _ _)) by lia. rewrite (proj2 (Z.ltb_ge _ _)) by lia.
  rewrite Hops. change (Some ops ≫= op_read) with (op_read ops). rewrite Hf, Hdd, Hr. unfold dev_blk. rewrite Hdd.
  split; [done|]. by eapply drv_len.
Qed.

Lemma set_entry_run w es A i e :
  coherent w es A →
  set_entry i e (Some w) = (Ok tt, Some (mk_world (put_entry (w_cache w) i e) (w_devs w))) ∧
  c_entries (put_entry (w_cache w) i e) = Some (<[Z.to_nat i := e]> es).
Proof.
  intros H. split; [done|]. unfold put_entry. simpl. by rewrite (co_entries _ _ _ H).
Qed.

(** ** Updating one entry *)

Lemma coherent_put w es A A' (i : nat) e e' :
  coherent w es A → es !! i = Some e →
  Z.of_nat (length (e_data e')) = c_block_size (w_cache w) →
  (e_valid e' = true → ∃ p, e_dev e' = Some p ∧ addresses w p (e_lba e') ∧
                            e_data e' = A' p (e_lba e')) →
  (∀ j f, j ≠ i → es !! j = Some f → e_valid f = true → e_valid e' = true →
     ¬ (e_dev e' = e_dev f ∧ e_lba e' = e_lba f)) →
  (∀ j f p, j ≠ i → es !! j = Some f → e_valid f = true → e_dev f = Some p →
     A' p (e_lba f) = A p (e_lba f)) →
  (∀ p d l, w_devs w !! p = Some d → 0 <= l < d_block_count d →
     (∀ j f, <[i := e']> es !! j = Some f → entry_matches p l f = true → e_dirty f = false) →
     dev_blk d l = A' p l) →
  coherent (mk_world (put_entry (w_cache w) (Z.of_nat i) e') (w_devs w)) (<[i := e']> es) A'.
Proof.
  intros H Hi Hlen Haddr Hother Hsame Hdev. pose proof (lookup_lt_Some _ _ _ Hi) as Hlt.
  assert (∀ j f, <[i := e']> es !! j = Some f → (j = i ∧ f = e') ∨ (j ≠ i ∧ es !! j = Some f)) as Hcase.
  { intros j f Hj. destruct (decide (i = j)) as [<-|Hne].
    - rewrite list_lookup_insert_eq in Hj by done. left. by simplify_eq.
    - rewrite list_lookup_insert_ne in Hj by done. by right. }
  destruct H as [He Hc Hp Hb Hd Hl Ha Hu Hv]. constructor; simpl; try done.
  - rewrite He, Nat2Z.id. done.
  - by rewrite length_insert.
  - intros j f [[-> ->]|[? ?]]%Hcase; [done|]. by eapply Hl.
  - intros j f [[-> ->]|[Hne Hj]]%Hcase Hval; [by apply Haddr|].
    destruct (Ha j f Hj Hval) as (p & H1 & H2 & H3). exists p. split; [done|].
    split; [done|]. by rewrite H3, (Hsame j f p).
  - intros j k f g [[-> ->]|[Hj1 Hj]]%Hcase [[-> ->]|[Hk1 Hk]]%Hcase Hf Hg Hdv Hlb.
    + done.
    + destruct (Hother k g Hk1 Hk Hg Hf). done.
    + destruct (Hother j f Hj1 Hj Hf Hg). done.
    + by eapply (Hu j k f g).
Qed.

(** Looking an entry up. *)
Lemma find_spec w es A p l :
  coherent w es A →
  match mcsos_bcache_find (w_cache w) p l with
  | Some i => ∃ e, 0 <= i ∧ es !! Z.to_nat i = Some e ∧ entry_matches p l e = true
  | None => ∀ i e, es !! i = Some e → entry_matches p l e = false
  end.
Proof.
  intros H. unfold mcsos_bcache_find. pose proof (co_pos _ _ _ H). pose proof (co_count _ _ _ H).
  destruct (find_z _ _ _) as [i|] eqn:Hf.
  - apply find_z_Some in Hf as (Hi & Hm & _). unfold entry_is in Hm.
    rewrite (entry_at_lookup _ _ _ _ H) in Hm.
    destruct (es !! Z.to_nat i) as [e|] eqn:He; [|done]. exists e. split; [lia|done].
  - rewrite find_z_None in Hf. intros i e Hi. pose proof (lookup_lt_Some _ _ _ Hi).
    specialize (Hf (Z.of_nat i) ltac:(lia)). unfold entry_is in Hf.
    by rewrite (entry_at_lookup _ _ _ _ H), Nat2Z.id, Hi in Hf.
Qed.

Lemma get_entry_run w es A i e :
  coherent w es A → es !! Z.to_nat i = Some e → get_entry i (Some w) = (Ok e, Some w).
Proof.
  intros H He. unfold get_entry. rewrite (bind_ok _ _ _ w (Some w)) by done.
  by rewrite (entry_at_lookup _ _ _ _ H), He.
Qed.

Lemma coherent_dev_ext w es A devs' :
  coherent w es A → (∀ p d, devs' !! p = Some d → dev_ok d) →
  same_layout w (mk_world (w_cache w) devs') →
  (∀ p d l, devs' !! p = Some d → 0 <= l < d_block_count d →
     (∀ i e, es !! i = Some e → entry_matches p l e = true → e_dirty e = false) → dev_blk d l = A p l) →
  coherent (mk_world (w_cache w) devs') es A.
Proof.
  intros [He Hc Hp Hb Hd Hl Ha Hu Hv] Hok Hlay Hdev. constructor; try done.
  intros i e Hi Hval. destruct (Ha i e Hi Hval) as (p & H1 & H2 & H3). exists p.
  split; [done|]. split; [by eapply addresses_layout|done].
Qed.

(** Writing an entry back keeps the abstract disk. *)
Lemma flush_entry_run w es A i e :
  coherent w es A → 0 <= i → es !! Z.to_nat i = Some e →
  ∃ w' es', mcsos_bcache_flush_entry i (Some w) = (Ok tt, Some w') ∧ coherent w' es' A ∧
    same_layout w w' ∧ es' !! Z.to_nat i = Some (with_dirty e (e_dirty e && negb (e_valid e))) ∧
    (∀ j, j ≠ Z.to_nat i → es' !! j = es !! j) ∧
    c_clock_hand (w_cache w') = c_clock_hand (w_cache w) ∧
    c_entry_count (w_cache w') = c_entry_count (w_cache w).
Proof.
  intros H Hi He. unfold mcsos_bcache_flush_entry.
  rewrite (bind_ok _ _ _ _ _ (get_entry_run w es A i e H He)).
  destruct (negb (e_valid e) || negb (e_dirty e)) eqn:Hc.
  { exists w, es. split_and!; try done. rewrite He. f_equal. unfold with_dirty.
    by destruct e as [? ? ? [] []]. }
  apply orb_false_iff in Hc as [Hv%negb_false_iff Hd%negb_false_iff].
  destruct (co_addr _ _ _ H _ e He Hv) as (p & Hp & (d & Hdev & Hsz & Hlba) & Hdata).
  destruct (dev_write_run w es A p d (e_lba e) (e_data e) H Hdev Hlba) as
    (d' & Hw & Hok' & Hs' & Hc' & Hblk & Hoth); [by rewrite (co_len _ _ _ H _ _ He)|].
  rewrite Hp, (bind_ok _ _ _ _ _ Hw).
  set (w1 := mk_world (w_cache w) (<[p := d']> (w_devs w))).
  pose proof (lookup_lt_Some _ _ _ Hdev) as Hlt.
  assert (same_layout w w1) as Hlay.
  { split; [done|]. intros q. simpl. destruct (decide (p = q)) as [<-|].
    - rewrite list_lookup_insert_eq, Hdev by done. simpl. by rewrite Hs', Hc'.
    - by rewrite list_lookup_insert_ne. }
  assert (∀ q dq, <[p := d']> (w_devs w) !! q = Some dq →
    (q = p ∧ dq = d') ∨ (q ≠ p ∧ w_devs w !! q = Some dq)) as Hcase.
  { intros q dq. destruct (decide (p = q)) as [<-|].
    - rewrite list_lookup_insert_eq by done. intros [= <-]. by left.
    - rewrite list_lookup_insert_ne by done. by right. }
  assert (coherent w1 es A) as H1.
  { apply coherent_dev_ext; [done| |done|].
    - intros q dq [[_ ->]|[_ Hq]]%Hcase; [done|]. by eapply co_devs.
    - intros q dq l [[-> ->]|[_ Hq]]%Hcase Hl Hcl; [|by eapply co_dev].
      destruct (decide (l = e_lba e)) as [->|Hne]; [by rewrite Hblk|].
      rewrite Hoth by (done || lia). eapply co_dev; [done|done|lia|done]. }
  exists (mk_world (put_entry (w_cache w1) i (with_dirty e false)) (w_devs w1)),
    (<[Z.to_nat i := with_dirty e false]> es).
  pose proof (lookup_lt_Some _ _ _ He) as Hlti.
  split; [by apply (set_entry_run w1 es A)|]. split.
  { rewrite <-(Z2Nat.id i) at 1 by done. eapply coherent_put; try done.
    - exact (co_len _ _ _ H1 _ e He).
    - intros _. exact (co_addr _ _ _ H1 _ e He Hv).
    - intros j f Hne Hf Hfv _ [Hd1 Hl1]. apply Hne. by eapply (co_uniq _ _ _ H1 j (Z.to_nat i) f e).
    - intros q dq l Hq Hl Hcl. destruct (decide (q = p ∧ l = e_lba e)) as [[-> ->]|Hne].
      + simpl in Hq. rewrite list_lookup_insert_eq in Hq by done. injection Hq as <-.
        by rewrite Hblk.
      + eapply (co_dev _ _ _ H1); [done|done|]. intros j f Hf Hm.
        destruct (decide (j = Z.to_nat i)) as [->|Hj].
        * rewrite He in Hf. injection Hf as <-. apply entry_matches_iff in Hm as (_ & Hm1 & Hm2).
          destruct Hne. split; congruence.
        * apply (Hcl j f); [by rewrite list_lookup_insert_ne|done]. }
  split; [by etransitivity; [exact Hlay|]|]. rewrite Hv, Hd. simpl. split_and!; try done.
  - by rewrite list_lookup_insert_eq.
  - intros j Hj. by rewrite list_lookup_insert_ne.
Qed.

Lemma hand_run w es A h :
  coherent w es A →
  let c := w_cache w in
  let w' := mk_world (mk_bcache (c_entries c) (c_entry_count c) (c_block_size c) h) (w_devs w) in
  set_hand h (Some w) = (Ok tt, Some w') ∧ coherent w' es A ∧ same_layout w w'.
Proof. intros [? ? ? ? ? ? Ha ? ?] c w'. split; [done|]. split; [by constructor|done]. Qed.

(** The victim is a free entry, or one that was written back. *)
Lemma victim_run w es A :
  coherent w es A →
  ∃ i w' es' e, mcsos_bcache_select_victim (Some w) = (Ok i, Some w') ∧ coherent w' es' A ∧
    same_layout w w' ∧ 0 <= i ∧ es' !! Z.to_nat i = Some e ∧ (e_valid e = true → e_dirty e = false) ∧
    (∀ p l, (∀ j f, es !! j = Some f → entry_matches p l f = false) →
            (∀ j f, es' !! j = Some f → entry_matches p l f = false)).
Proof.
  intros H. pose proof (co_pos _ _ _ H) as Hp. pose proof (co_count _ _ _ H) as Hc.
  unfold mcsos_bcache_select_victim.
  rewrite (bind_ok _ _ _ tt (Some w)), (bind_ok _ _ _ w (Some w)) by done. cbv zeta.
  set (n := c_entry_count (w_cache w)) in *.
  rewrite (bind_ok _ _ _ tt (Some w)) by (apply fail_if_false, Z.eqb_neq; lia).
  set (start := c_clock_hand (w_cache w) mod n).
  assert (0 <= start < n) as Hst by (apply Z.mod_pos_bound; lia).
  destruct (find_z _ _ _) as [pass|] eqn:Hf.
  - apply find_z_Some in Hf as (_ & Hm & _). apply negb_true_iff in Hm.
    set (i := wrap 32 (start + pass) mod n) in *.
    assert (0 <= i < n) as Hi by (apply Z.mod_pos_bound; lia).
    destruct (hand_run w es A (wrap 32 (i + 1)) H) as (Hr & H' & Hlay).
    rewrite (bind_ok _ _ _ _ _ Hr). unfold entry_is in Hm. rewrite (entry_at_lookup _ _ _ _ H) in Hm.
    destruct (lookup_lt_is_Some_2 es (Z.to_nat i)) as [e He]; [lia|]. rewrite He in Hm.
    eexists i, _, es, e. split; [done|]. split; [done|]. split; [done|]. split; [lia|].
    split; [done|]. split; [congruence|done].
  - destruct (hand_run w es A (wrap 32 (start + 1)) H) as (Hr & H' & Hlay).
    rewrite (bind_ok _ _ _ _ _ Hr).
    destruct (lookup_lt_is_Some_2 es (Z.to_nat start)) as [e He]; [lia|].
    destruct (flush_entry_run _ es A start e H' (proj1 Hst) He)
      as (w' & es' & Hfl & Hco & Hlay' & Hei & Hej & _).
    rewrite (bind_ok _ _ _ _ _ Hfl). eexists start, w', es', _. split; [done|].
    split; [done|]. split; [by etransitivity|]. split; [lia|]. split; [exact Hei|]. split.
    + intros Hv. simpl in *. by rewrite Hv, andb_false_r.
    + intros p l Hno j f Hf'. destruct (decide (j = Z.to_nat start)) as [->|Hj].
      * rewrite Hei in Hf'. injection Hf' as <-. apply (Hno _ _ He).
      * rewrite Hej in Hf' by done. by eapply Hno.
Qed.

Lemma guard_run w p d :
  w_devs w !! p = Some d → d_block_size d = c_block_size (w_cache w) →
  bcache_guard (Some p) (Some w) = (Ok (p, d), Some w).
Proof.
  intros Hp Hs. unfold bcache_guard.
  rewrite (bind_ok _ _ _ tt (Some w)), (bind_ok _ _ _ w (Some w)) by done. rewrite Hp.
  by rewrite (bind_ok _ _ _ tt (Some w))
    by (apply fail_if_false; rewrite Hs, Z.eqb_refl; done).
Qed.

(** A clean entry that is replaced: blocks it covered are on the device. *)
Lemma replaced_clean w es A (i : nat) e e' p d l :
  coherent w es A → es !! i = Some e → (e_valid e = true → e_dirty e = false) →
  w_devs w !! p = Some d → 0 <= l < d_block_count d →
  (∀ j f, <[i := e']> es !! j = Some f → entry_matches p l f = true → e_dirty f = false) →
  dev_blk d l = A p l.
Proof.
  intros H Hi Hcl Hp Hl Hno. eapply co_dev; [done|done|done|]. intros j f Hf Hm.
  destruct (decide (j = i)) as [->|Hne].
  - rewrite Hi in Hf. injection Hf as <-. apply Hcl. by apply entry_matches_iff in Hm as [? _].
  - apply (Hno j f); [by rewrite list_lookup_insert_ne|done].
Qed.

(** A read miss fills the victim with the device's block. *)
Lemma fill_run w es A i e p l :
  coherent w es A → 0 <= i → es !! Z.to_nat i = Some e → (e_valid e = true → e_dirty e = false) →
  addresses w p l → (∀ j f, es !! j = Some f → entry_matches p l f = false) →
  ∃ w' es' e', fill_entry i p l (Some w) = (Ok tt, Some w') ∧ coherent w' es' A ∧ same_layout w w' ∧
    es' !! Z.to_nat i = Some e' ∧ entry_matches p l e' = true.
Proof.
  intros H Hi He Hcl (d & Hd & Hsz & Hl) Hno. unfold fill_entry.
  rewrite (bind_ok _ _ _ _ _ (get_entry_run w es A i e H He)).
  rewrite (bind_ok _ _ _ w (Some w)) by done.
  destruct (dev_read_run w es A p d l (e_data e) H Hd Hl) as [Hr Hlen];
    [by rewrite (co_len _ _ _ H _ _ He)|]. rewrite Hr.
  assert (dev_blk d l = A p l) as HA.
  { eapply co_dev; [done|done|done|]. intros j f Hf. by rewrite (Hno j f Hf). }
  pose proof (lookup_lt_Some _ _ _ He) as Hlt.
  set (e' := retarget (with_data e (dev_blk d l)) p l).
  eexists _, (<[Z.to_nat i := e']> es), e'.
  split; [by apply (set_entry_run w es A)|]. split; [|split; [done|split]].
  - rewrite <-(Z2Nat.id i) at 1 by done. eapply coherent_put; try done.
    + simpl. congruence.
    + intros _. exists p. split; [done|]. split; [by exists d|done].
    + intros j f _ Hf Hv _ [Hd1 Hl1]. specialize (Hno j f Hf).
      assert (entry_matches p l f = true) by (by apply entry_matches_iff). congruence.
    + intros q dq k Hq Hk Hcov. by eapply (replaced_clean w es A (Z.to_nat i) e e').
  - by rewrite list_lookup_insert_eq.
  - by apply entry_matches_iff.
Qed.

(** ** The cache operations *)

Lemma cached_data w es A i e p l :
  coherent w es A → es !! i = Some e → entry_matches p l e = true →
  e_data e = A p l ∧ Z.of_nat (length (e_data e)) = c_block_size (w_cache w).
Proof.
  intros H He (Hv & Hp & Hl)%entry_matches_iff. split; [|by eapply co_len].
  destruct (co_addr _ _ _ H i e He Hv) as (q & Hq & _ & ->). congruence.
Qed.

Lemma bcache_read_run w es A p l buf :
  coherent w es A → addresses w p l → Z.of_nat (length buf) = c_block_size (w_cache w) →
  ∃ w' es', mcsos_bcache_read (Some p) l (Some buf) (Some w) = (Ok (A p l), Some w') ∧
    coherent w' es' A ∧ same_layout w w'.
Proof.
  intros H Ha Hb. destruct Ha as (d & Hd & Hsz & Hl). unfold mcsos_bcache_read.
  rewrite (bind_ok _ _ _ _ _ (guard_run w p d Hd Hsz)), (bind_ok _ _ _ w (Some w)) by done.
  assert (∀ w2 es2 i e, coherent w2 es2 A → same_layout w w2 → es2 !! Z.to_nat i = Some e →
    entry_matches p l e = true →
    (let* e := get_entry i in let* w := deref in
     lift (c_memcpy buf (e_data e) (c_block_size (w_cache w)))) (Some w2) = (Ok (A p l), Some w2)) as Hlast.
  { intros w2 es2 i e H2 [Hs2 _] He Hm. rewrite (bind_ok _ _ _ _ _ (get_entry_run w2 es2 A i e H2 He)).
    rewrite (bind_ok _ _ _ w2 (Some w2)) by done. unfold lift.
    destruct (cached_data w2 es2 A _ e p l H2 He Hm) as [<- Hlen].
    rewrite c_memcpy_all by (rewrite ?Hs2, ?Hlen; lia). rewrite take_ge by lia. done. }
  pose proof (find_spec w es A p l H) as Hf. cbn [fst].
  destruct (mcsos_bcache_find (w_cache w) p l) as [i|].
  - destruct Hf as (e & Hi & He & Hm). rewrite (bind_ok _ _ _ i (Some w)) by done.
    exists w, es. split; [by eapply Hlast|done].
  - destruct (victim_run w es A H) as (i & w1 & es1 & e1 & Hv & H1 & Hlay1 & Hi & He1 & Hc1 & Hno).
    destruct (fill_run w1 es1 A i e1 p l H1 Hi He1 Hc1) as (w2 & es2 & e2 & Hfl & H2 & Hlay2 & He2 & Hm2).
    { eapply addresses_layout; [exact Hlay1|]. by exists d. }
    { by apply Hno. }
    rewrite bind_assoc, (bind_ok _ _ _ _ _ Hv), bind_assoc, (bind_ok _ _ _ _ _ Hfl).
    rewrite (bind_ok _ _ _ i (Some w2)) by done.
    assert (same_layout w w2) as Hlay by (by etransitivity).
    exists w2, es2. split; [by eapply Hlast|done].
Qed.

(** The abstract write. *)
Definition disk_update A (p : nat) (l : Z) (b : list Z) : nat → Z → list Z :=
  λ q k, if decide (q = p ∧ k = l) then b else A q k.

Lemma put_put c i e e' : put_entry (put_entry c i e) i e' = put_entry c i e'.
Proof.
  unfold put_entry. simpl. f_equal. destruct (c_entries c) as [es|]; simpl; [|done].
  by rewrite list_insert_insert_eq.
Qed.

(** Storing a block in entry [i], whose block no other entry covers. *)
Lemma store_run_entry w es A i e e0 p l buf :
  coherent w es A → 0 <= i → es !! Z.to_nat i = Some e → addresses w p l →
  Z.of_nat (length buf) = c_block_size (w_cache w) →
  (entry_matches p l e = true ∨ (e_valid e = true → e_dirty e = false)) →
  (∀ j f, j ≠ Z.to_nat i → es !! j = Some f → entry_matches p l f = false) →
  let e' := mk_entry buf e0 l true true (Some p) in
  coherent (mk_world (put_entry (w_cache w) i e') (w_devs w)) (<[Z.to_nat i := e']> es)
    (disk_update A p l buf).
Proof.
  intros H Hi He Ha Hb Hcl Hno e'. pose proof (lookup_lt_Some _ _ _ He) as Hlt.
  rewrite <-(Z2Nat.id i) at 1 by done. eapply coherent_put; try done.
  - intros _. exists p. split; [done|]. split; [done|]. unfold disk_update. by rewrite decide_True.
  - intros j f Hj Hf Hv _ [Hd1 Hl1]. specialize (Hno j f Hj Hf).
    assert (entry_matches p l f = true) by (by apply entry_matches_iff). congruence.
  - intros j f q Hj Hf Hv Hq. unfold disk_update. rewrite decide_False; [done|].
    intros [-> Hl]. specialize (Hno j f Hj Hf).
    assert (entry_matches p l f = true) by (by apply entry_matches_iff). congruence.
  - intros q dq k Hq Hk Hcov. unfold disk_update. destruct (decide (q = p ∧ k = l)) as [[-> ->]|Hne].
    + assert (e_dirty e' = false); [|done]. apply (Hcov (Z.to_nat i));
        [by rewrite list_lookup_insert_eq|by apply entry_matches_iff].
    + destruct Hcl as [Hm|Hcl]; [|by eapply (replaced_clean w es A (Z.to_nat i) e e')].
      apply entry_matches_iff in Hm as (Hv & Hp & Hl).
      eapply co_dev; [done|done|done|]. intros j f Hf Hm.
      destruct (decide (j = Z.to_nat i)) as [->|Hj].
      * rewrite He in Hf. injection Hf as <-. apply entry_matches_iff in Hm as (_ & ? & ?).
        destruct Hne. split; congruence.
      * apply (Hcov j f); [by rewrite list_lookup_insert_ne|done].
Qed.

Lemma block_copy_full (data buf : list Z) n :
  Z.of_nat (length data) = n → Z.of_nat (length buf) = n → c_memcpy data buf n = Ok buf.
Proof. intros. rewrite c_memcpy_all by lia. by rewrite take_ge by lia. Qed.

(** A write miss takes a victim over, without looking at the device. *)
Lemma write_miss_run w es A p d l buf :
  coherent w es A → w_devs w !! p = Some d → d_block_size d = c_block_size (w_cache w) →
  Z.of_nat (length buf) = c_block_size (w_cache w) →
  (∀ j f, es !! j = Some f → entry_matches p l f = false) →
  ∃ i w1 es1 e1, mcsos_bcache_write (Some p) l (Some buf) (Some w) =
      (Ok tt, Some (mk_world (put_entry (w_cache w1) i
                     (mk_entry buf (e_capacity e1) l true true (Some p))) (w_devs w1))) ∧
    coherent w1 es1 A ∧ same_layout w w1 ∧ 0 <= i ∧ es1 !! Z.to_nat i = Some e1 ∧
    (e_valid e1 = true → e_dirty e1 = false) ∧
    (∀ j f, es1 !! j = Some f → entry_matches p l f = false).
Proof.
  intros H Hd Hsz Hb Hnone. unfold mcsos_bcache_write.
  rewrite (bind_ok _ _ _ _ _ (guard_run w p d Hd Hsz)), (bind_ok _ _ _ w (Some w)) by done.
  pose proof (find_spec w es A p l H) as Hf. cbn [fst].
  destruct (mcsos_bcache_find (w_cache w) p l) as [i|].
  { destruct Hf as (e & _ & He & Hm). rewrite (Hnone _ _ He) in Hm. done. }
  destruct (victim_run w es A H) as (i & w1 & es1 & e1 & Hv & H1 & Hlay1 & Hi & He1 & Hc1 & Hno).
  rewrite bind_assoc, (bind_ok _ _ _ _ _ Hv), bind_assoc.
  rewrite (bind_ok _ _ _ _ _ (get_entry_run w1 es1 A i e1 H1 He1)), bind_assoc.
  destruct (set_entry_run w1 es1 A i (retarget e1 p l) H1) as [Hset Hes].
  rewrite (bind_ok _ _ _ _ _ Hset). set (w2 := mk_world _ _).
  rewrite (bind_ok _ _ _ i (Some w2)) by done.
  pose proof (lookup_lt_Some _ _ _ He1) as Hlt.
  assert (get_entry i (Some w2) = (Ok (retarget e1 p l), Some w2)) as Hget.
  { unfold get_entry. rewrite (bind_ok _ _ _ w2 (Some w2)) by done. unfold entry_at.
    unfold w2. cbn [w_cache]. rewrite Hes. cbn [mbind option_bind].
    by rewrite list_lookup_insert_eq. }
  rewrite (bind_ok _ _ _ _ _ Hget), (bind_ok _ _ _ w2 (Some w2)) by done.
  rewrite (bind_ok _ _ _ buf (Some w2)).
  2:{ pose proof (co_len _ _ _ H1 _ _ He1). pose proof Hlay1 as [Hq _].
      unfold lift, w2. simpl. rewrite block_copy_full; [done|done|congruence]. }
  unfold set_entry. rewrite (bind_ok _ _ _ w2 (Some w2)) by done. rewrite store_run.
  unfold w2. cbn [w_cache w_devs]. rewrite put_put.
  exists i, w1, es1, e1. split; [reflexivity|]. split_and!; try done. by apply Hno.
Qed.

Lemma bcache_write_run w es A p l buf :
  coherent w es A → addresses w p l → Z.of_nat (length buf) = c_block_size (w_cache w) →
  ∃ w' es', mcsos_bcache_write (Some p) l (Some buf) (Some w) = (Ok tt, Some w') ∧
    coherent w' es' (disk_update A p l buf) ∧ same_layout w w'.
Proof.
  intros H Ha Hb. pose proof Ha as (d & Hd & Hsz & Hl).
  pose proof (find_spec w es A p l H) as Hf.
  destruct (mcsos_bcache_find (w_cache w) p l) as [i|] eqn:Hfind.
  - unfold mcsos_bcache_write.
    rewrite (bind_ok _ _ _ _ _ (guard_run w p d Hd Hsz)), (bind_ok _ _ _ w (Some w)) by done.
    cbn [fst]. rewrite Hfind.
    destruct Hf as (e & Hi & He & Hm). rewrite (bind_ok _ _ _ i (Some w)) by done.
    rewrite (bind_ok _ _ _ _ _ (get_entry_run w es A i e H He)), (bind_ok _ _ _ w (Some w)) by done.
    rewrite (bind_ok _ _ _ buf (Some w))
      by (unfold lift; rewrite block_copy_full; [done|by eapply co_len|done]).
    pose proof Hm as (Hv & Hp & Hlb)%entry_matches_iff.
    assert (with_dirty (with_data e buf) true = mk_entry buf (e_capacity e) l true true (Some p)) as Hee
      by (unfold with_dirty, with_data; simpl; congruence). rewrite Hee.
    eexists _, _. split; [by apply (set_entry_run w es A)|]. split; [|done].
    eapply store_run_entry; try done; [by left|]. intros j f Hj Hf.
    destruct (entry_matches p l f) eqn:Hmf; [|done]. exfalso. apply Hj.
    apply entry_matches_iff in Hmf as (? & ? & ?). eapply (co_uniq _ _ _ H j _ f e); congruence.
  - destruct (write_miss_run w es A p d l buf H Hd Hsz Hb Hf)
      as (i & w1 & es1 & e1 & Hr & H1 & Hlay & Hi & He1 & Hc1 & Hno).
    rewrite Hr. eexists _, _. split; [reflexivity|]. split; [|done].
    eapply store_run_entry; try done.
    + by eapply addresses_layout.
    + destruct Hlay as [-> _]. done.
    + by right.
    + intros j f _ Hf2. by eapply Hno.
Qed.

Lemma flush_loop n i w es A :
  coherent w es A → 0 <= i → i + Z.of_nat n = c_entry_count (w_cache w) →
  (∀ j e, (j < Z.to_nat i)%nat → es !! j = Some e → e_valid e = true → e_dirty e = false) →
  ∃ w' es', iterM mcsos_bcache_flush_entry (seqZ i (Z.of_nat n)) (Some w) = (Ok tt, Some w') ∧
    coherent w' es' A ∧ same_layout w w' ∧
    (∀ j e, es' !! j = Some e → e_valid e = true → e_dirty e = false).
Proof.
  revert i w es. induction n as [|n IH]; intros i w es H Hi Hn Hcl.
  { exists w, es. split; [done|]. split; [done|]. split; [done|]. intros j e He.
    apply (Hcl j e); [|done]. apply lookup_lt_Some in He. pose proof (co_count _ _ _ H). lia. }
  pose proof (co_count _ _ _ H) as Hc.
  destruct (lookup_lt_is_Some_2 es (Z.to_nat i)) as [e He]; [lia|].
  destruct (flush_entry_run w es A i e H Hi He) as (w1 & es1 & Hr & H1 & Hlay & Hei & Hej & _ & Hcnt).
  rewrite seqZ_cons by lia. replace (Z.pred (Z.of_nat (S n))) with (Z.of_nat n) by lia.
  cbn [iterM]. rewrite (bind_ok _ _ _ _ _ Hr), <-Z.add_1_r.
  destruct (IH (i + 1) w1 es1 H1) as (w2 & es2 & Hr2 & H2 & Hlay2 & Hcl2); [lia|lia| |].
  { intros j f Hj Hf Hv. destruct (decide (j = Z.to_nat i)) as [->|Hne].
    - rewrite Hei in Hf. injection Hf as <-. simpl in *. by rewrite Hv, andb_false_r.
    - rewrite Hej in Hf by done. apply (Hcl j f); [lia|done|done]. }
  exists w2, es2. split; [done|]. split; [done|]. split; [by etransitivity|done].
Qed.

Lemma bcache_flush_all_run w es A :
  coherent w es A →
  ∃ w' es', mcsos_bcache_flush_all (Some w) = (Ok tt, Some w') ∧ coherent w' es' A ∧
    same_layout w w' ∧
    (∀ p d l, w_devs w' !! p = Some d → 0 <= l < d_block_count d → dev_blk d l = A p l).
Proof.
  intros H. pose proof (co_pos _ _ _ H) as Hp. unfold mcsos_bcache_flush_all.
  rewrite (bind_ok _ _ _ tt (Some w)), (bind_ok _ _ _ w (Some w)) by done.
  rewrite (co_entries _ _ _ H).
  destruct (flush_loop (Z.to_nat (c_entry_count (w_cache w))) 0 w es A H) as (w' & es' & Hr & H' & Hlay & Hcl);
    [lia|lia|lia|].
  rewrite Z2Nat.id in Hr by lia. exists w', es'. split; [done|]. split; [done|]. split; [done|].
  intros p d l Hd Hl. eapply co_dev; [done|done|done|]. intros i e He Hm.
  apply entry_matches_iff in Hm as [Hv _]. by eapply Hcl.
Qed.

(** ** Sequences of calls *)

Inductive cache_op :=
| CacheRead (p : nat) (lba : Z)
| CacheWrite (p : nat) (lba : Z) (data : list Z)
| CacheFlush.

Definition cache_call (o : cache_op) : M (world D) (list Z) :=
  match o with
  | CacheRead p l =>
      let* w := deref in
      mcsos_bcache_read (Some p) l (Some (replicate (Z.to_nat (c_block_size (w_cache w))) 0))
  | CacheWrite p l data => mcsos_bcache_write (Some p) l (Some data) ;; ret []
  | CacheFlush => mcsos_bcache_flush_all ;; ret []
  end.

Fixpoint cache_calls (os : list cache_op) : M (world D) (list (list Z)) :=
  match os with
  | [] => ret []
  | o :: os' => let* r := cache_call o in let* rs := cache_calls os' in ret (r :: rs)
  end.

(** The same calls on an abstract disk that stores blocks at once. *)
Definition disk_call A (o : cache_op) : list Z * (nat → Z → list Z) :=
  match o with
  | CacheRead p l => (A p l, A)
  | CacheWrite p l data => ([], disk_update A p l data)
  | CacheFlush => ([], A)
  end.

Fixpoint disk_calls A (os : list cache_op) : list (list Z) * (nat → Z → list Z) :=
  match os with
  | [] => ([], A)
  | o :: os' =>
      let '(r, A') := disk_call A o in
      let '(rs, A'') := disk_calls A' os' in (r :: rs, A'')
  end.

(** The call addresses a block of a device and passes one block of data. *)
Definition op_valid w (o : cache_op) : Prop :=
  match o with
  | CacheRead p l => addresses w p l
  | CacheWrite p l data => addresses w p l ∧ Z.of_nat (length data) = c_block_size (w_cache w)
  | CacheFlush => True
  end.

Lemma op_valid_layout w w' o : same_layout w w' → op_valid w o → op_valid w' o.
Proof.
  intros Hl. destruct o; simpl; [by apply addresses_layout| |done].
  intros [Ha Hb]. split; [by eapply addresses_layout|]. destruct Hl as [-> _]. done.
Qed.

Lemma cache_call_run w es A o :
  coherent w es A → op_valid w o →
  ∃ w' es', cache_call o (Some w) = (Ok (disk_call A o).1, Some w') ∧
    coherent w' es' (disk_call A o).2 ∧ same_layout w w'.
Proof.
  intros H Hv. destruct o as [p l|p l data|]; simpl in *.
  - rewrite (bind_ok _ _ _ w (Some w)) by done. apply (bcache_read_run w es A); [done|done|].
    rewrite length_replicate, Z2Nat.id; [done|]. pose proof (co_bs _ _ _ H). lia.
  - destruct Hv as [Ha Hb]. destruct (bcache_write_run w es A p l data H Ha Hb) as (w' & es' & Hr & ?).
    exists w', es'. by rewrite (bind_ok _ _ _ _ _ Hr).
  - destruct (bcache_flush_all_run w es A H) as (w' & es' & Hr & ? & ? & _).
    exists w', es'. by rewrite (bind_ok _ _ _ _ _ Hr).
Qed.

Lemma cache_calls_run w es A os :
  coherent w es A → Forall (op_valid w) os →
  ∃ w' es', cache_calls os (Some w) = (Ok (disk_calls A os).1, Some w') ∧
    coherent w' es' (disk_calls A os).2 ∧ same_layout w w'.
Proof.
  revert w es A. induction os as [|o os IH]; intros w es A H Hos.
  { by exists w, es. }
  inversion Hos as [|?? Ho Hos']; subst. cbn [cache_calls disk_calls].
  destruct (cache_call_run w es A o H Ho) as (w1 & es1 & Hr & H1 & Hlay).
  rewrite (bind_ok _ _ _ _ _ Hr). destruct (disk_call A o) as [r A1]. cbn [fst snd] in *.
  destruct (IH w1 es1 A1 H1) as (w2 & es2 & Hr2 & H2 & Hlay2).
  { eapply Forall_impl; [|exact Hos']. intros x. by apply op_valid_layout. }
  rewrite (bind_ok _ _ _ _ _ Hr2). destruct (disk_calls A1 os) as [rs A2].
  exists w2, es2. split; [done|]. split; [done|by etransitivity].
Qed.

(** The disk the devices hold. *)
Definition disk_of w : nat → Z → list Z :=
  λ p l, match w_devs w !! p with Some d => dev_blk d l | None => [] end.

Lemma bcache_init_coherent c0 es0 n pool bs devs :
  0 < n < 2 ^ 31 → Z.of_nat (length es0) = n → 0 < bs → n * bs <= Z.of_nat (length pool) →
  (∀ p d, devs !! p = Some d → dev_ok d) →
  ∃ c es, mcsos_bcache_init (Some c0) (Some es0) n (Some pool) bs = Ok c ∧
    coherent (mk_world c devs) es (disk_of (mk_world c devs)) ∧ c_block_size c = bs.
Proof.
  intros Hn He0 Hbs Hp Hd. unfold mcsos_bcache_init.
  rewrite (proj2 (Z.eqb_neq n 0)), (proj2 (Z.eqb_neq bs 0)), (proj2 (Z.ltb_ge _ n)) by lia. cbn [orb].
  rewrite (drop_ge es0), app_nil_r by lia.
  set (es := init_entry pool bs <$> seqZ 0 n).
  assert (∀ i e, es !! i = Some e → ∃ k, 0 <= k < n ∧ e = init_entry pool bs k) as Hes.
  { intros i e He. apply list_lookup_fmap_Some in He as (k & -> & Hk).
    apply lookup_seqZ in Hk as [-> Hk]. eexists. split; [|done]. lia. }
  eexists _, es. split; [reflexivity|]. split; [|done]. constructor; simpl; try done.
  - unfold es. rewrite length_fmap, length_seqZ. lia.
  - intros i e (k & Hk & ->)%Hes. simpl. rewrite length_slice; [lia|]. nia.
  - intros i e (k & _ & ->)%Hes. done.
  - intros i j e f (k & _ & ->)%Hes. done.
  - intros p d l Hpd _ _. unfold disk_of. simpl. by rewrite Hpd.
Qed.

End coherence.

(** ** A block address outside the device *)

Section out_of_range.
Context {D : Type} (ops : blk_ops D) `{!BlkDriver ops}.
Implicit Types (w : world D) (A : nat → Z → list Z).

(** The world with entry [i] overwritten. *)
Definition put_world w (i : Z) (e : bcache_entry) : world D :=
  mk_world (put_entry (w_cache w) i e) (w_devs w).

Lemma put_entry_comm c i j e f :
  Z.to_nat i ≠ Z.to_nat j → put_entry (put_entry c i e) j f = put_entry (put_entry c j f) i e.
Proof.
  intros Hne. unfold put_entry. simpl. f_equal. destruct (c_entries c) as [es|]; simpl; [|done].
  by rewrite list_insert_insert_ne.
Qed.

Lemma entry_at_put_ne c i j e :
  Z.to_nat i ≠ Z.to_nat j → entry_at (put_entry c i e) j = entry_at c j.
Proof.
  intros Hne. unfold entry_at, put_entry. simpl. destruct (c_entries c) as [es|]; simpl; [|done].
  by rewrite list_lookup_insert_ne.
Qed.

(** Writing back one entry does not depend on another. *)
Lemma flush_entry_put_ne w i j e w' :
  Z.to_nat i ≠ Z.to_nat j → mcsos_bcache_flush_entry j (Some w) = (Ok tt, Some w') →
  mcsos_bcache_flush_entry j (Some (put_world w i e)) = (Ok tt, Some (put_world w' i e)).
Proof.
  intros Hne. unfold mcsos_bcache_flush_entry, get_entry, bind, deref, put_world, lift.
  cbn [w_cache]. rewrite entry_at_put_ne by done.
  destruct (entry_at (w_cache w) j) as [f|]; simpl; [|done].
  destruct (negb (e_valid f) || negb (e_dirty f)); [by intros [= <-]|].
  unfold dev_write, bind, deref, lift. simpl.
  destruct (e_dev f) as [p|]; simpl; [|done].
  destruct (w_devs w !! p) as [d|]; simpl; [|done].
  destruct (mcsos_blk_write (Some d) (e_lba f) 1 (Some (e_data f))) as [d'| |]; simpl; [|done..].
  intros [= <-]. simpl. by rewrite put_entry_comm.
Qed.

Lemma flush_bad_entry w es A i p d e :
  coherent ops w es A → 0 <= i → (Z.to_nat i < length es)%nat → w_devs w !! p = Some d →
  e_valid e = true → e_dirty e = true → e_dev e = Some p → d_block_count d <= e_lba e →
  mcsos_bcache_flush_entry i (Some (put_world w i e)) = (Err MCSOS_BLK_ERANGE, Some (put_world w i e)).
Proof.
  intros H Hi Hlt Hd Hv Hdi Hp Hl. unfold mcsos_bcache_flush_entry, get_entry.
  assert (entry_at (w_cache (put_world w i e)) i = Some e) as He.
  { unfold entry_at, put_world, put_entry. simpl. rewrite (co_entries _ _ _ _ H). simpl.
    by rewrite list_lookup_insert_eq. }
  rewrite (bind_ok _ _ _ e (Some (put_world w i e))).
  2:{ rewrite (bind_ok _ _ _ (put_world w i e) (Some (put_world w i e))) by done. by rewrite He. }
  rewrite Hv, Hdi, Hp. cbn [negb orb]. destruct (co_devs _ _ _ _ H p d Hd) as [Hops _].
  unfold dev_write, bind, deref, lift. cbn [w_devs put_world]. rewrite Hd.
  unfold mcsos_blk_write, mcsos_blk_validate_range. rewrite Hops. change (1 =? 0) with false.
  cbn [orb]. by rewrite (proj2 (Z.leb_le _ _) Hl).
Qed.

Lemma same_layout_devs w w' p d :
  same_layout w w' → w_devs w !! p = Some d →
  ∃ d', w_devs w' !! p = Some d' ∧ d_block_count d' = d_block_count d.
Proof.
  intros [_ Hl] Hd. specialize (Hl p). rewrite Hd in Hl. simpl in Hl.
  destruct (w_devs w' !! p) as [d'|]; [|done]. simpl in Hl. exists d'. split; [done|]. congruence.
Qed.

Lemma flush_until_bad n k w es A i p d e :
  coherent ops w es A → 0 <= k → i = k + Z.of_nat n → (Z.to_nat i < length es)%nat →
  w_devs w !! p = Some d → e_valid e = true → e_dirty e = true → e_dev e = Some p →
  d_block_count d <= e_lba e → ∀ l,
  ∃ w', iterM mcsos_bcache_flush_entry (seqZ k (Z.of_nat n) ++ i :: l) (Some (put_world w i e)) =
        (Err MCSOS_BLK_ERANGE, Some w').
Proof.
  revert k w es d. induction n as [|n IH]; intros k w es d H Hk Hi Hlt Hd Hv Hdi Hp Hl l.
  { cbn [seqZ app iterM]. eexists. apply bind_err.
    eapply flush_bad_entry; try done. lia. }
  destruct (lookup_lt_is_Some_2 es (Z.to_nat k)) as [f Hf]; [lia|].
  destruct (flush_entry_run ops w es A k f H Hk Hf) as (w1 & es1 & Hr & H1 & Hlay & Hk1 & Hj1 & _ & Hc1).
  destruct (same_layout_devs _ _ _ _ Hlay Hd) as (d1 & Hd1 & Hcnt).
  rewrite seqZ_cons by lia. replace (Z.pred (Z.of_nat (S n))) with (Z.of_nat n) by lia.
  cbn [app iterM].
  rewrite (bind_ok _ _ _ _ _ (flush_entry_put_ne w i k e w1 ltac:(lia) Hr)), <-Z.add_1_r.
  apply (IH (k + 1) w1 es1 d1); try done; try lia.
  pose proof (co_count _ _ _ _ H). pose proof (co_count _ _ _ _ H1). lia.
Qed.

End out_of_range.

(** The block layer hands requests inside the device to the RAM disk. *)
Definition ram_dev (nm : list Z) (bs n : Z) (ram : mcsos_ramblk) : blk_device mcsos_ramblk :=
  mk_blkdev nm bs n 0 (Some g_ramblk_ops) (Some ram).

Lemma ram_dev_write nm bs n ram lba count buf :
  ram_ok bs n ram → 0 <= lba → 0 < count → lba + count <= n → Z.of_nat (length buf) = count * bs →
  mcsos_blk_write (Some (ram_dev nm bs n ram)) lba count (Some buf) =
  Ok (ram_dev nm bs n (mk_ramblk (splice (Z.to_nat (lba * bs)) buf (storage ram)) (storage_size ram))).
Proof.
  intros Hok Hl Hc Hle Hb. unfold mcsos_blk_write, mcsos_blk_validate_range. simpl.
  rewrite (proj2 (Z.eqb_neq count 0)), (proj2 (Z.leb_gt n lba)), (proj2 (Z.ltb_ge (n - lba) count)) by lia.
  pose proof (ramblk_write_run bs n ram lba count buf Hok Hl ltac:(lia) Hle Hb) as Hw.
  simpl in *. by rewrite Hw.
Qed.

Lemma ram_dev_read nm bs n ram lba count buf :
  ram_ok bs n ram → 0 <= lba → 0 < count → lba + count <= n → Z.of_nat (length buf) = count * bs →
  mcsos_blk_read (Some (ram_dev nm bs n ram)) lba count (Some buf) =
  Ok (slice (Z.to_nat (lba * bs)) (Z.to_nat (count * bs)) (storage ram)).
Proof.
  intros Hok Hl Hc Hle Hb. unfold mcsos_blk_read, mcsos_blk_validate_range. simpl.
  rewrite (proj2 (Z.eqb_neq count 0)), (proj2 (Z.leb_gt n lba)), (proj2 (Z.ltb_ge (n - lba) count)) by lia.
  pose proof (ramblk_read_run bs n ram lba count buf Hok Hl ltac:(lia) Hle Hb) as Hr.
  simpl in *. by rewrite Hr.
Qed.

(** ** Claims *)

(** Only the block size and the devices matter for which calls are valid. *)
Definition op_valid_for {D} (bs : Z) (devs : list (blk_device D)) (o : cache_op) : Prop :=
  op_valid (mk_world (mk_bcache None 0 bs 0) devs) o.

(** C6: the buffer cache implements the disk.  For any driver that satisfies
    [BlkDriver] and any devices it drives, a cache initialised on an array of
    [n] entries answers every sequence of read, write and flush calls that name
    existing blocks of devices with the cache's block size, with buffers of one
    block, as a disk that stores each block at once, and after a final flush
    every device block equals that disk's. Calls on blocks outside the device
    are not covered: the cache accepts such writes. *)
Theorem bcache_refines_disk {D} (ops : blk_ops D) `{!BlkDriver ops} c0 es0 n pool bs devs os :
  0 < n < 2 ^ 31 → Z.of_nat (length es0) = n → 0 < bs → n * bs <= Z.of_nat (length pool) →
  (∀ p d, devs !! p = Some d → dev_ok ops d) → Forall (op_valid_for bs devs) os →
  ∃ c w1 w2, mcsos_bcache_init (Some c0) (Some es0) n (Some pool) bs = Ok c ∧
    let spec := disk_calls (disk_of ops (mk_world c devs)) os in
    cache_calls os (Some (mk_world c devs)) = (Ok spec.1, Some w1) ∧
    mcsos_bcache_flush_all (Some w1) = (Ok tt, Some w2) ∧
    ∀ p d l, w_devs w2 !! p = Some d → 0 <= l < d_block_count d → dev_blk ops d l = spec.2 p l.
Proof.
  intros Hn He0 Hbs Hp Hd Hos.
  destruct (bcache_init_coherent ops c0 es0 n pool bs devs Hn He0 Hbs Hp Hd) as (c & es & Hc & Hco & Hcb).
  destruct (cache_calls_run ops _ es _ os Hco) as (w1 & es1 & Hr & H1 & _).
  { eapply Forall_impl; [|exact Hos]. intros o. apply op_valid_layout. by split. }
  destruct (bcache_flush_all_run ops w1 es1 _ H1) as (w2 & es2 & Hfl & _ & _ & Hdev).
  by exists c, w1, w2.
Qed.

(** RAM disk through the block layer.  After a successful
    [mcsos_ramblk_init], a write of [count] blocks inside the device reads back,
    leaves every disjoint range as it was, and a request that leaves the device
    is refused with [MCSOS_BLK_ERANGE]. *)
Theorem ramblk_roundtrip d0 r0 name bytes size bs :
  0 < size < 2 ^ 64 → 0 <= bs → Z.of_nat (length bytes) = size →
  ∀ d, mcsos_ramblk_init (Some d0) (Some r0) (Some name) (Some bytes) size bs = Ok d →
  (∀ lba count buf out, 0 <= lba → 0 < count → lba + count <= d_block_count d →
     Z.of_nat (length buf) = count * bs → Z.of_nat (length out) = count * bs →
     ∃ d', mcsos_blk_write (Some d) lba count (Some buf) = Ok d' ∧
       mcsos_blk_read (Some d') lba count (Some out) = Ok buf ∧
       ∀ l c o, 0 <= l → 0 < c → l + c <= d_block_count d → l + c <= lba ∨ lba + count <= l →
         Z.of_nat (length o) = c * bs →
         mcsos_blk_read (Some d') l c (Some o) = mcsos_blk_read (Some d) l c (Some o)) ∧
  (∀ lba count buf, 0 <= lba → 0 < count → d_block_count d < lba + count →
     mcsos_blk_read (Some d) lba count (Some buf) = Err MCSOS_BLK_ERANGE ∧
     mcsos_blk_write (Some d) lba count (Some buf) = Err MCSOS_BLK_ERANGE).
Proof.
  intros Hs Hbs Hlen d. unfold mcsos_ramblk_init.
  destruct ((bs <? _) || _) eqn:Hb1; [done|]. apply orb_false_iff in Hb1 as [Hb1%Z.ltb_ge _].
  unfold MCSOS_BLK_DEFAULT_SECTOR_SIZE in Hb1.
  destruct ((size <? bs) || _) eqn:Hb2; [done|].
  apply orb_false_iff in Hb2 as [Hb2%Z.ltb_ge Hmod%negb_false_iff%Z.eqb_eq].
  set (ram := mk_ramblk bytes size). set (n := size / bs).
  assert (size = n * bs) as Hsz by (unfold n; pose proof (Z.div_mod size bs ltac:(lia)); lia).
  assert (ram_ok bs n ram) as Hok by (constructor; simpl; [lia|unfold n; apply Z.div_pos; lia|lia..]).
  intros [= Hd]. assert (d = ram_dev (mcsos_blk_copy_name_for_driver (d_name d0) (Some name)) bs n ram)
    as -> by done. clear Hd. simpl d_block_count. split.
  - intros lba count buf out Hl Hc Hle Hbuf Hout. eexists.
    rewrite ram_dev_write by done. split; [reflexivity|].
    pose proof (ram_ok_splice bs n ram (Z.to_nat (lba * bs)) buf Hok) as Hok'.
    rewrite ram_dev_read by done. simpl storage. split.
    + rewrite slice_splice_eq by (simpl; nia). done.
    + intros l c o Hl' Hc' Hle' Hdis Ho. rewrite !ram_dev_read by done. simpl storage.
      rewrite slice_splice_ne; [done|]. destruct Hdis; [left|right]; nia.
  - intros lba count buf Hl Hc Hgt.
    unfold mcsos_blk_write, mcsos_blk_read, mcsos_blk_validate_range. simpl.
    rewrite (proj2 (Z.eqb_neq count 0)) by lia. simpl.
    destruct (Z.leb_spec n lba); [done|]. by rewrite (proj2 (Z.ltb_lt (n - lba) count)) by lia.
Qed.

(** C35: [mcsos_bcache_write] does not check the block address against the
    device: a write outside it reports success, and the next
    [mcsos_bcache_flush_all] fails with [MCSOS_BLK_ERANGE]. *)
Theorem bcache_write_unchecked {D} (ops : blk_ops D) `{!BlkDriver ops} w es A p d lba buf :
  coherent ops w es A → w_devs w !! p = Some d → d_block_size d = c_block_size (w_cache w) →
  Z.of_nat (length buf) = c_block_size (w_cache w) → d_block_count d <= lba →
  ∃ w1 w2, mcsos_bcache_write (Some p) lba (Some buf) (Some w) = (Ok tt, Some w1) ∧
    mcsos_bcache_flush_all (Some w1) = (Err MCSOS_BLK_ERANGE, Some w2).
Proof.
  intros H Hd Hsz Hb Hl.
  assert (∀ j f, es !! j = Some f → entry_matches p lba f = false) as Hno.
  { intros j f Hf. destruct (entry_matches p lba f) eqn:Hm; [|done].
    apply entry_matches_iff in Hm as (Hv & Hp & <-).
    destruct (co_addr _ _ _ _ H j f Hf Hv) as (q & Hq & (dq & Hdq & _ & Hr) & _).
    assert (q = p) as -> by congruence. rewrite Hd in Hdq. injection Hdq as <-. lia. }
  destruct (write_miss_run ops w es A p d lba buf H Hd Hsz Hb Hno)
    as (i & w1 & es1 & e1 & Hr & H1 & Hlay & Hi & He1 & _).
  destruct (same_layout_devs _ _ _ _ Hlay Hd) as (d1 & Hd1 & Hc1).
  pose proof (lookup_lt_Some _ _ _ He1) as Hlt. pose proof (co_count _ _ _ _ H1) as Hcnt.
  set (e := mk_entry buf (e_capacity e1) lba true true (Some p)) in *.
  destruct (flush_until_bad ops (Z.to_nat i) 0 w1 es1 A i p d1 e H1) with
    (l := seqZ (i + 1) (c_entry_count (w_cache w1) - i - 1)) as [w2 Hw2]; try done || lia.
  { simpl. lia. }
  eexists _, w2. split; [exact Hr|]. unfold mcsos_bcache_flush_all.
  fold (put_world w1 i e). set (w1' := put_world w1 i e) in *.
  rewrite (bind_ok _ _ _ tt (Some w1')), (bind_ok _ _ _ w1' (Some w1')) by done.
  assert (c_entries (w_cache w1') = Some (<[Z.to_nat i := e]> es1)) as ->
    by (unfold w1', put_world, put_entry; simpl; by rewrite (co_entries _ _ _ _ H1)).
  assert (c_entry_count (w_cache w1') = c_entry_count (w_cache w1)) as -> by done.
  replace (c_entry_count (w_cache w1)) with (i + (c_entry_count (w_cache w1) - i)) by lia.
  rewrite seqZ_app, (seqZ_cons (0 + i)) by lia. rewrite Z2Nat.id in Hw2 by lia. rewrite Z.add_0_l, <-Z.add_1_r.
  rewrite <-Hw2. by replace (Z.pred (c_entry_count (w_cache w1) - i))
    with (c_entry_count (w_cache w1) - i - 1) by lia.
Qed.

(** Two RAM disks of four and two 512-byte blocks behind a two-entry cache. *)
Definition demo_ram (n : Z) : blk_device mcsos_ramblk :=
  ram_dev [114] 512 n (mk_ramblk (replicate (Z.to_nat (n * 512)) 0) (n * 512)).
Definition demo_cache : mcsos_bcache := mk_bcache None 0 0 0.
Definition demo_entries : list bcache_entry := replicate 2 (mk_entry [] 0 0 false false None).
Definition demo_devs : list (blk_device mcsos_ramblk) := [demo_ram 4; demo_ram 2].

Lemma demo_ram_ok n : 0 <= n < 2 ^ 32 → dev_ok g_ramblk_ops (demo_ram n).
Proof.
  intros Hn. split; [done|]. eexists. split; [reflexivity|].
  constructor; simpl; rewrite ?length_replicate; lia.
Qed.

Lemma demo_devs_ok p d : demo_devs !! p = Some d → dev_ok g_ramblk_ops d.
Proof.
  destruct p as [|[|p]]; intros [= <-]; apply demo_ram_ok; lia.
Qed.

Definition demo_ops : list cache_op :=
  [CacheWrite 0 1 (replicate 512 7); CacheRead 1 0; CacheRead 0 1].

Lemma bcache_refines_disk_witness :
  ∃ c w1 w2, mcsos_bcache_init (Some demo_cache) (Some demo_entries) 2 (Some (replicate 1024 0)) 512 = Ok c ∧
    let spec := disk_calls (disk_of g_ramblk_ops (mk_world c demo_devs)) demo_ops in
    cache_calls demo_ops (Some (mk_world c demo_devs)) = (Ok spec.1, Some w1) ∧
    mcsos_bcache_flush_all (Some w1) = (Ok tt, Some w2) ∧
    ∀ p d l, w_devs w2 !! p = Some d → 0 <= l < d_block_count d →
      dev_blk g_ramblk_ops d l = spec.2 p l.
Proof.
  apply (bcache_refines_disk g_ramblk_ops demo_cache demo_entries 2 (replicate 1024 0) 512 demo_devs demo_ops).
  - lia.
  - reflexivity.
  - lia.
  - rewrite length_replicate. lia.
  - apply demo_devs_ok.
  - unfold demo_ops. constructor; [|constructor; [|constructor; [|constructor]]].
    + split; [exists (demo_ram 4); split; [reflexivity|split; [reflexivity|simpl; lia]]|reflexivity].
    + exists (demo_ram 2); split; [reflexivity|split; [reflexivity|simpl; lia]].
    + exists (demo_ram 4); split; [reflexivity|split; [reflexivity|simpl; lia]].
Defined.

Lemma ramblk_roundtrip_witness :
  ∃ d, mcsos_ramblk_init (Some (demo_ram 0)) (Some (mk_ramblk [] 0)) (Some [114])
         (Some (replicate 2048 0)) 2048 512 = Ok d ∧
    mcsos_blk_write (Some d) 3 2 (Some (replicate 1024 1)) = Err MCSOS_BLK_ERANGE.
Proof.
  eexists. split; [reflexivity|].
  destruct (ramblk_roundtrip (demo_ram 0) (mk_ramblk [] 0) [114] (replicate 2048 0) 2048 512
    ltac:(lia) ltac:(lia) ltac:(rewrite length_replicate; lia) _ eq_refl) as [_ Hrange].
  apply (Hrange 3 2); [lia|lia|reflexivity].
Defined.

Lemma bcache_write_unchecked_witness :
  ∃ c w1 w2, mcsos_bcache_init (Some demo_cache) (Some demo_entries) 2 (Some (replicate 1024 0)) 512 = Ok c ∧
    mcsos_bcache_write (Some 1%nat) 2 (Some (replicate 512 7)) (Some (mk_world c demo_devs)) = (Ok tt, Some w1) ∧
    mcsos_bcache_flush_all (Some w1) = (Err MCSOS_BLK_ERANGE, Some w2).
Proof.
  destruct (bcache_init_coherent g_ramblk_ops demo_cache demo_entries 2 (replicate 1024 0) 512 demo_devs
    ltac:(lia) eq_refl ltac:(lia) ltac:(rewrite length_replicate; lia) demo_devs_ok) as (c & es & Hc & Hco & Hbs).
  exists c.
  destruct (bcache_write_unchecked g_ramblk_ops (mk_world c demo_devs) es _ 1%nat (demo_ram 2) 2
    (replicate 512 7) Hco eq_refl) as (w1 & w2 & H1 & H2).
  - symmetry. exact Hbs.
  - cbn [w_cache]. rewrite Hbs, length_replicate. reflexivity.
  - simpl. lia.
  - exists w1, w2. done.
Defined.
