(* ===== verification/Sync.v ===== *)
(** * Locks: lock-order checker, spinlock and mutex
      (kernel/sync/lockdep.c, spinlock.c, mutex.c, include/mcs_sync.h)

    The lock-order checker is a per-thread stack of lock classes.  The spinlock
    and the mutex are modelled twice: as the C functions run without
    interference, and as threads whose steps are the single atomic accesses of
    those functions, interleaved arbitrarily (sequentially consistent memory). *)

From Stdlib Require Import ZArith Lia.
From stdpp Require Import base list numbers option relations.
From S2P Require Import Prelude.

Local Open Scope Z_scope.

(** ** Lock-order checker *)

Definition MCS_LOCKDEP_MAX_HELD : Z := 16.
Definition MCS_SYNC_OK : Z := 0.
Definition MCS_SYNC_EINVAL : Z := -22.
Definition MCS_SYNC_EBUSY : Z := -16.
Definition MCS_SYNC_EPERM : Z := -1.
Definition MCS_SYNC_EDEADLK : Z := -35.
Definition MCS_SYNC_EOVERFLOW : Z := -75.

(** Names are C strings, possibly NULL. *)
Definition c_name : Type := ptr (list Z).

Record mcs_lockdep_state := mk_lockdep {
  held_class : list Z;
  held_name : list c_name;
  depth : Z;
  violation_count : Z
}.

Definition mcs_lockdep_init (state : ptr mcs_lockdep_state) : ptr mcs_lockdep_state :=
  match state with
  | None => None
  | Some _ => Some (mk_lockdep (replicate (Z.to_nat MCS_LOCKDEP_MAX_HELD) 0)
                               (replicate (Z.to_nat MCS_LOCKDEP_MAX_HELD) None) 0 0)
  end.

(** [state->held_class[i]] *)
Definition class_at (s : mcs_lockdep_state) (i : Z) : Z := nth (Z.to_nat i) (held_class s) 0.

Definition mcs_lockdep_is_held (state : ptr mcs_lockdep_state) (class_id : Z) : bool :=
  match state with
  | None => false
  | Some s =>
      if class_id =? 0 then false
      else match find_z (λ i, class_at s i =? class_id) 0
                   (Z.to_nat (Z.min (depth s) MCS_LOCKDEP_MAX_HELD)) with
           | Some _ => true
           | None => false
           end
  end.

Definition violation (s : mcs_lockdep_state) : mcs_lockdep_state :=
  mk_lockdep (held_class s) (held_name s) (depth s) (u32 (violation_count s + 1)).

Definition mcs_lockdep_before_acquire (state : ptr mcs_lockdep_state) (class_id : Z) (name : c_name)
    : Z * ptr mcs_lockdep_state :=
  match state with
  | None => (MCS_SYNC_EINVAL, None)
  | Some s =>
      if class_id =? 0 then (MCS_SYNC_EINVAL, Some s)
      else if MCS_LOCKDEP_MAX_HELD <=? depth s then (MCS_SYNC_EOVERFLOW, Some (violation s))
      else
        match find_z (λ i, class_at s i =? class_id) 0 (Z.to_nat (depth s)) with
        | Some _ => (MCS_SYNC_EDEADLK, Some (violation s))
        | None =>
            if (0 <? depth s) && (class_id <? class_at s (depth s - 1))
            then (MCS_SYNC_EDEADLK, Some (violation s))
            else (MCS_SYNC_OK,
                  Some (mk_lockdep (<[Z.to_nat (depth s) := class_id]> (held_class s))
                          (<[Z.to_nat (depth s) := name]> (held_name s))
                          (u32 (depth s + 1)) (violation_count s)))
        end
  end.

Definition mcs_lockdep_after_release (state : ptr mcs_lockdep_state) (class_id : Z) (name : c_name)
    : Z * ptr mcs_lockdep_state :=
  match state with
  | None => (MCS_SYNC_EINVAL, None)
  | Some s =>
      if class_id =? 0 then (MCS_SYNC_EINVAL, Some s)
      else if depth s =? 0 then (MCS_SYNC_EPERM, Some (violation s))
      else
        let index := depth s - 1 in
        if negb (class_at s index =? class_id) then (MCS_SYNC_EDEADLK, Some (violation s))
        else (MCS_SYNC_OK,
              Some (mk_lockdep (<[Z.to_nat index := 0]> (held_class s))
                      (<[Z.to_nat index := None]> (held_name s)) index (violation_count s)))
  end.

(** ** Spinlock *)

Record mcs_spinlock := mk_spin {
  s_locked : Z;
  s_class_id : Z;
  s_name : c_name
}.

Definition set_locked (l : mcs_spinlock) (v : Z) : mcs_spinlock := mk_spin v (s_class_id l) (s_name l).

Definition mcs_spin_init (lock : ptr mcs_spinlock) (class_id : Z) (name : c_name) : ptr mcs_spinlock :=
  match lock with None => None | Some _ => Some (mk_spin 0 class_id name) end.

(** One atomic exchange. *)
Definition mcs_spin_try_lock (lock : ptr mcs_spinlock) : bool * ptr mcs_spinlock :=
  match lock with
  | None => (false, None)
  | Some l => (s_locked l =? 0, Some (set_locked l 1))
  end.

Definition mcs_spin_unlock (lock : ptr mcs_spinlock) : ptr mcs_spinlock :=
  match lock with None => None | Some l => Some (set_locked l 0) end.

Definition mcs_spin_is_locked (lock : ptr mcs_spinlock) : bool :=
  match lock with None => false | Some l => negb (s_locked l =? 0) end.

(** A thread that runs [mcs_spin_lock(l); counter++; mcs_spin_unlock(l);] in a
    loop; the increment is a load and a store. *)
Inductive spin_pc :=
| SIdle                 (** outside *)
| STry                  (** about to call [mcs_spin_try_lock] *)
| SWait                 (** in the inner loop, about to load [locked] *)
| SCrit                 (** holds the lock, about to load the counter *)
| SLoaded (v : Z)       (** about to store [v + 1] *)
| SDone.                (** about to call [mcs_spin_unlock] *)

Record spin_sys := mk_spin_sys {
  sp_lock : mcs_spinlock;
  sp_counter : Z;
  sp_done : Z;          (** increments completed, for the statement only *)
  sp_pcs : list spin_pc
}.

(** One step of one thread: the lock word, the counter and the thread's place. *)
Inductive spin_thread_step : spin_pc → mcs_spinlock → Z → Z → spin_pc → mcs_spinlock → Z → Z → Prop :=
| SpinCall l c n : spin_thread_step SIdle l c n STry l c n
| SpinTake l l' c n :
    mcs_spin_try_lock (Some l) = (true, Some l') → spin_thread_step STry l c n SCrit l' c n
| SpinMiss l l' c n :
    mcs_spin_try_lock (Some l) = (false, Some l') → spin_thread_step STry l c n SWait l' c n
| SpinStay l c n : mcs_spin_is_locked (Some l) = true → spin_thread_step SWait l c n SWait l c n
| SpinRetry l c n : mcs_spin_is_locked (Some l) = false → spin_thread_step SWait l c n STry l c n
| SpinLoad l c n : spin_thread_step SCrit l c n (SLoaded c) l c n
| SpinStore l c n v : spin_thread_step (SLoaded v) l c n SDone l (v + 1) (n + 1)
| SpinUnlock l l' c n :
    mcs_spin_unlock (Some l) = Some l' → spin_thread_step SDone l c n SIdle l' c n.

Inductive spin_step : spin_sys → spin_sys → Prop :=
| SpinStep l c n pcs t pc l' c' n' pc' :
    pcs !! t = Some pc → spin_thread_step pc l c n pc' l' c' n' →
    spin_step (mk_spin_sys l c n pcs) (mk_spin_sys l' c' n' (<[t := pc']> pcs)).

Definition spin_initial (class_id : Z) (name : c_name) (threads : nat) : spin_sys :=
  mk_spin_sys (mk_spin 0 class_id name) 0 0 (replicate threads SIdle).

(** The thread is between taking and giving back the lock. *)
Definition in_section (pc : spin_pc) : bool :=
  match pc with SCrit | SLoaded _ | SDone => true | _ => false end.

(** ** Mutex *)

Record mcs_mutex := mk_mutex {
  m_locked : Z;
  m_owner : Z;
  m_class_id : Z;
  m_name : c_name
}.

Definition set_m_locked (m : mcs_mutex) (v : Z) : mcs_mutex :=
  mk_mutex v (m_owner m) (m_class_id m) (m_name m).
Definition set_m_owner (m : mcs_mutex) (v : Z) : mcs_mutex :=
  mk_mutex (m_locked m) v (m_class_id m) (m_name m).

Definition mcs_mutex_init (mutex : ptr mcs_mutex) (class_id : Z) (name : c_name) : ptr mcs_mutex :=
  match mutex with None => None | Some _ => Some (mk_mutex 0 0 class_id name) end.

Definition mcs_mutex_try_lock (mutex : ptr mcs_mutex) (owner_id : Z) : Z * ptr mcs_mutex :=
  match mutex with
  | None => (MCS_SYNC_EINVAL, None)
  | Some m =>
      if owner_id =? 0 then (MCS_SYNC_EINVAL, Some m)
      else if negb (m_locked m =? 0) then
        if m_owner m =? owner_id then (MCS_SYNC_EDEADLK, Some m) else (MCS_SYNC_EBUSY, Some m)
      else (MCS_SYNC_OK, Some (set_m_owner (set_m_locked m 1) owner_id))
  end.

Definition mcs_mutex_unlock (mutex : ptr mcs_mutex) (owner_id : Z) : Z * ptr mcs_mutex :=
  match mutex with
  | None => (MCS_SYNC_EINVAL, None)
  | Some m =>
      if owner_id =? 0 then (MCS_SYNC_EINVAL, Some m)
      else if negb (m_owner m =? owner_id) then (MCS_SYNC_EPERM, Some m)
      else (MCS_SYNC_OK, Some (set_m_locked (set_m_owner m 0) 0))
  end.

Definition mcs_mutex_is_locked (mutex : ptr mcs_mutex) : bool :=
  match mutex with None => false | Some m => negb (m_locked m =? 0) end.
Definition mcs_mutex_owner (mutex : ptr mcs_mutex) : Z :=
  match mutex with None => 0 | Some m => m_owner m end.

(** A thread that calls [mcs_mutex_try_lock] and [mcs_mutex_unlock] in any
    order, one atomic access per step; [h] records whether the thread was told
    it holds the mutex. *)
Inductive mutex_pc :=
| MReady (h : bool)
| MTryCas (h : bool)         (** compare-exchange on [locked] *)
| MTryLoad (h : bool)        (** it failed: load [owner] *)
| MTryStore                  (** it succeeded: store [owner] *)
| MUnlLoad (h : bool)        (** load [owner] *)
| MUnlOwner                  (** store 0 to [owner] *)
| MUnlLocked.                (** store 0 to [locked] *)

(** [mutex_thread_step o pc m ret pc' m']: thread with id [o]; [ret] is the
    value returned when the step ends a call. *)
Inductive mutex_thread_step (o : Z) : mutex_pc → mcs_mutex → option Z → mutex_pc → mcs_mutex → Prop :=
| MutexCallTry h m : mutex_thread_step o (MReady h) m None (MTryCas h) m
| MutexCasOk h m : m_locked m = 0 →
    mutex_thread_step o (MTryCas h) m None MTryStore (set_m_locked m 1)
| MutexCasFail h m : m_locked m ≠ 0 → mutex_thread_step o (MTryCas h) m None (MTryLoad h) m
| MutexSelf h m : m_owner m = o →
    mutex_thread_step o (MTryLoad h) m (Some MCS_SYNC_EDEADLK) (MReady h) m
| MutexBusy h m : m_owner m ≠ o →
    mutex_thread_step o (MTryLoad h) m (Some MCS_SYNC_EBUSY) (MReady h) m
| MutexTaken m :
    mutex_thread_step o MTryStore m (Some MCS_SYNC_OK) (MReady true) (set_m_owner m o)
| MutexCallUnlock h m : mutex_thread_step o (MReady h) m None (MUnlLoad h) m
| MutexNotOwner h m : m_owner m ≠ o →
    mutex_thread_step o (MUnlLoad h) m (Some MCS_SYNC_EPERM) (MReady h) m
| MutexOwner h m : m_owner m = o → mutex_thread_step o (MUnlLoad h) m None MUnlOwner m
| MutexClear m : mutex_thread_step o MUnlOwner m None MUnlLocked (set_m_owner m 0)
| MutexFree m :
    mutex_thread_step o MUnlLocked m (Some MCS_SYNC_OK) (MReady false) (set_m_locked m 0).

Record mutex_sys := mk_mutex_sys {
  mx_mutex : mcs_mutex;
  mx_pcs : list mutex_pc
}.

(** Thread [t] uses the owner id [S t]. *)
Definition owner_of (t : nat) : Z := Z.of_nat t + 1.

Inductive mutex_step : mutex_sys → nat * option Z → mutex_sys → Prop :=
| MutexStep m pcs t pc r m' pc' :
    pcs !! t = Some pc → mutex_thread_step (owner_of t) pc m r pc' m' →
    mutex_step (mk_mutex_sys m pcs) (t, r) (mk_mutex_sys m' (<[t := pc']> pcs)).

Definition mutex_initial (class_id : Z) (name : c_name) (threads : nat) : mutex_sys :=
  mk_mutex_sys (mk_mutex 0 0 class_id name) (replicate threads (MReady false)).

(** States reached by some interleaving. *)
Inductive mutex_reach (class_id : Z) (name : c_name) (threads : nat) : mutex_sys → Prop :=
| MReachInit : mutex_reach class_id name threads (mutex_initial class_id name threads)
| MReachStep s e s' :
    mutex_reach class_id name threads s → mutex_step s e s' → mutex_reach class_id name threads s'.

(** The thread holds the mutex: between the successful compare-exchange and the
    final store of [mcs_mutex_unlock]. *)
Definition holds (pc : mutex_pc) : bool :=
  match pc with
  | MReady h | MTryCas h | MTryLoad h | MUnlLoad h => h
  | MTryStore | MUnlOwner | MUnlLocked => true
  end.

(** The thread's id is in [owner]. *)
Definition owns (pc : mutex_pc) : bool :=
  match pc with MTryStore | MUnlLocked => false | _ => holds pc end.

(** ** The checker as a stack of ascending classes *)

Record lockdep_inv (s : mcs_lockdep_state) : Prop := {
  ld_classes : length (held_class s) = 16%nat;
  ld_names : length (held_name s) = 16%nat;
  ld_depth : 0 <= depth s <= 16;
  ld_pos : ∀ i, 0 <= i < depth s → 0 < class_at s i;
  ld_sorted : ∀ i j, 0 <= i < j → j < depth s → class_at s i < class_at s j
}.

(** The classes held, outermost first. *)
Definition held (s : mcs_lockdep_state) : list Z := take (Z.to_nat (depth s)) (held_class s).

(** States a thread's checker goes through, whatever it calls. *)
Inductive lockdep_reach : mcs_lockdep_state → Prop :=
| LdInit s s' : mcs_lockdep_init (Some s) = Some s' → lockdep_reach s'
| LdAcquire s c n r s' : lockdep_reach s → fits 32 c →
    mcs_lockdep_before_acquire (Some s) c n = (r, Some s') → lockdep_reach s'
| LdRelease s c n r s' : lockdep_reach s → fits 32 c →
    mcs_lockdep_after_release (Some s) c n = (r, Some s') → lockdep_reach s'.

Lemma class_at_insert s i c names d v j :
  length (held_class s) = 16%nat → 0 <= i < 16 → 0 <= j →
  class_at (mk_lockdep (<[Z.to_nat i := c]> (held_class s)) names d v) j =
  if j =? i then c else class_at s j.
Proof.
  intros Hl Hi Hj. unfold class_at. simpl. rewrite !nth_lookup. destruct (Z.eqb_spec j i) as [->|].
  - by rewrite list_lookup_insert_eq by lia.
  - by rewrite list_lookup_insert_ne by lia.
Qed.

Lemma held_lookup s i :
  lockdep_inv s → 0 <= i < depth s → held s !! Z.to_nat i = Some (class_at s i).
Proof.
  intros [Hl _ Hd _ _] Hi. unfold held, class_at. rewrite lookup_take_lt by lia.
  rewrite nth_lookup. destruct (lookup_lt_is_Some_2 (held_class s) (Z.to_nat i)) as [c Hc]; [lia|].
  by rewrite Hc.
Qed.

Lemma elem_of_held s c :
  lockdep_inv s → c ∈ held s ↔ ∃ i, 0 <= i < depth s ∧ class_at s i = c.
Proof.
  intros H. split.
  - intros [k Hk]%list_elem_of_lookup. pose proof (lookup_lt_Some _ _ _ Hk) as Hlt.
    unfold held in Hlt. rewrite length_take in Hlt.
    exists (Z.of_nat k). assert (0 <= Z.of_nat k < depth s) as Hr by (destruct H; lia).
    split; [done|]. pose proof (held_lookup s _ H Hr) as Hh. rewrite Nat2Z.id in Hh. congruence.
  - intros (i & Hi & <-). apply list_elem_of_lookup. eexists. by apply held_lookup.
Qed.

Lemma find_class s c n :
  find_z (λ i, class_at s i =? c) 0 n = None ↔ (∀ i, 0 <= i < Z.of_nat n → class_at s i ≠ c).
Proof. rewrite find_z_None. setoid_rewrite Z.eqb_neq. done. Qed.

Lemma violation_inv s : lockdep_inv s → lockdep_inv (violation s) ∧ held (violation s) = held s.
Proof. by intros []. Qed.

Lemma push_inv s c n :
  lockdep_inv s → depth s < 16 → 0 < c → (∀ i, 0 <= i < depth s → class_at s i < c) →
  let t := mk_lockdep (<[Z.to_nat (depth s) := c]> (held_class s))
             (<[Z.to_nat (depth s) := n]> (held_name s)) (u32 (depth s + 1)) (violation_count s) in
  lockdep_inv t ∧ held t = held s ++ [c].
Proof.
  intros [Hl Hn Hd Hp Hs] Hf Hc Hall t.
  assert (depth t = depth s + 1) as Ht by (apply wrap_small; unfold fits; lia).
  assert (∀ j, 0 <= j → class_at t j = if j =? depth s then c else class_at s j) as Hat
    by (intros; apply class_at_insert; lia).
  split.
  - constructor; rewrite ?Ht.
    + by etransitivity; [apply length_insert|].
    + by etransitivity; [apply length_insert|].
    + lia.
    + intros i Hi. rewrite Hat by lia. destruct (Z.eqb_spec i (depth s)); [done|]. apply Hp. lia.
    + intros i j Hi Hj. rewrite !Hat by lia.
      destruct (Z.eqb_spec i (depth s)); [lia|]. destruct (Z.eqb_spec j (depth s)); [|apply Hs; lia].
      apply Hall. lia.
  - unfold held. rewrite Ht. simpl. rewrite Z2Nat.inj_add by lia. rewrite Nat.add_1_r.
    erewrite take_S_r by (apply list_lookup_insert_eq; lia). f_equal.
    by apply take_insert_ge.
Qed.

(** A class is accepted exactly when it is above everything held. *)
Lemma acquire_run s c n :
  lockdep_inv s → fits 32 c →
  let '(r, s') := mcs_lockdep_before_acquire (Some s) c n in
  ∃ t, s' = Some t ∧ lockdep_inv t ∧
    ((r = MCS_SYNC_OK ∧ 0 < c ∧ depth s < 16 ∧ (∀ h, h ∈ held s → h < c) ∧ held t = held s ++ [c] ∧
      violation_count t = violation_count s) ∨
     (r ≠ MCS_SYNC_OK ∧ ¬ (0 < c ∧ depth s < 16 ∧ ∀ h, h ∈ held s → h < c) ∧ held t = held s)).
Proof.
  intros H Hc. pose proof H as [Hl Hn Hd Hp Hs]. unfold mcs_lockdep_before_acquire.
  destruct (Z.eqb_spec c 0) as [->|Hz].
  { exists s. split; [done|]. split; [done|]. right. split; [done|]. split; [lia|done]. }
  destruct (violation_inv s H) as [Hvi Hvh].
  unfold MCS_LOCKDEP_MAX_HELD. destruct (Z.leb_spec 16 (depth s)) as [Hf|Hf].
  { exists (violation s). split; [done|]. split; [done|]. right. split; [done|]. split; [lia|done]. }
  destruct (find_z _ _ _) as [i|] eqn:Hfind.
  { exists (violation s). split; [done|]. split; [done|]. right. split; [done|]. split; [|done].
    apply find_z_Some in Hfind as (Hi & Hm%Z.eqb_eq & _). intros (_ & _ & Hall).
    specialize (Hall c). rewrite elem_of_held in Hall by done. 
    assert (c < c); [|lia]. apply Hall. exists i. split; [lia|done]. }
  rewrite find_class in Hfind. rewrite Z2Nat.id in Hfind by lia.
  assert (∀ h, h ∈ held s ↔ ∃ i, 0 <= i < depth s ∧ class_at s i = h) as Hheld
    by (intros; by apply elem_of_held).
  destruct ((0 <? depth s) && (c <? class_at s (depth s - 1))) eqn:Htop.
  - apply andb_true_iff in Htop as [Hpos%Z.ltb_lt Hlt%Z.ltb_lt].
    exists (violation s). split; [done|]. split; [done|]. right. split; [done|]. split; [|done].
    intros (_ & _ & Hall). specialize (Hall (class_at s (depth s - 1))).
    assert (class_at s (depth s - 1) < c); [|lia]. apply Hall, Hheld.
    exists (depth s - 1). split; [lia|done].
  - assert (∀ i, 0 <= i < depth s → class_at s i < c) as Hall.
    { intros i Hi. rewrite andb_false_iff, !Z.ltb_ge in Htop. destruct Htop as [?|Htop]; [lia|].
      pose proof (Hfind (depth s - 1) ltac:(lia)).
      destruct (decide (i = depth s - 1)) as [->|]; [lia|].
      pose proof (Hs i (depth s - 1) ltac:(lia) ltac:(lia)). lia. }
    assert (0 < c) as Hc0 by (unfold fits in Hc; lia).
    destruct (push_inv s c n H Hf Hc0 Hall) as [Hinv Hh].
    eexists. split; [reflexivity|]. split; [done|]. left. split_and!; try done.
    intros h (i & Hi & <-)%Hheld. auto.
Qed.

(** Only the innermost class can be released. *)
Lemma release_run s c n :
  lockdep_inv s → fits 32 c →
  let '(r, s') := mcs_lockdep_after_release (Some s) c n in
  ∃ t, s' = Some t ∧ lockdep_inv t ∧
    ((r = MCS_SYNC_OK ∧ held s = held t ++ [c] ∧ violation_count t = violation_count s) ∨
     (r ≠ MCS_SYNC_OK ∧ last (held s) ≠ Some c ∧ held t = held s)).
Proof.
  intros H Hc. pose proof H as [Hl Hn Hd Hp Hs]. unfold mcs_lockdep_after_release.
  assert (last (held s) = if depth s =? 0 then None else Some (class_at s (depth s - 1))) as Hlast.
  { assert (length (held s) = Z.to_nat (depth s)) as Hlen by (unfold held; rewrite length_take; lia).
    rewrite last_lookup, Hlen. replace (Nat.pred _) with (Z.to_nat (depth s - 1)) by lia. destruct (Z.eqb_spec (depth s) 0) as [Hz|].
    - unfold held. by rewrite Hz.
    - apply held_lookup; [done|lia]. }
  destruct (violation_inv s H) as [Hvi Hvh]. rewrite Hlast.
  destruct (Z.eqb_spec c 0) as [->|Hz].
  { exists s. split; [done|]. split; [done|]. right. split; [done|]. split; [|done].
    destruct (Z.eqb_spec (depth s) 0); [done|]. intros [= Heq].
    pose proof (Hp (depth s - 1) ltac:(lia)). lia. }
  destruct (Z.eqb_spec (depth s) 0) as [Hd0|Hd0].
  { exists (violation s). split; [done|]. split; [done|]. by right. }
  destruct (Z.eqb_spec (class_at s (depth s - 1)) c) as [<-|Hne]; cbn [negb].
  2:{ exists (violation s). split; [done|]. split; [done|]. right. split; [done|]. split; [congruence|done]. }
  eexists. split; [reflexivity|].
  set (t := mk_lockdep _ _ _ _).
  assert (∀ j, 0 <= j < depth s - 1 → class_at t j = class_at s j) as Hat.
  { intros j Hj. unfold t. rewrite class_at_insert by lia. by rewrite (proj2 (Z.eqb_neq j _)) by lia. }
  split.
  - constructor; simpl.
    + by rewrite length_insert.
    + by rewrite length_insert.
    + lia.
    + intros i Hi. rewrite Hat by lia. apply Hp. lia.
    + intros i j Hi Hj. rewrite !Hat by lia. apply Hs; lia.
  - left. split; [done|]. split; [|done]. unfold held. simpl.
    rewrite take_insert_ge by done.
    replace (Z.to_nat (depth s)) with (S (Z.to_nat (depth s - 1))) by lia.
    apply take_S_r. pose proof (held_lookup s (depth s - 1) H ltac:(lia)) as Hh.
    unfold held in Hh. by rewrite lookup_take_lt in Hh by lia.
Qed.

Lemma lockdep_reach_inv s : lockdep_reach s → lockdep_inv s.
Proof.
  induction 1 as [s s' Hi|s c n r s' _ IH Hc Hr|s c n r s' _ IH Hc Hr].
  - injection Hi as <-. constructor; try done; intros; simpl in *; lia.
  - pose proof (acquire_run s c n IH Hc) as Ha. rewrite Hr in Ha.
    by destruct Ha as (t & [= ->] & Ht & _).
  - pose proof (release_run s c n IH Hc) as Ha. rewrite Hr in Ha.
    by destruct Ha as (t & [= ->] & Ht & _).
Qed.

Lemma is_held_iff s c :
  lockdep_inv s → mcs_lockdep_is_held (Some s) c = true ↔ c ∈ held s.
Proof.
  intros H. rewrite elem_of_held by done. unfold mcs_lockdep_is_held.
  pose proof (ld_depth _ H). pose proof (ld_pos _ H) as Hp.
  destruct (Z.eqb_spec c 0) as [->|Hz].
  { split; [done|]. intros (i & Hi & Hc). specialize (Hp i Hi). lia. }
  unfold MCS_LOCKDEP_MAX_HELD. rewrite Z.min_l by lia.
  destruct (find_z _ _ _) as [i|] eqn:Hf.
  - split; [|done]. intros _. apply find_z_Some in Hf as (Hi & Hm%Z.eqb_eq & _).
    exists i. split; [lia|done].
  - split; [done|]. rewrite find_class in Hf. intros (i & Hi & Hm). destruct (Hf i); [lia|done].
Qed.

(** Thread [i], whose next acquisition the checker accepted, waits for a class
    that thread [j] holds. *)
Definition waits (S : nat → mcs_lockdep_state) (want : nat → Z) (name : nat → c_name)
    (i j : nat) : Prop :=
  fst (mcs_lockdep_before_acquire (Some (S i)) (want i) (name i)) = MCS_SYNC_OK ∧
  fst (mcs_lockdep_before_acquire (Some (S j)) (want j) (name j)) = MCS_SYNC_OK ∧
  mcs_lockdep_is_held (Some (S j)) (want i) = true.

Lemma waits_ascends S want name i j :
  (∀ t, lockdep_reach (S t)) → (∀ t, fits 32 (want t)) → waits S want name i j → want i < want j.
Proof.
  intros Hr Hf (_ & Hj & Hh). pose proof (lockdep_reach_inv _ (Hr j)) as Hinv.
  pose proof (acquire_run (S j) (want j) (name j) Hinv (Hf j)) as Ha.
  destruct (mcs_lockdep_before_acquire (Some (S j)) (want j) (name j)) as [r s'].
  simpl in Hj. subst r. destruct Ha as (t & _ & _ & [(_ & _ & _ & Hall & _)|[[] _]]); [|done].
  apply Hall. by apply is_held_iff.
Qed.

(** ** Claims about the checker *)

(** The lock-order checker is a stack of ascending classes.  In every state a
    thread's checker can reach, an acquisition is accepted exactly when its class
    is non-zero, above every class held and the stack is not full, and then it is
    pushed; a release is accepted exactly when it names the innermost class, and
    then it is popped; a refused call leaves the classes held unchanged. *)
Theorem lockdep_is_stack s c n :
  lockdep_reach s → fits 32 c →
  (let '(r, s') := mcs_lockdep_before_acquire (Some s) c n in
   ∃ t, s' = Some t ∧
     if decide (0 < c ∧ depth s < 16 ∧ Forall (λ h, h < c) (held s))
     then r = MCS_SYNC_OK ∧ held t = held s ++ [c]
     else r ≠ MCS_SYNC_OK ∧ held t = held s) ∧
  (let '(r, s') := mcs_lockdep_after_release (Some s) c n in
   ∃ t, s' = Some t ∧
     if decide (last (held s) = Some c)
     then r = MCS_SYNC_OK ∧ held s = held t ++ [c]
     else r ≠ MCS_SYNC_OK ∧ held t = held s).
Proof.
  intros Hr Hc. pose proof (lockdep_reach_inv s Hr) as H. split.
  - pose proof (acquire_run s c n H Hc) as Ha.
    destruct (mcs_lockdep_before_acquire (Some s) c n) as [r s'].
    destruct Ha as (t & -> & _ & Hcase). exists t. split; [done|]. setoid_rewrite <-Forall_forall in Hcase.
    destruct Hcase as [(-> & ? & ? & ? & ? & _)|(? & ? & ?)].
    + by rewrite decide_True.
    + by rewrite decide_False.
  - pose proof (release_run s c n H Hc) as Ha.
    destruct (mcs_lockdep_after_release (Some s) c n) as [r s'].
    destruct Ha as (t & -> & _ & [(-> & Hh & _)|(? & ? & ?)]); exists t; (split; [done|]).
    + rewrite decide_True; [done|]. by rewrite Hh, last_snoc.
    + by rewrite decide_False.
Qed.

(** C8: threads that obey the checker cannot deadlock.  If every thread's checker
    is in a reachable state and each waiting thread's next acquisition was
    accepted, there is no cycle of threads each waiting for a class the next one
    holds. *)
Theorem lockdep_no_deadlock S want name :
  (∀ t, lockdep_reach (S t)) → (∀ t, fits 32 (want t)) →
  ∀ t, ¬ tc (waits S want name) t t.
Proof.
  intros Hr Hf t Hcycle.
  assert (∀ i j, tc (waits S want name) i j → want i < want j) as Hlt.
  { induction 1 as [i j Hw|i j k Hw _ IH].
    - by eapply waits_ascends.
    - pose proof (waits_ascends S want name i j Hr Hf Hw). lia. }
  specialize (Hlt t t Hcycle). lia.
Qed.

(** Two threads: the first holds class 10 and wants 20, the second holds 20 and
    wants 30. *)
Definition demo_lockdep (c : Z) : mcs_lockdep_state :=
  mk_lockdep (c :: replicate 15 0) (Some [108] :: replicate 15 None) 1 0.
Definition demo_threads (t : nat) : mcs_lockdep_state :=
  match t with O => demo_lockdep 10 | _ => demo_lockdep 20 end.
Definition demo_want (t : nat) : Z := match t with O => 20 | _ => 30 end.

Lemma demo_lockdep_reach c : 0 < c < 2 ^ 32 → lockdep_reach (demo_lockdep c).
Proof.
  intros Hc. eapply (LdAcquire _ c (Some [108]) MCS_SYNC_OK).
  - apply (LdInit (demo_lockdep c)). reflexivity.
  - unfold fits. lia.
  - unfold mcs_lockdep_before_acquire. by rewrite (proj2 (Z.eqb_neq c 0)) by lia.
Qed.

Lemma demo_threads_reach t : lockdep_reach (demo_threads t).
Proof. destruct t; apply demo_lockdep_reach; lia. Qed.

Lemma lockdep_is_stack_witness :
  (let '(r, s') := mcs_lockdep_before_acquire (Some (demo_lockdep 10)) 20 None in
   ∃ t, s' = Some t ∧
     if decide (0 < 20 ∧ depth (demo_lockdep 10) < 16 ∧ Forall (λ h, h < 20) (held (demo_lockdep 10)))
     then r = MCS_SYNC_OK ∧ held t = held (demo_lockdep 10) ++ [20]
     else r ≠ MCS_SYNC_OK ∧ held t = held (demo_lockdep 10)) ∧
  (let '(r, s') := mcs_lockdep_after_release (Some (demo_lockdep 10)) 20 None in
   ∃ t, s' = Some t ∧
     if decide (last (held (demo_lockdep 10)) = Some 20)
     then r = MCS_SYNC_OK ∧ held (demo_lockdep 10) = held t ++ [20]
     else r ≠ MCS_SYNC_OK ∧ held t = held (demo_lockdep 10)).
Proof.
  apply (lockdep_is_stack (demo_lockdep 10) 20 None).
  - apply demo_lockdep_reach. lia.
  - unfold fits. lia.
Defined.

Lemma lockdep_no_deadlock_witness :
  waits demo_threads demo_want (λ _, None) 0 1 ∧ ¬ tc (waits demo_threads demo_want (λ _, None)) 0%nat 0%nat.
Proof.
  split; [split; [|split]; reflexivity|].
  apply (lockdep_no_deadlock demo_threads demo_want (λ _, None)).
  - apply demo_threads_reach.
  - intros [|t]; unfold fits; simpl; lia.
Defined.

(** ** Spinlock: mutual exclusion *)

Record spin_inv (s : spin_sys) : Prop := {
  si_bool : s_locked (sp_lock s) = 0 ∨ s_locked (sp_lock s) = 1;
  si_held : ∀ t pc, sp_pcs s !! t = Some pc → in_section pc = true → s_locked (sp_lock s) = 1;
  si_free : s_locked (sp_lock s) = 1 → ∃ t pc, sp_pcs s !! t = Some pc ∧ in_section pc = true;
  si_one : ∀ t t' pc pc', sp_pcs s !! t = Some pc → sp_pcs s !! t' = Some pc' →
    in_section pc = true → in_section pc' = true → t = t';
  si_count : sp_counter s = sp_done s;
  si_loaded : ∀ t v, sp_pcs s !! t = Some (SLoaded v) → v = sp_counter s
}.

Lemma insert_cases {A} (l : list A) t x u y :
  <[t := x]> l !! u = Some y → (u = t ∧ y = x) ∨ (u ≠ t ∧ l !! u = Some y).
Proof.
  intros H. destruct (decide (u = t)) as [->|Hne].
  - left. split; [done|]. pose proof (lookup_lt_Some _ _ _ H) as Hl. rewrite length_insert in Hl.
    rewrite list_lookup_insert_eq in H by done. congruence.
  - right. by rewrite list_lookup_insert_ne in H.
Qed.

Lemma spin_initial_inv c n k : spin_inv (spin_initial c n k).
Proof.
  assert (∀ t pc, replicate k SIdle !! t = Some pc → pc = SIdle) as H.
  { intros t pc [Ht _]%lookup_replicate. done. }
  constructor; simpl; try done.
  - by left.
  - intros t pc ->%H. done.
  - intros t t' pc pc' ->%H. done.
  - intros t v Hl%H. done.
Qed.

(** A step that moves neither the lock word nor the thread across the section's
    border. *)
Lemma spin_inv_keep l c n pcs t pc l' c' n' pc' :
  spin_inv (mk_spin_sys l c n pcs) → pcs !! t = Some pc → in_section pc' = in_section pc →
  s_locked l' = s_locked l → c' = n' →
  (∀ u v, <[t := pc']> pcs !! u = Some (SLoaded v) → v = c') →
  spin_inv (mk_spin_sys l' c' n' (<[t := pc']> pcs)).
Proof.
  intros [Hb Hh Hf Ho Hc Hl] Ht Hs Hk Hc' Hl'. simpl in *.
  assert (∀ u q, <[t := pc']> pcs !! u = Some q → ∃ q0, pcs !! u = Some q0 ∧ in_section q = in_section q0) as Hq.
  { intros u q [[-> ->]|[? ?]]%insert_cases; [by exists pc|by exists q]. }
  constructor; simpl; rewrite ?Hk; try done.
  - intros u q (q0 & Hu & ->)%Hq. by apply (Hh u q0).
  - intros Hlk. destruct (Hf Hlk) as (u & q & Hu & Hin). destruct (decide (u = t)) as [->|Hne].
    + exists t, pc'. rewrite list_lookup_insert_eq by (by eapply lookup_lt_Some). split; congruence.
    + exists u, q. by rewrite list_lookup_insert_ne.
  - intros u u' q q' (q0 & Hu & ->)%Hq (q0' & Hu' & ->)%Hq. by apply (Ho u u' q0 q0').
Qed.

Lemma spin_loaded_keep (pcs : list spin_pc) t pc' c :
  (∀ u v, pcs !! u = Some (SLoaded v) → v = c) → (∀ v, pc' = SLoaded v → v = c) →
  ∀ u v, <[t := pc']> pcs !! u = Some (SLoaded v) → v = c.
Proof. intros H H' u v [[_ Hq]|[_ Hq]]%insert_cases; [by apply H'|by eapply H]. Qed.

Lemma spin_step_inv s s' : spin_inv s → spin_step s s' → spin_inv s'.
Proof.
  intros H Hstep. destruct Hstep as [l c n pcs t pc l' c' n' pc' Ht Hstep].
  pose proof H as [Hb Hh Hf Ho Hc Hl]. simpl in *. pose proof (lookup_lt_Some _ _ _ Ht) as Hlt.
  inversion Hstep; subst; clear Hstep;
    try (eapply spin_inv_keep; [exact H|exact Ht|done|done|lia|];
         apply spin_loaded_keep; [exact Hl|intros; congruence]).
  - (* take *)
    match goal with E : mcs_spin_try_lock _ = _ |- _ => injection E as Hz <- end.
    apply Z.eqb_eq in Hz.
    assert (∀ u q, u ≠ t → pcs !! u = Some q → in_section q = false) as Hnone.
    { intros u q _ Hu. destruct (in_section q) eqn:Hq; [|done].
      rewrite (Hh u q Hu Hq) in Hz. done. }
    constructor; simpl; try done; [by right|..].
    + intros _. exists t, SCrit. by rewrite list_lookup_insert_eq.
    + intros u u' q q' [[-> _]|[Hu Hq]]%insert_cases [[-> _]|[Hu' Hq']]%insert_cases Hi Hi'; try done.
      * by rewrite (Hnone _ _ Hu' Hq') in Hi'.
      * by rewrite (Hnone _ _ Hu Hq) in Hi.
      * by eapply Ho.
    + apply spin_loaded_keep; [exact Hl|done].
  - (* miss *)
    match goal with E : mcs_spin_try_lock _ = _ |- _ => injection E as Hz <- end.
    apply Z.eqb_neq in Hz.
    eapply spin_inv_keep; [exact H|exact Ht|done|simpl; lia|lia|].
    apply spin_loaded_keep; [exact Hl|done].
  - (* store *)
    rewrite (Hl t v Ht). eapply spin_inv_keep; [exact H|exact Ht|done|done|lia|].
    intros u w [[_ Hq]|[Hu Hq]]%insert_cases; [done|].
    destruct Hu. by apply (Ho u t _ _ Hq Ht).
  - (* unlock *)
    match goal with E : mcs_spin_unlock _ = _ |- _ => injection E as <- end.
    assert (∀ u q, <[t := SIdle]> pcs !! u = Some q → in_section q = false) as Hnone.
    { intros u q [[_ ->]|[Hu Hq]]%insert_cases; [done|]. destruct (in_section q) eqn:Hi; [|done].
      destruct Hu. by apply (Ho u t q SDone). }
    constructor; simpl; try done; [by left|..].
    + intros u q Hu Hi. by rewrite (Hnone u q Hu) in Hi.
    + intros u u' q q' Hu _ Hi. by rewrite (Hnone u q Hu) in Hi.
    + apply spin_loaded_keep; [exact Hl|done].
Qed.

Lemma spin_reach_inv c n k s : rtc spin_step (spin_initial c n k) s → spin_inv s.
Proof.
  intros Hr. pose proof (spin_initial_inv c n k) as Hi. revert Hi.
  induction Hr as [s|s1 s2 s3 Hs _ IH]; intros Hi; [done|]. apply IH. by eapply spin_step_inv.
Qed.

(** From a free lock a waiting thread gets in by its own steps. *)
Lemma spin_enter l c n pcs t pc :
  s_locked l = 0 → pcs !! t = Some pc → pc = STry ∨ pc = SWait →
  ∃ s', rtc spin_step (mk_spin_sys l c n pcs) s' ∧ sp_pcs s' !! t = Some SCrit.
Proof.
  intros Hz Ht Hpc. pose proof (lookup_lt_Some _ _ _ Ht) as Hlt.
  assert (∀ qs, qs !! t = Some STry → (t < length qs)%nat →
    ∃ s', rtc spin_step (mk_spin_sys l c n qs) s' ∧ sp_pcs s' !! t = Some SCrit) as Htry.
  { intros qs Hq Hq'. exists (mk_spin_sys (set_locked l 1) c n (<[t := SCrit]> qs)). split.
    - apply rtc_once. econstructor; [exact Hq|]. apply SpinTake. simpl. by rewrite Hz.
    - simpl. by rewrite list_lookup_insert_eq. }
  destruct Hpc as [->| ->]; [by apply Htry|].
  destruct (Htry (<[t := STry]> pcs)) as (s' & Hr & Hs'); [by apply list_lookup_insert_eq|by rewrite length_insert|].
  exists s'. split; [|done]. eapply rtc_l; [|exact Hr].
  econstructor; [exact Ht|]. apply SpinRetry. simpl. by rewrite Hz.
Qed.

(** The holder gives the lock back by its own steps. *)
Lemma spin_leave l c n pcs t pc :
  pcs !! t = Some pc → in_section pc = true →
  ∃ l' c' n' pcs', rtc spin_step (mk_spin_sys l c n pcs) (mk_spin_sys l' c' n' pcs') ∧
    s_locked l' = 0 ∧ (∀ u, u ≠ t → pcs' !! u = pcs !! u).
Proof.
  intros Ht Hin. pose proof (lookup_lt_Some _ _ _ Ht) as Hlt.
  assert (∀ c n qs, qs !! t = Some SDone →
    ∃ l' c' n' qs', rtc spin_step (mk_spin_sys l c n qs) (mk_spin_sys l' c' n' qs') ∧
      s_locked l' = 0 ∧ (∀ u, u ≠ t → qs' !! u = qs !! u)) as Hdone.
  { intros c0 n0 qs Hq. eexists (set_locked l 0), c0, n0, (<[t := SIdle]> qs). split.
    - apply rtc_once. econstructor; [exact Hq|]. by apply SpinUnlock.
    - split; [done|]. intros u Hu. by apply list_lookup_insert_ne. }
  assert (∀ v qs, qs !! t = Some (SLoaded v) →
    ∃ l' c' n' qs', rtc spin_step (mk_spin_sys l c n qs) (mk_spin_sys l' c' n' qs') ∧
      s_locked l' = 0 ∧ (∀ u, u ≠ t → qs' !! u = qs !! u)) as Hload.
  { intros v qs Hq. pose proof (lookup_lt_Some _ _ _ Hq) as Hl.
    destruct (Hdone (v + 1) (n + 1) (<[t := SDone]> qs)) as (l' & c' & n' & qs' & Hr & Hz & Hu);
      [by apply list_lookup_insert_eq|].
    exists l', c', n', qs'. split; [|split; [done|]].
    - eapply rtc_l; [|exact Hr]. econstructor; [exact Hq|]. apply SpinStore.
    - intros u Hne. rewrite Hu by done. by apply list_lookup_insert_ne. }
  destruct pc as [| | | |v|]; try done; [|by eapply Hload|by apply Hdone].
  destruct (Hload c (<[t := SLoaded c]> pcs)) as (l' & c' & n' & qs' & Hr & Hz & Hu);
    [by apply list_lookup_insert_eq|].
  exists l', c', n', qs'. split; [|split; [done|]].
  - eapply rtc_l; [|exact Hr]. econstructor; [exact Ht|]. apply SpinLoad.
  - intros u Hne. rewrite Hu by done. by apply list_lookup_insert_ne.
Qed.

(** ** Claims about the spinlock *)

(** C17: the spinlock excludes.  In every state any number of threads reach by
    interleaving the atomic accesses of [mcs_spin_lock] and [mcs_spin_unlock], at
    most one is inside its critical section, the lock word is set exactly when
    one is, and the counter they increment without atomics inside it equals the
    number of increments done. *)
Theorem spin_mutual_exclusion class_id name threads s :
  rtc spin_step (spin_initial class_id name threads) s →
  (∀ t t' pc pc', sp_pcs s !! t = Some pc → sp_pcs s !! t' = Some pc' →
     in_section pc = true → in_section pc' = true → t = t') ∧
  (mcs_spin_is_locked (Some (sp_lock s)) = true ↔
     ∃ t pc, sp_pcs s !! t = Some pc ∧ in_section pc = true) ∧
  sp_counter s = sp_done s.
Proof.
  intros [Hb Hh Hf Ho Hc Hl]%spin_reach_inv. split; [exact Ho|]. split; [|done].
  simpl. rewrite negb_true_iff, Z.eqb_neq. split.
  - intros Hne. apply Hf. lia.
  - intros (t & pc & Ht & Hi). rewrite (Hh t pc Ht Hi). lia.
Qed.

(** C31: the spinlock does not block for ever.  From every reachable state in which
    a thread waits for the lock, some continuation (the holder leaves, then the
    waiter tries) brings that thread into its critical section. *)
Theorem spin_progress class_id name threads s t pc :
  rtc spin_step (spin_initial class_id name threads) s →
  sp_pcs s !! t = Some pc → pc = STry ∨ pc = SWait →
  ∃ s', rtc spin_step s s' ∧ sp_pcs s' !! t = Some SCrit.
Proof.
  intros [Hb Hh Hf Ho Hc Hl]%spin_reach_inv Ht Hpc. destruct s as [l c n pcs]. simpl in *.
  destruct Hb as [Hz|Hz]; [by eapply spin_enter|].
  destruct (Hf Hz) as (u & q & Hu & Hq).
  destruct (spin_leave l c n pcs u q Hu Hq) as (l' & c' & n' & pcs' & Hr & Hz' & Hsame).
  destruct (spin_enter l' c' n' pcs' t pc Hz') as (s' & Hr' & Hs'); [|done|].
  { rewrite Hsame; [done|]. intros ->. rewrite Ht in Hu. injection Hu as ->. by destruct Hpc as [->| ->]. }
  exists s'. split; [by etransitivity|done].
Qed.

Definition demo_spin : spin_sys :=
  mk_spin_sys (mk_spin 1 100 None) 0 0 [SCrit; STry].

Lemma demo_spin_reach : rtc spin_step (spin_initial 100 None 2) demo_spin.
Proof.
  eapply rtc_l; [apply (SpinStep _ _ _ _ 0 SIdle); [reflexivity|apply SpinCall]|].
  eapply rtc_l; [apply (SpinStep _ _ _ _ 0 STry); [reflexivity|apply SpinTake; reflexivity]|].
  eapply rtc_l; [apply (SpinStep _ _ _ _ 1 SIdle); [reflexivity|apply SpinCall]|].
  apply rtc_refl.
Qed.

Lemma spin_mutual_exclusion_witness :
  (∀ t t' pc pc', sp_pcs demo_spin !! t = Some pc → sp_pcs demo_spin !! t' = Some pc' →
     in_section pc = true → in_section pc' = true → t = t') ∧
  (mcs_spin_is_locked (Some (sp_lock demo_spin)) = true ↔
     ∃ t pc, sp_pcs demo_spin !! t = Some pc ∧ in_section pc = true) ∧
  sp_counter demo_spin = sp_done demo_spin.
Proof. apply (spin_mutual_exclusion 100 None 2 demo_spin). apply demo_spin_reach. Defined.

Lemma spin_progress_witness :
  ∃ s', rtc spin_step demo_spin s' ∧ sp_pcs s' !! 1%nat = Some SCrit.
Proof.
  apply (spin_progress 100 None 2 demo_spin 1%nat STry);
    [apply demo_spin_reach|reflexivity|by left].
Defined.

(** ** Mutex: ownership *)

Record mutex_inv (s : mutex_sys) : Prop := {
  mi_bool : m_locked (mx_mutex s) = 0 ∨ m_locked (mx_mutex s) = 1;
  mi_held : ∀ t pc, mx_pcs s !! t = Some pc → holds pc = true → m_locked (mx_mutex s) = 1;
  mi_free : m_locked (mx_mutex s) = 1 → ∃ t pc, mx_pcs s !! t = Some pc ∧ holds pc = true;
  mi_one : ∀ t t' pc pc', mx_pcs s !! t = Some pc → mx_pcs s !! t' = Some pc' →
    holds pc = true → holds pc' = true → t = t';
  mi_owner : ∀ t pc, mx_pcs s !! t = Some pc → m_owner (mx_mutex s) = owner_of t ↔ owns pc = true
}.

Lemma mutex_initial_inv c n k : mutex_inv (mutex_initial c n k).
Proof.
  assert (∀ t pc, replicate k (MReady false) !! t = Some pc → pc = MReady false) as H.
  { intros t pc [Ht _]%lookup_replicate. done. }
  constructor; simpl; try done.
  - by left.
  - intros t pc ->%H. done.
  - intros t t' pc pc' ->%H. done.
  - intros t pc ->%H. unfold owner_of. simpl. split; [lia|done].
Qed.

(** A step that keeps [locked], [owner] and what the thread holds. *)
Lemma mutex_inv_keep m pcs t pc pc' :
  mutex_inv (mk_mutex_sys m pcs) → pcs !! t = Some pc → holds pc' = holds pc → owns pc' = owns pc →
  mutex_inv (mk_mutex_sys m (<[t := pc']> pcs)).
Proof.
  intros [Hb Hh Hf Ho Hw] Ht Hs Hk. simpl in *.
  assert (∀ u q, <[t := pc']> pcs !! u = Some q →
    ∃ q0, pcs !! u = Some q0 ∧ holds q = holds q0 ∧ owns q = owns q0) as Hq.
  { intros u q [[-> ->]|[? ?]]%insert_cases; [by exists pc|by exists q]. }
  constructor; simpl; try done.
  - intros u q (q0 & Hu & -> & _)%Hq. by apply (Hh u q0).
  - intros Hlk. destruct (Hf Hlk) as (u & q & Hu & Hin). destruct (decide (u = t)) as [->|Hne].
    + exists t, pc'. rewrite list_lookup_insert_eq by (by eapply lookup_lt_Some). split; congruence.
    + exists u, q. by rewrite list_lookup_insert_ne.
  - intros u u' q q' (q0 & Hu & -> & _)%Hq (q0' & Hu' & -> & _)%Hq. by apply (Ho u u' q0 q0').
  - intros u q (q0 & Hu & _ & ->)%Hq. by apply Hw.
Qed.

(** Holding does not move, the owner field changes for thread [t] only. *)
Lemma mutex_inv_owner m pcs t pc pc' v :
  mutex_inv (mk_mutex_sys m pcs) → pcs !! t = Some pc → holds pc = true → holds pc' = true →
  v = (if owns pc' then owner_of t else 0) →
  mutex_inv (mk_mutex_sys (set_m_owner m v) (<[t := pc']> pcs)).
Proof.
  intros [Hb Hh Hf Ho Hw] Ht Hs Hs' Hv. simpl in *. constructor; simpl; try done.
  - intros u q _ _. by apply (Hh t pc).
  - intros _. exists t, pc'. rewrite list_lookup_insert_eq by (by eapply lookup_lt_Some). done.
  - intros u u' q q' [[-> _]|[Hu Hq]]%insert_cases [[-> _]|[Hu' Hq']]%insert_cases Hi Hi'; try done.
    + by apply (Ho t u' pc q').
    + by apply (Ho u t q pc).
    + by apply (Ho u u' q q').
  - intros u q [[-> ->]|[Hu Hq]]%insert_cases.
    + rewrite Hv. destruct (owns pc'); unfold owner_of; split; (done || lia).
    + assert (owns q = false) as ->.
      { destruct (owns q) eqn:Hoq; [|done]. destruct Hu. apply (Ho u t q pc Hq Ht); [|done].
        destruct q; try done. }
      split; [|done]. intros Heq. rewrite Hv in Heq. destruct (owns pc'); unfold owner_of in Heq; lia.
Qed.

Lemma mutex_step_inv s e s' : mutex_inv s → mutex_step s e s' → mutex_inv s'.
Proof.
  intros H Hstep. destruct Hstep as [m pcs t pc r m' pc' Ht Hstep].
  pose proof H as [Hb Hh Hf Ho Hw]. simpl in *. pose proof (lookup_lt_Some _ _ _ Ht) as Hlt.
  inversion Hstep; subst; clear Hstep;
    try (eapply mutex_inv_keep; [exact H|exact Ht|done|done]).
  - (* compare-exchange *)
    assert (∀ u q, pcs !! u = Some q → holds q = false) as Hnone.
    { intros u q Hu. destruct (holds q) eqn:Hq; [|done]. rewrite (Hh u q Hu Hq) in *. done. }
    assert (h = false) as -> by apply (Hnone t _ Ht).
    constructor; simpl; try done; [by right|..].
    + intros _. exists t, MTryStore. by rewrite list_lookup_insert_eq.
    + intros u u' q q' [[-> _]|[Hu Hq]]%insert_cases [[-> _]|[Hu' Hq']]%insert_cases Hi Hi'; try done.
      * by rewrite (Hnone _ _ Hq') in Hi'.
      * by rewrite (Hnone _ _ Hq) in Hi.
      * by rewrite (Hnone _ _ Hq) in Hi.
    + intros u q [[-> ->]|[Hu Hq]]%insert_cases; [|by apply Hw].
      rewrite (Hw t _ Ht). done.
  - (* store owner *)
    by eapply mutex_inv_owner.
  - (* unlock by the owner *)
    assert (h = true) as -> by (by apply (Hw t _ Ht)).
    eapply mutex_inv_keep; [exact H|exact Ht|done|done].
  - (* clear owner *)
    by eapply mutex_inv_owner.
  - (* free *)
    assert (∀ u q, <[t := MReady false]> pcs !! u = Some q → holds q = false) as Hnone.
    { intros u q [[_ ->]|[Hu Hq]]%insert_cases; [done|]. destruct (holds q) eqn:Hi; [|done].
      destruct Hu. by apply (Ho u t q MUnlLocked). }
    constructor; simpl; try done; [by left|..].
    + intros u q Hu Hi. by rewrite (Hnone u q Hu) in Hi.
    + intros u u' q q' Hu _ Hi. by rewrite (Hnone u q Hu) in Hi.
    + intros u q [[-> ->]|[Hu Hq]]%insert_cases; [|by apply Hw]. rewrite (Hw t _ Ht). done.
Qed.

Lemma mutex_reach_inv c n k s : mutex_reach c n k s → mutex_inv s.
Proof.
  induction 1 as [|s e s' _ IH Hs]; [apply mutex_initial_inv|by eapply mutex_step_inv].
Qed.

(** A whole call of one thread, alone from [pc] on. *)
Inductive mutex_call (o : Z) : mutex_pc → mcs_mutex → Z → mutex_pc → mcs_mutex → Prop :=
| MCallEnd pc m r pc' m' :
    mutex_thread_step o pc m (Some r) pc' m' → mutex_call o pc m r pc' m'
| MCallStep pc m pc1 m1 r pc' m' :
    mutex_thread_step o pc m None pc1 m1 → mutex_call o pc1 m1 r pc' m' →
    mutex_call o pc m r pc' m'.

(** ** Claims about the mutex *)

(** C10: the mutex excludes and knows its owner.  In every state any number of
    threads with distinct ids reach by interleaving the atomic accesses of
    [mcs_mutex_try_lock] and [mcs_mutex_unlock] in any order of calls, at most one
    thread holds the mutex, and the compare-exchange of a [mcs_mutex_try_lock]
    succeeds only while no thread holds it. The last step of a call fixes its
    code: an unlock returns [MCS_SYNC_OK] when its thread holds the mutex and
    [MCS_SYNC_EPERM] when it does not; a lock whose compare-exchange failed
    returns [MCS_SYNC_EDEADLK] when its own thread holds the mutex and
    [MCS_SYNC_EBUSY] when it does not; a lock whose compare-exchange succeeded
    returns [MCS_SYNC_OK]. So a call ends with "busy" or "not permitted" exactly
    when its thread does not hold the mutex at that step. *)
Theorem mutex_exclusive class_id name threads s :
  mutex_reach class_id name threads s →
  (∀ t t' pc pc', mx_pcs s !! t = Some pc → mx_pcs s !! t' = Some pc' →
     holds pc = true → holds pc' = true → t = t') ∧
  (∀ t h s' t' pc', mutex_step s (t, None) s' → mx_pcs s !! t = Some (MTryCas h) →
     mx_pcs s' !! t = Some MTryStore → mx_pcs s !! t' = Some pc' → holds pc' = false) ∧
  (∀ t r s' pc, mutex_step s (t, Some r) s' → mx_pcs s !! t = Some pc →
     ((r = MCS_SYNC_EBUSY ∨ r = MCS_SYNC_EPERM) ↔ holds pc = false) ∧
     match pc with
     | MTryLoad h => r = if h then MCS_SYNC_EDEADLK else MCS_SYNC_EBUSY
     | MUnlLoad h => h = false ∧ r = MCS_SYNC_EPERM
     | MTryStore | MUnlLocked => r = MCS_SYNC_OK
     | MReady _ | MTryCas _ | MUnlOwner => False
     end).
Proof.
  intros [Hb Hh Hf Ho Hw]%mutex_reach_inv. split; [exact Ho|]. split.
  - intros t h s' t' pc' Hstep Hpc Hpc' Ht'. inversion Hstep as [m pcs ? pc0 ? m' pc1 Ht Hth]; subst. cbn [mx_pcs] in *.
    rewrite list_lookup_insert_eq in Hpc' by (by eapply lookup_lt_Some).
    assert (pc0 = MTryCas h) as -> by congruence. injection Hpc' as ->. inversion Hth; subst.
    destruct (holds pc') eqn:E; [|done]. pose proof (Hh t' pc' Ht' E) as Hl. cbn [mx_mutex] in Hl. congruence.
  - intros t r s' pc Hstep Hpc. inversion Hstep as [m pcs ? pc0 ? m' pc' Ht Hth]; subst.
    simpl in *. assert (pc0 = pc) as -> by congruence. specialize (Hw t pc Ht).
    inversion Hth; subst; simpl in *; unfold MCS_SYNC_EBUSY, MCS_SYNC_EPERM, MCS_SYNC_EDEADLK, MCS_SYNC_OK;
      try (destruct h; naive_solver); naive_solver.
Qed.

(** The step model is the code.  A call that runs without interference
    returns the value and leaves the mutex that [mcs_mutex_try_lock] and
    [mcs_mutex_unlock] return. *)
Theorem mutex_calls_alone o h m r m' :
  o ≠ 0 →
  (mcs_mutex_try_lock (Some m) o = (r, Some m') → ∃ pc', mutex_call o (MReady h) m r pc' m') ∧
  (mcs_mutex_unlock (Some m) o = (r, Some m') → ∃ pc', mutex_call o (MReady h) m r pc' m').
Proof.
  intros Ho. unfold mcs_mutex_try_lock, mcs_mutex_unlock. rewrite (proj2 (Z.eqb_neq o 0) Ho). split.
  - destruct (Z.eqb_spec (m_locked m) 0) as [Hz|Hz]; simpl.
    + intros [= <- <-]. eexists. eapply MCallStep; [apply MutexCallTry|].
      eapply MCallStep; [by apply MutexCasOk|]. apply MCallEnd, MutexTaken.
    + destruct (Z.eqb_spec (m_owner m) o); intros [= <- <-]; eexists;
        (eapply MCallStep; [apply MutexCallTry|]; eapply MCallStep; [by apply MutexCasFail|];
         apply MCallEnd); [by apply MutexSelf|by apply MutexBusy].
  - destruct (Z.eqb_spec (m_owner m) o); simpl; intros [= <- <-]; eexists;
      (eapply MCallStep; [apply MutexCallUnlock|]).
    + eapply MCallStep; [by apply MutexOwner|]. eapply MCallStep; [apply MutexClear|].
      apply MCallEnd, MutexFree.
    + by apply MCallEnd, MutexNotOwner.
Qed.

Definition demo_mutex : mutex_sys :=
  mk_mutex_sys (mk_mutex 1 1 200 None) [MReady true; MTryLoad false].

Lemma mutex_reach_one c n k m pcs t pc r m' pc' pcs' :
  mutex_reach c n k (mk_mutex_sys m pcs) → pcs !! t = Some pc →
  mutex_thread_step (owner_of t) pc m r pc' m' → pcs' = <[t := pc']> pcs →
  mutex_reach c n k (mk_mutex_sys m' pcs').
Proof. intros Hr Ht Hs ->. eapply MReachStep; [exact Hr|]. by econstructor. Qed.

Lemma demo_mutex_reach : mutex_reach 200 None 2 demo_mutex.
Proof.
  assert (mutex_reach 200 None 2 (mk_mutex_sys (mk_mutex 0 0 200 None) [MReady false; MReady false])) as H0
    by apply MReachInit.
  eapply (mutex_reach_one _ _ _ _ _ 0) in H0; [|reflexivity|apply MutexCallTry|reflexivity].
  eapply (mutex_reach_one _ _ _ _ _ 0) in H0; [|reflexivity|by apply MutexCasOk|reflexivity].
  eapply (mutex_reach_one _ _ _ _ _ 0) in H0; [|reflexivity|apply MutexTaken|reflexivity].
  eapply (mutex_reach_one _ _ _ _ _ 1) in H0; [|reflexivity|apply MutexCallTry|reflexivity].
  eapply (mutex_reach_one _ _ _ _ _ 1) in H0; [exact H0|reflexivity|by apply MutexCasFail|reflexivity].
Qed.

Lemma mutex_exclusive_witness :
  (∀ t t' pc pc', mx_pcs demo_mutex !! t = Some pc → mx_pcs demo_mutex !! t' = Some pc' →
     holds pc = true → holds pc' = true → t = t') ∧
  (∀ t r s' pc, mutex_step demo_mutex (t, Some r) s' → mx_pcs demo_mutex !! t = Some pc →
     ((r = MCS_SYNC_EBUSY ∨ r = MCS_SYNC_EPERM) ↔ holds pc = false)).
Proof.
  destruct (mutex_exclusive 200 None 2 demo_mutex demo_mutex_reach) as (Hone & _ & Hend). split; [exact Hone|].
  intros t r s' pc Hs Hpc. by destruct (Hend t r s' pc Hs Hpc).
Defined.

Lemma mutex_calls_alone_witness :
  ∃ pc', mutex_call 5 (MReady false) (mk_mutex 0 0 200 None) MCS_SYNC_OK pc' (mk_mutex 1 5 200 None).
Proof.
  destruct (mutex_calls_alone 5 false (mk_mutex 0 0 200 None) MCS_SYNC_OK (mk_mutex 1 5 200 None)
    ltac:(lia)) as [Htry _].
  apply Htry. reflexivity.
Defined.
