(* ===== verification/Vmm.v ===== *)
(** * Virtual memory manager: four-level page tables
      (src/vmm.c, include/vmm.h; allocator callbacks of kernel/core/kmain.c)

    Physical memory maps the address of a frame to its 512 entries; a pointer to
    a table is the frame's physical address.  The frame allocator is an
    interface, which the physical memory manager discharges. *)

From Stdlib Require Import ZArith Lia.
From stdpp Require Import base list numbers option gmap.
From S2P Require Import Prelude Pmm.

Local Open Scope Z_scope.
Local Open Scope cm_scope.

Definition VMM_PAGE_SIZE : Z := 4096.
Definition VMM_ENTRIES_PER_TABLE : Z := 512.
Definition VMM_INVALID_PHYS : Z := UINT64_MAX.
Definition VMM_PTE_PRESENT : Z := Z.shiftl 1 0.
Definition VMM_PTE_WRITABLE : Z := Z.shiftl 1 1.
Definition VMM_PTE_USER : Z := Z.shiftl 1 2.
Definition VMM_PTE_WRITE_THROUGH : Z := Z.shiftl 1 3.
Definition VMM_PTE_CACHE_DISABLE : Z := Z.shiftl 1 4.
Definition VMM_PTE_HUGE : Z := Z.shiftl 1 7.
Definition VMM_PTE_GLOBAL : Z := Z.shiftl 1 8.
Definition VMM_PTE_NO_EXECUTE : Z := Z.shiftl 1 63.
Definition VMM_PTE_ADDR_MASK : Z := 0x000FFFFFFFFFF000.
Definition VMM_ERR_INVAL : Z := -1.
Definition VMM_ERR_NOMEM : Z := -2.
Definition VMM_ERR_EXISTS : Z := -3.
Definition VMM_ERR_NOT_FOUND : Z := -4.

Definition vmm_is_aligned_4k (value : Z) : bool := Z.land value (VMM_PAGE_SIZE - 1) =? 0.

Definition vmm_is_canonical (vaddr : Z) : bool :=
  let sign := Z.land (Z.shiftr vaddr 47) 1 in
  let upper := Z.shiftr vaddr 48 in
  if negb (sign =? 0) then upper =? 0xFFFF else upper =? 0.

Definition idx_pml4 (vaddr : Z) : Z := Z.land (Z.shiftr vaddr 39) 0x1FF.
Definition idx_pdpt (vaddr : Z) : Z := Z.land (Z.shiftr vaddr 30) 0x1FF.
Definition idx_pd (vaddr : Z) : Z := Z.land (Z.shiftr vaddr 21) 0x1FF.
Definition idx_pt (vaddr : Z) : Z := Z.land (Z.shiftr vaddr 12) 0x1FF.

Section vmm.
Context {C : Type}.

(** [struct vmm_space]; [phys_to_virt] tells whether the frame has a virtual
    address (a NULL result otherwise), the context is part of the machine. *)
Record vmm_space := mk_space {
  root_paddr : Z;
  alloc_frame : ptr (C → Z * C);
  free_frame : ptr (C → Z → C);
  phys_to_virt : ptr (Z → bool)
}.

Record vmm_mapping := mk_mapping {
  map_vaddr : Z;
  map_paddr : Z;
  map_flags : Z
}.

(** Memory, the allocator's context and the pages invalidated in the TLB. *)
Record machine := mk_machine {
  v_mem : gmap Z (list Z);
  v_ctx : C;
  v_invlpg : list Z
}.

Implicit Types space : ptr vmm_space.

Definition read_entry (t i : Z) : M machine Z :=
  let* s := deref in
  match v_mem s !! t ≫= (λ tab, tab !! Z.to_nat i) with Some e => ret e | None => ub end.

Definition write_entry (t i e : Z) : M machine unit :=
  let* s := deref in
  match v_mem s !! t with
  | Some tab =>
      if decide (Z.to_nat i < length tab)%nat
      then store (mk_machine (<[t := <[Z.to_nat i := e]> tab]> (v_mem s)) (v_ctx s) (v_invlpg s))
      else ub
  | None => ub
  end.

Definition vmm_zero_page (t : Z) : M machine unit :=
  let* s := deref in
  match v_mem s !! t with
  | Some _ =>
      store (mk_machine (<[t := replicate (Z.to_nat VMM_ENTRIES_PER_TABLE) 0]> (v_mem s))
               (v_ctx s) (v_invlpg s))
  | None => ub
  end.

(** The result is the table's pointer, [None] for NULL. *)
Definition table_from_phys space (paddr : Z) : option Z :=
  match space with
  | None => None
  | Some sp =>
      match phys_to_virt sp with
      | None => None
      | Some f => if negb (vmm_is_aligned_4k paddr) then None
                  else if f paddr then Some paddr else None
      end
  end.

Definition or_inval (t : option Z) : M machine Z :=
  match t with Some t => ret t | None => fail VMM_ERR_INVAL end.

(** Calls through the function pointers. *)
Definition call_alloc (f : C → Z * C) : M machine Z :=
  let* s := deref in
  let '(a, c) := f (v_ctx s) in
  store (mk_machine (v_mem s) c (v_invlpg s)) ;; ret a.

Definition call_free (f : C → Z → C) (a : Z) : M machine unit :=
  let* s := deref in
  store (mk_machine (v_mem s) (f (v_ctx s) a) (v_invlpg s)).

Definition get_or_alloc_next_table (sp : vmm_space) (table index : Z) : M machine Z :=
  let* entry := read_entry table index in
  if negb (Z.land entry VMM_PTE_PRESENT =? 0) then
    fail_if (negb (Z.land entry VMM_PTE_HUGE =? 0)) VMM_ERR_EXISTS ;;
    or_inval (table_from_phys (Some sp) (Z.land entry VMM_PTE_ADDR_MASK))
  else
    match alloc_frame sp with
    | None => fail VMM_ERR_NOMEM
    | Some f =>
        let* new_paddr := call_alloc f in
        fail_if ((new_paddr =? VMM_INVALID_PHYS) || negb (vmm_is_aligned_4k new_paddr)) VMM_ERR_NOMEM ;;
        match table_from_phys (Some sp) new_paddr with
        | None =>
            match free_frame sp with
            | Some g => call_free g new_paddr ;; fail VMM_ERR_INVAL
            | None => fail VMM_ERR_INVAL
            end
        | Some new_table =>
            vmm_zero_page new_table ;;
            write_entry table index
              (Z.lor (Z.lor (Z.land new_paddr VMM_PTE_ADDR_MASK) VMM_PTE_PRESENT) VMM_PTE_WRITABLE) ;;
            ret new_table
        end
    end.

Definition vmm_space_init space (root : Z) (alloc : ptr (C → Z * C)) (free : ptr (C → Z → C))
    (p2v : ptr (Z → bool)) : res vmm_space :=
  match space, p2v with
  | Some _, Some _ =>
      if negb (vmm_is_aligned_4k root) then Err VMM_ERR_INVAL
      else Ok (mk_space root alloc free p2v)
  | _, _ => Err VMM_ERR_INVAL
  end.

Definition allowed_flags : Z :=
  Z.lor (Z.lor (Z.lor (Z.lor (Z.lor VMM_PTE_WRITABLE VMM_PTE_USER) VMM_PTE_WRITE_THROUGH)
    VMM_PTE_CACHE_DISABLE) VMM_PTE_GLOBAL) VMM_PTE_NO_EXECUTE.

Definition leaf_entry (paddr flags : Z) : Z :=
  Z.lor (Z.lor (Z.land paddr VMM_PTE_ADDR_MASK) VMM_PTE_PRESENT) (Z.land flags allowed_flags).

Definition vmm_map_page space (vaddr paddr flags : Z) : M machine unit :=
  match space with
  | None => fail VMM_ERR_INVAL
  | Some sp =>
      fail_if (negb (vmm_is_canonical vaddr) || negb (vmm_is_aligned_4k vaddr)
        || negb (vmm_is_aligned_4k paddr)) VMM_ERR_INVAL ;;
      let* pml4 := or_inval (table_from_phys space (root_paddr sp)) in
      let* pdpt := get_or_alloc_next_table sp pml4 (idx_pml4 vaddr) in
      let* pd := get_or_alloc_next_table sp pdpt (idx_pdpt vaddr) in
      let* pt := get_or_alloc_next_table sp pd (idx_pd vaddr) in
      let* e := read_entry pt (idx_pt vaddr) in
      fail_if (negb (Z.land e VMM_PTE_PRESENT =? 0)) VMM_ERR_EXISTS ;;
      write_entry pt (idx_pt vaddr) (leaf_entry paddr flags)
  end.

(** One level of the walk of query and unmap. *)
Definition walk_level (sp : vmm_space) (table index : Z) : M machine Z :=
  let* e := read_entry table index in
  fail_if ((Z.land e VMM_PTE_PRESENT =? 0) || negb (Z.land e VMM_PTE_HUGE =? 0)) VMM_ERR_NOT_FOUND ;;
  or_inval (table_from_phys (Some sp) (Z.land e VMM_PTE_ADDR_MASK)).

Definition walk_to_pt (sp : vmm_space) (vaddr : Z) : M machine Z :=
  let* pml4 := or_inval (table_from_phys (Some sp) (root_paddr sp)) in
  let* pdpt := walk_level sp pml4 (idx_pml4 vaddr) in
  let* pd := walk_level sp pdpt (idx_pdpt vaddr) in
  walk_level sp pd (idx_pd vaddr).

Definition vmm_query_page space (vaddr : Z) (out : ptr vmm_mapping) : M machine vmm_mapping :=
  match space, out with
  | Some sp, Some _ =>
      fail_if (negb (vmm_is_canonical vaddr) || negb (vmm_is_aligned_4k vaddr)) VMM_ERR_INVAL ;;
      let* pt := walk_to_pt sp vaddr in
      let* e := read_entry pt (idx_pt vaddr) in
      fail_if (Z.land e VMM_PTE_PRESENT =? 0) VMM_ERR_NOT_FOUND ;;
      ret (mk_mapping vaddr (Z.land e VMM_PTE_ADDR_MASK) (Z.land e (wnot 64 VMM_PTE_ADDR_MASK)))
  | _, _ => fail VMM_ERR_INVAL
  end.

Definition vmm_invalidate_page (vaddr : Z) : M machine unit :=
  let* s := deref in store (mk_machine (v_mem s) (v_ctx s) (v_invlpg s ++ [vaddr])).

Definition vmm_unmap_page space (vaddr : Z) : M machine unit :=
  match space with
  | None => fail VMM_ERR_INVAL
  | Some sp =>
      fail_if (negb (vmm_is_canonical vaddr) || negb (vmm_is_aligned_4k vaddr)) VMM_ERR_INVAL ;;
      let* pt := walk_to_pt sp vaddr in
      let* e := read_entry pt (idx_pt vaddr) in
      fail_if (Z.land e VMM_PTE_PRESENT =? 0) VMM_ERR_NOT_FOUND ;;
      write_entry pt (idx_pt vaddr) 0 ;;
      vmm_invalidate_page vaddr
  end.

End vmm.
Arguments vmm_space : clear implicits.
Arguments machine : clear implicits.
