(* ===== verification/VmmProof.v ===== *)
(** * Virtual memory manager: the page tables implement a finite map

    Tables are named by the path of indices that leads to them from the root.
    While no two paths lead to the same frame and the allocator only hands out
    frames that are not tables, mapping, unmapping and querying pages are the
    operations of a finite map from pages to frames and flags. *)

From Stdlib Require Import ZArith Lia.
From stdpp Require Import base list numbers option gmap.
From S2P Require Import Prelude Pmm Vmm.

Local Open Scope Z_scope.
Local Open Scope cm_scope.

(** ** The allocator interface *)

(** What the page tables need of [alloc_frame]: it returns an aligned available
    frame, which is then no longer available, or [VMM_INVALID_PHYS] when none is
    left. *)
Class FrameAllocator {C : Type} (alloc : C → Z * C) := {
  fa_inv : C → Prop;
  fa_avail : C → Z → Prop;
  fa_count : C → nat;
  fa_alloc c a c' : fa_inv c → alloc c = (a, c') →
    fa_inv c' ∧
    ((a = VMM_INVALID_PHYS ∧ fa_count c = 0%nat ∧ fa_count c' = 0%nat ∧
      ∀ x, fa_avail c' x ↔ fa_avail c x) ∨
     (fa_avail c a ∧ fa_count c = S (fa_count c') ∧ (∀ x, fa_avail c' x ↔ fa_avail c x ∧ x ≠ a)));
  fa_frame c a : fa_inv c → fa_avail c a → 0 <= a < 2 ^ 52 ∧ a mod VMM_PAGE_SIZE = 0
}.

(** ** Entries and walks *)

Definition present (e : Z) : bool := negb (Z.land e VMM_PTE_PRESENT =? 0).
Definition huge (e : Z) : bool := negb (Z.land e VMM_PTE_HUGE =? 0).
Definition addr (e : Z) : Z := Z.land e VMM_PTE_ADDR_MASK.

(** The table an entry points to. *)
Definition next (e : Z) : option Z := if present e && negb (huge e) then Some (addr e) else None.

Definition entry (mem : gmap Z (list Z)) (t i : Z) : option Z :=
  mem !! t ≫= λ tab, tab !! Z.to_nat i.

(** The table reached from [t] by the path [p]. *)
Fixpoint tbl (mem : gmap Z (list Z)) (t : Z) (p : list Z) : option Z :=
  match p with
  | [] => Some t
  | i :: p' =>
      match entry mem t i ≫= next with
      | Some t' => tbl mem t' p'
      | None => None
      end
  end.

Definition path_of (v : Z) : list Z := [idx_pml4 v; idx_pdpt v; idx_pd v].

(** The present leaf entry of the page [v]. *)
Definition leaf (mem : gmap Z (list Z)) (root v : Z) : option Z :=
  match tbl mem root (path_of v) with
  | Some t =>
      match entry mem t (idx_pt v) with
      | Some e => if present e then Some e else None
      | None => None
      end
  | None => None
  end.

(** Paths of table indices. *)
Definition path_ok (p : list Z) : Prop := (length p <= 3)%nat ∧ Forall (λ i, 0 <= i < 512) p.

(** ** Bits of entries *)

Lemma aligned_iff a : vmm_is_aligned_4k a = true ↔ a mod VMM_PAGE_SIZE = 0.
Proof.
  unfold vmm_is_aligned_4k. rewrite Z.eqb_eq. change (VMM_PAGE_SIZE - 1) with (2 ^ 12 - 1).
  by rewrite land_ones_mod.
Qed.

Lemma addr_mask_bits i : 0 <= i → Z.testbit VMM_PTE_ADDR_MASK i = (12 <=? i) && (i <? 52).
Proof.
  intros Hi. change VMM_PTE_ADDR_MASK with (Z.shiftl (Z.ones 40) 12).
  rewrite Z.shiftl_spec by done. destruct (Z.leb_spec 12 i); simpl.
  - rewrite Z.testbit_ones_nonneg by lia. destruct (Z.ltb_spec (i - 12) 40), (Z.ltb_spec i 52); lia || done.
  - by rewrite Z.testbit_neg_r by lia.
Qed.

(** An aligned address below 2^52 survives the mask. *)
Lemma addr_frame a : 0 <= a < 2 ^ 52 → a mod VMM_PAGE_SIZE = 0 → Z.land a VMM_PTE_ADDR_MASK = a.
Proof.
  intros Ha Hm. apply Z.bits_inj'. intros i Hi. rewrite Z.land_spec, addr_mask_bits by done.
  destruct (Z.leb_spec 12 i) as [Hl|Hl]; simpl.
  - destruct (Z.ltb_spec i 52); [by rewrite andb_true_r|]. rewrite andb_false_r. symmetry.
    apply (testbit_small a 52); [by unfold fits|lia].
  - rewrite andb_false_r. symmetry. change VMM_PAGE_SIZE with (2 ^ 12) in Hm.
    rewrite <-(Z.mod_pow2_bits_low a 12 i) by lia. rewrite Hm. apply Z.testbit_0_l.
Qed.

Lemma land_one_bit e k : 0 <= k → negb (Z.land e (Z.shiftl 1 k) =? 0) = Z.testbit e k.
Proof.
  intros Hk. rewrite Z.shiftl_1_l. destruct (Z.testbit e k) eqn:Hb.
  - apply negb_true_iff, Z.eqb_neq. intros Hz.
    assert (Z.testbit (Z.land e (2 ^ k)) k = true) as Ht
      by (rewrite Z.land_spec, Hb, Z.pow2_bits_true by done; done).
    rewrite Hz, Z.testbit_0_l in Ht. done.
  - apply negb_false_iff, Z.eqb_eq. apply Z.bits_inj'. intros i Hi.
    rewrite Z.land_spec, Z.testbit_0_l. destruct (decide (i = k)) as [->|].
    + by rewrite Hb.
    + by rewrite Z.pow2_bits_false, andb_false_r by done.
Qed.

Lemma present_bit e : present e = Z.testbit e 0.
Proof. by apply land_one_bit. Qed.
Lemma huge_bit e : huge e = Z.testbit e 7.
Proof. by apply land_one_bit. Qed.

(** The entry that links a new table. *)
Lemma next_link a :
  0 <= a < 2 ^ 52 → a mod VMM_PAGE_SIZE = 0 →
  let e := Z.lor (Z.lor (Z.land a VMM_PTE_ADDR_MASK) VMM_PTE_PRESENT) VMM_PTE_WRITABLE in
  next e = Some a ∧ huge e = false.
Proof.
  intros Ha Hm e. unfold next.
  assert (∀ i, 0 <= i → Z.testbit e i = Z.testbit a i || (i =? 0) || (i =? 1)) as Hbits.
  { intros i Hi. unfold e, VMM_PTE_PRESENT, VMM_PTE_WRITABLE.
    rewrite !Z.lor_spec, addr_frame, !Z.shiftl_1_l by done.
    rewrite !(Z.pow2_bits_eqb) by lia. by rewrite (Z.eqb_sym 0 i), (Z.eqb_sym 1 i). }
  assert (∀ i, 0 <= i < 12 → Z.testbit a i = false) as Hlow.
  { intros i Hi. change VMM_PAGE_SIZE with (2 ^ 12) in Hm.
    rewrite <-(Z.mod_pow2_bits_low a 12 i) by lia. rewrite Hm. apply Z.testbit_0_l. }
  rewrite present_bit, huge_bit, !Hbits by lia. rewrite (Hlow 0), (Hlow 7) by lia. simpl.
  split; [|done]. f_equal. unfold addr. apply Z.bits_inj'. intros i Hi.
  rewrite Z.land_spec, addr_mask_bits, Hbits by done.
  destruct (Z.leb_spec 12 i) as [Hl|Hl]; simpl.
  - destruct (Z.eqb_spec i 0), (Z.eqb_spec i 1); try lia. rewrite !orb_false_r.
    destruct (Z.ltb_spec i 52); [by rewrite andb_true_r|]. rewrite andb_false_r. symmetry.
    apply (testbit_small a 52); [by unfold fits|lia].
  - rewrite andb_false_r, Hlow by lia. done.
Qed.

Lemma leaf_entry_present p f : present (leaf_entry p f) = true.
Proof.
  rewrite present_bit. unfold leaf_entry. rewrite !Z.lor_spec. unfold VMM_PTE_PRESENT.
  change (Z.testbit (Z.shiftl 1 0) 0) with true. by rewrite orb_true_r.
Qed.

(** ** Indices determine the page *)

Lemma land_511_bit x j : 0 <= j < 9 → Z.testbit (Z.land x 0x1FF) j = Z.testbit x j.
Proof.
  intros Hj. rewrite Z.land_spec. change 0x1FF with (Z.ones 9).
  rewrite Z.ones_spec_low by lia. apply andb_true_r.
Qed.

Lemma idx_bit v k i : 0 <= k <= i → i < k + 9 →
  Z.testbit (Z.land (Z.shiftr v k) 0x1FF) (i - k) = Z.testbit v i.
Proof.
  intros ? ?. rewrite land_511_bit by lia. rewrite Z.shiftr_spec by lia. f_equal. lia.
Qed.

Lemma idx_range v k : 0 <= Z.land (Z.shiftr v k) 0x1FF < 512.
Proof. change 0x1FF with (2 ^ 9 - 1). rewrite land_ones_mod by lia. apply Z.mod_pos_bound. lia. Qed.

Lemma canonical_bits v i :
  vmm_is_canonical v = true → 48 <= i < 64 → Z.testbit v i = Z.testbit v 47.
Proof.
  intros Hc Hi. unfold vmm_is_canonical in Hc.
  assert (negb (Z.land (Z.shiftr v 47) 1 =? 0) = Z.testbit v 47) as Hs.
  { change 1 with (Z.shiftl 1 0) at 1. rewrite land_one_bit by done.
    rewrite Z.shiftr_spec by done. done. }
  rewrite Hs in Hc.
  assert (Z.testbit v i = Z.testbit (Z.shiftr v 48) (i - 48)) as ->
    by (rewrite Z.shiftr_spec by lia; f_equal; lia).
  destruct (Z.testbit v 47); apply Z.eqb_eq in Hc; rewrite Hc.
  - change 0xFFFF with (Z.ones 16). apply Z.ones_spec_low. lia.
  - apply Z.testbit_0_l.
Qed.

(** A page address the operations accept. *)
Definition page_ok (v : Z) : Prop :=
  fits 64 v ∧ vmm_is_canonical v = true ∧ vmm_is_aligned_4k v = true.

Lemma page_low_bits v i : page_ok v → 0 <= i < 12 → Z.testbit v i = false.
Proof.
  intros (_ & _ & Ha) Hi. apply aligned_iff in Ha. change VMM_PAGE_SIZE with (2 ^ 12) in Ha.
  rewrite <-(Z.mod_pow2_bits_low v 12 i) by lia. rewrite Ha. apply Z.testbit_0_l.
Qed.

Lemma idx_inj v v' :
  page_ok v → page_ok v' → path_of v = path_of v' → idx_pt v = idx_pt v' → v = v'.
Proof.
  intros Hv Hv' [= H1 H2 H3] H4.
  unfold idx_pml4, idx_pdpt, idx_pd, idx_pt in *.
  assert (∀ i, 0 <= i < 48 → Z.testbit v i = Z.testbit v' i) as Hlow.
  { intros i Hi. destruct (decide (i < 12)); [by rewrite !page_low_bits by (done || lia)|].
    destruct (decide (i < 21)); [rewrite <-(idx_bit v 12), <-(idx_bit v' 12) by lia; by rewrite H4|].
    destruct (decide (i < 30)); [rewrite <-(idx_bit v 21), <-(idx_bit v' 21) by lia; by rewrite H3|].
    destruct (decide (i < 39)); [rewrite <-(idx_bit v 30), <-(idx_bit v' 30) by lia; by rewrite H2|].
    rewrite <-(idx_bit v 39), <-(idx_bit v' 39) by lia. by rewrite H1. }
  destruct Hv as (Hf & Hc & _), Hv' as (Hf' & Hc' & _).
  apply Z.bits_inj'. intros i Hi. destruct (decide (i < 48)); [apply Hlow; lia|].
  destruct (decide (i < 64)).
  - rewrite (canonical_bits v i), (canonical_bits v' i) by (done || lia). apply Hlow. lia.
  - rewrite !(testbit_small _ 64) by (done || lia). done.
Qed.

Lemma path_of_ok v : path_ok (path_of v).
Proof.
  split; [done|]. unfold path_of, idx_pml4, idx_pdpt, idx_pd.
  repeat constructor; apply idx_range.
Qed.

(** ** The invariant *)

Section tables.
Context {C : Type} (alloc : C → Z * C) `{!FrameAllocator alloc}.
Context (free : ptr (C → Z → C)) (p2v : Z → bool) (root : Z).
Implicit Types s : machine C.

Definition sp : vmm_space C := mk_space root (Some alloc) free (Some p2v).

(** A frame that holds a page table. *)
Definition table_ok (mem : gmap Z (list Z)) (t : Z) : Prop :=
  (∃ tab, mem !! t = Some tab ∧ length tab = 512%nat) ∧
  vmm_is_aligned_4k t = true ∧ p2v t = true.

Record vm_inv s : Prop := {
  vi_alloc : fa_inv (v_ctx s);
  vi_avail : ∀ a, fa_avail (v_ctx s) a → p2v a = true ∧ is_Some (v_mem s !! a);
  vi_table : ∀ p t, path_ok p → tbl (v_mem s) root p = Some t →
    table_ok (v_mem s) t ∧ ¬ fa_avail (v_ctx s) t;
  vi_inj : ∀ p q t, path_ok p → path_ok q → tbl (v_mem s) root p = Some t →
    tbl (v_mem s) root q = Some t → p = q;
  vi_huge : ∀ p t i e, path_ok p → (length p <= 2)%nat → tbl (v_mem s) root p = Some t →
    entry (v_mem s) t i = Some e → present e = true → huge e = false
}.

Lemma tbl_app mem t p q :
  tbl mem t (p ++ q) = match tbl mem t p with Some t' => tbl mem t' q | None => None end.
Proof.
  revert t. induction p as [|i p IH]; intros t; simpl; [done|].
  destruct (entry mem t i ≫= next) as [t'|]; [apply IH|done].
Qed.

Lemma path_ok_app p q : path_ok (p ++ q) ↔ (length p + length q <= 3)%nat ∧
  Forall (λ i, 0 <= i < 512) p ∧ Forall (λ i, 0 <= i < 512) q.
Proof. unfold path_ok. rewrite length_app, Forall_app. tauto. Qed.

Lemma path_ok_snoc p i : path_ok p → (length p <= 2)%nat → 0 <= i < 512 → path_ok (p ++ [i]).
Proof. intros [Hl Hf] H2 Hi. apply path_ok_app. split; [simpl; lia|]. split; [done|]. by constructor. Qed.

(** An entry of a table. *)
Lemma table_entry s p t i :
  vm_inv s → path_ok p → tbl (v_mem s) root p = Some t → 0 <= i < 512 →
  ∃ tab e, v_mem s !! t = Some tab ∧ length tab = 512%nat ∧ tab !! Z.to_nat i = Some e ∧
    entry (v_mem s) t i = Some e ∧ table_from_phys (Some sp) t = Some t.
Proof.
  intros H Hp Ht Hi. destruct (vi_table _ H p t Hp Ht) as [((tab & Hm & Hl) & Ha & Hv) _].
  destruct (lookup_lt_is_Some_2 tab (Z.to_nat i)) as [e He]; [lia|].
  exists tab, e. unfold entry, table_from_phys. simpl. rewrite Hm, Ha, Hv. done.
Qed.

Lemma entry_insert_ne mem t tab x j :
  x ≠ t → entry (<[t := tab]> mem) x j = entry mem x j.
Proof. intros Hne. unfold entry. by rewrite lookup_insert_ne by done. Qed.

Lemma entry_update_ne mem t tab i e x j :
  mem !! t = Some tab → ¬ (x = t ∧ Z.to_nat j = Z.to_nat i) →
  entry (<[t := <[Z.to_nat i := e]> tab]> mem) x j = entry mem x j.
Proof.
  intros Hm Hne. destruct (decide (x = t)) as [->|]; [|by apply entry_insert_ne].
  unfold entry. rewrite lookup_insert_eq, Hm. simpl. apply list_lookup_insert_ne. intuition.
Qed.

Lemma entry_update_eq mem t tab i e :
  mem !! t = Some tab → (Z.to_nat i < length tab)%nat →
  entry (<[t := <[Z.to_nat i := e]> tab]> mem) t i = Some e.
Proof. intros Hm Hl. unfold entry. rewrite lookup_insert_eq. simpl. by apply list_lookup_insert_eq. Qed.

(** Walks that never read a changed entry are unchanged. *)
Lemma tbl_ext mem mem' q r x :
  tbl mem root r = Some x →
  (∀ r' j y, (length r' < length r + length q)%nat → r `prefix_of` r' → r' ++ [j] `prefix_of` r ++ q →
     tbl mem root r' = Some y → entry mem' y j = entry mem y j) →
  tbl mem' x q = tbl mem x q.
Proof.
  revert r x. induction q as [|j q IH]; intros r x Hr He; [done|]. simpl.
  rewrite (He r j x); [|simpl; lia|done|exists q; by rewrite <-app_assoc|done].
  destruct (entry mem x j ≫= next) as [y|] eqn:Hn; [|done].
  apply (IH (r ++ [j])).
  - rewrite tbl_app, Hr. simpl. by rewrite Hn.
  - intros r' k z Hl Hpre Hpre' Ht. apply (He r' k z); [rewrite length_app in Hl; simpl in *; lia| |by rewrite <-app_assoc in Hpre'|done].
    etransitivity; [|exact Hpre]. by eexists.
Qed.

Lemma prefix_path r j q :
  path_ok q → r ++ [j] `prefix_of` q → path_ok r ∧ (length r <= 2)%nat ∧ 0 <= j < 512.
Proof.
  intros Hq [k ->]. rewrite <-app_assoc in Hq.
  apply path_ok_app in Hq as (Hl & Hr & Hk). simpl in *. inversion Hk; subst.
  split; [split; [lia|done]|]. split; [lia|done].
Qed.

(** ** Linking a new table *)

Section link.
Context s (p : list Z) (t i : Z) (tab : list Z) (e0 f E : Z) (c' : C).
Hypothesis Hinv : vm_inv s.
Hypothesis Hp : path_ok p.
Hypothesis Hp2 : (length p <= 2)%nat.
Hypothesis Ht : tbl (v_mem s) root p = Some t.
Hypothesis Hi : 0 <= i < 512.
Hypothesis Htab : v_mem s !! t = Some tab.
Hypothesis He0 : entry (v_mem s) t i = Some e0.
Hypothesis Habs : present e0 = false.
Hypothesis Hf : fa_avail (v_ctx s) f.
Hypothesis HE : next E = Some f.
Hypothesis HEh : huge E = false.
Hypothesis Hc' : fa_inv c'.
Hypothesis Hav : ∀ x, fa_avail c' x ↔ fa_avail (v_ctx s) x ∧ x ≠ f.

Let mem := v_mem s.
Let mem' := <[t := <[Z.to_nat i := E]> tab]> (<[f := replicate (Z.to_nat VMM_ENTRIES_PER_TABLE) 0]> mem).
Let s' := mk_machine mem' c' (v_invlpg s).

Lemma link_ne q x : path_ok q → tbl mem root q = Some x → x ≠ f.
Proof. intros Hq Hx ->. destruct (vi_table _ Hinv q f Hq Hx) as [_ Hn]. by apply Hn. Qed.

Lemma link_tf : t ≠ f.
Proof. apply (link_ne p t Hp Ht). Qed.

Lemma link_tab_len : length tab = 512%nat.
Proof.
  destruct (vi_table _ Hinv p t Hp Ht) as [((tab' & Hm & Hl) & _) _]. congruence.
Qed.

Lemma link_entry x j :
  x ≠ f → ¬ (x = t ∧ Z.to_nat j = Z.to_nat i) → entry mem' x j = entry mem x j.
Proof.
  intros Hx Hne. unfold mem'. rewrite entry_update_ne; [|by rewrite lookup_insert_ne by (apply not_eq_sym, link_tf)|done].
  by apply entry_insert_ne.
Qed.

Lemma link_entry_new : entry mem' t i = Some E.
Proof.
  apply entry_update_eq; [|rewrite link_tab_len; lia].
  rewrite lookup_insert_ne; [done|]. apply not_eq_sym, link_tf.
Qed.

Lemma link_zero j : 0 <= j < 512 → entry mem' f j = Some 0.
Proof.
  intros Hj. unfold mem'. rewrite entry_insert_ne by (apply not_eq_sym, link_tf).
  unfold entry. rewrite lookup_insert_eq. cbn [mbind option_bind]. apply lookup_replicate_2.
  unfold VMM_ENTRIES_PER_TABLE. lia.
Qed.

Lemma link_other q :
  path_ok q → ¬ (p ++ [i] `prefix_of` q) → tbl mem' root q = tbl mem root q.
Proof.
  intros Hq Hn. apply (tbl_ext mem mem' q [] root); [done|].
  intros r j y _ _ Hpre Hy. destruct (prefix_path r j q Hq Hpre) as (Hr & _ & Hj).
  apply link_entry; [by eapply link_ne|]. intros [-> Hij]. apply Hn.
  assert (r = p) as -> by (by eapply (vi_inj _ Hinv r p t)).
  by assert (j = i) as -> by lia.
Qed.

Lemma link_new : tbl mem' root (p ++ [i]) = Some f.
Proof.
  rewrite tbl_app, link_other; [|done|].
  - fold mem in Ht. rewrite Ht. simpl. rewrite link_entry_new. simpl. by rewrite HE.
  - intros [k Hk]. apply (f_equal length) in Hk. rewrite !length_app in Hk. simpl in Hk. lia.
Qed.

Lemma link_old q : tbl mem root (p ++ [i] ++ q) = None.
Proof.
  unfold mem in *. rewrite tbl_app, Ht. simpl. rewrite He0. simpl. unfold next. by rewrite Habs.
Qed.

Lemma link_beyond j q : 0 <= j < 512 → tbl mem' root (p ++ [i] ++ j :: q) = None.
Proof.
  intros Hj. rewrite app_assoc, tbl_app, link_new. simpl. rewrite link_zero by done. done.
Qed.

Lemma link_cases q x :
  path_ok q → tbl mem' root q = Some x →
  (q = p ++ [i] ∧ x = f) ∨ (¬ (p ++ [i] `prefix_of` q) ∧ tbl mem root q = Some x).
Proof.
  intros Hq Hx. destruct (decide (p ++ [i] `prefix_of` q)) as [[k ->]|Hn].
  - destruct k as [|j k].
    + left. rewrite app_nil_r in *. rewrite link_new in Hx. by injection Hx as <-.
    + apply path_ok_app in Hq as (_ & _ & Hk). inversion Hk; subst.
      rewrite <-app_assoc, link_beyond in Hx; done.
  - right. split; [done|]. by rewrite <-link_other.
Qed.

Lemma link_table_ok x : x ≠ f → table_ok mem x → table_ok mem' x.
Proof.
  intros Hx ((tb & Hm & Hl) & Ha & Hv). split; [|done]. unfold mem'.
  destruct (decide (x = t)) as [->|Hne].
  - rewrite lookup_insert_eq. eexists. split; [done|]. rewrite length_insert. apply link_tab_len.
  - rewrite !lookup_insert_ne by done. by exists tb.
Qed.

Lemma link_inv : vm_inv s'.
Proof.
  pose proof (fa_frame _ _ (vi_alloc _ Hinv) Hf) as [_ Hal].
  constructor; simpl.
  - done.
  - intros a [Ha Hne]%Hav. destruct (vi_avail _ Hinv a Ha) as [Hv [tb Htb]]. split; [done|].
    unfold mem'. destruct (decide (a = t)) as [->|]; [rewrite lookup_insert_eq; by eexists|].
    rewrite !lookup_insert_ne by done. by exists tb.
  - intros q x Hq [[-> ->]|[_ Hx]]%link_cases; [| |done].
    + split; [|rewrite Hav; tauto]. split; [|split; [by apply aligned_iff|apply (vi_avail _ Hinv f Hf)]].
      unfold mem'. rewrite lookup_insert_ne by apply link_tf. rewrite lookup_insert_eq.
      eexists. split; [done|]. by rewrite length_replicate.
    + destruct (vi_table _ Hinv q x Hq Hx) as [Hok Hna].
      split; [apply link_table_ok; [by eapply link_ne|done]|rewrite Hav; tauto].
  - intros q r x Hq Hr Hx1 Hx2. apply link_cases in Hx1 as [[-> ->]|[_ Hx1]]; [| |done];
      apply link_cases in Hx2 as [[-> Hxf]|[_ Hx2]]; try done.
    + by destruct (link_ne r f Hr Hx2).
    + subst. by destruct (link_ne q f Hq Hx1).
    + by apply (vi_inj _ Hinv q r x).
  - intros q x j e Hq Hl Hx He Hpe. apply link_cases in Hx as [[-> ->]|[_ Hx]]; [| |done].
    + unfold mem' in He. rewrite entry_insert_ne in He by (apply not_eq_sym, link_tf).
      unfold entry in He. rewrite lookup_insert_eq in He. cbn [mbind option_bind] in He.
      apply lookup_replicate in He as [-> _]. done.
    + destruct (decide (x = t ∧ Z.to_nat j = Z.to_nat i)) as [[-> Hj]|Hne].
      * assert (entry mem' t i = Some e) as He' by (unfold entry in *; by rewrite <-Hj).
        rewrite link_entry_new in He'. by injection He' as <-.
      * rewrite link_entry in He by (done || by eapply link_ne). by eapply (vi_huge _ Hinv q x j).
Qed.

(** No page is affected. *)
Lemma link_leaf v : leaf mem' root v = leaf mem root v.
Proof.
  pose proof (path_of_ok v) as Hq. unfold leaf.
  destruct (decide (p ++ [i] `prefix_of` path_of v)) as [[k Hk]|Hn].
  - rewrite Hk, <-!app_assoc. rewrite (link_old k). rewrite Hk in Hq.
    apply path_ok_app in Hq as (_ & _ & Hr). destruct k as [|j k].
    + simpl. rewrite link_new. rewrite link_zero by apply idx_range. done.
    + inversion Hr; subst. by rewrite link_beyond.
  - rewrite link_other by done. destruct (tbl mem root (path_of v)) as [x|] eqn:Hx; [|done].
    rewrite link_entry; [done|by eapply link_ne|]. intros [-> _].
    assert (path_of v = p) as Hpv by (by eapply (vi_inj _ Hinv)). rewrite <-Hpv in Hp2. simpl in Hp2. lia.
Qed.

End link.

(** ** Writing a leaf *)

Section write_leaf.
Context s (p : list Z) (t i : Z) (tab : list Z) (E : Z) (log : list Z).
Hypothesis Hinv : vm_inv s.
Hypothesis Hp : path_ok p.
Hypothesis Hp3 : length p = 3%nat.
Hypothesis Ht : tbl (v_mem s) root p = Some t.
Hypothesis Hi : 0 <= i < 512.
Hypothesis Htab : v_mem s !! t = Some tab.

Let mem' := <[t := <[Z.to_nat i := E]> tab]> (v_mem s).
Let s' := mk_machine mem' (v_ctx s) log.

Lemma leaf_tbl q : path_ok q → tbl mem' root q = tbl (v_mem s) root q.
Proof.
  intros Hq. apply (tbl_ext (v_mem s) mem' q [] root); [done|].
  intros r j y _ _ Hpre Hy. destruct (prefix_path r j q Hq Hpre) as (Hr & Hl & _).
  apply entry_update_ne; [done|]. intros [-> _].
  assert (r = p) as -> by (by eapply (vi_inj _ Hinv r p t)). lia.
Qed.

Lemma leaf_inv : vm_inv s'.
Proof.
  destruct Hinv as [H1 H2 H3 H4 H5].
  assert (length tab = 512%nat) as Hl.
  { destruct (H3 p t Hp Ht) as [((tb & Hm & Hl) & _) _]. congruence. }
  constructor; simpl.
  - done.
  - intros a Ha. destruct (H2 a Ha) as [Hv [tb Htb]]. split; [done|]. unfold mem'.
    destruct (decide (a = t)) as [->|]; [rewrite lookup_insert_eq|rewrite lookup_insert_ne by done]; by eexists.
  - intros q x Hq Hx. rewrite leaf_tbl in Hx by done. destruct (H3 q x Hq Hx) as [((tb & Hm & Hlb) & Ha) Hna].
    split; [|done]. split; [|done]. unfold mem'. destruct (decide (x = t)) as [->|].
    + rewrite lookup_insert_eq. eexists. split; [done|]. by rewrite length_insert.
    + rewrite lookup_insert_ne by done. by exists tb.
  - intros q r x Hq Hr. rewrite !leaf_tbl by done. by apply H4.
  - intros q x j e Hq Hlq Hx He. rewrite leaf_tbl in Hx by done.
    unfold mem' in He. rewrite entry_update_ne in He; [by eapply H5|done|]. intros [-> _].
    assert (q = p) as -> by (by eapply (H4 q p t)). lia.
Qed.

Lemma leaf_update v :
  leaf mem' root v =
  if decide (path_of v = p ∧ idx_pt v = i) then (if present E then Some E else None)
  else leaf (v_mem s) root v.
Proof.
  pose proof (path_of_ok v) as Hv. unfold leaf. rewrite leaf_tbl by done.
  pose proof (idx_range v 12) as Hr. change (Z.land _ 511) with (idx_pt v) in Hr.
  destruct (decide (path_of v = p ∧ idx_pt v = i)) as [[-> ->]|Hne].
  - rewrite Ht. unfold mem'. rewrite entry_update_eq; [done|done|].
    destruct (vi_table _ Hinv p t Hp Ht) as [((tb & Hm & Hl) & _) _].
    rewrite Htab in Hm. injection Hm as <-. lia.
  - destruct (tbl (v_mem s) root (path_of v)) as [x|] eqn:Hx; [|done].
    unfold mem'. rewrite entry_update_ne; [done|done|]. intros [-> Hj]. apply Hne.
    split; [by eapply (vi_inj _ Hinv)|lia].
Qed.

End write_leaf.

(** ** Running the walks *)

Lemma read_entry_run s t i e :
  entry (v_mem s) t i = Some e → read_entry t i (Some s) = (Ok e, Some s).
Proof.
  intros He. unfold read_entry. rewrite (bind_ok _ _ _ s (Some s)) by done.
  unfold entry in He. by rewrite He.
Qed.

Lemma write_entry_run s t i e tab :
  v_mem s !! t = Some tab → (Z.to_nat i < length tab)%nat →
  write_entry t i e (Some s) =
  (Ok tt, Some (mk_machine (<[t := <[Z.to_nat i := e]> tab]> (v_mem s)) (v_ctx s) (v_invlpg s))).
Proof.
  intros Hm Hl. unfold write_entry. rewrite (bind_ok _ _ _ s (Some s)) by done.
  by rewrite Hm, decide_True.
Qed.

Lemma zero_page_run s t old :
  v_mem s !! t = Some old →
  vmm_zero_page t (Some s) =
  (Ok tt, Some (mk_machine (<[t := replicate (Z.to_nat VMM_ENTRIES_PER_TABLE) 0]> (v_mem s))
                  (v_ctx s) (v_invlpg s))).
Proof.
  intros Hm. unfold vmm_zero_page. rewrite (bind_ok _ _ _ s (Some s)) by done. by rewrite Hm.
Qed.

Lemma from_phys_table s p t :
  vm_inv s → path_ok p → tbl (v_mem s) root p = Some t →
  or_inval (table_from_phys (Some sp) t) (Some s) = (Ok t, Some s).
Proof.
  intros H Hp Ht. destruct (table_entry s p t 0 H Hp Ht) as (_ & _ & _ & _ & _ & _ & ->); [lia|done].
Qed.

(** The state after an operation: invariant, and the same pages. *)
Definition same_pages s s' : Prop :=
  ∀ v, leaf (v_mem s') root v = leaf (v_mem s) root v.

Definition frames_used (n : nat) s s' : Prop :=
  (fa_count (v_ctx s') <= fa_count (v_ctx s) <= fa_count (v_ctx s') + n)%nat.

Lemma get_or_alloc_run s p t i :
  vm_inv s → path_ok p → (length p <= 2)%nat → tbl (v_mem s) root p = Some t → 0 <= i < 512 →
  ∃ r s', get_or_alloc_next_table sp t i (Some s) = (r, Some s') ∧ vm_inv s' ∧ same_pages s s' ∧
    v_invlpg s' = v_invlpg s ∧ frames_used 1 s s' ∧
    ((∃ t', r = Ok t' ∧ tbl (v_mem s') root (p ++ [i]) = Some t') ∨
     (r = Err VMM_ERR_NOMEM ∧ tbl (v_mem s) root (p ++ [i]) = None ∧ fa_count (v_ctx s) = 0%nat)) ∧
    (is_Some (tbl (v_mem s) root (p ++ [i])) → s' = s).
Proof.
  intros H Hp Hp2 Ht Hi. pose proof (path_ok_snoc p i Hp Hp2 Hi) as Hpi.
  destruct (table_entry s p t i H Hp Ht Hi) as (tab & e & Htab & Hl & Hte & He & _).
  assert (tbl (v_mem s) root (p ++ [i]) = next e) as Hnext.
  { rewrite tbl_app, Ht. simpl. rewrite He. simpl. by destruct (next e). }
  unfold get_or_alloc_next_table. rewrite (bind_ok _ _ _ _ _ (read_entry_run s t i e He)).
  fold (present e). destruct (present e) eqn:Hpe.
  - pose proof (vi_huge _ H p t i e Hp Hp2 Ht He Hpe) as Hh.
    rewrite (bind_ok _ _ _ tt (Some s)) by (apply fail_if_false; exact Hh).
    assert (next e = Some (addr e)) as Hn by (unfold next; by rewrite Hpe, Hh).
    rewrite Hn in Hnext. fold (addr e). rewrite (from_phys_table s (p ++ [i])) by done.
    exists (Ok (addr e)), s. split_and!; try done; [unfold frames_used; lia|]. left. by exists (addr e).
  - change (alloc_frame sp) with (Some alloc). cbn [negb].
    assert (tbl (v_mem s) root (p ++ [i]) = None) as Hnone by (rewrite Hnext; unfold next; by rewrite Hpe).
    destruct (alloc (v_ctx s)) as [a c'] eqn:Ha.
    set (s1 := mk_machine (v_mem s) c' (v_invlpg s)).
    assert (call_alloc alloc (Some s) = (Ok a, Some s1)) as Hcall
      by (unfold call_alloc, bind, deref; by rewrite Ha).
    rewrite (bind_ok _ _ _ _ _ Hcall).
    destruct (fa_alloc _ _ _ (vi_alloc _ H) Ha) as [Hc' [(-> & Hn0 & Hn1 & Hav)|(Hf & Hn & Hav)]].
    + exists (Err VMM_ERR_NOMEM), s1. split; [done|]. split; [|split_and!; try done].
      * destruct H as [H1 H2 H3 H4 H5]. constructor; simpl; try done.
        -- intros x Hx. apply H2. by apply Hav.
        -- intros q x Hq Hx. rewrite Hav. by apply (H3 q x).
      * unfold frames_used. simpl. lia.
      * right. done.
      * rewrite Hnone. by intros [? ?].
    + destruct (fa_frame _ _ (vi_alloc _ H) Hf) as [Hr Hal].
      destruct (vi_avail _ H a Hf) as [Hv [old Hold]].
      assert (vmm_is_aligned_4k a = true) as Hal' by (by apply aligned_iff).
      rewrite (bind_ok _ _ _ tt (Some s1)).
      2:{ apply fail_if_false. rewrite Hal'. unfold VMM_INVALID_PHYS, UINT64_MAX.
          rewrite (proj2 (Z.eqb_neq a (2 ^ 64 - 1))) by lia. done. }
      assert (table_from_phys (Some sp) a = Some a) as Hfp
        by (unfold table_from_phys, sp; simpl; by rewrite Hal', Hv).
      rewrite Hfp, (bind_ok _ _ _ _ _ (zero_page_run s1 a old Hold)).
      set (s2 := mk_machine _ (v_ctx s1) (v_invlpg s1)).
      destruct (next_link a Hr Hal) as [HE HEh].
      set (E := Z.lor _ VMM_PTE_WRITABLE) in *.
      assert (t ≠ a) as Hta by (intros ->; by apply (vi_table _ H p a Hp Ht)).
      rewrite (bind_ok _ _ _ _ _ (write_entry_run s2 t i E tab
        ltac:(simpl; by rewrite lookup_insert_ne by done) ltac:(lia))).
      eexists (Ok a), _. split; [reflexivity|]. split_and!.
      * eapply (link_inv s p t i tab a E c'); done.
      * intros v. eapply (link_leaf s p t i tab e a E); done.
      * done.
      * unfold frames_used. simpl. lia.
      * left. exists a. split; [done|]. eapply (link_new s p t i tab a E); done.
      * rewrite Hnone. by intros [? ?].
Qed.

Lemma walk_level_run s p t i :
  vm_inv s → path_ok p → (length p <= 2)%nat → tbl (v_mem s) root p = Some t → 0 <= i < 512 →
  walk_level sp t i (Some s) =
  (match tbl (v_mem s) root (p ++ [i]) with Some t' => Ok t' | None => Err VMM_ERR_NOT_FOUND end, Some s).
Proof.
  intros H Hp Hp2 Ht Hi. pose proof (path_ok_snoc p i Hp Hp2 Hi) as Hpi.
  destruct (table_entry s p t i H Hp Ht Hi) as (tab & e & _ & _ & _ & He & _).
  assert (tbl (v_mem s) root (p ++ [i]) = next e) as Hnext.
  { rewrite tbl_app, Ht. simpl. rewrite He. simpl. by destruct (next e). }
  unfold walk_level. rewrite (bind_ok _ _ _ _ _ (read_entry_run s t i e He)).
  fold (huge e). rewrite <-(negb_involutive (Z.land e VMM_PTE_PRESENT =? 0)). fold (present e).
  destruct (present e) eqn:Hpe.
  - pose proof (vi_huge _ H p t i e Hp Hp2 Ht He Hpe) as Hh. rewrite Hh. cbn [negb orb].
    rewrite (bind_ok _ _ _ tt (Some s)) by done. fold (addr e).
    assert (next e = Some (addr e)) as Hn by (unfold next; by rewrite Hpe, Hh).
    rewrite Hnext, Hn in *. by rewrite (from_phys_table s (p ++ [i])).
  - rewrite Hnext. unfold next. by rewrite Hpe.
Qed.

Lemma root_table s : vm_inv s → or_inval (table_from_phys (Some sp) (root_paddr sp)) (Some s) = (Ok root, Some s).
Proof. intros H. apply (from_phys_table s []); [done|by split; [simpl; lia|]|done]. Qed.

Lemma idx_ranges v :
  0 <= idx_pml4 v < 512 ∧ 0 <= idx_pdpt v < 512 ∧ 0 <= idx_pd v < 512 ∧ 0 <= idx_pt v < 512.
Proof. split_and!; apply idx_range. Qed.

Lemma walk_run s v :
  vm_inv s →
  walk_to_pt sp v (Some s) =
  (match tbl (v_mem s) root (path_of v) with Some t => Ok t | None => Err VMM_ERR_NOT_FOUND end, Some s).
Proof.
  intros H. destruct (idx_ranges v) as (R1 & R2 & R3 & _). unfold walk_to_pt.
  rewrite (bind_ok _ _ _ _ _ (root_table s H)).
  assert (path_ok []) as P0 by (by split; [simpl; lia|]).
  pose proof (walk_level_run s [] root (idx_pml4 v) H P0 ltac:(simpl; lia) eq_refl R1) as W1.
  change (path_of v) with ([idx_pml4 v] ++ [idx_pdpt v] ++ [idx_pd v]). rewrite app_assoc, (tbl_app _ _ ([_] ++ _)).
  rewrite tbl_app. cbn [app] in W1.
  destruct (tbl (v_mem s) root [idx_pml4 v]) as [t1|] eqn:T1; [|by rewrite (bind_err _ _ _ _ _ W1)].
  rewrite (bind_ok _ _ _ _ _ W1).
  assert (path_ok [idx_pml4 v]) as P1 by (split; [simpl; lia|by constructor]).
  pose proof (walk_level_run s [idx_pml4 v] t1 (idx_pdpt v) H P1 ltac:(simpl; lia) T1 R2) as W2.
  rewrite tbl_app, T1 in W2.
  destruct (tbl (v_mem s) t1 [idx_pdpt v]) as [t2|] eqn:T2; [|by rewrite (bind_err _ _ _ _ _ W2)].
  rewrite (bind_ok _ _ _ _ _ W2).
  assert (tbl (v_mem s) root ([idx_pml4 v] ++ [idx_pdpt v]) = Some t2) as T12 by (by rewrite tbl_app, T1).
  assert (path_ok ([idx_pml4 v] ++ [idx_pdpt v])) as P2 by (apply path_ok_snoc; (done || simpl; lia)).
  pose proof (walk_level_run s _ t2 (idx_pd v) H P2 ltac:(simpl; lia) T12 R3) as W3.
  by rewrite tbl_app, T12 in W3.
Qed.

(** The leaf as read and update operations see it. *)
Lemma leaf_read s v t :
  vm_inv s → tbl (v_mem s) root (path_of v) = Some t →
  ∃ tab e, v_mem s !! t = Some tab ∧ length tab = 512%nat ∧
    read_entry t (idx_pt v) (Some s) = (Ok e, Some s) ∧
    leaf (v_mem s) root v = if present e then Some e else None.
Proof.
  intros H Ht. destruct (idx_ranges v) as (_ & _ & _ & R4).
  destruct (table_entry s (path_of v) t (idx_pt v) H (path_of_ok v) Ht R4) as (tab & e & Hm & Hl & _ & He & _).
  exists tab, e. split; [done|]. split; [done|]. split; [by apply read_entry_run|].
  unfold leaf. by rewrite Ht, He.
Qed.

Lemma guard_ok s v : page_ok v →
  fail_if (negb (vmm_is_canonical v) || negb (vmm_is_aligned_4k v)) VMM_ERR_INVAL (Some s) = (Ok tt, Some s).
Proof. intros (_ & Hc & Ha). apply fail_if_false. by rewrite Hc, Ha. Qed.

(** Query is the lookup. *)
Lemma query_run s v out :
  vm_inv s → page_ok v →
  vmm_query_page (Some sp) v (Some out) (Some s) =
  (match leaf (v_mem s) root v with
   | Some e => Ok (mk_mapping v (addr e) (Z.land e (wnot 64 VMM_PTE_ADDR_MASK)))
   | None => Err VMM_ERR_NOT_FOUND
   end, Some s).
Proof.
  intros H Hv. unfold vmm_query_page. rewrite (bind_ok _ _ _ _ _ (guard_ok s v Hv)).
  pose proof (walk_run s v H) as Hw. destruct (tbl (v_mem s) root (path_of v)) as [t|] eqn:Ht.
  2:{ rewrite (bind_err _ _ _ _ _ Hw). unfold leaf. by rewrite Ht. }
  rewrite (bind_ok _ _ _ _ _ Hw). destruct (leaf_read s v t H Ht) as (tab & e & _ & _ & Hr & ->).
  rewrite (bind_ok _ _ _ _ _ Hr). rewrite <-(negb_involutive (_ =? 0)). fold (present e).
  by destruct (present e).
Qed.

(** Unmap removes the page and invalidates it in the TLB. *)
Lemma unmap_run s v :
  vm_inv s → page_ok v →
  ∃ r s', vmm_unmap_page (Some sp) v (Some s) = (r, Some s') ∧ vm_inv s' ∧ v_ctx s' = v_ctx s ∧
    match leaf (v_mem s) root v with
    | Some _ => r = Ok tt ∧ v_invlpg s' = v_invlpg s ++ [v] ∧
        ∀ u, page_ok u → leaf (v_mem s') root u = if decide (u = v) then None else leaf (v_mem s) root u
    | None => r = Err VMM_ERR_NOT_FOUND ∧ s' = s
    end.
Proof.
  intros H Hv. unfold vmm_unmap_page. rewrite (bind_ok _ _ _ _ _ (guard_ok s v Hv)).
  pose proof (walk_run s v H) as Hw. destruct (tbl (v_mem s) root (path_of v)) as [t|] eqn:Ht.
  2:{ rewrite (bind_err _ _ _ _ _ Hw). eexists _, s. split; [done|]. split; [done|]. split; [done|].
      unfold leaf. by rewrite Ht. }
  rewrite (bind_ok _ _ _ _ _ Hw). destruct (leaf_read s v t H Ht) as (tab & e & Hm & Hl & Hr & Hlf).
  rewrite (bind_ok _ _ _ _ _ Hr), Hlf. rewrite <-(negb_involutive (_ =? 0)). fold (present e).
  destruct (present e); [|by exists (Err VMM_ERR_NOT_FOUND), s].
  destruct (idx_ranges v) as (_ & _ & _ & R4).
  rewrite (bind_ok _ _ _ tt (Some s)) by done.
  rewrite (bind_ok _ _ _ _ _ (write_entry_run s t (idx_pt v) 0 tab Hm ltac:(lia))).
  eexists (Ok tt), _. split; [reflexivity|]. split.
  - apply (leaf_inv s (path_of v) t (idx_pt v) tab 0); try done. apply path_of_ok.
  - split; [done|]. split; [done|]. split; [done|]. intros u Hu. simpl.
    rewrite (leaf_update s (path_of v) t (idx_pt v) tab 0); try done; [|apply path_of_ok].
    change (present 0) with false. cbv iota.
    destruct (decide (path_of u = path_of v ∧ idx_pt u = idx_pt v)) as [[H1 H2]|Hne].
    + by rewrite (idx_inj u v Hu Hv H1 H2), decide_True.
    + destruct (decide (u = v)) as [->|]; [by destruct Hne|done].
Qed.

(** The three levels of [vmm_map_page]. *)
Fixpoint descend (t : Z) (l : list Z) : M (machine C) Z :=
  match l with
  | [] => ret t
  | i :: l' => let* t' := get_or_alloc_next_table sp t i in descend t' l'
  end.

Lemma descend_run l s p t :
  vm_inv s → path_ok (p ++ l) → tbl (v_mem s) root p = Some t →
  ∃ r s', descend t l (Some s) = (r, Some s') ∧ vm_inv s' ∧ same_pages s s' ∧
    v_invlpg s' = v_invlpg s ∧ frames_used (length l) s s' ∧
    ((∃ t', r = Ok t' ∧ tbl (v_mem s') root (p ++ l) = Some t') ∨
     (r = Err VMM_ERR_NOMEM ∧ tbl (v_mem s) root (p ++ l) = None ∧
      (fa_count (v_ctx s) < length l)%nat)) ∧
    (is_Some (tbl (v_mem s) root (p ++ l)) → s' = s).
Proof.
  revert s p t. induction l as [|i l IH]; intros s p t H Hp Ht.
  { exists (Ok t), s. rewrite app_nil_r. split_and!; try done; [unfold frames_used; lia|].
    left. by exists t. }
  pose proof Hp as (Hlen & Hfp & Hfi)%path_ok_app. inversion Hfi as [|?? Hi Hfl]; subst. simpl in Hlen.
  assert (path_ok p) as Hpp by (split; [lia|done]).
  assert (p ++ i :: l = (p ++ [i]) ++ l) as Heq by (by rewrite <-app_assoc). rewrite Heq in *.
  destruct (get_or_alloc_run s p t i H Hpp ltac:(lia) Ht Hi) as (r1 & s1 & G1 & I1 & S1 & L1 & [F1 F1'] & Hr1 & K1).
  assert (is_Some (tbl (v_mem s) root ((p ++ [i]) ++ l)) → is_Some (tbl (v_mem s) root (p ++ [i]))) as Hpre.
  { rewrite tbl_app. destruct (tbl (v_mem s) root (p ++ [i])); [by eexists|by intros [? ?]]. }
  cbn [descend]. destruct Hr1 as [(t1 & -> & T1)|(-> & Hnone & Hn)].
  - rewrite (bind_ok _ _ _ _ _ G1).
    destruct (IH s1 (p ++ [i]) t1 I1 Hp T1) as (r & s' & G & I & S & L & [F F'] & Hr & K).
    exists r, s'. split; [done|]. split; [done|]. split; [intros v; by rewrite (S v), (S1 v)|].
    split; [congruence|]. split; [split; simpl; lia|]. split.
    + destruct Hr as [?|(-> & Hn & Hc)]; [by left|]. right. split; [done|]. split; [|simpl; lia].
      destruct (tbl (v_mem s) root ((p ++ [i]) ++ l)) eqn:Hs; [|done].
      rewrite K1 in Hn by (apply Hpre; by eexists). congruence.
    + intros Hs. rewrite (K1 (Hpre Hs)) in *. by apply K.
  - rewrite (bind_err _ _ _ _ _ G1). exists (Err VMM_ERR_NOMEM), s1. split_and!; try done; [split; simpl; lia| |].
    + right. split; [done|]. split; [by rewrite tbl_app, Hnone|simpl; lia].
    + intros Hs. apply K1. by apply Hpre.
Qed.

Lemma descend_three {B} v (k : Z → M (machine C) B) p :
  (let* pdpt := get_or_alloc_next_table sp root (idx_pml4 v) in
   let* pd := get_or_alloc_next_table sp pdpt (idx_pdpt v) in
   let* pt := get_or_alloc_next_table sp pd (idx_pd v) in k pt) p =
  bind (descend root (path_of v)) k p.
Proof.
  symmetry. unfold path_of. cbn [descend].
  rewrite bind_assoc. apply bind_ext; [done|]. intros t1 q1.
  rewrite bind_assoc. apply bind_ext; [done|]. intros t2 q2.
  rewrite bind_assoc. apply bind_ext; done.
Qed.

(** Map adds the page, or refuses one that is there, or finds no frame for a table. *)
Lemma map_run s v pa fl :
  vm_inv s → page_ok v → vmm_is_aligned_4k pa = true →
  ∃ r s', vmm_map_page (Some sp) v pa fl (Some s) = (r, Some s') ∧ vm_inv s' ∧
    v_invlpg s' = v_invlpg s ∧ frames_used 3 s s' ∧
    match leaf (v_mem s) root v with
    | Some _ => r = Err VMM_ERR_EXISTS ∧ s' = s
    | None =>
        (r = Ok tt ∧ ∀ u, page_ok u → leaf (v_mem s') root u =
           if decide (u = v) then Some (leaf_entry pa fl) else leaf (v_mem s) root u) ∨
        (r = Err VMM_ERR_NOMEM ∧ same_pages s s' ∧ (fa_count (v_ctx s) < 3)%nat)
    end.
Proof.
  intros H Hv Hpa. pose proof Hv as (_ & Hcan & Hal). destruct (idx_ranges v) as (_ & _ & _ & R4).
  unfold vmm_map_page.
  rewrite (bind_ok _ _ _ tt (Some s)) by (apply fail_if_false; by rewrite Hcan, Hal, Hpa).
  rewrite (bind_ok _ _ _ _ _ (root_table s H)).
  destruct (descend_run (path_of v) s [] root H (path_of_ok v) eq_refl) as (r1 & s1 & G & I1 & S1 & L1 & F1 & Hr & K).
  rewrite descend_three.
  simpl app in *. destruct Hr as [(t & -> & Ht)|(-> & Hnone & Hc)].
  2:{ rewrite (bind_err _ _ _ _ _ G). exists (Err VMM_ERR_NOMEM), s1. split; [done|]. split; [done|].
      split; [done|]. split; [done|]. unfold leaf. rewrite Hnone. by right. }
  rewrite (bind_ok _ _ _ _ _ G).
  destruct (leaf_read s1 v t I1 Ht) as (tab & e & Hm & Hl & Hre & Hlf).
  rewrite (bind_ok _ _ _ _ _ Hre). fold (present e). rewrite (S1 v) in Hlf. rewrite Hlf.
  destruct (present e).
  { exists (Err VMM_ERR_EXISTS), s1. split; [done|]. split; [done|]. split; [done|]. split; [done|]. split; [done|].
    apply K. unfold leaf in Hlf. destruct (tbl (v_mem s) root (path_of v)); [by eexists|done]. }
  rewrite (bind_ok _ _ _ tt (Some s1)) by done.
  rewrite (write_entry_run s1 t (idx_pt v) (leaf_entry pa fl) tab Hm ltac:(lia)).
  eexists (Ok tt), _. split; [reflexivity|]. split.
  { apply (leaf_inv s1 (path_of v) t (idx_pt v) tab (leaf_entry pa fl)); try done. apply path_of_ok. }
  split; [done|]. split; [done|]. left. split; [done|]. intros u Hu. simpl v_mem.
  rewrite (leaf_update s1 (path_of v) t (idx_pt v) tab (leaf_entry pa fl)); try done; [|apply path_of_ok].
  rewrite leaf_entry_present, (S1 u).
  destruct (decide (path_of u = path_of v ∧ idx_pt u = idx_pt v)) as [[H1 H2]|Hne].
  - by rewrite (idx_inj u v Hu Hv H1 H2), decide_True.
  - destruct (decide (u = v)) as [->|]; [by destruct Hne|done].
Qed.

End tables.
