(* ===== verification/VmmSpec.v ===== *)
(** * The virtual memory manager as a map of pages
      (src/vmm.c; adapters and start-up of kernel/core/kmain.c)

    The specification of map, unmap and query on a finite map, the proof that
    the page tables implement it for every sequence of calls, the physical
    memory manager as frame allocator, and the kernel's VMM start-up. *)

From Stdlib Require Import ZArith Lia.
From stdpp Require Import base list numbers option gmap.
From S2P Require Import Prelude Pmm Vmm VmmProof.

Local Open Scope Z_scope.
Local Open Scope cm_scope.

(** ** The adapters of kmain.c *)

(** The allocator's context is [g_pmm]. *)
Definition m7_vmm_alloc (g_pmm : pmm_state) : Z * pmm_state :=
  let '(a, p) := pmm_alloc_frame (Some g_pmm) in (a, default g_pmm p).

Definition m7_vmm_free (g_pmm : pmm_state) (paddr : Z) : pmm_state :=
  default g_pmm (snd (pmm_free_frame (Some g_pmm) paddr)).

(** Whether [offset + paddr] is a pointer other than NULL. *)
Definition m7_phys_to_virt (offset paddr : Z) : bool := negb (u64 (offset + paddr) =? 0).

Definition m7_vmm_init (g_hhdm_offset : Z) (g_vmm : vmm_space pmm_state)
    : M (machine pmm_state) (vmm_space pmm_state) :=
  let* root := call_alloc m7_vmm_alloc in
  fail_if (root =? PMM_INVALID_FRAME) KERNEL_PANIC ;;
  vmm_zero_page root ;;
  let* g_vmm := or_panic (lift (vmm_space_init (Some g_vmm) root (Some m7_vmm_alloc) (Some m7_vmm_free)
                  (Some (m7_phys_to_virt g_hhdm_offset)))) in
  let test_vaddr := 0x600000 in
  let test_paddr := 0x700000 in
  or_panic (vmm_map_page (Some g_vmm) test_vaddr test_paddr VMM_PTE_WRITABLE) ;;
  let* m := or_panic (vmm_query_page (Some g_vmm) test_vaddr (Some (mk_mapping 0 0 0))) in
  fail_if (negb (map_paddr m =? test_paddr)) KERNEL_PANIC ;;
  or_panic (vmm_unmap_page (Some g_vmm) test_vaddr) ;;
  ret g_vmm.

(** ** Specification *)

(** Mapped pages with address and flags, frames left, invalidated pages. *)
Record aspace := mk_as {
  pages : gmap Z (Z * Z);
  frames : nat;
  flushed : list Z
}.

Definition valid_page (v : Z) : Prop :=
  (v < 2 ^ 47 ∨ 2 ^ 64 - 2 ^ 47 <= v) ∧ v mod VMM_PAGE_SIZE = 0.

Inductive vop := VMap (v pa fl : Z) | VUnmap (v : Z) | VQuery (v : Z).
Inductive vret := RDone (r : res unit) | RInfo (r : res vmm_mapping).

Definition vop_page (o : vop) : Z := match o with VMap v _ _ | VUnmap v | VQuery v => v end.
Definition vop_fits (o : vop) : Prop :=
  fits 64 (vop_page o) ∧ match o with VMap _ pa fl => fits 64 pa ∧ fits 64 fl | _ => True end.

Definition vop_valid (o : vop) : Prop :=
  valid_page (vop_page o) ∧ match o with VMap _ pa _ => pa mod VMM_PAGE_SIZE = 0 | _ => True end.

Definition refused (o : vop) (rc : Z) : vret :=
  match o with VQuery _ => RInfo (Err rc) | _ => RDone (Err rc) end.

Definition spec_valid (a : aspace) (o : vop) (r : vret) (a' : aspace) : Prop :=
  match o, pages a !! vop_page o with
  | VMap _ _ _, Some _ => r = refused o VMM_ERR_EXISTS ∧ a' = a
  | VMap v pa fl, None =>
      (frames a' <= frames a <= frames a' + 3)%nat ∧ flushed a' = flushed a ∧
      ((r = RDone (Ok tt) ∧
        pages a' = <[v := (pa mod 2 ^ 52, Z.lor VMM_PTE_PRESENT (Z.land fl allowed_flags))]> (pages a)) ∨
       (r = refused o VMM_ERR_NOMEM ∧ pages a' = pages a ∧ (frames a < 3)%nat))
  | VUnmap v, Some _ =>
      r = RDone (Ok tt) ∧ a' = mk_as (delete v (pages a)) (frames a) (flushed a ++ [v])
  | VQuery v, Some (pa, fl) => r = RInfo (Ok (mk_mapping v pa fl)) ∧ a' = a
  | _, None => r = refused o VMM_ERR_NOT_FOUND ∧ a' = a
  end.

Definition spec_vop (a : aspace) (o : vop) (r : vret) (a' : aspace) : Prop :=
  (vop_valid o ∧ spec_valid a o r a') ∨ (¬ vop_valid o ∧ r = refused o VMM_ERR_INVAL ∧ a' = a).

Inductive spec_vops : aspace → list vop → list vret → aspace → Prop :=
| vops_nil a : spec_vops a [] [] a
| vops_cons a o r a1 os rs a2 :
    spec_vop a o r a1 → spec_vops a1 os rs a2 → spec_vops a (o :: os) (r :: rs) a2.

(** ** Addresses and entries *)

Lemma canonical_iff v :
  fits 64 v → vmm_is_canonical v = true ↔ v < 2 ^ 47 ∨ 2 ^ 64 - 2 ^ 47 <= v.
Proof.
  intros [H0 H1]. unfold vmm_is_canonical. change 1 with (2 ^ 1 - 1) at 1.
  rewrite land_ones_mod, !Z.shiftr_div_pow2 by lia. change (2 ^ 1) with 2.
  pose proof (Z.div_mod v (2 ^ 47) ltac:(lia)). pose proof (Z.mod_pos_bound v (2 ^ 47) ltac:(lia)).
  assert (v / 2 ^ 48 = v / 2 ^ 47 / 2) as -> by (rewrite Z.div_div by lia; f_equal; lia).
  set (q := v / 2 ^ 47) in *. pose proof (Z.div_mod q 2 ltac:(lia)).
  pose proof (Z.mod_pos_bound q 2 ltac:(lia)).
  destruct (Z.eqb_spec (q mod 2) 0) as [Hq|Hq]; cbn [negb]; rewrite Z.eqb_eq; lia.
Qed.

Lemma page_ok_iff v : fits 64 v → page_ok v ↔ valid_page v.
Proof.
  intros Hv. unfold page_ok, valid_page. rewrite canonical_iff, aligned_iff by done. tauto.
Qed.

Lemma leaf_entry_addr pa fl : pa mod VMM_PAGE_SIZE = 0 → addr (leaf_entry pa fl) = pa mod 2 ^ 52.
Proof.
  intros Ha. unfold addr, leaf_entry. rewrite !Z.land_lor_distr_l, <-!Z.land_assoc.
  rewrite Z.land_diag. change (Z.land allowed_flags VMM_PTE_ADDR_MASK) with 0.
  change (Z.land VMM_PTE_PRESENT VMM_PTE_ADDR_MASK) with 0. rewrite Z.land_0_r, !Z.lor_0_r.
  rewrite <-(addr_frame (pa mod 2 ^ 52)).
  - change VMM_PTE_ADDR_MASK with (Z.land (2 ^ 52 - 1) VMM_PTE_ADDR_MASK) at 1.
    by rewrite Z.land_assoc, land_ones_mod by lia.
  - apply Z.mod_pos_bound. lia.
  - unfold VMM_PAGE_SIZE in *. change (2 ^ 52) with (4096 * 2 ^ 40).
    rewrite Z.rem_mul_r by lia. rewrite Ha. rewrite Z.add_0_l, Z.mul_comm. apply Z.mod_mul. lia.
Qed.

Lemma leaf_entry_flags pa fl :
  Z.land (leaf_entry pa fl) (wnot 64 VMM_PTE_ADDR_MASK) = Z.lor VMM_PTE_PRESENT (Z.land fl allowed_flags).
Proof.
  unfold leaf_entry. rewrite !Z.land_lor_distr_l, <-!Z.land_assoc.
  change (Z.land VMM_PTE_ADDR_MASK (wnot 64 VMM_PTE_ADDR_MASK)) with 0.
  change (Z.land VMM_PTE_PRESENT (wnot 64 VMM_PTE_ADDR_MASK)) with VMM_PTE_PRESENT.
  change (Z.land allowed_flags (wnot 64 VMM_PTE_ADDR_MASK)) with allowed_flags.
  by rewrite Z.land_0_r, Z.lor_0_l.
Qed.

(** ** Refinement *)

Section refinement.
Context {C : Type} (alloc : C → Z * C) `{!FrameAllocator alloc}.
Context (free : ptr (C → Z → C)) (p2v : Z → bool) (root : Z).
Implicit Types s : machine C.

Local Notation sp := (VmmProof.sp alloc free p2v root).
Local Notation vm_inv := (VmmProof.vm_inv alloc p2v root).

Definition vmm_op s (o : vop) : vret * ptr (machine C) :=
  match o with
  | VMap v pa fl => let '(r, s') := vmm_map_page (Some sp) v pa fl (Some s) in (RDone r, s')
  | VUnmap v => let '(r, s') := vmm_unmap_page (Some sp) v (Some s) in (RDone r, s')
  | VQuery v =>
      let '(r, s') := vmm_query_page (Some sp) v (Some (mk_mapping 0 0 0)) (Some s) in (RInfo r, s')
  end.

Fixpoint vmm_ops s (os : list vop) : list vret * ptr (machine C) :=
  match os with
  | [] => ([], Some s)
  | o :: os =>
      match vmm_op s o with
      | (r, Some s') => let '(rs, s'') := vmm_ops s' os in (r :: rs, s'')
      | (r, None) => ([r], None)
      end
  end.

Definition leaf_info (e : Z) : Z * Z := (addr e, Z.land e (wnot 64 VMM_PTE_ADDR_MASK)).

Record vm_sim s (a : aspace) : Prop := {
  vs_inv : vm_inv s;
  vs_pages : ∀ u, page_ok u → pages a !! u = leaf_info <$> leaf (v_mem s) root u;
  vs_frames : frames a = fa_count (v_ctx s);
  vs_flushed : flushed a = v_invlpg s
}.

Lemma vm_sim_same s s' a :
  vm_sim s a → vm_inv s' → same_pages root s s' → v_invlpg s' = v_invlpg s →
  vm_sim s' (mk_as (pages a) (fa_count (v_ctx s')) (flushed a)).
Proof.
  intros [Hi Hp Hf Hl] Hi' Hs Hl'. constructor; simpl; try done; [|congruence].
  intros u Hu. by rewrite Hp, (Hs u).
Qed.

Lemma vmm_op_invalid s o :
  vop_fits o → ¬ vop_valid o → vmm_op s o = (refused o VMM_ERR_INVAL, Some s).
Proof.
  intros [Hf _] Hv.
  assert (¬ valid_page (vop_page o) → negb (vmm_is_canonical (vop_page o))
    || negb (vmm_is_aligned_4k (vop_page o)) = true) as Hbad.
  { intros Hn. rewrite <-page_ok_iff in Hn by done. unfold page_ok in Hn.
    destruct (vmm_is_canonical _), (vmm_is_aligned_4k _); try done. by destruct Hn. }
  destruct o as [v pa fl|v|v]; unfold vop_valid in Hv; cbn [vop_page refused vmm_op] in *.
  - unfold vmm_map_page. rewrite (bind_err _ _ _ VMM_ERR_INVAL (Some s)); [done|].
    apply fail_if_true. destruct (negb (vmm_is_aligned_4k pa)) eqn:Hpa; [apply orb_true_r|].
    rewrite orb_false_r. apply Hbad. intros Hp. apply Hv. split; [done|]. apply aligned_iff.
    by apply negb_false_iff in Hpa.
  - unfold vmm_unmap_page. rewrite (bind_err _ _ _ VMM_ERR_INVAL (Some s)); [done|].
    apply fail_if_true, Hbad. tauto.
  - unfold vmm_query_page. rewrite (bind_err _ _ _ VMM_ERR_INVAL (Some s)); [done|].
    apply fail_if_true, Hbad. tauto.
Qed.

#[global] Instance vop_valid_dec o : Decision (vop_valid o).
Proof. unfold vop_valid, valid_page. destruct o; apply _. Defined.

Lemma vmm_map_refines s a v pa fl :
  vm_sim s a → fits 64 v → vop_valid (VMap v pa fl) →
  ∃ r s' a', vmm_op s (VMap v pa fl) = (r, Some s') ∧ spec_valid a (VMap v pa fl) r a' ∧ vm_sim s' a'.
Proof.
  intros H Hf [Hv Hpa]. cbn [vop_page] in Hv. apply page_ok_iff in Hv as Hok; [|done].
  destruct (map_run alloc free p2v root s v pa fl (vs_inv _ _ H) Hok ltac:(by apply aligned_iff))
    as (r & s' & Hr & Hi & Hl & Hu & Hcase).
  cbn [vmm_op]. rewrite Hr. unfold spec_valid. cbn [vop_page]. rewrite (vs_pages _ _ H v Hok).
  rewrite (vs_frames _ _ H). destruct (leaf (v_mem s) root v) as [e|]; simpl fmap.
  { destruct Hcase as [-> ->]. by eexists _, s, a. }
  destruct Hcase as [[-> Hleaf]|(-> & Hs & Hc)].
  - eexists _, s', (mk_as (<[v := leaf_info (leaf_entry pa fl)]> (pages a)) (fa_count (v_ctx s')) (flushed a)).
    split; [done|]. split.
    + split; [exact Hu|]. split; [done|]. left. split; [done|]. unfold leaf_info.
      by rewrite leaf_entry_addr, leaf_entry_flags.
    + constructor; try done; [|by rewrite Hl, <-(vs_flushed _ _ H)]. intros u Hpu. cbn [pages]. rewrite Hleaf by done.
      destruct (decide (u = v)) as [->|Hne]; [by rewrite lookup_insert_eq|].
      rewrite lookup_insert_ne by done. by apply (vs_pages _ _ H).
  - eexists _, s', _. split; [done|]. split; [|by apply (vm_sim_same s s' a)].
    split; [exact Hu|]. split; [done|]. by right.
Qed.

Lemma vmm_unmap_refines s a v :
  vm_sim s a → fits 64 v → vop_valid (VUnmap v) →
  ∃ r s' a', vmm_op s (VUnmap v) = (r, Some s') ∧ spec_valid a (VUnmap v) r a' ∧ vm_sim s' a'.
Proof.
  intros H Hf [Hv _]. cbn [vop_page] in Hv. apply page_ok_iff in Hv as Hok; [|done].
  destruct (unmap_run alloc free p2v root s v (vs_inv _ _ H) Hok) as (r & s' & Hr & Hi & Hc & Hcase).
  cbn [vmm_op]. rewrite Hr. unfold spec_valid. cbn [vop_page]. rewrite (vs_pages _ _ H v Hok).
  destruct (leaf (v_mem s) root v) as [e|]; simpl fmap.
  2:{ destruct Hcase as [-> ->]. by eexists _, s, a. }
  destruct Hcase as (-> & Hl & Hleaf). eexists _, s', _. split; [done|]. split; [done|].
  constructor; try done; cbn [pages frames flushed].
  - intros u Hpu. rewrite Hleaf by done. destruct (decide (u = v)) as [->|Hne].
    + by rewrite lookup_delete_eq.
    + rewrite lookup_delete_ne by done. by apply (vs_pages _ _ H).
  - by rewrite Hc, (vs_frames _ _ H).
  - by rewrite Hl, (vs_flushed _ _ H).
Qed.

Lemma vmm_op_refines s a o :
  vm_sim s a → vop_fits o →
  ∃ r s' a', vmm_op s o = (r, Some s') ∧ spec_vop a o r a' ∧ vm_sim s' a'.
Proof.
  intros H Hf. destruct (decide (vop_valid o)) as [Hv|Hv].
  2:{ rewrite vmm_op_invalid by done. eexists _, s, a. split; [done|]. split; [|done]. by right. }
  assert (∃ r s' a', vmm_op s o = (r, Some s') ∧ spec_valid a o r a' ∧ vm_sim s' a') as
    (r & s' & a' & ? & ? & ?); [|exists r, s', a'; split_and!; try done; by left].
  destruct o as [v pa fl|v|v]; destruct Hf as [Hf _].
  - by apply vmm_map_refines.
  - by apply vmm_unmap_refines.
  - destruct Hv as [Hv _]. cbn [vop_page] in *. apply page_ok_iff in Hv as Hok; [|done].
    cbn [vmm_op]. rewrite (query_run alloc free p2v root s v _ (vs_inv _ _ H) Hok).
    unfold spec_valid. cbn [vop_page]. rewrite (vs_pages _ _ H v Hok).
    destruct (leaf (v_mem s) root v); by eexists _, s, a.
Qed.

(** A space whose root is a fresh zeroed frame has no page. *)
Lemma fresh_sim s c' l :
  fa_inv (v_ctx s) → fa_inv c' → fa_avail (v_ctx s) root →
  (∀ x, fa_avail c' x ↔ fa_avail (v_ctx s) x ∧ x ≠ root) →
  (∀ x, fa_avail (v_ctx s) x → p2v x = true ∧ is_Some (v_mem s !! x)) →
  vm_sim (mk_machine (<[root := replicate (Z.to_nat VMM_ENTRIES_PER_TABLE) 0]> (v_mem s)) c' l)
    (mk_as ∅ (fa_count c') l).
Proof.
  intros Hi Hi' Hr Hav Hmem. set (mem := <[root := _]> (v_mem s)).
  destruct (fa_frame _ _ Hi Hr) as [_ Hal]. destruct (Hmem _ Hr) as [Hp2v _].
  assert (∀ i e, entry mem root i = Some e → e = 0) as Hz.
  { intros i e He. unfold entry, mem in He. rewrite lookup_insert_eq in He. cbn [mbind option_bind] in He.
    by apply lookup_replicate in He as [-> _]. }
  assert (∀ p t, tbl mem root p = Some t → p = [] ∧ t = root) as Ht.
  { intros [|i p] t; cbn [tbl]; [by intros [= <-]|].
    destruct (entry mem root i) as [e|] eqn:He; [|done]. by rewrite (Hz _ _ He). }
  constructor; [constructor| |done|done]; cbn [v_mem v_ctx].
  - done.
  - intros a [Ha Hne]%Hav. destruct (Hmem a Ha). split; [done|]. unfold mem. by rewrite lookup_insert_ne.
  - intros p t _ [-> ->]%Ht. split; [|by intros [_ []]%Hav]. split; [|by rewrite aligned_iff].
    eexists. split; [unfold mem; by rewrite lookup_insert_eq|]. apply length_replicate.
  - intros p q t _ _ [-> _]%Ht [-> _]%Ht. done.
  - intros p t i e _ _ [_ ->]%Ht He. by rewrite (Hz _ _ He).
  - intros u _. cbn [pages]. rewrite lookup_empty. unfold leaf.
    destruct (tbl mem root (path_of u)) as [t|] eqn:Hu; [|done]. by apply Ht in Hu as [? _].
Qed.

(** C5: the page tables are a map of pages.  On a space that satisfies the
    invariant (a tree of tables: aligned, mapped, each reached by one path,
    disjoint from the allocator's frames), every sequence of [vmm_map_page],
    [vmm_unmap_page] and [vmm_query_page] with 64-bit arguments returns what a
    finite map from pages to address and flags returns: INVAL on a
    non-canonical or unaligned address, EXISTS and NOT_FOUND exactly when the
    page is, or is not, mapped, NOMEM only with fewer than three frames left and
    then without an effect on any page, and each unmapped page is invalidated in
    the TLB.  No call touches a table out of bounds, and the invariant holds
    after the sequence. *)
Theorem vmm_refines_page_map os s a :
  vm_sim s a → Forall vop_fits os →
  ∃ rs s' a', vmm_ops s os = (rs, Some s') ∧ spec_vops a os rs a' ∧ vm_sim s' a'.
Proof.
  intros H Hf. revert s a H. induction Hf as [|o os Ho _ IH]; intros s a H.
  { eexists [], s, a. split; [done|]. split; [constructor|done]. }
  destruct (vmm_op_refines s a o H Ho) as (r & s1 & a1 & Hr & Hs & H1).
  destruct (IH s1 a1 H1) as (rs & s2 & a2 & Hrs & Hss & H2).
  exists (r :: rs), s2, a2. cbn [vmm_ops]. rewrite Hr, Hrs. split; [done|]. split; [|done].
  by econstructor.
Qed.

End refinement.

(** ** The physical memory manager as frame allocator *)

Definition pmm_avail (p : pmm_state) (a : Z) : Prop :=
  ∃ k, a = k * PMM_PAGE_SIZE ∧ 0 <= k < p_frame_count p ∧ is_free p k = true.

Lemma pmm_alloc_count p q f :
  pmm_inv p → 0 <= f < p_frame_count p → is_free p f = true →
  updates (λ k, is_free p k && negb (k =? f)) p q → p_free_frames p = p_free_frames q + 1.
Proof.
  intros H Hf Hff (Hq & (_ & Hfc & _) & Hk). rewrite (inv_free p H), (inv_free q Hq), Hfc.
  apply (count_z_flip _ _ _ _ f); [lia| |done|].
  - rewrite Hk by done. by rewrite Z.eqb_refl, andb_false_r.
  - intros k ? Hne. rewrite Hk by lia. apply Z.eqb_neq in Hne as ->. by rewrite andb_true_r.
Qed.

#[export] Program Instance pmm_allocator : FrameAllocator m7_vmm_alloc := {
  fa_inv p := pmm_inv p ∧ p_initialized p = true ∧ p_max_phys p <= 2 ^ 52;
  fa_avail := pmm_avail;
  fa_count p := Z.to_nat (p_free_frames p)
}.
Next Obligation.
  intros p a q (H & Hi & Hm) Ha. unfold m7_vmm_alloc in Ha.
  destruct (pmm_alloc_cases p H Hi) as [[Hr Hnone]|(f & q' & Hr & Hf & Hff & _ & Hu)];
    rewrite Hr in Ha; cbn [default] in Ha; injection Ha as <- <-.
  - apply free_frames_zero in Hnone; [|done]. rewrite Hnone. split; [done|]. by left.
  - pose proof (pmm_alloc_count p q' f H Hf Hff Hu) as Hc.
    destruct Hu as (Hq & (Hmp & Hfc & _ & _ & Hin) & Hk).
    pose proof (pmm_free_bounds q' Hq). split; [split_and!; [done|congruence|lia]|].
    right. split; [by exists f|]. split; [simpl; lia|].
    intros x. unfold pmm_avail. rewrite Hfc. split.
    + intros (k & -> & Hkr & Hkf). rewrite Hk in Hkf by done. apply andb_true_iff in Hkf as [Hkf Hne].
      split; [by exists k|]. intros ?. apply negb_true_iff, Z.eqb_neq in Hne.
      unfold PMM_PAGE_SIZE in *. lia.
    + intros ((k & -> & Hkr & Hkf) & Hne). exists k. split; [done|]. split; [done|].
      rewrite Hk by done. destruct (Z.eqb_spec k f) as [->|]; [done|]. by rewrite Hkf.
Qed.
Next Obligation.
  intros p a (H & _ & Hm) (k & -> & Hk & _).
  pose proof (frame_end_le p k H Hk). unfold VMM_PAGE_SIZE, PMM_PAGE_SIZE in *.
  split; [lia|]. apply Z.mod_mul. lia.
Qed.

(** ** Start-up *)

(** The smoke test of the start-up on a fresh space. *)
Lemma smoke_test off root s n l :
  vm_sim m7_vmm_alloc (m7_phys_to_virt off) root s (mk_as ∅ n l) → (3 <= n)%nat →
  let space := sp m7_vmm_alloc (Some m7_vmm_free) (m7_phys_to_virt off) root in
  ∃ s1 s2 n', vmm_map_page (Some space) 0x600000 0x700000 VMM_PTE_WRITABLE (Some s) = (Ok tt, Some s1) ∧
    vmm_query_page (Some space) 0x600000 (Some (mk_mapping 0 0 0)) (Some s1) =
      (Ok (mk_mapping 0x600000 0x700000 (Z.lor VMM_PTE_PRESENT VMM_PTE_WRITABLE)), Some s1) ∧
    vmm_unmap_page (Some space) 0x600000 (Some s1) = (Ok tt, Some s2) ∧
    (n' <= n <= n' + 3)%nat ∧
    vm_sim m7_vmm_alloc (m7_phys_to_virt off) root s2 (mk_as ∅ n' (l ++ [0x600000])).
Proof.
  intros H Hn space.
  destruct (vmm_map_refines m7_vmm_alloc (Some m7_vmm_free) (m7_phys_to_virt off) root s _ 0x600000 0x700000
    VMM_PTE_WRITABLE H) as (r1 & s1 & a1 & Hm & Hs1 & H1); [done|by vm_compute; intuition|].
  unfold spec_valid in Hs1. cbn [vop_page pages frames flushed] in Hs1. rewrite lookup_empty in Hs1.
  destruct Hs1 as (Hf1 & Hl1 & [[-> Hp1]|(_ & _ & ?)]); [|lia].
  cbn [vmm_op] in Hm. fold space in Hm. destruct (vmm_map_page _ _ _ _ _) as [r1' s1'] eqn:Em.
  injection Hm as -> ->.
  pose proof (query_run m7_vmm_alloc (Some m7_vmm_free) (m7_phys_to_virt off) root s1 0x600000
    (mk_mapping 0 0 0) (vs_inv _ _ _ _ _ H1) ltac:(done)) as Hq.
  pose proof (vs_pages _ _ _ _ _ H1 0x600000 ltac:(done)) as Hpg.
  rewrite Hp1, lookup_insert_eq in Hpg.
  destruct (leaf (v_mem s1) root 0x600000) as [e|]; [|done]. cbn [fmap option_fmap option_map] in Hpg.
  injection Hpg as Ha Hfl. rewrite <-Ha, <-Hfl in Hq.
  destruct (vmm_unmap_refines m7_vmm_alloc (Some m7_vmm_free) (m7_phys_to_virt off) root s1 _ 0x600000 H1)
    as (r2 & s2 & a2 & Hu & Hs2 & H2); [done|by vm_compute; intuition|].
  unfold spec_valid in Hs2. cbn [vop_page] in Hs2. rewrite Hp1, lookup_insert_eq in Hs2.
  destruct Hs2 as [-> ->]. cbn [vmm_op] in Hu. fold space in Hu.
  destruct (vmm_unmap_page _ _ _) as [r2' s2'] eqn:Eu. injection Hu as -> ->.
  rewrite delete_insert_eq, delete_empty, Hl1 in H2.
  exists s1, s2, (frames a1). split_and!; try done; lia.
Qed.

(** C20: the kernel's VMM start-up.  When the physical memory manager satisfies
    its invariant with at least four free frames below 2^52, each backed by
    memory the direct map reaches, [m7_vmm_init] does not panic: the root frame
    is allocated, the smoke test maps, finds and unmaps its page, and the space
    it leaves satisfies the page-table invariant, has no page mapped, has
    invalidated the test page and has used at most four frames. *)
Theorem m7_vmm_init_ok off g s :
  pmm_inv (v_ctx s) → p_initialized (v_ctx s) = true → p_max_phys (v_ctx s) <= 2 ^ 52 →
  4 <= p_free_frames (v_ctx s) →
  (∀ a, pmm_avail (v_ctx s) a → m7_phys_to_virt off a = true ∧ is_Some (v_mem s !! a)) →
  ∃ root s' n, m7_vmm_init off g (Some s) =
      (Ok (sp m7_vmm_alloc (Some m7_vmm_free) (m7_phys_to_virt off) root), Some s') ∧
    pmm_avail (v_ctx s) root ∧ p_free_frames (v_ctx s) <= Z.of_nat n + 4 ∧
    vm_sim m7_vmm_alloc (m7_phys_to_virt off) root s' (mk_as ∅ n (v_invlpg s ++ [0x600000])).
Proof.
  intros H Hi Hm Hc Hmem. unfold m7_vmm_init.
  destruct (m7_vmm_alloc (v_ctx s)) as [root c'] eqn:Ha.
  assert (fa_inv (v_ctx s)) as Hinv by done.
  destruct (fa_alloc _ _ _ Hinv Ha) as [Hi' [(_ & Hn & _)|(Hr & Hn & Hav)]]; simpl in Hn; [lia|].
  destruct (fa_frame _ _ Hinv Hr) as [Hrr Hal]. destruct (Hmem _ Hr) as [_ [old Hold]].
  rewrite (bind_ok _ _ _ root (Some (mk_machine (v_mem s) c' (v_invlpg s))))
    by (unfold call_alloc, bind, deref; by rewrite Ha).
  rewrite (bind_ok _ _ _ tt (Some (mk_machine (v_mem s) c' (v_invlpg s)))).
  2:{ apply fail_if_false. apply Z.eqb_neq. unfold PMM_INVALID_FRAME. lia. }
  rewrite (bind_ok _ _ _ _ _ (zero_page_run (mk_machine (v_mem s) c' (v_invlpg s)) root old Hold)).
  pose proof (fresh_sim m7_vmm_alloc (m7_phys_to_virt off) root s c' (v_invlpg s) Hinv Hi' Hr Hav Hmem) as Hs.
  set (s1 := mk_machine _ c' _) in *. fold s1.
  rewrite (bind_ok _ _ _ (sp m7_vmm_alloc (Some m7_vmm_free) (m7_phys_to_virt off) root) (Some s1)).
  2:{ apply or_panic_ok. unfold vmm_space_init. by rewrite (proj2 (aligned_iff root) Hal). }
  destruct (smoke_test off root s1 _ _ Hs) as (s2 & s3 & n & R1 & R2 & R3 & Hn' & Hs3); [simpl; lia|].
  rewrite (bind_ok _ _ _ _ _ (or_panic_ok _ _ _ _ R1)).
  rewrite (bind_ok _ _ _ _ _ (or_panic_ok _ _ _ _ R2)).
  rewrite (bind_ok _ _ _ tt (Some s2)) by done.
  rewrite (bind_ok _ _ _ _ _ (or_panic_ok _ _ _ _ R3)).
  exists root, s3, n. simpl in Hn'. split_and!; try done; lia.
Qed.

(** ** A concrete machine *)

Definition demo_off : Z := 0xffff800000000000.
Definition demo_ram : gmap Z (list Z) :=
  list_to_map ((λ k, (k * PMM_PAGE_SIZE, [] : list Z)) <$> seqZ 0 64).
Definition demo_machine : machine pmm_state := mk_machine demo_ram demo_pmm [].

Lemma demo_frames a :
  pmm_avail demo_pmm a → m7_phys_to_virt demo_off a = true ∧ is_Some (demo_ram !! a).
Proof.
  intros (k & -> & Hk & _). change (p_frame_count demo_pmm) with 64 in Hk.
  assert (forallb (λ k, m7_phys_to_virt demo_off (k * PMM_PAGE_SIZE) &&
    bool_decide (is_Some (demo_ram !! (k * PMM_PAGE_SIZE)))) (seqZ 0 64) = true) as Hall by by vm_compute.
  rewrite forallb_forall in Hall. specialize (Hall k). apply andb_true_iff in Hall as [? Hb].
  - split; [done|]. by apply bool_decide_eq_true in Hb.
  - apply list_elem_of_In, elem_of_seqZ. lia.
Qed.

Definition demo_root : Z := 0x1000.
Definition demo_space_machine : machine pmm_state :=
  mk_machine (<[demo_root := replicate (Z.to_nat VMM_ENTRIES_PER_TABLE) 0]> demo_ram)
    (snd (m7_vmm_alloc demo_pmm)) [].

Lemma demo_sim :
  vm_sim m7_vmm_alloc (m7_phys_to_virt demo_off) demo_root demo_space_machine (mk_as ∅ 28 []).
Proof.
  assert (fa_inv demo_pmm) as Hi by (split; [apply demo_pmm_inv|by vm_compute]).
  destruct (m7_vmm_alloc demo_pmm) as [a c'] eqn:Ha.
  assert (a = demo_root) as -> by (by vm_compute in Ha; injection Ha as <- _).
  destruct (fa_alloc _ _ _ Hi Ha) as [Hi' [(Hbad & _)|(Hr & Hn & Hav)]]; [done|].
  unfold demo_space_machine. rewrite Ha. cbn [snd].
  assert (fa_count c' = 28%nat) as <- by (vm_compute in Hn; vm_compute; congruence).
  by apply (fresh_sim m7_vmm_alloc (m7_phys_to_virt demo_off) demo_root demo_machine c' [] Hi Hi' Hr Hav),
    demo_frames.
Qed.

Lemma m7_vmm_init_ok_witness :
  ∃ root s' n, m7_vmm_init demo_off (mk_space 0 None None None) (Some demo_machine) =
      (Ok (sp m7_vmm_alloc (Some m7_vmm_free) (m7_phys_to_virt demo_off) root), Some s') ∧
    pmm_avail demo_pmm root ∧ p_free_frames demo_pmm <= Z.of_nat n + 4 ∧
    vm_sim m7_vmm_alloc (m7_phys_to_virt demo_off) root s' (mk_as ∅ n ([] ++ [0x600000])).
Proof.
  apply (m7_vmm_init_ok demo_off (mk_space 0 None None None) demo_machine).
  - exact demo_pmm_inv.
  - reflexivity.
  - by vm_compute.
  - by vm_compute.
  - exact demo_frames.
Defined.

Definition demo_vops : list vop :=
  [VMap 0x600000 0x700000 VMM_PTE_WRITABLE; VQuery 0x600000; VMap 0x600000 0x800000 0;
   VUnmap 0x600000; VQuery 0x600000; VMap 0x800000000000 0x1000 0].

Lemma vmm_refines_page_map_witness :
  ∃ rs s' a', vmm_ops m7_vmm_alloc (Some m7_vmm_free) (m7_phys_to_virt demo_off) demo_root
      demo_space_machine demo_vops = (rs, Some s') ∧
    spec_vops (mk_as ∅ 28 []) demo_vops rs a' ∧
    vm_sim m7_vmm_alloc (m7_phys_to_virt demo_off) demo_root s' a'.
Proof.
  apply (vmm_refines_page_map m7_vmm_alloc (Some m7_vmm_free) (m7_phys_to_virt demo_off) demo_root).
  - exact demo_sim.
  - repeat constructor; vm_compute; intuition congruence.
Defined.

(** C36: a physical address of more than 52 bits is not refused.  Mapping an
    unmapped page to an aligned address [pa] of 2^52 or more, with three frames
    left, succeeds, and the page then leads to a different address, [pa] with
    the upper bits dropped. *)
Theorem vmm_map_truncates off root s a v pa fl :
  vm_sim m7_vmm_alloc (m7_phys_to_virt off) root s a → (3 <= frames a)%nat →
  fits 64 v → valid_page v → pages a !! v = None →
  2 ^ 52 <= pa < 2 ^ 64 → pa mod VMM_PAGE_SIZE = 0 →
  let space := sp m7_vmm_alloc (Some m7_vmm_free) (m7_phys_to_virt off) root in
  ∃ s' m, vmm_map_page (Some space) v pa fl (Some s) = (Ok tt, Some s') ∧
    vmm_query_page (Some space) v (Some (mk_mapping 0 0 0)) (Some s') = (Ok m, Some s') ∧
    map_paddr m = pa mod 2 ^ 52 ∧ map_paddr m ≠ pa.
Proof.
  intros H Hn Hf Hv Hnone Hpa Hal space. apply page_ok_iff in Hv as Hok; [|done].
  destruct (map_run m7_vmm_alloc (Some m7_vmm_free) (m7_phys_to_virt off) root s v pa fl (vs_inv _ _ _ _ _ H) Hok
    ltac:(by apply aligned_iff)) as (r & s' & Hr & Hi & _ & _ & Hcase).
  rewrite (vs_pages _ _ _ _ _ H v Hok) in Hnone. rewrite (vs_frames _ _ _ _ _ H) in Hn.
  destruct (leaf (v_mem s) root v); [done|].
  destruct Hcase as [[-> Hleaf]|(_ & _ & ?)]; [|lia].
  pose proof (query_run m7_vmm_alloc (Some m7_vmm_free) (m7_phys_to_virt off) root s' v (mk_mapping 0 0 0) Hi Hok) as Hq.
  rewrite Hleaf, decide_True in Hq by done. rewrite leaf_entry_addr in Hq by done.
  eexists s', _. split; [exact Hr|]. split; [exact Hq|]. cbn [map_paddr]. split; [done|].
  pose proof (Z.mod_pos_bound pa (2 ^ 52) ltac:(lia)). lia.
Qed.

Lemma vmm_map_truncates_witness :
  let space := sp m7_vmm_alloc (Some m7_vmm_free) (m7_phys_to_virt demo_off) demo_root in
  ∃ s' m, vmm_map_page (Some space) 0x600000 (2 ^ 52) 0 (Some demo_space_machine) = (Ok tt, Some s') ∧
    vmm_query_page (Some space) 0x600000 (Some (mk_mapping 0 0 0)) (Some s') = (Ok m, Some s') ∧
    map_paddr m = 2 ^ 52 mod 2 ^ 52 ∧ map_paddr m ≠ 2 ^ 52.
Proof.
  apply (vmm_map_truncates demo_off demo_root demo_space_machine (mk_as ∅ 28 []) 0x600000 (2 ^ 52) 0 demo_sim).
  - cbn [frames]. lia.
  - done.
  - split; [by left|done].
  - done.
  - done.
  - done.
Defined.
