(* ===== verification/Thread.v ===== *)
(** * Threads and the cooperative scheduler
      (kernel/mcsos_thread.c, include/mcsos_thread.h, arch/x86_64/context_switch.S)

    Thread objects live in a heap and the ready queue is linked through their
    [next] fields; the scheduler object is reached through a pointer that may be
    NULL.  The register context of the processor is part of the state, so a
    context switch saves and loads it. *)

From Stdlib Require Import ZArith Lia String.
From stdpp Require Import base list numbers option gmap strings.
From S2P Require Import Prelude.

Local Open Scope Z_scope.
Local Open Scope cm_scope.

Definition MCSOS_THREAD_MAGIC : Z := 0x4d43534f53544852.
Definition MCSOS_STACK_ALIGN : Z := 16.
Definition MCSOS_MIN_KERNEL_STACK : Z := 4096.

Inductive mcsos_thread_state :=
| MCSOS_THREAD_NEW | MCSOS_THREAD_READY | MCSOS_THREAD_RUNNING
| MCSOS_THREAD_BLOCKED | MCSOS_THREAD_ZOMBIE.

#[global] Instance thread_state_eq_dec : EqDecision mcsos_thread_state.
Proof. solve_decision. Defined.

Definition MCSOS_SCHED_EINVAL : Z := -1.
Definition MCSOS_SCHED_ESTATE : Z := -2.
Definition MCSOS_SCHED_ESTACK : Z := -3.
Definition MCSOS_SCHED_ECORRUPT : Z := -4.

Record mcsos_context := mk_context {
  c_rsp : Z; c_rbp : Z; c_rbx : Z; c_r12 : Z; c_r13 : Z; c_r14 : Z; c_r15 : Z; c_rip : Z
}.

Definition zero_context : mcsos_context := mk_context 0 0 0 0 0 0 0 0.

Record mcsos_thread := mk_thread {
  t_magic : Z;
  t_id : Z;
  t_name : string;
  t_state : mcsos_thread_state;
  t_context : mcsos_context;
  t_entry : ptr Z;
  t_arg : Z;
  t_stack_base : Z;
  t_stack_size : Z;
  t_next : ptr Z;
  t_switches : Z;
  t_ticks : Z;
  t_exit_code : Z
}.

Record mcsos_scheduler := mk_sched {
  s_current : ptr Z;
  s_idle : ptr Z;
  s_ready_head : ptr Z;
  s_ready_tail : ptr Z;
  s_next_id : Z;
  s_runnable_count : Z;
  s_context_switches : Z;
  s_ticks : Z;
  s_initialized : Z
}.

(** Thread objects, the scheduler object, stack words, the processor's registers
    and whether [g_active_sched] points to the scheduler. *)
Record kstate := mk_k {
  k_threads : gmap Z mcsos_thread;
  k_sched : mcsos_scheduler;
  k_stack : gmap Z Z;
  k_cpu : mcsos_context;
  k_active : bool
}.

(** ** Field updates *)

Definition set_state (st : mcsos_thread_state) (t : mcsos_thread) : mcsos_thread :=
  mk_thread (t_magic t) (t_id t) (t_name t) st (t_context t) (t_entry t) (t_arg t)
    (t_stack_base t) (t_stack_size t) (t_next t) (t_switches t) (t_ticks t) (t_exit_code t).

Definition set_next (n : ptr Z) (t : mcsos_thread) : mcsos_thread :=
  mk_thread (t_magic t) (t_id t) (t_name t) (t_state t) (t_context t) (t_entry t) (t_arg t)
    (t_stack_base t) (t_stack_size t) n (t_switches t) (t_ticks t) (t_exit_code t).

Definition set_context (c : mcsos_context) (t : mcsos_thread) : mcsos_thread :=
  mk_thread (t_magic t) (t_id t) (t_name t) (t_state t) c (t_entry t) (t_arg t)
    (t_stack_base t) (t_stack_size t) (t_next t) (t_switches t) (t_ticks t) (t_exit_code t).

Definition incr_switches (t : mcsos_thread) : mcsos_thread :=
  mk_thread (t_magic t) (t_id t) (t_name t) (t_state t) (t_context t) (t_entry t) (t_arg t)
    (t_stack_base t) (t_stack_size t) (t_next t) (u64 (t_switches t + 1)) (t_ticks t) (t_exit_code t).

Definition incr_thread_ticks (t : mcsos_thread) : mcsos_thread :=
  mk_thread (t_magic t) (t_id t) (t_name t) (t_state t) (t_context t) (t_entry t) (t_arg t)
    (t_stack_base t) (t_stack_size t) (t_next t) (t_switches t) (u64 (t_ticks t + 1)) (t_exit_code t).

Definition set_current (p : ptr Z) (sc : mcsos_scheduler) : mcsos_scheduler :=
  mk_sched p (s_idle sc) (s_ready_head sc) (s_ready_tail sc) (s_next_id sc)
    (s_runnable_count sc) (s_context_switches sc) (s_ticks sc) (s_initialized sc).

Definition set_queue (h t : ptr Z) (n : Z) (sc : mcsos_scheduler) : mcsos_scheduler :=
  mk_sched (s_current sc) (s_idle sc) h t (s_next_id sc)
    n (s_context_switches sc) (s_ticks sc) (s_initialized sc).

Definition incr_context_switches (sc : mcsos_scheduler) : mcsos_scheduler :=
  mk_sched (s_current sc) (s_idle sc) (s_ready_head sc) (s_ready_tail sc) (s_next_id sc)
    (s_runnable_count sc) (u64 (s_context_switches sc + 1)) (s_ticks sc) (s_initialized sc).

Definition incr_ticks (sc : mcsos_scheduler) : mcsos_scheduler :=
  mk_sched (s_current sc) (s_idle sc) (s_ready_head sc) (s_ready_tail sc) (s_next_id sc)
    (s_runnable_count sc) (s_context_switches sc) (u64 (s_ticks sc + 1)) (s_initialized sc).

(** ** Access through pointers *)

Definition rd_thread (p : ptr Z) : M kstate mcsos_thread :=
  match p with
  | None => ub
  | Some a =>
      let* k := deref in
      match k_threads k !! a with Some t => ret t | None => ub end
  end.

Definition wr_thread (p : ptr Z) (t : mcsos_thread) : M kstate unit :=
  match p with
  | None => ub
  | Some a =>
      let* k := deref in
      match k_threads k !! a with
      | Some _ => store (mk_k (<[a := t]> (k_threads k)) (k_sched k) (k_stack k) (k_cpu k) (k_active k))
      | None => ub
      end
  end.

Definition upd_thread (p : ptr Z) (f : mcsos_thread → mcsos_thread) : M kstate unit :=
  let* t := rd_thread p in wr_thread p (f t).

Definition rd_sched : M kstate mcsos_scheduler := let* k := deref in ret (k_sched k).

Definition upd_sched (f : mcsos_scheduler → mcsos_scheduler) : M kstate unit :=
  let* k := deref in
  store (mk_k (k_threads k) (f (k_sched k)) (k_stack k) (k_cpu k) (k_active k)).

Definition valid_thread_object (thread : ptr Z) : M kstate bool :=
  match thread with
  | None => ret false
  | Some _ => let* t := rd_thread thread in ret (t_magic t =? MCSOS_THREAD_MAGIC)
  end.

(** [sched == NULL || sched->initialized == 0], [None] for NULL. *)
Definition sched_unusable (sched : ptr unit) : M kstate bool :=
  match sched with
  | None => ret true
  | Some _ => let* sc := rd_sched in ret (s_initialized sc =? 0)
  end.

(** ** Operations *)

Definition align_down_uintptr (value alignment : Z) : Z :=
  Z.land value (wnot 64 (u64 (alignment - 1))).

Definition boot_object : mcsos_thread :=
  mk_thread MCSOS_THREAD_MAGIC 0 "boot" MCSOS_THREAD_RUNNING zero_context None 0 0 0 None 0 0 0.

Definition mcsos_scheduler_init (sched : ptr unit) (boot_thread : ptr Z) : M kstate unit :=
  match sched, boot_thread with
  | Some _, Some _ =>
      wr_thread boot_thread boot_object ;;
      let* k := deref in
      store (mk_k (k_threads k) (mk_sched boot_thread boot_thread None None 1 0 0 0 1)
               (k_stack k) (k_cpu k) true)
  | _, _ => fail MCSOS_SCHED_EINVAL
  end.

Section switch.
(** Addresses the linker assigns: label [1:] of the switch, the trampoline. *)
Context (resume_rip trampoline_rip : Z).

Definition mcsos_context_switch (old_thread next_thread : ptr Z) : M kstate unit :=
  let* k := deref in
  let cpu := k_cpu k in
  upd_thread old_thread (set_context (mk_context (c_rsp cpu) (c_rbp cpu) (c_rbx cpu) (c_r12 cpu)
    (c_r13 cpu) (c_r14 cpu) (c_r15 cpu) resume_rip)) ;;
  let* t := rd_thread next_thread in
  let* k := deref in
  store (mk_k (k_threads k) (k_sched k) (k_stack k) (t_context t) (k_active k)).

(** [stack_base] is 0 for NULL. *)
Definition mcsos_thread_prepare (thread : ptr Z) (name : string) (entry : ptr Z) (arg stack_base stack_size id : Z)
    : M kstate unit :=
  match thread, entry with
  | Some _, Some _ =>
      fail_if (stack_base =? 0) MCSOS_SCHED_EINVAL ;;
      fail_if (stack_size <? MCSOS_MIN_KERNEL_STACK) MCSOS_SCHED_ESTACK ;;
      let low := stack_base in
      let high := u64 (low + stack_size) in
      fail_if (high <=? low) MCSOS_SCHED_ESTACK ;;
      let top := align_down_uintptr high MCSOS_STACK_ALIGN in
      fail_if (top <=? u64 (low + 128)) MCSOS_SCHED_ESTACK ;;
      let top := u64 (top - 8) in
      let* k := deref in
      store (mk_k (k_threads k) (k_sched k) (<[top := 0]> (k_stack k)) (k_cpu k) (k_active k)) ;;
      wr_thread thread (mk_thread MCSOS_THREAD_MAGIC id name MCSOS_THREAD_NEW
        (mk_context top 0 0 0 0 0 0 trampoline_rip) entry arg stack_base stack_size None 0 0 0)
  | _, _ => fail MCSOS_SCHED_EINVAL
  end.

(** The argument of the entry the trampoline calls, before its [hlt] loop. *)
Definition mcsos_thread_trampoline : M kstate (option (Z * Z)) :=
  let* k := deref in
  if k_active k then
    let self := s_current (k_sched k) in
    let* valid := valid_thread_object self in
    if valid then
      let* t := rd_thread self in
      ret (option_map (λ f, (f, t_arg t)) (t_entry t))
    else ret None
  else ret None.

Definition mcsos_sched_enqueue (sched : ptr unit) (thread : ptr Z) : M kstate unit :=
  let* bad := sched_unusable sched in
  fail_if bad MCSOS_SCHED_EINVAL ;;
  let* valid := valid_thread_object thread in
  fail_if (negb valid) MCSOS_SCHED_EINVAL ;;
  let* t := rd_thread thread in
  fail_if (negb (bool_decide (t_state t = MCSOS_THREAD_NEW))
    && negb (bool_decide (t_state t = MCSOS_THREAD_READY))
    && negb (bool_decide (t_state t = MCSOS_THREAD_BLOCKED))) MCSOS_SCHED_ESTATE ;;
  upd_thread thread (set_state MCSOS_THREAD_READY) ;;
  upd_thread thread (set_next None) ;;
  let* sc := rd_sched in
  match s_ready_tail sc with
  | None => upd_sched (set_queue thread thread (u64 (s_runnable_count sc + 1)))
  | Some _ =>
      upd_thread (s_ready_tail sc) (set_next thread) ;;
      upd_sched (set_queue (s_ready_head sc) thread (u64 (s_runnable_count sc + 1)))
  end.

Definition mcsos_sched_pick_next (sched : ptr unit) : M kstate (ptr Z) :=
  let* bad := sched_unusable sched in
  if bad then ret None
  else
    let* sc := rd_sched in
    match s_ready_head sc with
    | None => ret (s_idle sc)
    | Some _ =>
        let thread := s_ready_head sc in
        let* t := rd_thread thread in
        upd_sched (set_queue (t_next t) (if t_next t then s_ready_tail sc else None) (s_runnable_count sc)) ;;
        upd_thread thread (set_next None) ;;
        let* sc := rd_sched in
        upd_sched (set_queue (s_ready_head sc) (s_ready_tail sc)
          (if 0 <? s_runnable_count sc then s_runnable_count sc - 1 else s_runnable_count sc)) ;;
        ret thread
    end.

(** The guard of the operations on the current thread. *)
Definition current_guard (sched : ptr unit) : M kstate mcsos_scheduler :=
  let* bad := sched_unusable sched in
  fail_if bad MCSOS_SCHED_EINVAL ;;
  let* sc := rd_sched in
  let* valid := valid_thread_object (s_current sc) in
  fail_if (negb valid) MCSOS_SCHED_EINVAL ;;
  ret sc.

Definition mcsos_sched_yield (sched : ptr unit) : M kstate unit :=
  let* sc := current_guard sched in
  let old_thread := s_current sc in
  let* next_thread := mcsos_sched_pick_next sched in
  let* valid := valid_thread_object next_thread in
  fail_if (negb valid) MCSOS_SCHED_ECORRUPT ;;
  if bool_decide (next_thread = old_thread) then upd_thread old_thread (set_state MCSOS_THREAD_RUNNING)
  else
    let* t := rd_thread old_thread in
    (if bool_decide (t_state t = MCSOS_THREAD_RUNNING) && negb (bool_decide (old_thread = s_idle sc)) then
       upd_thread old_thread (set_state MCSOS_THREAD_READY) ;;
       mcsos_sched_enqueue sched old_thread
     else ret tt) ;;
    upd_thread next_thread (set_state MCSOS_THREAD_RUNNING) ;;
    upd_sched (set_current next_thread) ;;
    upd_thread old_thread incr_switches ;;
    upd_thread next_thread incr_switches ;;
    upd_sched incr_context_switches ;;
    mcsos_context_switch old_thread next_thread.

Definition mcsos_sched_tick (sched : ptr unit) : M kstate unit :=
  let* sc := current_guard sched in
  upd_sched incr_ticks ;;
  upd_thread (s_current sc) incr_thread_ticks.

Definition mcsos_thread_block_current (sched : ptr unit) : M kstate unit :=
  let* sc := current_guard sched in
  fail_if (bool_decide (s_current sc = s_idle sc)) MCSOS_SCHED_ESTATE ;;
  upd_thread (s_current sc) (set_state MCSOS_THREAD_BLOCKED) ;;
  mcsos_sched_yield sched.

Definition mcsos_thread_mark_ready (sched : ptr unit) (thread : ptr Z) : M kstate unit :=
  let* valid := valid_thread_object thread in
  fail_if (negb valid) MCSOS_SCHED_EINVAL ;;
  let* t := rd_thread thread in
  fail_if (negb (bool_decide (t_state t = MCSOS_THREAD_BLOCKED))) MCSOS_SCHED_ESTATE ;;
  mcsos_sched_enqueue sched thread.

End switch.

(** The loops over the queue; [None] when the fuel ends first. *)
Fixpoint count_loop (fuel : nat) (cursor : ptr Z) (count : Z) : M kstate (option Z) :=
  match cursor, fuel with
  | None, _ => ret (Some count)
  | Some _, O => ret None
  | Some _, S fuel => let* t := rd_thread cursor in count_loop fuel (t_next t) (u64 (count + 1))
  end.

Definition mcsos_sched_ready_count (fuel : nat) (sched : ptr unit) : M kstate (option Z) :=
  let* bad := sched_unusable sched in
  if bad then ret (Some 0)
  else let* sc := rd_sched in count_loop fuel (s_ready_head sc) 0.

Fixpoint validate_loop (fuel : nat) (sc : mcsos_scheduler) (cursor last : ptr Z) (count : Z)
    : M kstate (option (ptr Z * Z)) :=
  match cursor, fuel with
  | None, _ => ret (Some (last, count))
  | Some _, O => ret None
  | Some _, S fuel =>
      let* valid := valid_thread_object cursor in
      let* t := rd_thread cursor in
      fail_if (negb valid || negb (bool_decide (t_state t = MCSOS_THREAD_READY))) MCSOS_SCHED_ECORRUPT ;;
      fail_if (bool_decide (cursor = s_current sc)) MCSOS_SCHED_ECORRUPT ;;
      let count := u64 (count + 1) in
      fail_if (u64 (s_runnable_count sc + 1) <? count) MCSOS_SCHED_ECORRUPT ;;
      validate_loop fuel sc (t_next t) cursor count
  end.

(** The loop leaves after [runnable_count + 2] rounds at the latest. *)
Definition validate_fuel (sc : mcsos_scheduler) : nat := Z.to_nat (u64 (s_runnable_count sc + 1) + 2).

Definition mcsos_sched_validate (sched : ptr unit) : M kstate unit :=
  let* sc := current_guard sched in
  let* r := validate_loop (validate_fuel sc) sc (s_ready_head sc) None 0 in
  match r with
  | None => ub
  | Some (last, count) =>
      fail_if (negb (bool_decide (last = s_ready_tail sc))) MCSOS_SCHED_ECORRUPT ;;
      fail_if (negb (count =? s_runnable_count sc)) MCSOS_SCHED_ECORRUPT
  end.

(** ** Start-up (kernel/core/kmain.c) *)

(** [next_id++] on the scheduler object. *)
Definition take_id : M kstate Z :=
  let* sc := rd_sched in
  upd_sched (λ sc, mk_sched (s_current sc) (s_idle sc) (s_ready_head sc) (s_ready_tail sc)
    (u64 (s_next_id sc + 1)) (s_runnable_count sc) (s_context_switches sc) (s_ticks sc) (s_initialized sc)) ;;
  ret (s_next_id sc).

(** The result is the ready count that is logged; three rounds suffice for two
    threads. *)
Definition m9_scheduler_bootstrap (trampoline_rip g_boot_thread g_thread_a g_thread_b : Z)
    (m9_demo_thread_a m9_demo_thread_b g_stack_a g_stack_b : Z) : M kstate (option Z) :=
  or_panic (mcsos_scheduler_init (Some tt) (Some g_boot_thread)) ;;
  let* id := take_id in
  or_panic (mcsos_thread_prepare trampoline_rip (Some g_thread_a) "demo-a" (Some m9_demo_thread_a) 0
    g_stack_a 8192 id) ;;
  let* id := take_id in
  or_panic (mcsos_thread_prepare trampoline_rip (Some g_thread_b) "demo-b" (Some m9_demo_thread_b) 0
    g_stack_b 8192 id) ;;
  or_panic (mcsos_sched_enqueue (Some tt) (Some g_thread_a)) ;;
  or_panic (mcsos_sched_enqueue (Some tt) (Some g_thread_b)) ;;
  or_panic (mcsos_sched_validate (Some tt)) ;;
  mcsos_sched_ready_count 3 (Some tt).
