(* ===== verification/ThreadProof.v ===== *)
(** * The scheduler as a FIFO queue
      (kernel/mcsos_thread.c)

    The linked ready queue represents a list of threads; the operations are
    proved to implement a round-robin scheduler on that list, which saves and
    restores the registers of the threads it switches between. *)

From Stdlib Require Import ZArith Lia.
From stdpp Require Import base list numbers option gmap strings fin_maps.
From S2P Require Import Prelude Thread.

Local Open Scope Z_scope.
Local Open Scope cm_scope.

(** ** Specification *)

(** What the scheduler promises of a thread object: nothing before it is
    prepared, then its state and saved registers. *)
Definition view (t : mcsos_thread) : option (mcsos_thread_state * mcsos_context) :=
  if t_magic t =? MCSOS_THREAD_MAGIC then Some (t_state t, t_context t) else None.

Record asched := mk_a {
  a_cur : Z;
  a_idle : Z;
  a_queue : list Z;
  a_threads : gmap Z (option (mcsos_thread_state * mcsos_context));
  a_cpu : mcsos_context
}.

Definition resumed (resume_rip : Z) (c : mcsos_context) : mcsos_context :=
  mk_context (c_rsp c) (c_rbp c) (c_rbx c) (c_r12 c) (c_r13 c) (c_r14 c) (c_r15 c) resume_rip.

Inductive sop := SEnqueue (x : ptr Z) | SMarkReady (x : ptr Z) | SYield | STick | SBlock.

(** Whether a thread in this state may enter the queue. *)
Definition enters (o : sop) (st : mcsos_thread_state) : bool :=
  match o, st with
  | SEnqueue _, (MCSOS_THREAD_NEW | MCSOS_THREAD_READY | MCSOS_THREAD_BLOCKED) => true
  | SMarkReady _, MCSOS_THREAD_BLOCKED => true
  | _, _ => false
  end.

Definition spec_enter (a : asched) (o : sop) (x : ptr Z) : res unit * asched :=
  match x ≫= λ y, a_threads a !! y ≫= λ v, v ≫= λ sc, Some (y, sc) with
  | None => (Err MCSOS_SCHED_EINVAL, a)
  | Some (y, (st, c)) =>
      if enters o st then
        (Ok tt, mk_a (a_cur a) (a_idle a) (a_queue a ++ [y])
          (<[y := Some (MCSOS_THREAD_READY, c)]> (a_threads a)) (a_cpu a))
      else (Err MCSOS_SCHED_ESTATE, a)
  end.

(** The current thread leaves in state [st], the head of the queue or the idle
    thread runs. *)
Definition switch_to (rip : Z) (st : mcsos_thread_state) (a : asched) (n : Z) (q : list Z) : asched :=
  match a_threads a !! n with
  | Some (Some (_, c)) =>
      mk_a n (a_idle a) q
        (<[n := Some (MCSOS_THREAD_RUNNING, c)]>
          (<[a_cur a := Some (st, resumed rip (a_cpu a))]> (a_threads a))) c
  | _ => a
  end.

Definition spec_leave (rip : Z) (st : mcsos_thread_state) (requeue : bool) (a : asched) : asched :=
  let again := if requeue then [a_cur a] else [] in
  match a_queue a with
  | [] => if decide (a_idle a = a_cur a) then a else switch_to rip st a (a_idle a) again
  | n :: q => switch_to rip st a n (q ++ again)
  end.

Definition spec_sop (rip : Z) (a : asched) (o : sop) : res unit * asched :=
  match o with
  | SEnqueue x | SMarkReady x => spec_enter a o x
  | STick => (Ok tt, a)
  | SYield =>
      (Ok tt, if decide (a_cur a = a_idle a) then spec_leave rip MCSOS_THREAD_RUNNING false a
              else spec_leave rip MCSOS_THREAD_READY true a)
  | SBlock =>
      if decide (a_cur a = a_idle a) then (Err MCSOS_SCHED_ESTATE, a)
      else (Ok tt, spec_leave rip MCSOS_THREAD_BLOCKED false a)
  end.

Fixpoint spec_sops (rip : Z) (a : asched) (os : list sop) : list (res unit) * asched :=
  match os with
  | [] => ([], a)
  | o :: os =>
      let '(r, a1) := spec_sop rip a o in
      let '(rs, a2) := spec_sops rip a1 os in (r :: rs, a2)
  end.

(** Pointers that are passed lead to objects, and a queued thread is not
    enqueued again. *)
Definition sop_ok (a : asched) (o : sop) : Prop :=
  match o with
  | SEnqueue (Some y) => is_Some (a_threads a !! y) ∧ y ∉ a_queue a
  | SMarkReady (Some y) => is_Some (a_threads a !! y)
  | _ => True
  end.

Fixpoint sops_ok (rip : Z) (a : asched) (os : list sop) : Prop :=
  match os with
  | [] => True
  | o :: os => sop_ok a o ∧ sops_ok rip (snd (spec_sop rip a o)) os
  end.

Record a_wf (a : asched) : Prop := {
  wf_cur : ∃ c, a_threads a !! a_cur a = Some (Some (MCSOS_THREAD_RUNNING, c));
  wf_idle : ∃ c, a_threads a !! a_idle a = Some (Some (MCSOS_THREAD_RUNNING, c));
  wf_queue : ∀ x, x ∈ a_queue a → ∃ c, a_threads a !! x = Some (Some (MCSOS_THREAD_READY, c))
}.

(** ** Representation *)

Definition queue_ok (h : gmap Z mcsos_thread) (q : list Z) : Prop :=
  ∀ i x, q !! i = Some x → ∃ t, h !! x = Some t ∧ t_magic t = MCSOS_THREAD_MAGIC ∧
    t_state t = MCSOS_THREAD_READY ∧ t_next t = q !! S i.

Record qrep (k : kstate) (q : list Z) : Prop := {
  q_init : s_initialized (k_sched k) ≠ 0;
  q_head : s_ready_head (k_sched k) = head q;
  q_tail : s_ready_tail (k_sched k) = last q;
  q_count : s_runnable_count (k_sched k) = Z.of_nat (length q);
  q_nodup : NoDup q;
  q_nodes : queue_ok (k_threads k) q;
  q_size : Z.of_nat (size (k_threads k)) < 2 ^ 64
}.

Definition views (k : kstate) := view <$> k_threads k.

Record srep (k : kstate) (a : asched) : Prop := {
  r_queue : qrep k (a_queue a);
  r_cur : s_current (k_sched k) = Some (a_cur a);
  r_idle : s_idle (k_sched k) = Some (a_idle a);
  r_views : views k = a_threads a;
  r_cpu : k_cpu k = a_cpu a
}.

(** ** Views and single updates *)

Lemma view_Some t st c :
  view t = Some (st, c) ↔ t_magic t = MCSOS_THREAD_MAGIC ∧ t_state t = st ∧ t_context t = c.
Proof.
  unfold view. destruct (Z.eqb_spec (t_magic t) MCSOS_THREAD_MAGIC).
  - split; [by intros [= <- <-]|by intros (_ & <- & <-)].
  - split; [done|by intros []].
Qed.

Lemma views_Some k x v :
  views k !! x = Some v ↔ ∃ t, k_threads k !! x = Some t ∧ view t = v.
Proof.
  unfold views. rewrite lookup_fmap, fmap_Some. naive_solver.
Qed.

Lemma views_valid k x st c :
  views k !! x = Some (Some (st, c)) →
  ∃ t, k_threads k !! x = Some t ∧ t_magic t = MCSOS_THREAD_MAGIC ∧ t_state t = st ∧ t_context t = c.
Proof. intros (t & Ht & Hv)%views_Some. apply view_Some in Hv. by exists t. Qed.

Definition with_threads (k : kstate) (h : gmap Z mcsos_thread) : kstate :=
  mk_k h (k_sched k) (k_stack k) (k_cpu k) (k_active k).
Definition with_sched (k : kstate) (sc : mcsos_scheduler) : kstate :=
  mk_k (k_threads k) sc (k_stack k) (k_cpu k) (k_active k).

Lemma rd_thread_run k x t :
  k_threads k !! x = Some t → rd_thread (Some x) (Some k) = (Ok t, Some k).
Proof. intros H. unfold rd_thread. rewrite (bind_ok _ _ _ k (Some k)) by done. by rewrite H. Qed.

Lemma upd_thread_run k x t f :
  k_threads k !! x = Some t →
  upd_thread (Some x) f (Some k) = (Ok tt, Some (with_threads k (<[x := f t]> (k_threads k)))).
Proof.
  intros H. unfold upd_thread. rewrite (bind_ok _ _ _ _ _ (rd_thread_run k x t H)).
  unfold wr_thread. rewrite (bind_ok _ _ _ k (Some k)) by done. by rewrite H.
Qed.

Lemma valid_run k x t :
  k_threads k !! x = Some t →
  valid_thread_object (Some x) (Some k) = (Ok (t_magic t =? MCSOS_THREAD_MAGIC), Some k).
Proof. intros H. unfold valid_thread_object. by rewrite (bind_ok _ _ _ _ _ (rd_thread_run k x t H)). Qed.

Lemma unusable_run k q :
  qrep k q → sched_unusable (Some tt) (Some k) = (Ok false, Some k).
Proof.
  intros H. unfold sched_unusable. rewrite (bind_ok _ _ _ (k_sched k) (Some k)) by done.
  by rewrite (proj2 (Z.eqb_neq _ 0) (q_init k q H)).
Qed.

(** The fields the queue depends on. *)
Definition same_node (t t' : mcsos_thread) : Prop :=
  t_magic t' = t_magic t ∧ t_state t' = t_state t ∧ t_next t' = t_next t.

Lemma queue_ok_insert h q x t t' :
  h !! x = Some t → x ∉ q ∨ same_node t t' → queue_ok h q → queue_ok (<[x := t']> h) q.
Proof.
  intros Hx Hor H i y Hy. destruct (H i y Hy) as (u & Hu & Hm & Hs & Hn).
  destruct (decide (x = y)) as [->|Hne].
  - destruct Hor as [Hq|(E1 & E2 & E3)]; [destruct Hq; by eapply list_elem_of_lookup_2|].
    exists t'. rewrite lookup_insert_eq. split; [done|]. rewrite Hx in Hu. injection Hu as ->.
    by rewrite E1, E2, E3.
  - exists u. by rewrite lookup_insert_ne.
Qed.

(** An update of a thread outside the queue, or of fields the queue does not use. *)
Lemma upd_rep k q x t f :
  qrep k q → k_threads k !! x = Some t → x ∉ q ∨ same_node t (f t) →
  ∃ k', upd_thread (Some x) f (Some k) = (Ok tt, Some k') ∧ qrep k' q ∧
    k_threads k' = <[x := f t]> (k_threads k) ∧ views k' = <[x := view (f t)]> (views k) ∧
    k_sched k' = k_sched k ∧ k_cpu k' = k_cpu k.
Proof.
  intros H Hx Hor. eexists. split; [by apply upd_thread_run|].
  split; [|split_and!; try done; unfold views; simpl; by rewrite fmap_insert].
  destruct H as [H1 H2 H3 H4 H5 H6 H7]. constructor; try done.
  - by apply (queue_ok_insert _ q x t).
  - simpl. rewrite map_size_insert_Some by (by eexists). done.
Qed.

Lemma queue_length k q : qrep k q → Z.of_nat (length q) < 2 ^ 64.
Proof.
  intros H. assert (length q <= size (k_threads k))%nat; [|pose proof (q_size k q H); lia].
  rewrite <-size_dom, <-(size_list_to_set (C := gset Z) q) by apply (q_nodup k q H).
  apply subseteq_size. intros x (i & Hi)%elem_of_list_to_set%list_elem_of_lookup.
  destruct (q_nodes k q H i x Hi) as (t & Ht & _). by eapply elem_of_dom_2.
Qed.

(** ** The queue operations *)

Lemma pick_next_run k x q :
  qrep k (x :: q) →
  ∃ k' t, mcsos_sched_pick_next (Some tt) (Some k) = (Ok (Some x), Some k') ∧ qrep k' q ∧
    k_threads k !! x = Some t ∧ k_threads k' = <[x := set_next None t]> (k_threads k) ∧
    views k' = views k ∧
    s_current (k_sched k') = s_current (k_sched k) ∧ s_idle (k_sched k') = s_idle (k_sched k) ∧
    k_cpu k' = k_cpu k.
Proof.
  intros H. destruct (q_nodes _ _ H 0%nat x eq_refl) as (t & Ht & _ & _ & Hn). simpl in Hn.
  unfold mcsos_sched_pick_next. rewrite (bind_ok _ _ _ _ _ (unusable_run k _ H)).
  rewrite (bind_ok _ _ _ (k_sched k) (Some k)) by done. rewrite (q_head _ _ H). cbn [head].
  rewrite (bind_ok _ _ _ _ _ (rd_thread_run k x t Ht)).
  set (k1 := with_sched k (set_queue (t_next t) (if t_next t then s_ready_tail (k_sched k) else None)
    (s_runnable_count (k_sched k)) (k_sched k))).
  rewrite (bind_ok _ _ _ tt (Some k1)) by done.
  rewrite (bind_ok _ _ _ _ _ (upd_thread_run k1 x t (set_next None) Ht)).
  pose proof (q_count _ _ H) as Hc. pose proof (q_nodup _ _ H) as [Hxq Hnd]%NoDup_cons. simpl length in Hc.
  eexists _, t. split; [reflexivity|]. split; [|split_and!; try done].
  - constructor; simpl; try done.
    + apply (q_init _ _ H).
    + rewrite Hn. by destruct q.
    + rewrite Hn, (q_tail _ _ H). destruct q; [done|]. simpl. by destruct q.
    + rewrite Hc. destruct (Z.ltb_spec 0 (Z.of_nat (S (length q)))); lia.
    + apply (queue_ok_insert _ q x t); [done|by left|].
      intros i y Hy. by apply (q_nodes _ _ H (S i)).
    + rewrite map_size_insert_Some by (by eexists). apply (q_size _ _ H).
  - unfold views. simpl. rewrite fmap_insert. apply insert_id. rewrite lookup_fmap, Ht. done.
Qed.

Lemma pick_idle_run k :
  qrep k [] → mcsos_sched_pick_next (Some tt) (Some k) = (Ok (s_idle (k_sched k)), Some k).
Proof.
  intros H. unfold mcsos_sched_pick_next. rewrite (bind_ok _ _ _ _ _ (unusable_run k _ H)).
  rewrite (bind_ok _ _ _ (k_sched k) (Some k)) by done. by rewrite (q_head _ _ H).
Qed.

(** Linking a node after the last one. *)
Lemma queue_ok_snoc h q x t :
  queue_ok h q → NoDup (q ++ [x]) → h !! x = Some t → t_magic t = MCSOS_THREAD_MAGIC →
  t_state t = MCSOS_THREAD_READY → t_next t = None →
  queue_ok (match last q with
            | Some l => match h !! l with Some tl => <[l := set_next (Some x) tl]> h | None => h end
            | None => h
            end) (q ++ [x]).
Proof.
  intros H Hnd Hx Hm Hs Hn i y Hy.
  apply NoDup_app in Hnd as (Hndq & Hxq & _).
  destruct (last q) as [l|] eqn:Hl.
  2:{ apply last_None in Hl as ->. destruct i; [|done]. injection Hy as <-. by exists t. }
  apply last_Some in Hl as (q' & ->). destruct (H (length q') l) as (tl & Htl & Hlm & Hls & Hln).
  { by rewrite lookup_app_r, Nat.sub_diag by done. }
  rewrite Htl. rewrite <-app_assoc in *. simpl in *.
  assert (x ≠ l) as Hxl by (intros ->; apply (Hxq l); set_solver).
  destruct (decide (y = l)) as [->|Hyl].
  - assert (i = length q') as ->.
    { destruct (decide (i < length q'))%nat as [Hi|Hi].
      - rewrite lookup_app_l in Hy by done. apply NoDup_app in Hndq as (_ & Hd & _).
        destruct (Hd l); [by eapply list_elem_of_lookup_2|set_solver].
      - rewrite lookup_app_r in Hy by lia. destruct (i - length q')%nat as [|[|j]] eqn:Hj; simplify_eq/=; lia. }
    exists (set_next (Some x) tl). rewrite lookup_insert_eq. split_and!; try done. simpl.
    rewrite lookup_app_r by lia. by replace (S (length q') - length q')%nat with 1%nat by lia.
  - rewrite lookup_insert_ne by done. destruct (decide (i < length q'))%nat as [Hi|Hi].
    + rewrite lookup_app_l in Hy by done. destruct (H i y) as (u & Hu & ? & ? & Hun).
      { by rewrite lookup_app_l. }
      exists u. split_and!; try done. rewrite Hun.
      destruct (decide (S i < length q'))%nat.
      * by rewrite !lookup_app_l by done.
      * rewrite !lookup_app_r by lia. by replace (S i - length q')%nat with 0%nat by lia.
    + rewrite lookup_app_r in Hy by lia. destruct (i - length q')%nat as [|[|j]] eqn:Hj; simplify_eq/=.
      exists t. split_and!; try done. rewrite Hn. symmetry. apply lookup_ge_None. rewrite length_app. simpl. lia.
Qed.

Lemma qrep_snoc k q x t sc' h :
  qrep k q → x ∉ q → k_threads k !! x = Some t → t_magic t = MCSOS_THREAD_MAGIC →
  let t1 := set_next None (set_state MCSOS_THREAD_READY t) in
  let h1 := <[x := t1]> (k_threads k) in
  h = match last q with
      | Some l => match h1 !! l with Some tl => <[l := set_next (Some x) tl]> h1 | None => h1 end
      | None => h1
      end →
  sc' = set_queue (head (q ++ [x])) (Some x) (u64 (s_runnable_count (k_sched k) + 1)) (k_sched k) →
  let k' := mk_k h sc' (k_stack k) (k_cpu k) (k_active k) in
  qrep k' (q ++ [x]) ∧ views k' = <[x := Some (MCSOS_THREAD_READY, t_context t)]> (views k).
Proof.
  intros H Hxq Hx Hm t1 h1 Hh Hsc k'.
  assert (NoDup (q ++ [x])) as Hnd.
  { apply NoDup_app. split; [apply (q_nodup _ _ H)|]. split; [set_solver|apply NoDup_singleton]. }
  assert (queue_ok h1 q) as Hq1 by (apply (queue_ok_insert _ q x t); [done|by left|apply (q_nodes _ _ H)]).
  assert (queue_ok h (q ++ [x])) as Hq.
  { subst h. apply (queue_ok_snoc h1 q x t1); try done. unfold h1. by rewrite lookup_insert_eq. }
  assert (view <$> h = <[x := Some (MCSOS_THREAD_READY, t_context t)]> (views k)) as Hv.
  { assert (view <$> h1 = <[x := Some (MCSOS_THREAD_READY, t_context t)]> (views k)) as Hv1.
    { unfold h1, views. rewrite fmap_insert. f_equal. by apply view_Some. }
    subst h. destruct (last q) as [l|]; [|done]. destruct (h1 !! l) as [tl|] eqn:Hl; [|done].
    rewrite fmap_insert. rewrite <-Hv1. apply insert_id. rewrite lookup_fmap, Hl. done. }
  assert (size h = size (k_threads k)) as Hsz.
  { rewrite <-(map_size_fmap view h), Hv. unfold views. rewrite map_size_insert_Some.
    - apply map_size_fmap.
    - rewrite lookup_fmap, Hx. by eexists. }
  split; [|done]. subst sc'. constructor; simpl; try done.
  - apply (q_init _ _ H).
  - by rewrite last_snoc.
  - assert (length (q ++ [x]) <= size (k_threads k))%nat as Hle.
    { rewrite <-Hsz, <-size_dom, <-(size_list_to_set (C := gset Z) (q ++ [x])) by done.
      apply subseteq_size. intros y (i & Hi)%elem_of_list_to_set%list_elem_of_lookup.
      destruct (Hq i y Hi) as (u & Hu & _). by eapply elem_of_dom_2. }
    pose proof (q_size _ _ H). rewrite (q_count _ _ H). rewrite length_app in *. simpl in *.
    rewrite wrap_small; [lia|]. split; lia.
  - rewrite Hsz. apply (q_size _ _ H).
Qed.

Definition enqueuable (st : mcsos_thread_state) : Prop :=
  st = MCSOS_THREAD_NEW ∨ st = MCSOS_THREAD_READY ∨ st = MCSOS_THREAD_BLOCKED.

Lemma enqueue_run k q x t :
  qrep k q → x ∉ q → k_threads k !! x = Some t → t_magic t = MCSOS_THREAD_MAGIC →
  enqueuable (t_state t) →
  ∃ k', mcsos_sched_enqueue (Some tt) (Some x) (Some k) = (Ok tt, Some k') ∧ qrep k' (q ++ [x]) ∧
    views k' = <[x := Some (MCSOS_THREAD_READY, t_context t)]> (views k) ∧
    s_current (k_sched k') = s_current (k_sched k) ∧ s_idle (k_sched k') = s_idle (k_sched k) ∧
    k_cpu k' = k_cpu k.
Proof.
  intros H Hxq Hx Hm Hst. unfold mcsos_sched_enqueue.
  rewrite (bind_ok _ _ _ _ _ (unusable_run k _ H)). rewrite (bind_ok _ _ _ tt (Some k)) by done.
  rewrite (bind_ok _ _ _ _ _ (valid_run k x t Hx)), Hm, Z.eqb_refl.
  rewrite (bind_ok _ _ _ tt (Some k)) by done. rewrite (bind_ok _ _ _ _ _ (rd_thread_run k x t Hx)).
  rewrite (bind_ok _ _ _ tt (Some k)) by (apply fail_if_false; by destruct Hst as [->|[->| ->]]).
  rewrite (bind_ok _ _ _ _ _ (upd_thread_run k x t _ Hx)).
  rewrite (bind_ok _ _ _ _ _ (upd_thread_run (with_threads k (<[x := set_state MCSOS_THREAD_READY t]> (k_threads k)))
    x _ _ (lookup_insert_eq _ _ _))).
  simpl k_threads. rewrite insert_insert_eq.
  set (k1 := with_threads _ _). rewrite (bind_ok _ _ _ (k_sched k) (Some k1)) by done.
  rewrite (q_tail _ _ H). destruct (last q) as [l|] eqn:Hl.
  - assert (x ≠ l) as Hne by (intros ->; apply Hxq; apply last_Some in Hl as (? & ->); set_solver).
    assert (∃ tl, k_threads k !! l = Some tl) as (tl & Htl).
    { apply last_Some in Hl as (q' & ->). destruct (q_nodes _ _ H (length q') l) as (tl & ? & _); [|by exists tl].
      by rewrite lookup_app_r, Nat.sub_diag. }
    rewrite (bind_ok _ _ _ _ _ (upd_thread_run k1 l tl (set_next (Some x)) ltac:(simpl; by rewrite lookup_insert_ne))).
    destruct (qrep_snoc k q x t (set_queue (s_ready_head (k_sched k)) (Some x)
      (u64 (s_runnable_count (k_sched k) + 1)) (k_sched k)) _ H Hxq Hx Hm eq_refl) as [Hq Hv].
    { rewrite (q_head _ _ H). by destruct q. }
    rewrite Hl, lookup_insert_ne, Htl in Hq, Hv by done.
    eexists. split; [reflexivity|]. split_and!; done.
  - destruct (qrep_snoc k q x t (set_queue (Some x) (Some x)
      (u64 (s_runnable_count (k_sched k) + 1)) (k_sched k)) _ H Hxq Hx Hm eq_refl) as [Hq Hv].
    { by apply last_None in Hl as ->. }
    rewrite Hl in Hq, Hv. eexists. split; [reflexivity|]. split_and!; done.
Qed.

Lemma qrep_sched k q sc :
  qrep k q → s_initialized sc = s_initialized (k_sched k) →
  s_ready_head sc = s_ready_head (k_sched k) → s_ready_tail sc = s_ready_tail (k_sched k) →
  s_runnable_count sc = s_runnable_count (k_sched k) → qrep (with_sched k sc) q.
Proof. intros [] E1 E2 E3 E4. constructor; simpl; try done; by rewrite ?E1, ?E2, ?E3, ?E4. Qed.

Lemma upd_sched_run k f : upd_sched f (Some k) = (Ok tt, Some (with_sched k (f (k_sched k)))).
Proof. done. Qed.

Section switching.
Context (rip : Z).

(** The end of [mcsos_sched_yield]: counters and context switch. *)
Definition switch_tail (old_thread next_thread : ptr Z) : M kstate unit :=
  upd_thread next_thread (set_state MCSOS_THREAD_RUNNING) ;;
  upd_sched (set_current next_thread) ;;
  upd_thread old_thread incr_switches ;;
  upd_thread next_thread incr_switches ;;
  upd_sched incr_context_switches ;;
  mcsos_context_switch rip old_thread next_thread.

Lemma upd_rep_view k q x st c f :
  qrep k q → views k !! x = Some (Some (st, c)) →
  (∀ t, x ∉ q ∨ same_node t (f t)) → ∀ st' c',
  (∀ t, view t = Some (st, c) → view (f t) = Some (st', c')) →
  ∃ k', upd_thread (Some x) f (Some k) = (Ok tt, Some k') ∧ qrep k' q ∧
    views k' = <[x := Some (st', c')]> (views k) ∧ k_sched k' = k_sched k ∧ k_cpu k' = k_cpu k.
Proof.
  intros H (t & Ht & Hv)%views_Some Hor st' c' Hf.
  destruct (upd_rep k q x t f H Ht (Hor t)) as (k' & ? & ? & _ & Hv' & ? & ?).
  exists k'. rewrite (Hf t Hv) in Hv'. done.
Qed.

Lemma view_keeps f :
  (∀ t, t_magic (f t) = t_magic t ∧ t_state (f t) = t_state t ∧ t_context (f t) = t_context t) →
  ∀ st c t, view t = Some (st, c) → view (f t) = Some (st, c).
Proof.
  intros Hf st c t (Hm & Hs & Hc)%view_Some. apply view_Some. destruct (Hf t) as (-> & -> & ->). done.
Qed.

Lemma switch_tail_run k q old n so co sn cn :
  qrep k q → old ≠ n → n ∉ q → views k !! old = Some (Some (so, co)) →
  views k !! n = Some (Some (sn, cn)) →
  ∃ k', switch_tail (Some old) (Some n) (Some k) = (Ok tt, Some k') ∧ qrep k' q ∧
    views k' = <[n := Some (MCSOS_THREAD_RUNNING, cn)]>
      (<[old := Some (so, resumed rip (k_cpu k))]> (views k)) ∧
    s_current (k_sched k') = Some n ∧ s_idle (k_sched k') = s_idle (k_sched k) ∧ k_cpu k' = cn.
Proof.
  intros H Hne Hnq Hold Hn. unfold switch_tail.
  destruct (upd_rep_view k q n sn cn (set_state MCSOS_THREAD_RUNNING) H Hn ltac:(by left)
    MCSOS_THREAD_RUNNING cn) as (k1 & R1 & H1 & V1 & S1 & C1).
  { intros t (Hm & _ & Hc)%view_Some. by apply view_Some. }
  rewrite (bind_ok _ _ _ _ _ R1), (bind_ok _ _ _ _ _ (upd_sched_run k1 _)).
  set (k1' := with_sched k1 _).
  assert (qrep k1' q) as H1' by (by apply qrep_sched).
  destruct (upd_rep_view k1' q old so co incr_switches H1') with (st' := so) (c' := co)
    as (k2 & R2 & H2 & V2 & S2 & C2); [|by right|by apply view_keeps|].
  { change (views k1') with (views k1). by rewrite V1, lookup_insert_ne. }
  rewrite (bind_ok _ _ _ _ _ R2).
  destruct (upd_rep_view k2 q n MCSOS_THREAD_RUNNING cn incr_switches H2) with (st' := MCSOS_THREAD_RUNNING) (c' := cn)
    as (k3 & R3 & H3 & V3 & S3 & C3); [|by right|by apply view_keeps|].
  { rewrite V2, lookup_insert_ne by done. change (views k1') with (views k1). by rewrite V1, lookup_insert_eq. }
  rewrite (bind_ok _ _ _ _ _ R3), (bind_ok _ _ _ _ _ (upd_sched_run k3 _)).
  set (k3' := with_sched k3 _).
  assert (qrep k3' q) as H3' by (by apply qrep_sched).
  unfold mcsos_context_switch. rewrite (bind_ok _ _ _ k3' (Some k3')) by done.
  destruct (upd_rep_view k3' q old so co (set_context (resumed rip (k_cpu k3'))) H3')
    with (st' := so) (c' := resumed rip (k_cpu k3')) as (k4 & R4 & H4 & V4 & S4 & C4); [|by right| |].
  { change (views k3') with (views k3). rewrite V3, lookup_insert_ne by done. by rewrite V2, lookup_insert_eq. }
  { intros t (Hm & Hs & _)%view_Some. by apply view_Some. }
  unfold resumed in R4. rewrite (bind_ok _ _ _ _ _ R4).
  assert (views k4 !! n = Some (Some (MCSOS_THREAD_RUNNING, cn))) as Hn4.
  { rewrite V4, lookup_insert_ne by done. change (views k3') with (views k3). by rewrite V3, lookup_insert_eq. }
  apply views_valid in Hn4 as (t & Ht & _ & _ & Hc). rewrite (bind_ok _ _ _ _ _ (rd_thread_run k4 n t Ht)).
  eexists. split; [reflexivity|]. split; [by destruct H4; constructor|].
  cbn [k_sched k_cpu]. rewrite S4. unfold k3'. cbn [with_sched k_sched incr_context_switches s_current s_idle].
  rewrite S3, S2. unfold k1'. cbn [with_sched k_sched set_current s_current s_idle]. rewrite S1.
  split_and!; try done. trans (views k4); [done|]. rewrite V4. change (views k3') with (views k3).
  rewrite V3, V2. change (views k1') with (views k1). rewrite V1.
  assert (k_cpu k3' = k_cpu k) as -> by (unfold k3', with_sched; simpl; by rewrite C3, C2).
  apply map_eq. intros y. destruct (decide (y = n)) as [->|]; [by simplify_map_eq|].
  destruct (decide (y = old)) as [->|]; by simplify_map_eq.
Qed.

(** What [mcsos_sched_yield] does once the next thread is another one. *)
Definition leave_body (idle old_thread next_thread : ptr Z) : M kstate unit :=
  let* t := rd_thread old_thread in
  (if bool_decide (t_state t = MCSOS_THREAD_RUNNING) && negb (bool_decide (old_thread = idle)) then
     upd_thread old_thread (set_state MCSOS_THREAD_READY) ;;
     mcsos_sched_enqueue (Some tt) old_thread
   else ret tt) ;;
  switch_tail old_thread next_thread.

Lemma leave_body_run k q idle old n st c sn cn :
  qrep k q → old ∉ q → old ≠ n → n ∉ q → views k !! old = Some (Some (st, c)) →
  views k !! n = Some (Some (sn, cn)) →
  let requeue := bool_decide (st = MCSOS_THREAD_RUNNING ∧ old ≠ idle) in
  ∃ k', leave_body (Some idle) (Some old) (Some n) (Some k) = (Ok tt, Some k') ∧
    qrep k' (q ++ if requeue then [old] else []) ∧
    views k' = <[n := Some (MCSOS_THREAD_RUNNING, cn)]>
      (<[old := Some (if requeue then MCSOS_THREAD_READY else st, resumed rip (k_cpu k))]> (views k)) ∧
    s_current (k_sched k') = Some n ∧ s_idle (k_sched k') = s_idle (k_sched k) ∧ k_cpu k' = cn.
Proof.
  intros H Hoq Hne Hnq Hold Hn requeue. unfold leave_body.
  destruct (views_valid _ _ _ _ Hold) as (t & Ht & Hm & Hs & Hc).
  rewrite (bind_ok _ _ _ _ _ (rd_thread_run k old t Ht)). rewrite Hs.
  assert (bool_decide (st = MCSOS_THREAD_RUNNING) && negb (bool_decide (Some old = Some idle)) = requeue) as ->.
  { unfold requeue. rewrite bool_decide_and, bool_decide_not. do 2 f_equal.
    apply bool_decide_ext. split; [by intros [= ->]|by intros ->]. }
  destruct requeue.
  - rewrite bind_assoc.
    destruct (upd_rep_view k q old st c (set_state MCSOS_THREAD_READY) H Hold ltac:(by left)
      MCSOS_THREAD_READY c) as (k1 & R1 & H1 & V1 & S1 & C1).
    { intros u (? & _ & ?)%view_Some. by apply view_Some. }
    rewrite (bind_ok _ _ _ _ _ R1).
    destruct (views_valid k1 old MCSOS_THREAD_READY c) as (t1 & Ht1 & Hm1 & Hs1 & Hc1);
      [by rewrite V1, lookup_insert_eq|].
    destruct (enqueue_run k1 q old t1 H1 Hoq Ht1 Hm1) as (k2 & R2 & H2 & V2 & E1 & E2 & C2);
      [rewrite Hs1; by right; left|].
    rewrite (bind_ok _ _ _ _ _ R2).
    destruct (switch_tail_run k2 (q ++ [old]) old n MCSOS_THREAD_READY c sn cn) as (k3 & R3 & H3 & V3 & E3 & E4 & C3);
      try done.
    + intros [?|?%list_elem_of_singleton]%elem_of_app; congruence.
    + by rewrite V2, lookup_insert_eq, Hc1.
    + by rewrite V2, V1, !lookup_insert_ne by done.
    + exists k3. split; [done|]. split; [done|].
      rewrite V3, V2, V1, C2, C1, Hc1, !insert_insert_eq, E4, E2, S1. done.
  - rewrite app_nil_r. rewrite (bind_ok _ _ _ tt (Some k)) by done.
    by destruct (switch_tail_run k q old n st c sn cn) as (k3 & R3 & H3 & V3 & E3 & E4 & C3); [..|eexists].
Qed.

Definition requeues (a : asched) (st : mcsos_thread_state) : bool :=
  bool_decide (st = MCSOS_THREAD_RUNNING ∧ a_cur a ≠ a_idle a).

Lemma yield_run k a st c :
  srep k a → a_threads a !! a_cur a = Some (Some (st, c)) →
  (st = MCSOS_THREAD_RUNNING ∨ st = MCSOS_THREAD_BLOCKED ∧ a_cur a ≠ a_idle a) →
  (a_cur a ≠ a_idle a → ∃ c', a_threads a !! a_idle a = Some (Some (MCSOS_THREAD_RUNNING, c'))) →
  (∀ x, x ∈ a_queue a → ∃ c, a_threads a !! x = Some (Some (MCSOS_THREAD_READY, c))) →
  ∃ k', mcsos_sched_yield rip (Some tt) (Some k) = (Ok tt, Some k') ∧
    srep k' (spec_leave rip (if requeues a st then MCSOS_THREAD_READY else st) (requeues a st) a).
Proof.
  intros [Hq Hcur Hidle Hviews Hcpu] Hold Hst Hi Hready. rewrite <-Hviews in Hold.
  assert (a_cur a ∉ a_queue a) as Hcq.
  { intros (c' & Hc')%Hready. rewrite <-Hviews, Hold in Hc'. destruct Hst as [->|[-> _]]; done. }
  destruct (views_valid _ _ _ _ Hold) as (t & Ht & Hm & Hs & Hc).
  unfold mcsos_sched_yield, current_guard.
  rewrite (bind_ok _ _ _ (k_sched k) (Some k)).
  2:{ rewrite (bind_ok _ _ _ _ _ (unusable_run k _ Hq)). rewrite (bind_ok _ _ _ tt (Some k)) by done.
      rewrite (bind_ok _ _ _ (k_sched k) (Some k)) by done. rewrite Hcur.
      rewrite (bind_ok _ _ _ _ _ (valid_run k _ t Ht)), Hm. done. }
  rewrite Hcur, Hidle.
  assert (∀ k1 n q sn cn, qrep k1 q → views k1 = views k → k_cpu k1 = k_cpu k →
    s_idle (k_sched k1) = s_idle (k_sched k) → a_cur a ∉ q → a_cur a ≠ n → n ∉ q →
    views k !! n = Some (Some (sn, cn)) →
    ∃ k', (let* valid := valid_thread_object (Some n) in
      fail_if (negb valid) MCSOS_SCHED_ECORRUPT ;;
      if bool_decide (Some n = Some (a_cur a)) then upd_thread (Some (a_cur a)) (set_state MCSOS_THREAD_RUNNING)
      else leave_body (Some (a_idle a)) (Some (a_cur a)) (Some n)) (Some k1) = (Ok tt, Some k') ∧
    srep k' (switch_to rip (if requeues a st then MCSOS_THREAD_READY else st) a n
      (q ++ if requeues a st then [a_cur a] else []))) as Hleave.
  { intros k1 n q sn cn H1 V1 C1 I1 Ho Hne Hnq Hn. rewrite <-V1 in Hn, Hold.
    destruct (views_valid _ _ _ _ Hn) as (tn & Htn & Hmn & _).
    rewrite (bind_ok _ _ _ _ _ (valid_run k1 n tn Htn)), Hmn, Z.eqb_refl.
    rewrite (bind_ok _ _ _ tt (Some k1)) by done.
    rewrite bool_decide_false by congruence.
    destruct (leave_body_run k1 q (a_idle a) (a_cur a) n st c sn cn) as (k' & R & H' & V' & E1 & E2 & C'); try done.
    exists k'. split; [done|]. unfold switch_to. rewrite <-Hviews, <-V1, Hn.
    constructor; cbn [a_queue a_cur a_idle a_threads a_cpu]; try done; [congruence|].
    rewrite V'. by rewrite C1, Hcpu. }
  unfold spec_leave. destruct (a_queue a) as [|n q] eqn:Hqueue.
  - rewrite (bind_ok _ _ _ _ _ (pick_idle_run k Hq)). rewrite Hidle.
    destruct (decide (a_idle a = a_cur a)) as [He|He].
    + rewrite He. rewrite (bind_ok _ _ _ _ _ (valid_run k _ t Ht)), Hm.
      rewrite (bind_ok _ _ _ tt (Some k)) by done. rewrite bool_decide_true by done.
      destruct Hst as [->|[_ Hbad]]; [|congruence].
      destruct (upd_rep k [] (a_cur a) t (set_state MCSOS_THREAD_RUNNING) Hq Ht) as (k' & R & H' & _ & V' & S' & C').
      { right. by repeat split. }
      exists k'. split; [done|]. constructor; rewrite ?S', ?C'; try done; [by rewrite Hqueue|].
      rewrite V', <-Hviews. apply insert_id. rewrite Hold. do 2 f_equal. symmetry. by apply view_Some.
    + destruct (Hi (not_eq_sym He)) as (ci & Hci). apply (Hleave k (a_idle a) [] MCSOS_THREAD_RUNNING ci);
        done || congruence || apply not_elem_of_nil || by rewrite Hviews.
  - destruct (pick_next_run k n q Hq) as (k1 & tn & R1 & H1 & _ & _ & V1 & _ & I1 & C1).
    rewrite (bind_ok _ _ _ _ _ R1).
    destruct (Hready n ltac:(left)) as (cn & Hcn). pose proof (q_nodup _ _ Hq) as [? ?]%NoDup_cons.
    apply (Hleave k1 n q MCSOS_THREAD_READY cn); try done; [set_solver..|by rewrite Hviews].
Qed.

(** ** Refinement *)

Definition sched_op (o : sop) : M kstate unit :=
  match o with
  | SEnqueue x => mcsos_sched_enqueue (Some tt) x
  | SMarkReady x => mcsos_thread_mark_ready (Some tt) x
  | SYield => mcsos_sched_yield rip (Some tt)
  | STick => mcsos_sched_tick (Some tt)
  | SBlock => mcsos_thread_block_current rip (Some tt)
  end.

Fixpoint sched_ops (k : kstate) (os : list sop) : list (res unit) * ptr kstate :=
  match os with
  | [] => ([], Some k)
  | o :: os =>
      match sched_op o (Some k) with
      | (r, Some k1) => let '(rs, k2) := sched_ops k1 os in (r :: rs, k2)
      | (r, None) => ([r], None)
      end
  end.

Lemma cur_guard_run k a :
  srep k a → a_wf a → current_guard (Some tt) (Some k) = (Ok (k_sched k), Some k).
Proof.
  intros [Hq Hcur _ Hviews _] Hwf. destruct (wf_cur a Hwf) as (c & Hc). rewrite <-Hviews in Hc.
  destruct (views_valid _ _ _ _ Hc) as (t & Ht & Hm & _). unfold current_guard.
  rewrite (bind_ok _ _ _ _ _ (unusable_run k _ Hq)). rewrite (bind_ok _ _ _ tt (Some k)) by done.
  rewrite (bind_ok _ _ _ (k_sched k) (Some k)) by done. rewrite Hcur.
  rewrite (bind_ok _ _ _ _ _ (valid_run k _ t Ht)), Hm. done.
Qed.

(** The abstract invariant is kept. *)
Lemma enter_wf a o x : sop_ok a o → a_wf a → a_wf (snd (spec_enter a o x)).
Proof.
  intros _ H. unfold spec_enter. destruct (x ≫= _) as [[y [st c]]|] eqn:Hy; [|done].
  destruct (enters o st) eqn:He; [|done].
  assert (a_threads a !! y = Some (Some (st, c))) as Hst.
  { destruct x as [y'|]; [|done]. simpl in Hy. destruct (a_threads a !! y') as [[[st' c']|]|] eqn:E; simpl in Hy; congruence. }
  assert (st ≠ MCSOS_THREAD_RUNNING) as Hnr by (intros ->; by destruct o).
  destruct (wf_cur a H) as (c1 & H1). destruct (wf_idle a H) as (c2 & H2).
  constructor; cbn [snd a_cur a_idle a_queue a_threads].
  - exists c1. rewrite lookup_insert_ne; [done|]. intros ->. congruence.
  - exists c2. rewrite lookup_insert_ne; [done|]. intros ->. congruence.
  - intros z Hz. destruct (decide (z = y)) as [->|]; [exists c; by rewrite lookup_insert_eq|].
    rewrite lookup_insert_ne by done. apply (wf_queue a H). set_solver.
Qed.

Lemma leave_wf a st c :
  a_wf a → NoDup (a_queue a) → a_threads a !! a_cur a = Some (Some (MCSOS_THREAD_RUNNING, c)) →
  (st = MCSOS_THREAD_RUNNING → a_cur a = a_idle a) →
  (st ≠ MCSOS_THREAD_RUNNING → a_cur a ≠ a_idle a) →
  a_wf (spec_leave rip st (bool_decide (st = MCSOS_THREAD_READY)) a).
Proof.
  intros H Hnd Hc Hst Hst'. destruct (wf_idle a H) as (ci & Hi).
  assert (∀ n q sn cn, a_threads a !! n = Some (Some (sn, cn)) → a_cur a ≠ n → n ∉ q → a_cur a ∉ q →
    (∀ x, x ∈ q → ∃ c, a_threads a !! x = Some (Some (MCSOS_THREAD_READY, c))) →
    a_wf (switch_to rip st a n (q ++ if bool_decide (st = MCSOS_THREAD_READY) then [a_cur a] else []))) as Hsw.
  { intros n q sn cn Hn Hne Hnq Hcq Hq. unfold switch_to. rewrite Hn.
    constructor; cbn [a_cur a_idle a_queue a_threads].
    - exists cn. by rewrite lookup_insert_eq.
    - destruct (decide (a_idle a = n)) as [->|Hin]; [exists cn; by rewrite lookup_insert_eq|].
      rewrite lookup_insert_ne by done. destruct (decide (a_cur a = a_idle a)) as [Hci|Hci].
      + rewrite <-Hci. eexists. rewrite lookup_insert_eq.
        destruct (decide (st = MCSOS_THREAD_RUNNING)) as [->|Hnr]; [done|]. by destruct (Hst' Hnr).
      + exists ci. by rewrite lookup_insert_ne.
    - intros x [Hx|Hx]%elem_of_app.
      + destruct (Hq x Hx) as (cx & Hcx). exists cx.
        assert (n ≠ x) by (intros ->; by destruct Hnq). assert (a_cur a ≠ x) by (intros E; by destruct Hcq; rewrite E).
        by rewrite !lookup_insert_ne.
      + case_bool_decide as Hr; [|by apply not_elem_of_nil in Hx]. apply list_elem_of_singleton in Hx as ->.
        eexists. rewrite lookup_insert_ne, lookup_insert_eq by done. by rewrite Hr. }
  assert (a_cur a ∉ a_queue a) as Hcq by (intros (? & ?)%(wf_queue a H); congruence).
  unfold spec_leave. destruct (a_queue a) as [|n q] eqn:Hqu.
  - destruct (decide (a_idle a = a_cur a)); [done|].
    apply (Hsw (a_idle a) [] MCSOS_THREAD_RUNNING ci); try done || congruence || apply not_elem_of_nil.
    intros x ?%not_elem_of_nil. done.
  - destruct (wf_queue a H n) as (cn & Hcn); [rewrite Hqu; left|]. apply NoDup_cons in Hnd as [? ?].
    apply (Hsw n q MCSOS_THREAD_READY cn); try done; [set_solver..|].
    intros x Hx. apply (wf_queue a H). rewrite Hqu. by right.
Qed.

Lemma srep_enter k a k' y c :
  srep k a → qrep k' (a_queue a ++ [y]) →
  views k' = <[y := Some (MCSOS_THREAD_READY, c)]> (views k) →
  s_current (k_sched k') = s_current (k_sched k) → s_idle (k_sched k') = s_idle (k_sched k) →
  k_cpu k' = k_cpu k →
  srep k' (mk_a (a_cur a) (a_idle a) (a_queue a ++ [y])
    (<[y := Some (MCSOS_THREAD_READY, c)]> (a_threads a)) (a_cpu a)).
Proof. intros [] ? ? ? ? ?. constructor; simpl; congruence. Qed.

Lemma enqueue_refines k a x o :
  srep k a → (∀ y, x = Some y → is_Some (a_threads a !! y)) →
  (∀ y c st, x = Some y → a_threads a !! y = Some (Some (st, c)) → enters o st = true → y ∉ a_queue a) →
  (o = SEnqueue x ∨ o = SMarkReady x) →
  ∃ k', sched_op o (Some k) = (fst (spec_enter a o x), Some k') ∧ srep k' (snd (spec_enter a o x)).
Proof.
  intros H Hx Hnq Ho. pose proof (r_queue _ _ H) as Hq. destruct x as [y|].
  2:{ exists k. split; [|done]. destruct Ho as [->| ->]; simpl; [|done].
      unfold mcsos_sched_enqueue. by rewrite (bind_ok _ _ _ _ _ (unusable_run k _ Hq)). }
  destruct (Hx y eq_refl) as (v & Hv). pose proof Hv as Hv'. rewrite <-(r_views _ _ H) in Hv'.
  apply views_Some in Hv' as (t & Ht & Hview). unfold spec_enter. cbn [mbind option_bind]. rewrite Hv.
  destruct v as [[st c]|]; cbn [mbind option_bind].
  2:{ assert ((t_magic t =? MCSOS_THREAD_MAGIC) = false) as Hm by (unfold view in Hview; by destruct (t_magic t =? _)).
      exists k. split; [|done]. destruct Ho as [->| ->]; simpl.
      - unfold mcsos_sched_enqueue. rewrite (bind_ok _ _ _ _ _ (unusable_run k _ Hq)).
        rewrite (bind_ok _ _ _ tt (Some k)) by done. by rewrite (bind_ok _ _ _ _ _ (valid_run k y t Ht)), Hm.
      - unfold mcsos_thread_mark_ready. by rewrite (bind_ok _ _ _ _ _ (valid_run k y t Ht)), Hm. }
  apply view_Some in Hview as (Hm & Hs & Hc).
  assert (enters o st = true → ∃ k', mcsos_sched_enqueue (Some tt) (Some y) (Some k) = (Ok tt, Some k') ∧
    srep k' (mk_a (a_cur a) (a_idle a) (a_queue a ++ [y])
      (<[y := Some (MCSOS_THREAD_READY, c)]> (a_threads a)) (a_cpu a))) as Henq.
  { intros He. destruct (enqueue_run k (a_queue a) y t) as (k' & R & H' & V & E1 & E2 & C); try done.
    - by apply (Hnq y c st).
    - rewrite Hs. unfold enqueuable. destruct Ho as [->| ->], st; try done; tauto.
    - exists k'. split; [done|]. rewrite Hc in V. by apply (srep_enter k). }
  destruct Ho as [->| ->]; cbn [sched_op].
  - destruct (enters _ st) eqn:He; [by apply Henq|]. exists k. split; [|done].
    unfold mcsos_sched_enqueue. rewrite (bind_ok _ _ _ _ _ (unusable_run k _ Hq)).
    rewrite (bind_ok _ _ _ tt (Some k)) by done. rewrite (bind_ok _ _ _ _ _ (valid_run k y t Ht)), Hm.
    rewrite (bind_ok _ _ _ tt (Some k)) by done. rewrite (bind_ok _ _ _ _ _ (rd_thread_run k y t Ht)), Hs.
    by rewrite (bind_err _ _ _ MCSOS_SCHED_ESTATE (Some k)) by (by destruct st).
  - unfold mcsos_thread_mark_ready. rewrite (bind_ok _ _ _ _ _ (valid_run k y t Ht)), Hm.
    rewrite (bind_ok _ _ _ tt (Some k)) by done. rewrite (bind_ok _ _ _ _ _ (rd_thread_run k y t Ht)), Hs.
    destruct (enters _ st) eqn:He; [|exists k; by destruct st].
    rewrite (bind_ok _ _ _ tt (Some k)) by (by destruct st). by apply Henq.
Qed.

Lemma tick_refines k a :
  srep k a → a_wf a → ∃ k', mcsos_sched_tick (Some tt) (Some k) = (Ok tt, Some k') ∧ srep k' a.
Proof.
  intros H Hwf. unfold mcsos_sched_tick. rewrite (bind_ok _ _ _ _ _ (cur_guard_run k a H Hwf)).
  rewrite (bind_ok _ _ _ _ _ (upd_sched_run k _)). rewrite (r_cur _ _ H).
  set (k1 := with_sched k _). assert (qrep k1 (a_queue a)) as H1 by (by apply qrep_sched; [apply (r_queue _ _ H)|..]).
  destruct (wf_cur a Hwf) as (c & Hc). rewrite <-(r_views _ _ H) in Hc.
  destruct (upd_rep_view k1 (a_queue a) (a_cur a) MCSOS_THREAD_RUNNING c incr_thread_ticks H1 Hc)
    with (st' := MCSOS_THREAD_RUNNING) (c' := c) as (k' & R & H' & V & S' & C); [by right|by apply view_keeps|].
  exists k'. split; [done|]. destruct H as [Hq Hcur Hidle Hviews Hcpu].
  constructor; rewrite ?S', ?C; try done. rewrite V. change (views k1) with (views k). rewrite Hviews.
  apply insert_id. by rewrite <-Hviews.
Qed.

Lemma block_refines k a :
  srep k a → a_wf a → a_cur a ≠ a_idle a →
  ∃ k', mcsos_thread_block_current rip (Some tt) (Some k) = (Ok tt, Some k') ∧
    srep k' (spec_leave rip MCSOS_THREAD_BLOCKED false a).
Proof.
  intros H Hwf Hne. unfold mcsos_thread_block_current. rewrite (bind_ok _ _ _ _ _ (cur_guard_run k a H Hwf)).
  destruct H as [Hq Hcur Hidle Hviews Hcpu]. rewrite Hcur, Hidle.
  rewrite (bind_ok _ _ _ tt (Some k)) by (apply fail_if_false, bool_decide_eq_false; congruence).
  destruct (wf_cur a Hwf) as (c & Hc).
  assert (a_cur a ∉ a_queue a) as Hcq by (intros (? & ?)%(wf_queue a Hwf); congruence).
  destruct (upd_rep_view k (a_queue a) (a_cur a) MCSOS_THREAD_RUNNING c (set_state MCSOS_THREAD_BLOCKED) Hq)
    with (st' := MCSOS_THREAD_BLOCKED) (c' := c) as (k1 & R & H1 & V & S' & C);
    [by rewrite Hviews|by left| |].
  { intros t (? & _ & ?)%view_Some. by apply view_Some. }
  rewrite (bind_ok _ _ _ _ _ R).
  set (a1 := mk_a (a_cur a) (a_idle a) (a_queue a)
    (<[a_cur a := Some (MCSOS_THREAD_BLOCKED, c)]> (a_threads a)) (a_cpu a)).
  destruct (yield_run k1 a1 MCSOS_THREAD_BLOCKED c) as (k2 & R2 & H2).
  - constructor; try done; cbn [a1 a_threads a_cpu a_cur a_idle]; congruence.
  - cbn [a1 a_threads a_cur]. by rewrite lookup_insert_eq.
  - by right.
  - intros _. destruct (wf_idle a Hwf) as (ci & Hi). exists ci. cbn [a1 a_threads a_idle].
    by rewrite lookup_insert_ne.
  - intros x Hx. cbn [a1 a_threads a_queue] in *. destruct (wf_queue a Hwf x Hx) as (cx & ?). exists cx.
    rewrite lookup_insert_ne; [done|]. intros E. destruct Hcq. by rewrite E.
  - exists k2. split; [done|]. unfold requeues in H2. rewrite bool_decide_false in H2 by (by intros []).
    assert (spec_leave rip MCSOS_THREAD_BLOCKED false a1 = spec_leave rip MCSOS_THREAD_BLOCKED false a) as <-; [|done].
    assert (∀ n q, a_cur a ≠ n →
      switch_to rip MCSOS_THREAD_BLOCKED a1 n q = switch_to rip MCSOS_THREAD_BLOCKED a n q ∨
      ¬ ∃ s, a_threads a !! n = Some (Some s)) as Hsw.
    { intros n q Hn. unfold switch_to. cbn [a1 a_threads a_cur a_idle a_cpu]. rewrite lookup_insert_ne by done.
      destruct (a_threads a !! n) as [[[]|]|]; [left|right; by intros []..].
      by rewrite insert_insert_eq. }
    unfold spec_leave. cbn [a1 a_queue a_cur a_idle]. destruct (a_queue a) as [|n q] eqn:Hqu.
    + destruct (decide _) as [?|?]; [congruence|]. destruct (Hsw (a_idle a) []) as [->|[]]; [done|done|].
      destruct (wf_idle a Hwf) as (ci & Hi). by eexists.
    + destruct (Hsw n (q ++ [])) as [->|[]]; [set_solver|done|].
      destruct (wf_queue a Hwf n) as (cn & Hn); [rewrite Hqu; left|]. by eexists.
Qed.

Lemma sched_op_refines k a o :
  srep k a → a_wf a → sop_ok a o →
  ∃ k', sched_op o (Some k) = (fst (spec_sop rip a o), Some k') ∧
    srep k' (snd (spec_sop rip a o)) ∧ a_wf (snd (spec_sop rip a o)).
Proof.
  intros H Hwf Hok. pose proof (q_nodup _ _ (r_queue _ _ H)) as Hnd.
  destruct (wf_cur a Hwf) as (c & Hc). destruct o as [x|x| | |]; cbn [spec_sop].
  - destruct (enqueue_refines k a x (SEnqueue x) H) as (k' & ? & ?); [..|by left|].
    + intros y ->. by destruct Hok.
    + intros y ? ? -> _ _. by destruct Hok.
    + exists k'. split_and!; try done. by apply enter_wf.
  - destruct (enqueue_refines k a x (SMarkReady x) H) as (k' & ? & ?); [..|by right|].
    + by intros y ->.
    + intros y cy st -> Hy He (cy' & Hy')%(wf_queue a Hwf). by destruct st; simplify_eq.
    + exists k'. split_and!; try done. by apply enter_wf.
  - destruct (yield_run k a MCSOS_THREAD_RUNNING c H Hc) as (k' & R & H').
    { by left. }
    { intros _. apply (wf_idle a Hwf). }
    { apply (wf_queue a Hwf). }
    exists k'. split; [done|]. unfold requeues in H'. cbn [snd].
    destruct (decide (a_cur a = a_idle a)) as [He|He].
    + rewrite bool_decide_false in H' by (intros [_ []]; done). split; [done|].
      apply (leave_wf a MCSOS_THREAD_RUNNING c); done.
    + rewrite bool_decide_true in H' by done. split; [done|].
      apply (leave_wf a MCSOS_THREAD_READY c); done.
  - destruct (tick_refines k a H Hwf) as (k' & ? & ?). by exists k'.
  - cbn [sched_op]. destruct (decide (a_cur a = a_idle a)) as [He|He].
    + exists k. split; [|done]. unfold mcsos_thread_block_current.
      rewrite (bind_ok _ _ _ _ _ (cur_guard_run k a H Hwf)), (r_cur _ _ H), (r_idle _ _ H), He.
      by rewrite (bind_err _ _ _ MCSOS_SCHED_ESTATE (Some k)) by (apply fail_if_true, bool_decide_eq_true; done).
    + destruct (block_refines k a H Hwf He) as (k' & ? & ?). exists k'. split_and!; try done.
      apply (leave_wf a MCSOS_THREAD_BLOCKED c); done.
Qed.

(** C9: the scheduler implements its specification.  From a state that
    represents a FIFO queue of ready threads with a valid running thread, every
    sequence of enqueue, mark-ready, yield, tick and block calls, in which a
    queued thread is not enqueued again, returns what the specification returns
    (EINVAL on NULL and unprepared threads, ESTATE on a thread whose state does
    not allow the move), follows the queue, saves the registers of the thread
    that leaves and loads those of the thread that enters, and ends in a state
    that represents the specification's: no call follows a dangling pointer. *)
Theorem sched_refines_queue os k a :
  srep k a → a_wf a → sops_ok rip a os →
  ∃ k', sched_ops k os = (fst (spec_sops rip a os), Some k') ∧
    srep k' (snd (spec_sops rip a os)) ∧ a_wf (snd (spec_sops rip a os)).
Proof.
  revert k a. induction os as [|o os IH]; intros k a H Hwf Hok; [by exists k|].
  destruct Hok as [Ho Hok]. destruct (sched_op_refines k a o H Hwf Ho) as (k1 & R1 & H1 & W1).
  cbn [sched_ops spec_sops]. rewrite R1. destruct (spec_sop rip a o) as [r a1]. cbn [fst snd] in *.
  destruct (IH k1 a1 H1 W1 Hok) as (k2 & R2 & H2 & W2). exists k2. rewrite R2.
  by destruct (spec_sops rip a1 os).
Qed.

(** ** Round robin *)

Lemma yield_pops a x q c st :
  a_queue a = x :: q → a_threads a !! x = Some (Some (st, c)) →
  let a' := snd (spec_sop rip a SYield) in
  a_cur a' = x ∧ a_idle a' = a_idle a ∧ a_cpu a' = c ∧
  a_queue a' = q ++ (if decide (a_cur a = a_idle a) then [] else [a_cur a]) ∧
  ∀ y, y ≠ x → y ≠ a_cur a → a_threads a' !! y = a_threads a !! y.
Proof.
  intros Hq Hx a'. subst a'. cbn [spec_sop snd].
  destruct (decide (a_cur a = a_idle a)); unfold spec_leave, switch_to; rewrite Hq, Hx;
    cbn [a_cur a_idle a_cpu a_queue a_threads]; split_and!; try done;
    intros y ? ?; by rewrite !lookup_insert_ne.
Qed.

Lemma yields_reach i k a x c :
  srep k a → a_wf a → a_queue a !! i = Some x → a_threads a !! x = Some (Some (MCSOS_THREAD_READY, c)) →
  ∃ k', sched_ops k (replicate (S i) SYield) = (replicate (S i) (Ok tt), Some k') ∧
    s_current (k_sched k') = Some x ∧ s_idle (k_sched k') = Some (a_idle a) ∧ k_cpu k' = c.
Proof.
  revert k a. induction i as [|i IH]; intros k a H Hwf Hi Hx;
    destruct (sched_op_refines k a SYield H Hwf I) as (k1 & R1 & H1 & W1);
    destruct (a_queue a) as [|y q] eqn:Hq; try done.
  - injection Hi as ->. destruct (yield_pops a x q c _ Hq Hx) as (E1 & E2 & E3 & _).
    exists k1. cbn [replicate sched_ops]. rewrite R1. split; [done|].
    rewrite (r_cur _ _ H1), (r_idle _ _ H1), (r_cpu _ _ H1). by rewrite E1, E2, E3.
  - destruct (wf_queue a Hwf y) as (cy & Hy); [rewrite Hq; left|].
    destruct (yield_pops a y q cy _ Hq Hy) as (E1 & E2 & E3 & E4 & E5).
    pose proof (q_nodup _ _ (r_queue _ _ H)) as Hnd. rewrite Hq in Hnd. apply NoDup_cons in Hnd as [Hyq _].
    simpl in Hi. assert (x ∈ q) as Hxq by (by eapply list_elem_of_lookup_2).
    destruct (IH k1 (snd (spec_sop rip a SYield)) H1 W1) as (k2 & R2 & ? & ? & ?).
    + rewrite E4. by apply lookup_app_l_Some.
    + rewrite E5; [done|by intros ->|]. intros ->. destruct (wf_cur a Hwf). congruence.
    + exists k2. cbn [replicate sched_ops]. rewrite R1. cbn [replicate sched_ops] in R2. rewrite R2.
      split; [done|]. by rewrite <-E2.
Qed.

(** C25: round robin.  A thread at position [i] of the ready queue runs after
    exactly [i + 1] yields in a row, all of which succeed, and it runs with the
    registers it was saved with. *)
Theorem sched_round_robin i k a x c :
  srep k a → a_wf a → a_queue a !! i = Some x → a_threads a !! x = Some (Some (MCSOS_THREAD_READY, c)) →
  ∃ k', sched_ops k (replicate (S i) SYield) = (replicate (S i) (Ok tt), Some k') ∧
    s_current (k_sched k') = Some x ∧ k_cpu k' = c.
Proof.
  intros H Hwf Hi Hx. destruct (yields_reach i k a x c H Hwf Hi Hx) as (k' & ? & ? & _ & ?). by exists k'.
Qed.

(** A full round.  A running thread other than the idle one that yields to
    a non-empty queue of [n] threads runs again after [n + 1] yields, with the
    registers it had when it yielded, resumed after the switch. *)
Theorem sched_full_round k a :
  srep k a → a_wf a → a_cur a ≠ a_idle a → a_queue a ≠ [] →
  ∃ k', sched_ops k (replicate (S (length (a_queue a))) SYield) =
      (replicate (S (length (a_queue a))) (Ok tt), Some k') ∧
    s_current (k_sched k') = s_current (k_sched k) ∧ k_cpu k' = resumed rip (k_cpu k).
Proof.
  intros H Hwf Hne Hnil. destruct (sched_op_refines k a SYield H Hwf I) as (k1 & R1 & H1 & W1).
  destruct (a_queue a) as [|n q] eqn:Hq; [done|].
  destruct (wf_queue a Hwf n) as (cn & Hn); [rewrite Hq; left|].
  destruct (yield_pops a n q cn _ Hq Hn) as (_ & _ & _ & E4 & _). rewrite decide_False in E4 by done.
  assert (a_cur a ≠ n) as Hcn by (intros <-; destruct (wf_cur a Hwf); congruence).
  destruct (yields_reach (length q) k1 _ (a_cur a) (resumed rip (a_cpu a)) H1 W1) as (k2 & R2 & C2 & _ & P2).
  - rewrite E4. by rewrite lookup_app_r, Nat.sub_diag.
  - cbn [spec_sop snd]. rewrite decide_False by done. unfold spec_leave, switch_to. rewrite Hq, Hn.
    cbn [a_threads]. by rewrite lookup_insert_ne, lookup_insert_eq.
  - exists k2. rewrite (r_cur _ _ H), (r_cpu _ _ H). split; [|done].
    cbn [length replicate sched_ops]. rewrite R1. cbn [replicate sched_ops] in R2. by rewrite R2.
Qed.

End switching.

(** ** Validation *)

(** The list of ready threads a pointer leads to. *)
Fixpoint chain (h : gmap Z mcsos_thread) (p : ptr Z) (q : list Z) : Prop :=
  match q with
  | [] => p = None
  | x :: q' => p = Some x ∧ ∃ t, h !! x = Some t ∧ t_magic t = MCSOS_THREAD_MAGIC ∧
      t_state t = MCSOS_THREAD_READY ∧ chain h (t_next t) q'
  end.

Lemma chain_queue h p q : chain h p q ↔ p = head q ∧ queue_ok h q.
Proof.
  revert p. induction q as [|x q IH]; intros p; simpl.
  { split; [|by intros []]. intros ->. split; [done|]. by intros i y. }
  split.
  - intros (-> & t & Ht & Hm & Hs & [Hn Hq]%IH). split; [done|]. intros [|i] y Hy; simpl in *.
    + injection Hy as <-. exists t. rewrite Hn. by destruct q.
    + by apply Hq.
  - intros (-> & Hq). split; [done|]. destruct (Hq 0%nat x eq_refl) as (t & Ht & Hm & Hs & Hn).
    exists t. split_and!; try done. apply IH. split; [rewrite Hn; by destruct q|].
    intros i y Hy. by apply (Hq (S i)).
Qed.

(** A chain that ends has no thread twice. *)
Lemma chain_det h p q q' : chain h p q → chain h p q' → q = q'.
Proof.
  revert p q'. induction q as [|x q IH]; intros p [|x' q']; simpl; try done.
  - by intros -> [? _].
  - by intros [-> _] ?.
  - intros (-> & t & Ht & _ & _ & Hc) ([= <-] & t' & Ht' & _ & _ & Hc').
    assert (t' = t) as -> by congruence. by rewrite (IH _ _ Hc Hc').
Qed.

Lemma chain_suffix h p q1 x q2 : chain h p (q1 ++ x :: q2) → chain h (Some x) (x :: q2).
Proof.
  revert p. induction q1 as [|y q1 IH]; intros p; simpl; [intros (-> & H); done|].
  intros (_ & t & _ & _ & _ & H). by eapply IH.
Qed.

Lemma chain_nodup h p q : chain h p q → NoDup q.
Proof.
  revert p. induction q as [|x q IH]; intros p H; [apply NoDup_nil_2|].
  apply NoDup_cons. pose proof H as (-> & t & _ & _ & _ & Hq). split; [|by eapply IH].
  intros (q1 & q2 & ->)%list_elem_of_split.
  pose proof (chain_suffix h _ (x :: q1) x q2 H) as H2.
  pose proof (chain_det _ _ _ _ H H2) as E. apply (f_equal length) in E.
  simpl in E. rewrite length_app in E. simpl in E. lia.
Qed.

(** Pointers in thread objects lead to thread objects. *)
Definition closed (h : gmap Z mcsos_thread) (p : ptr Z) : Prop :=
  (∀ x, p = Some x → is_Some (h !! x)) ∧
  ∀ x t y, h !! x = Some t → t_next t = Some y → is_Some (h !! y).

(** The chain from [p] the loop accepts. *)
Definition accepts (k : kstate) (p : ptr Z) (count : Z) (q : list Z) : Prop :=
  chain (k_threads k) p q ∧ (∀ x, x ∈ q → s_current (k_sched k) ≠ Some x) ∧
  count + Z.of_nat (length q) <= s_runnable_count (k_sched k) + 1.

Lemma validate_loop_run fuel k cursor l count :
  let rc := s_runnable_count (k_sched k) in
  closed (k_threads k) cursor → 0 <= count <= rc + 1 → rc + 2 < 2 ^ 64 →
  rc + 2 - count <= Z.of_nat fuel →
  (∃ q, accepts k cursor count q ∧
    validate_loop fuel (k_sched k) cursor l count (Some k) =
      (Ok (Some (match last q with Some x => Some x | None => l end, count + Z.of_nat (length q))), Some k)) ∨
  ((¬ ∃ q, accepts k cursor count q) ∧
    validate_loop fuel (k_sched k) cursor l count (Some k) = (Err MCSOS_SCHED_ECORRUPT, Some k)).
Proof.
  intros rc. revert cursor l count. induction fuel as [|fuel IH]; intros cursor l count [Hp Hcl] Hcnt Hrc Hfuel.
  { lia. }
  destruct cursor as [x|].
  2:{ left. exists []. split; [|by rewrite Z.add_0_r]. split_and!; [done|by intros ? ?%not_elem_of_nil|].
      simpl. fold rc. lia. }
  destruct (Hp x eq_refl) as (t & Ht). cbn [validate_loop].
  rewrite (bind_ok _ _ _ _ _ (valid_run k x t Ht)), (bind_ok _ _ _ _ _ (rd_thread_run k x t Ht)).
  assert (∀ q, accepts k (Some x) count q → ∃ q', q = x :: q' ∧ t_magic t = MCSOS_THREAD_MAGIC ∧
    t_state t = MCSOS_THREAD_READY ∧ s_current (k_sched k) ≠ Some x ∧ accepts k (t_next t) (count + 1) q') as Hacc.
  { intros [|x' q'] (Hc & Hcur & Hlen); [done|]. destruct Hc as ([= <-] & t' & Ht' & ? & ? & ?).
    assert (t' = t) as -> by congruence. exists q'. split_and!; try done; [apply Hcur; left|].
    split; [done|]. split; [intros y Hy; apply Hcur; by right|]. simpl length in Hlen. lia. }
  destruct (Z.eqb_spec (t_magic t) MCSOS_THREAD_MAGIC) as [Hm|Hm].
  2:{ right. split; [|done]. intros (q & (q' & _ & ? & _)%Hacc). done. }
  destruct (decide (t_state t = MCSOS_THREAD_READY)) as [Hs|Hs].
  2:{ right. rewrite (bind_err _ _ _ MCSOS_SCHED_ECORRUPT (Some k)) by (apply fail_if_true; by rewrite bool_decide_false).
      split; [|done]. intros (q & (q' & _ & _ & ? & _)%Hacc). done. }
  rewrite (bind_ok _ _ _ tt (Some k)) by (apply fail_if_false; by rewrite bool_decide_true).
  destruct (decide (Some x = s_current (k_sched k))) as [Hc|Hc].
  { right. rewrite (bind_err _ _ _ MCSOS_SCHED_ECORRUPT (Some k)) by (apply fail_if_true; by rewrite bool_decide_true).
    split; [|done]. intros (q & (q' & _ & _ & _ & ? & _)%Hacc). congruence. }
  rewrite (bind_ok _ _ _ tt (Some k)) by (apply fail_if_false; by rewrite bool_decide_false).
  fold rc. rewrite (wrap_small 64 (rc + 1)), (wrap_small 64 (count + 1)) by (unfold fits; lia).
  destruct (Z.ltb_spec (rc + 1) (count + 1)) as [Hlt|Hlt].
  { right. split; [|done]. intros (q & (q' & _ & _ & _ & _ & (_ & _ & Hl))%Hacc). fold rc in Hl. lia. }
  rewrite (bind_ok _ _ _ tt (Some k)) by done.
  destruct (IH (t_next t) (Some x) (count + 1)) as [(q & (A1 & A2 & A3) & R)|[Hno R]]; [|lia|lia|lia|..].
  - split; [|done]. intros y Hy. by apply (Hcl x t).
  - left. exists (x :: q). split.
    + split; [simpl; by split; [|exists t]|]. split; [|simpl length; lia].
      intros y [->|Hy]%elem_of_cons; [congruence|by apply A2].
    + rewrite R. do 4 f_equal; [rewrite last_cons; by destruct (last q)|]. simpl length. lia.
  - right. split; [|done]. intros (q & (q' & _ & _ & _ & _ & ?)%Hacc). apply Hno. by exists q'.
Qed.

(** A well-formed queue that does not hold the current thread. *)
Record queue_wf (k : kstate) (q : list Z) : Prop := {
  qw_head : s_ready_head (k_sched k) = head q;
  qw_tail : s_ready_tail (k_sched k) = last q;
  qw_count : s_runnable_count (k_sched k) = Z.of_nat (length q);
  qw_nodup : NoDup q;
  qw_nodes : queue_ok (k_threads k) q;
  qw_cur : ∀ x, x ∈ q → s_current (k_sched k) ≠ Some x
}.

(** C18: [mcsos_sched_validate] decides well-formedness.  On an initialised
    scheduler with a valid current thread, whatever the queue's links are (also
    cyclic ones), validation ends without changing the state: it returns OK
    exactly when the links form a duplicate-free list of ready threads without
    the current one, whose last node is the tail and whose length is the counter,
    and ECORRUPT otherwise. *)
Theorem sched_validate_exact k c t :
  s_initialized (k_sched k) ≠ 0 → s_current (k_sched k) = Some c → k_threads k !! c = Some t →
  t_magic t = MCSOS_THREAD_MAGIC → closed (k_threads k) (s_ready_head (k_sched k)) →
  0 <= s_runnable_count (k_sched k) < 2 ^ 64 - 2 →
  ((∃ q, queue_wf k q) ∧ mcsos_sched_validate (Some tt) (Some k) = (Ok tt, Some k)) ∨
  ((¬ ∃ q, queue_wf k q) ∧ mcsos_sched_validate (Some tt) (Some k) = (Err MCSOS_SCHED_ECORRUPT, Some k)).
Proof.
  intros Hi Hc Ht Hm Hcl Hrc. unfold mcsos_sched_validate, current_guard, sched_unusable.
  rewrite (bind_ok _ _ _ (k_sched k) (Some k)).
  2:{ rewrite (bind_ok _ _ _ false (Some k)).
      2:{ rewrite (bind_ok _ _ _ (k_sched k) (Some k)) by done. by rewrite (proj2 (Z.eqb_neq _ 0) Hi). }
      rewrite (bind_ok _ _ _ tt (Some k)) by done. rewrite (bind_ok _ _ _ (k_sched k) (Some k)) by done.
      rewrite Hc, (bind_ok _ _ _ _ _ (valid_run k c t Ht)), Hm. done. }
  assert (∀ q, queue_wf k q → accepts k (s_ready_head (k_sched k)) 0 q) as Hwf.
  { intros q [? ? Hn ? ? ?]. split; [by apply chain_queue|]. split; [done|]. rewrite Hn. lia. }
  destruct (validate_loop_run (validate_fuel (k_sched k)) k (s_ready_head (k_sched k)) None 0)
    as [(q & (A1 & A2 & A3) & R)|[Hno R]]; [done|lia|lia| |..].
  { unfold validate_fuel. rewrite wrap_small by (unfold fits; lia). lia. }
  2:{ right. rewrite (bind_err _ _ _ _ _ R). split; [|done]. intros (q & Hq). apply Hno. exists q. by apply Hwf. }
  rewrite (bind_ok _ _ _ _ _ R). rewrite Z.add_0_l in *.
  assert (match last q with Some x => Some x | None => None end = last q) as -> by (by destruct (last q)).
  assert (∀ q', queue_wf k q' → q' = q) as Huniq.
  { intros q' [A1' _]%Hwf. by eapply chain_det. }
  pose proof (chain_nodup _ _ _ A1) as Hnd. apply chain_queue in A1 as [Hh Hq].
  destruct (decide (last q = s_ready_tail (k_sched k))) as [Htl|Htl].
  2:{ right. rewrite (bind_err _ _ _ MCSOS_SCHED_ECORRUPT (Some k)) by (apply fail_if_true; by rewrite bool_decide_false).
      split; [|done]. intros (q' & H'). pose proof (Huniq q' H') as ->. by destruct H'. }
  rewrite (bind_ok _ _ _ tt (Some k)) by (apply fail_if_false; by rewrite bool_decide_true).
  destruct (Z.eqb_spec (Z.of_nat (length q)) (s_runnable_count (k_sched k))) as [Hn|Hn].
  - left. split; [|done]. exists q. by constructor.
  - right. split; [|done]. intros (q' & H'). pose proof (Huniq q' H') as ->. by destruct H'.
Qed.
