(* ===== verification/ThreadBoot.v ===== *)
(** * Thread preparation, scheduler start-up and the limits of enqueue
      (kernel/mcsos_thread.c, kernel/core/kmain.c)

    Bounds of the stack a thread is prepared with, the state the kernel's
    start-up leaves, and what a second enqueue of a queued thread does. *)

From Stdlib Require Import ZArith Lia String.
From stdpp Require Import base list numbers option gmap strings fin_maps.
From S2P Require Import Prelude Thread ThreadProof.

Local Open Scope Z_scope.
Local Open Scope cm_scope.

(** ** Preparation *)

Lemma align_down_16 v : fits 64 v → align_down_uintptr v MCSOS_STACK_ALIGN = v - v mod 16.
Proof.
  intros. unfold align_down_uintptr. rewrite (wrap_small 64 (MCSOS_STACK_ALIGN - 1)).
  - by apply (land_wnot_mask 64 v 4).
  - unfold fits, MCSOS_STACK_ALIGN. lia.
Qed.

(** The object [mcsos_thread_prepare] writes. *)
Definition prepared (rip : Z) (name : string) (f arg base size id rsp : Z) : mcsos_thread :=
  mk_thread MCSOS_THREAD_MAGIC id name MCSOS_THREAD_NEW (mk_context rsp 0 0 0 0 0 0 rip)
    (Some f) arg base size None 0 0 0.

Definition with_stack (k : kstate) (st : gmap Z Z) : kstate :=
  mk_k (k_threads k) (k_sched k) st (k_cpu k) (k_active k).

Lemma prepare_run rip k x t name f arg base size id :
  k_threads k !! x = Some t → 0 < base → MCSOS_MIN_KERNEL_STACK <= size → base + size < 2 ^ 64 →
  ∃ rsp, mcsos_thread_prepare rip (Some x) name (Some f) arg base size id (Some k) =
      (Ok tt, Some (with_threads (with_stack k (<[rsp := 0]> (k_stack k)))
        (<[x := prepared rip name f arg base size id rsp]> (k_threads k)))) ∧
    base + 120 < rsp ∧ rsp + 8 <= base + size ∧ (rsp + 8) mod MCSOS_STACK_ALIGN = 0.
Proof.
  intros Hx Hb Hs Hlim. unfold MCSOS_MIN_KERNEL_STACK, MCSOS_STACK_ALIGN in *.
  assert (fits 64 (base + size)) as Hfit by (unfold fits; lia).
  pose proof (Z.mod_pos_bound (base + size) 16 ltac:(lia)) as Hmod.
  exists (base + size - (base + size) mod 16 - 8). split; [|split; [lia|split; [lia|]]].
  2:{ rewrite Z.sub_add. by apply mod_sub_mod. }
  unfold mcsos_thread_prepare. rewrite (bind_ok _ _ _ tt (Some k)) by (apply fail_if_false, Z.eqb_neq; lia).
  rewrite (bind_ok _ _ _ tt (Some k))
    by (apply fail_if_false, Z.ltb_ge; unfold MCSOS_MIN_KERNEL_STACK; lia).
  rewrite (wrap_small 64 (base + size)) by done.
  rewrite (bind_ok _ _ _ tt (Some k)) by (apply fail_if_false, Z.leb_gt; lia).
  rewrite align_down_16 by done. rewrite (wrap_small 64 (base + 128)) by (unfold fits; lia).
  rewrite (bind_ok _ _ _ tt (Some k)) by (apply fail_if_false, Z.leb_gt; lia).
  rewrite (wrap_small 64 (_ - 8)) by (unfold fits; lia).
  rewrite (bind_ok _ _ _ k (Some k)) by done.
  set (k1 := mk_k _ _ _ _ _). rewrite (bind_ok _ _ _ tt (Some k1)) by done.
  unfold wr_thread. rewrite (bind_ok _ _ _ k1 (Some k1)) by done.
  change (k_threads k1) with (k_threads k). rewrite Hx. done.
Qed.

Lemma prepare_refused rip k x name f arg base size id :
  0 < base < 2 ^ 64 → fits 64 size → (size < MCSOS_MIN_KERNEL_STACK ∨ 2 ^ 64 <= base + size) →
  mcsos_thread_prepare rip (Some x) name (Some f) arg base size id (Some k) =
    (Err MCSOS_SCHED_ESTACK, Some k).
Proof.
  intros Hb Hs Hbad. unfold fits in Hs. unfold mcsos_thread_prepare.
  rewrite (bind_ok _ _ _ tt (Some k)) by (apply fail_if_false, Z.eqb_neq; lia).
  destruct (Z.ltb_spec size MCSOS_MIN_KERNEL_STACK) as [|Hge]; [done|].
  rewrite (bind_ok _ _ _ tt (Some k)) by done.
  assert (u64 (base + size) = base + size - 2 ^ 64) as ->.
  { unfold wrap. rewrite <-(Z.mod_add _ (-1)), Z.mod_small; lia. }
  by rewrite (bind_err _ _ _ MCSOS_SCHED_ESTACK (Some k)) by (apply fail_if_true, Z.leb_le; lia).
Qed.

(** ** The loops on a well-formed queue *)

Lemma count_loop_chain q fuel k p n :
  chain (k_threads k) p q → (length q <= fuel)%nat → 0 <= n → n + Z.of_nat (length q) < 2 ^ 64 →
  count_loop fuel p n (Some k) = (Ok (Some (n + Z.of_nat (length q))), Some k).
Proof.
  revert fuel p n. induction q as [|x q IH]; intros fuel p n Hc Hf Hn Hlim; cbn [chain] in Hc.
  { subst p. destruct fuel; cbn [count_loop length]; by rewrite Z.add_0_r. }
  destruct Hc as (-> & t & Ht & _ & _ & Hc). simpl length in *. destruct fuel as [|fuel]; [lia|].
  cbn [count_loop]. rewrite (bind_ok _ _ _ _ _ (rd_thread_run k x t Ht)).
  rewrite wrap_small by (unfold fits; lia). rewrite IH; [do 3 f_equal; lia|done|lia..].
Qed.

Lemma srep_chain k a : srep k a → chain (k_threads k) (s_ready_head (k_sched k)) (a_queue a).
Proof.
  intros H. apply chain_queue. split; [apply (q_head _ _ (r_queue _ _ H))|apply (q_nodes _ _ (r_queue _ _ H))].
Qed.

Lemma validate_loop_chain q fuel k p l n :
  chain (k_threads k) p q → (∀ x, x ∈ q → s_current (k_sched k) ≠ Some x) → (length q <= fuel)%nat → 0 <= n →
  n + Z.of_nat (length q) <= s_runnable_count (k_sched k) → s_runnable_count (k_sched k) + 1 < 2 ^ 64 →
  validate_loop fuel (k_sched k) p l n (Some k) =
    (Ok (Some (match last q with Some x => Some x | None => l end, n + Z.of_nat (length q))), Some k).
Proof.
  revert fuel p l n. induction q as [|x q IH]; intros fuel p l n Hc Hcur Hf Hn Hle Hlim; cbn [chain] in Hc.
  { subst p. destruct fuel; cbn [validate_loop length last]; by rewrite Z.add_0_r. }
  destruct Hc as (-> & t & Ht & Hm & Hs & Hc). simpl length in *. destruct fuel as [|fuel]; [lia|].
  cbn [validate_loop]. rewrite (bind_ok _ _ _ _ _ (valid_run k x t Ht)), (bind_ok _ _ _ _ _ (rd_thread_run k x t Ht)).
  rewrite Hm, Hs, Z.eqb_refl. rewrite (bind_ok _ _ _ tt (Some k)) by done.
  rewrite (bind_ok _ _ _ tt (Some k)).
  2:{ apply fail_if_false, bool_decide_eq_false. intros E. apply (Hcur x); [left|done]. }
  rewrite (wrap_small 64 (n + 1)), (wrap_small 64 (_ + 1)) by (unfold fits; lia).
  rewrite (bind_ok _ _ _ tt (Some k)) by (apply fail_if_false, Z.ltb_ge; lia).
  rewrite IH; [|done|intros y Hy; apply Hcur; by right|lia..].
  rewrite last_cons. do 4 f_equal; [by destruct (last q)|lia].
Qed.

Lemma validate_ok k a :
  srep k a → a_wf a → Z.of_nat (length (a_queue a)) + 1 < 2 ^ 64 →
  mcsos_sched_validate (Some tt) (Some k) = (Ok tt, Some k).
Proof.
  intros H Hwf Hlen. unfold mcsos_sched_validate. rewrite (bind_ok _ _ _ _ _ (cur_guard_run k a H Hwf)).
  pose proof (r_queue _ _ H) as Hq. pose proof (q_count _ _ Hq) as Hn.
  assert (∀ x, x ∈ a_queue a → s_current (k_sched k) ≠ Some x) as Hcur.
  { intros x Hx. rewrite (r_cur _ _ H). intros [= <-].
    destruct (wf_queue a Hwf _ Hx), (wf_cur a Hwf). congruence. }
  assert (length (a_queue a) <= validate_fuel (k_sched k))%nat as Hfuel.
  { unfold validate_fuel. rewrite wrap_small by (unfold fits; lia). lia. }
  rewrite (bind_ok _ _ _ _ _ (validate_loop_chain (a_queue a) _ k _ None 0 (srep_chain k a H)
    Hcur Hfuel ltac:(lia) ltac:(lia) ltac:(lia))).
  rewrite (q_tail _ _ Hq).
  rewrite (bind_ok _ _ _ tt (Some k)).
  - rewrite Hn, Z.add_0_l. by rewrite Z.eqb_refl.
  - apply fail_if_false. rewrite bool_decide_true; [done|]. by destruct (last _).
Qed.

(** ** Start-up *)

Lemma srep_prepare k a x t t' st :
  srep k a → k_threads k !! x = Some t → x ∉ a_queue a →
  srep (with_threads (with_stack k st) (<[x := t']> (k_threads k)))
    (mk_a (a_cur a) (a_idle a) (a_queue a) (<[x := view t']> (a_threads a)) (a_cpu a)).
Proof.
  intros [[H1 H2 H3 H4 H5 H6 H7] Hc Hi Hv Hp] Hx Hq. constructor; try done.
  - constructor; try done; cbn [with_threads with_stack k_threads].
    + apply (queue_ok_insert _ _ x t); [done|by left|done].
    + rewrite map_size_insert_Some by (by eexists). done.
  - cbn [a_threads]. rewrite <-Hv. unfold views, with_threads, with_stack. cbn [k_threads].
    by rewrite fmap_insert.
Qed.

Lemma take_id_run k a :
  srep k a → ∃ n k', take_id (Some k) = (Ok n, Some k') ∧ srep k' a ∧ k_threads k' = k_threads k.
Proof.
  intros [Hq Hc Hi Hv Hp]. eexists _, _. split; [reflexivity|]. split; [|done].
  constructor; try done. by apply (qrep_sched k).
Qed.

Lemma scheduler_init_run k b t :
  k_threads k !! b = Some t → Z.of_nat (size (k_threads k)) < 2 ^ 64 →
  ∃ k', mcsos_scheduler_init (Some tt) (Some b) (Some k) = (Ok tt, Some k') ∧
    k_threads k' = <[b := boot_object]> (k_threads k) ∧ k_active k' = true ∧
    srep k' (mk_a b b [] (<[b := Some (MCSOS_THREAD_RUNNING, zero_context)]> (views k)) (k_cpu k)).
Proof.
  intros Hb Hs. unfold mcsos_scheduler_init.
  set (k1 := with_threads k (<[b := boot_object]> (k_threads k))).
  rewrite (bind_ok _ _ _ tt (Some k1)).
  2:{ unfold wr_thread. rewrite (bind_ok _ _ _ k (Some k)) by done. by rewrite Hb. }
  rewrite (bind_ok _ _ _ k1 (Some k1)) by done.
  eexists. split; [reflexivity|]. split; [done|]. split; [done|]. constructor; try done.
  - constructor; try done; cbn [k_threads k1 with_threads a_queue].
    + apply NoDup_nil_2.
    + rewrite map_size_insert_Some by (by eexists). done.
  - unfold views. cbn [k_threads k1 with_threads a_threads]. by rewrite fmap_insert.
Qed.

Lemma enqueue_new k a x c :
  srep k a → a_threads a !! x = Some (Some (MCSOS_THREAD_NEW, c)) → x ∉ a_queue a →
  ∃ k', mcsos_sched_enqueue (Some tt) (Some x) (Some k) = (Ok tt, Some k') ∧
    srep k' (mk_a (a_cur a) (a_idle a) (a_queue a ++ [x])
      (<[x := Some (MCSOS_THREAD_READY, c)]> (a_threads a)) (a_cpu a)).
Proof.
  intros H Hx Hq. rewrite <-(r_views _ _ H) in Hx. destruct (views_valid _ _ _ _ Hx) as (t & Ht & Hm & Hs & Hc).
  destruct (enqueue_run k (a_queue a) x t (r_queue _ _ H) Hq Ht Hm) as (k' & R & H' & V & E1 & E2 & C).
  { rewrite Hs. by left. }
  exists k'. split; [done|]. rewrite Hc in V. by apply (srep_enter k).
Qed.

(** The scheduler's start-up.  With three distinct thread objects and two
    stacks inside the address space, [m9_scheduler_bootstrap] does not panic and
    leaves the boot thread running as the idle thread, with threads A and B in
    this order in the queue, both set to start at the trampoline with a stack
    pointer inside their own stack; validation has passed and the logged ready
    count is 2. *)
Theorem m9_bootstrap_ok rip boot ta tb fa fb sa sb k :
  NoDup [boot; ta; tb] → is_Some (k_threads k !! boot) → is_Some (k_threads k !! ta) →
  is_Some (k_threads k !! tb) → Z.of_nat (size (k_threads k)) < 2 ^ 64 →
  0 < sa → sa + 8192 < 2 ^ 64 → 0 < sb → sb + 8192 < 2 ^ 64 →
  ∃ k' a ca cb, m9_scheduler_bootstrap rip boot ta tb fa fb sa sb (Some k) = (Ok (Some 2), Some k') ∧
    srep k' a ∧ a_wf a ∧ a_cur a = boot ∧ a_idle a = boot ∧ a_queue a = [ta; tb] ∧
    a_threads a !! ta = Some (Some (MCSOS_THREAD_READY, ca)) ∧
    a_threads a !! tb = Some (Some (MCSOS_THREAD_READY, cb)) ∧
    c_rip ca = rip ∧ c_rip cb = rip ∧
    sa < c_rsp ca < sa + 8192 ∧ sb < c_rsp cb < sb + 8192.
Proof.
  intros Hnd [t0 H0] [t1 H1] [t2 H2] Hsz Ha1 Ha2 Hb1 Hb2.
  apply NoDup_cons in Hnd as [Hn0 [Hn1 _]%NoDup_cons].
  assert (boot ≠ ta ∧ boot ≠ tb ∧ ta ≠ tb) as (N1 & N2 & N3) by set_solver.
  unfold m9_scheduler_bootstrap.
  destruct (scheduler_init_run k boot t0 H0 Hsz) as (k1 & R1 & T1 & _ & S1).
  rewrite (bind_ok _ _ _ _ _ (or_panic_ok _ _ _ _ R1)).
  destruct (take_id_run k1 _ S1) as (i1 & k2 & R2 & S2 & T2). rewrite (bind_ok _ _ _ _ _ R2).
  destruct (prepare_run rip k2 ta t1 "demo-a" fa 0 sa 8192 i1) as (pa & R3 & Ba & Ba' & _);
    [by rewrite T2, T1, lookup_insert_ne|done|done|done|].
  rewrite (bind_ok _ _ _ _ _ (or_panic_ok _ _ _ _ R3)).
  eapply (srep_prepare k2 _ ta t1) in S2; [|by rewrite T2, T1, lookup_insert_ne|apply not_elem_of_nil].
  cbn [a_cur a_idle a_queue a_threads a_cpu] in S2.
  destruct (take_id_run _ _ S2) as (i2 & k3 & R4 & S3 & T3). rewrite (bind_ok _ _ _ _ _ R4).
  assert (k_threads k3 !! tb = Some t2) as H2'.
  { rewrite T3. cbn [with_threads k_threads]. rewrite lookup_insert_ne by done. by rewrite T2, T1, lookup_insert_ne. }
  destruct (prepare_run rip k3 tb t2 "demo-b" fb 0 sb 8192 i2 H2') as (pb & R5 & Bb & Bb' & _); [done..|].
  rewrite (bind_ok _ _ _ _ _ (or_panic_ok _ _ _ _ R5)).
  eapply (srep_prepare k3 _ tb t2) in S3; [|done|apply not_elem_of_nil].
  cbn [a_cur a_idle a_queue a_threads a_cpu] in S3.
  destruct (enqueue_new _ _ ta (mk_context pa 0 0 0 0 0 0 rip) S3) as (k4 & R6 & S4).
  { cbn [a_threads]. rewrite lookup_insert_ne, lookup_insert_eq by done. done. }
  { apply not_elem_of_nil. }
  rewrite (bind_ok _ _ _ _ _ (or_panic_ok _ _ _ _ R6)).
  destruct (enqueue_new _ _ tb (mk_context pb 0 0 0 0 0 0 rip) S4) as (k5 & R7 & S5).
  { cbn [a_threads]. rewrite lookup_insert_ne, lookup_insert_eq by done. done. }
  { cbn [a_queue]. set_solver. }
  rewrite (bind_ok _ _ _ _ _ (or_panic_ok _ _ _ _ R7)). cbn [a_cur a_idle a_queue a_threads a_cpu app] in S5.
  match type of S5 with srep _ ?b => set (a := b) in * end.
  assert (a_wf a) as Hwf.
  { constructor; cbn [a a_cur a_idle a_queue a_threads]; [exists zero_context; by simplify_map_eq..|].
    intros x [->|[->|?%not_elem_of_nil]%elem_of_cons]%elem_of_cons; [| |done]; eexists; by simplify_map_eq. }
  rewrite (bind_ok _ _ _ _ _ (or_panic_ok _ _ _ _ (validate_ok k5 a S5 Hwf ltac:(done)))).
  exists k5, a, (mk_context pa 0 0 0 0 0 0 rip), (mk_context pb 0 0 0 0 0 0 rip).
  split_and!; try done; cbn [a a_threads c_rsp]; try lia; [|by simplify_map_eq..].
  unfold mcsos_sched_ready_count. rewrite (bind_ok _ _ _ _ _ (unusable_run k5 _ (r_queue _ _ S5))).
  rewrite (bind_ok _ _ _ (k_sched k5) (Some k5)) by done.
  apply (count_loop_chain [ta; tb] 3 k5 _ 0 (srep_chain k5 a S5)); simpl; lia.
Qed.

(** [mcsos_thread_prepare] never places the first frame outside the stack.
    For an existing object, a non-NULL stack and 64-bit arguments it succeeds
    exactly when the stack has at least 4096 bytes and does not wrap around the
    address space; then the one word it writes lies inside the stack, at least
    121 bytes above its base, 8 below a multiple of 16, and that word is zero.
    Otherwise it returns ESTACK and changes nothing. *)
Theorem thread_prepare_exact rip k x t name f arg base size id :
  k_threads k !! x = Some t → 0 < base < 2 ^ 64 → fits 64 size →
  (MCSOS_MIN_KERNEL_STACK <= size ∧ base + size < 2 ^ 64 ∧
   ∃ rsp, mcsos_thread_prepare rip (Some x) name (Some f) arg base size id (Some k) =
       (Ok tt, Some (with_threads (with_stack k (<[rsp := 0]> (k_stack k)))
         (<[x := prepared rip name f arg base size id rsp]> (k_threads k)))) ∧
     base + 120 < rsp ∧ rsp + 8 <= base + size ∧ (rsp + 8) mod MCSOS_STACK_ALIGN = 0) ∨
  ((size < MCSOS_MIN_KERNEL_STACK ∨ 2 ^ 64 <= base + size) ∧
   mcsos_thread_prepare rip (Some x) name (Some f) arg base size id (Some k) =
     (Err MCSOS_SCHED_ESTACK, Some k)).
Proof.
  intros Hx Hb Hs. destruct (decide (MCSOS_MIN_KERNEL_STACK <= size ∧ base + size < 2 ^ 64)) as [[H1 H2]|Hn].
  - left. split; [done|]. split; [done|]. apply (prepare_run rip k x t); (done || lia).
  - right. assert (size < MCSOS_MIN_KERNEL_STACK ∨ 2 ^ 64 <= base + size) by lia.
    split; [done|]. by apply prepare_refused.
Qed.

(** ** A queue without an end *)

(** Nodes whose successors are nodes again. *)
Definition endless (k : kstate) (S : list Z) : Prop :=
  ∀ x, x ∈ S → s_current (k_sched k) ≠ Some x ∧ ∃ t y, k_threads k !! x = Some t ∧
    t_magic t = MCSOS_THREAD_MAGIC ∧ t_state t = MCSOS_THREAD_READY ∧ t_next t = Some y ∧ y ∈ S.

Lemma count_loop_endless S fuel k x n :
  endless k S → x ∈ S → count_loop fuel (Some x) n (Some k) = (Ok None, Some k).
Proof.
  intros HS. revert x n. induction fuel as [|fuel IH]; intros x n Hx; [done|].
  destruct (HS x Hx) as (_ & t & y & Ht & _ & _ & Hy & HyS). cbn [count_loop].
  rewrite (bind_ok _ _ _ _ _ (rd_thread_run k x t Ht)), Hy. by apply IH.
Qed.

Lemma validate_loop_endless S fuel k x l n :
  let rc := s_runnable_count (k_sched k) in
  endless k S → x ∈ S → 0 <= n <= rc + 1 → rc + 2 < 2 ^ 64 → rc + 2 - n <= Z.of_nat fuel →
  validate_loop fuel (k_sched k) (Some x) l n (Some k) = (Err MCSOS_SCHED_ECORRUPT, Some k).
Proof.
  intros rc HS. revert x l n. induction fuel as [|fuel IH]; intros x l n Hx Hn Hrc Hf; [lia|].
  destruct (HS x Hx) as (Hcur & t & y & Ht & Hm & Hs & Hy & HyS). cbn [validate_loop].
  rewrite (bind_ok _ _ _ _ _ (valid_run k x t Ht)), (bind_ok _ _ _ _ _ (rd_thread_run k x t Ht)).
  rewrite Hm, Hs, Z.eqb_refl. rewrite (bind_ok _ _ _ tt (Some k)) by done.
  rewrite (bind_ok _ _ _ tt (Some k)) by (apply fail_if_false, bool_decide_eq_false; congruence).
  fold rc. rewrite (wrap_small 64 (rc + 1)), (wrap_small 64 (n + 1)) by (unfold fits; lia).
  destruct (Z.ltb_spec (rc + 1) (n + 1)); [done|]. rewrite (bind_ok _ _ _ tt (Some k)) by done.
  rewrite Hy. apply IH; [done|lia..].
Qed.

(** The second enqueue links the tail to itself. *)
Lemma enqueue_tail_again k a q x :
  srep k a → a_wf a → a_queue a = q ++ [x] → Z.of_nat (length (a_queue a)) + 3 < 2 ^ 64 →
  ∃ k', mcsos_sched_enqueue (Some tt) (Some x) (Some k) = (Ok tt, Some k') ∧
    endless k' (q ++ [x]) ∧ s_ready_head (k_sched k') = head (q ++ [x]) ∧
    s_initialized (k_sched k') = s_initialized (k_sched k) ∧
    s_current (k_sched k') = s_current (k_sched k) ∧
    (∀ y, y ∉ a_queue a → k_threads k' !! y = k_threads k !! y) ∧
    s_runnable_count (k_sched k') = Z.of_nat (length (a_queue a)) + 1.
Proof.
  intros H Hwf Hq Hlen. pose proof (r_queue _ _ H) as Q. rewrite Hq in Q.
  destruct (q_nodes _ _ Q (length q) x) as (t & Ht & Hm & Hs & Hnx).
  { by rewrite lookup_app_r, Nat.sub_diag. }
  unfold mcsos_sched_enqueue. rewrite (bind_ok _ _ _ _ _ (unusable_run k _ Q)).
  rewrite (bind_ok _ _ _ tt (Some k)) by done. rewrite (bind_ok _ _ _ _ _ (valid_run k x t Ht)), Hm.
  rewrite (bind_ok _ _ _ tt (Some k)) by done. rewrite (bind_ok _ _ _ _ _ (rd_thread_run k x t Ht)), Hs.
  rewrite (bind_ok _ _ _ tt (Some k)) by done. rewrite (bind_ok _ _ _ _ _ (upd_thread_run k x t _ Ht)).
  rewrite (bind_ok _ _ _ _ _ (upd_thread_run (with_threads k (<[x := set_state MCSOS_THREAD_READY t]> (k_threads k)))
    x _ _ (lookup_insert_eq _ _ _))).
  simpl k_threads. rewrite insert_insert_eq.
  set (k1 := with_threads _ _). rewrite (bind_ok _ _ _ (k_sched k) (Some k1)) by done.
  rewrite (q_tail _ _ Q), last_snoc.
  rewrite (bind_ok _ _ _ _ _ (upd_thread_run k1 x _ _ (lookup_insert_eq _ _ _))).
  simpl k_threads. rewrite insert_insert_eq.
  eexists. split; [reflexivity|]. cbn [with_threads k_threads k_sched set_queue s_current s_ready_head
    s_initialized s_runnable_count]. change (k_sched k1) with (k_sched k).
  split; [|split_and!; try done; [apply (q_head _ _ Q)| |]].
  - intros y Hy. split.
    + cbn [with_threads k_sched set_queue s_current]. change (k_sched k1) with (k_sched k).
      rewrite (r_cur _ _ H). intros [= E]. rewrite <-Hq in Hy. destruct (wf_queue a Hwf y Hy) as (c & Hc), (wf_cur a Hwf). congruence.
    + cbn [with_threads k_threads]. destruct (decide (y = x)) as [->|Hne].
      * rewrite lookup_insert_eq. eexists _, x. split; [reflexivity|]. by split_and!.
      * rewrite lookup_insert_ne by done. apply list_elem_of_lookup in Hy as (i & Hi).
        destruct (q_nodes _ _ Q i y Hi) as (u & Hu & Hum & Hus & Hun).
        destruct ((q ++ [x]) !! S i) as [z|] eqn:Hz.
        { exists u, z. split_and!; try done. by eapply list_elem_of_lookup_2. }
        apply lookup_ge_None in Hz. apply lookup_lt_Some in Hi as Hlt. rewrite length_app in Hz, Hlt. simpl in Hz, Hlt.
        rewrite lookup_app_r in Hi by lia. replace (i - length q)%nat with 0%nat in Hi by lia. by injection Hi as ->.
  - intros y Hy. rewrite lookup_insert_ne; [done|]. intros <-. apply Hy. rewrite Hq. set_solver.
  - rewrite (q_count _ _ Q), Hq in *. rewrite wrap_small; [done|]. unfold fits. lia.
Qed.

(** C37: a queued thread is not protected against a second enqueue.  When the
    last thread of the queue is enqueued again, [mcsos_sched_enqueue] accepts it
    (its state is READY) and links it to itself: validation then reports
    ECORRUPT, and the loop of [mcsos_sched_ready_count] never ends, however many
    rounds it is given. *)
Theorem sched_enqueue_twice k a q x :
  srep k a → a_wf a → a_queue a = q ++ [x] → Z.of_nat (length (a_queue a)) + 3 < 2 ^ 64 →
  ∃ k', mcsos_sched_enqueue (Some tt) (Some x) (Some k) = (Ok tt, Some k') ∧
    mcsos_sched_validate (Some tt) (Some k') = (Err MCSOS_SCHED_ECORRUPT, Some k') ∧
    ∀ fuel, mcsos_sched_ready_count fuel (Some tt) (Some k') = (Ok None, Some k').
Proof.
  intros H Hwf Hq Hlen.
  destruct (enqueue_tail_again k a q x H Hwf Hq Hlen) as (k' & R & He & Hh & Hi & Hc & Ht & Hn).
  pose proof (q_init _ _ (r_queue _ _ H)) as Hinit.
  assert (∃ y, s_ready_head (k_sched k') = Some y ∧ y ∈ q ++ [x]) as (y & Hy & HyS).
  { rewrite Hh. destruct q as [|y q]; simpl; [exists x|exists y]; (split; [done|]); set_solver. }
  assert (sched_unusable (Some tt) (Some k') = (Ok false, Some k')) as Hu.
  { unfold sched_unusable. rewrite (bind_ok _ _ _ (k_sched k') (Some k')) by done.
    rewrite Hi. by rewrite (proj2 (Z.eqb_neq _ 0) Hinit). }
  exists k'. split; [done|]. split.
  - unfold mcsos_sched_validate. destruct (wf_cur a Hwf) as (c & Hcur).
    assert (a_cur a ∉ a_queue a) as Hcq by (intros (? & ?)%(wf_queue a Hwf); congruence).
    rewrite <-(r_views _ _ H) in Hcur. destruct (views_valid _ _ _ _ Hcur) as (t & Htc & Hm & _).
    rewrite (bind_ok _ _ _ (k_sched k') (Some k')).
    2:{ unfold current_guard. rewrite (bind_ok _ _ _ _ _ Hu). rewrite (bind_ok _ _ _ tt (Some k')) by done.
        rewrite (bind_ok _ _ _ (k_sched k') (Some k')) by done. rewrite Hc, (r_cur _ _ H).
        rewrite <-(Ht _ Hcq) in Htc. by rewrite (bind_ok _ _ _ _ _ (valid_run k' _ t Htc)), Hm. }
    rewrite Hy. apply bind_err. apply (validate_loop_endless (q ++ [x])); try done; rewrite ?Hn; [lia|lia|].
    unfold validate_fuel. rewrite Hn, wrap_small by (unfold fits; lia). lia.
  - intros fuel. unfold mcsos_sched_ready_count. rewrite (bind_ok _ _ _ _ _ Hu).
    rewrite (bind_ok _ _ _ (k_sched k') (Some k')) by done. rewrite Hy. by apply (count_loop_endless (q ++ [x])).
Qed.

(** ** A concrete scheduler: boot thread 16 running, threads 32 and 48 queued *)

Definition demo_thread (st : mcsos_thread_state) (rsp : Z) (next : ptr Z) : mcsos_thread :=
  mk_thread MCSOS_THREAD_MAGIC 1 "demo" st (mk_context rsp 0 0 0 0 0 0 0x5000) (Some 0x6000) 0
    0x10000 8192 next 0 0 0.

Definition demo_k : kstate :=
  mk_k (<[16 := boot_object]> (<[32 := demo_thread MCSOS_THREAD_READY 0x100f8 (Some 48)]>
    (<[48 := demo_thread MCSOS_THREAD_READY 0x200f8 None]>
    (<[64 := demo_thread MCSOS_THREAD_RUNNING 0x300f8 None]> ∅))))
    (mk_sched (Some 64) (Some 16) (Some 32) (Some 48) 4 2 0 0 1) ∅ (mk_context 7 1 2 3 4 5 6 0) true.

Definition demo_a : asched := mk_a 64 16 [32; 48] (views demo_k) (k_cpu demo_k).

Lemma demo_srep : srep demo_k demo_a.
Proof.
  constructor; try done. constructor; try done.
  - repeat constructor; set_solver.
  - intros [|[|i]] x; [intros [= <-]..|done]; eexists; (split; [reflexivity|]); done.
Qed.

Lemma demo_wf : a_wf demo_a.
Proof.
  constructor; [by eexists..|].
  intros x [->|[->|?%not_elem_of_nil]%elem_of_cons]%elem_of_cons; [by eexists..|done].
Qed.

Definition demo_sops : list sop := [SYield; STick; SBlock; SEnqueue None; SMarkReady (Some 32); SYield].

Lemma sched_refines_queue_witness :
  ∃ k', sched_ops 0x9000 demo_k demo_sops = (fst (spec_sops 0x9000 demo_a demo_sops), Some k') ∧
    srep k' (snd (spec_sops 0x9000 demo_a demo_sops)) ∧ a_wf (snd (spec_sops 0x9000 demo_a demo_sops)).
Proof.
  apply (sched_refines_queue 0x9000 demo_sops demo_k demo_a demo_srep demo_wf).
  vm_compute. repeat split. by eexists.
Defined.

Lemma sched_round_robin_witness :
  ∃ k', sched_ops 0x9000 demo_k (replicate 2 SYield) = (replicate 2 (Ok tt), Some k') ∧
    s_current (k_sched k') = Some 48 ∧ k_cpu k' = mk_context 0x200f8 0 0 0 0 0 0 0x5000.
Proof.
  apply (sched_round_robin 0x9000 1 demo_k demo_a 48 _ demo_srep demo_wf); reflexivity.
Defined.

Lemma sched_full_round_witness :
  ∃ k', sched_ops 0x9000 demo_k (replicate (S (length (a_queue demo_a))) SYield) =
      (replicate (S (length (a_queue demo_a))) (Ok tt), Some k') ∧
    s_current (k_sched k') = s_current (k_sched demo_k) ∧ k_cpu k' = resumed 0x9000 (k_cpu demo_k).
Proof. apply (sched_full_round 0x9000 demo_k demo_a demo_srep demo_wf); done. Defined.

Lemma sched_validate_exact_witness :
  ((∃ q, queue_wf demo_k q) ∧ mcsos_sched_validate (Some tt) (Some demo_k) = (Ok tt, Some demo_k)) ∨
  ((¬ ∃ q, queue_wf demo_k q) ∧
    mcsos_sched_validate (Some tt) (Some demo_k) = (Err MCSOS_SCHED_ECORRUPT, Some demo_k)).
Proof.
  apply (sched_validate_exact demo_k 64 (demo_thread MCSOS_THREAD_RUNNING 0x300f8 None)); try done.
  split.
  - intros x [= <-]. by eexists.
  - intros x t y Ht Hy. unfold demo_k in Ht. cbn [k_threads] in Ht.
    repeat (apply lookup_insert_Some in Ht as [[<- <-]|[_ Ht]]; [try done; injection Hy as <-; by eexists|]).
    done.
Defined.

Lemma m9_bootstrap_ok_witness :
  ∃ k' a ca cb, m9_scheduler_bootstrap 0x5000 16 32 48 0x6000 0x7000 0x10000 0x20000 (Some demo_k) =
      (Ok (Some 2), Some k') ∧
    srep k' a ∧ a_wf a ∧ a_cur a = 16 ∧ a_idle a = 16 ∧ a_queue a = [32; 48] ∧
    a_threads a !! 32 = Some (Some (MCSOS_THREAD_READY, ca)) ∧
    a_threads a !! 48 = Some (Some (MCSOS_THREAD_READY, cb)) ∧
    c_rip ca = 0x5000 ∧ c_rip cb = 0x5000 ∧
    0x10000 < c_rsp ca < 0x10000 + 8192 ∧ 0x20000 < c_rsp cb < 0x20000 + 8192.
Proof.
  apply (m9_bootstrap_ok 0x5000 16 32 48); try done; [|by eexists..].
  repeat constructor; set_solver.
Defined.

Lemma thread_prepare_exact_witness :
  (MCSOS_MIN_KERNEL_STACK <= 8192 ∧ 0x10000 + 8192 < 2 ^ 64 ∧
   ∃ rsp, mcsos_thread_prepare 0x5000 (Some 32) "a" (Some 0x6000) 0 0x10000 8192 1 (Some demo_k) =
       (Ok tt, Some (with_threads (with_stack demo_k (<[rsp := 0]> (k_stack demo_k)))
         (<[32 := prepared 0x5000 "a" 0x6000 0 0x10000 8192 1 rsp]> (k_threads demo_k)))) ∧
     0x10000 + 120 < rsp ∧ rsp + 8 <= 0x10000 + 8192 ∧ (rsp + 8) mod MCSOS_STACK_ALIGN = 0) ∨
  ((8192 < MCSOS_MIN_KERNEL_STACK ∨ 2 ^ 64 <= 0x10000 + 8192) ∧
   mcsos_thread_prepare 0x5000 (Some 32) "a" (Some 0x6000) 0 0x10000 8192 1 (Some demo_k) =
     (Err MCSOS_SCHED_ESTACK, Some demo_k)).
Proof.
  apply (thread_prepare_exact 0x5000 demo_k 32 (demo_thread MCSOS_THREAD_READY 0x100f8 (Some 48)));
    reflexivity || (split; [by vm_compute|reflexivity]).
Defined.

Lemma sched_enqueue_twice_witness :
  ∃ k', mcsos_sched_enqueue (Some tt) (Some 48) (Some demo_k) = (Ok tt, Some k') ∧
    mcsos_sched_validate (Some tt) (Some k') = (Err MCSOS_SCHED_ECORRUPT, Some k') ∧
    ∀ fuel, mcsos_sched_ready_count fuel (Some tt) (Some k') = (Ok None, Some k').
Proof. apply (sched_enqueue_twice demo_k demo_a [32] 48 demo_srep demo_wf); reflexivity. Defined.
