(* ===== verification/Kmem.v ===== *)
(** * Kernel heap
      (kernel/mm/kmem.c, include/mcsos/kmem.h; start-up of kernel/core/kmain.c)

    Memory is the byte array the heap is given, with the block headers inside
    it, read and written field by field; pointers are addresses with NULL as 0.
    A load or store outside the array is undefined behaviour. *)

From Stdlib Require Import ZArith Lia.
From stdpp Require Import base list numbers option.
From S2P Require Import Prelude.

Local Open Scope Z_scope.
Local Open Scope cm_scope.

Definition KMEM_ALIGN : Z := 16.
Definition KMEM_MAGIC : Z := 0x4d43534f53484541.
Definition KMEM_MIN_SPLIT : Z := 32.
Definition SIZE_MAX : Z := 2 ^ 64 - 1.

(** Layout of [kmem_block_t]. *)
Definition sizeof_block : Z := 48.
Definition off_magic : Z := 0.
Definition off_size : Z := 8.
Definition off_free : Z := 16.
Definition off_prev : Z := 32.
Definition off_next : Z := 40.

Record kheap := mk_heap {
  h_region : Z;
  h_mem : list Z;
  g_heap_base : Z;
  g_heap_end : Z;
  g_head : Z;
  g_initialized : bool
}.

Record kmem_stats := mk_stats {
  total_bytes : Z;
  used_bytes : Z;
  free_bytes : Z;
  block_count : Z;
  free_count : Z;
  largest_free : Z
}.

(** ** Memory *)

Definition in_region (h : kheap) (a n : Z) : bool :=
  (h_region h <=? a) && (a + n <=? h_region h + Z.of_nat (length (h_mem h))).

Definition at_addr (h : kheap) (a : Z) : nat := Z.to_nat (a - h_region h).

Definition with_mem (h : kheap) (mem : list Z) : kheap :=
  mk_heap (h_region h) mem (g_heap_base h) (g_heap_end h) (g_head h) (g_initialized h).

Definition load (n : nat) (a : Z) : M kheap Z :=
  let* h := deref in
  if in_region h a (Z.of_nat n) then ret (ld n (at_addr h a) (h_mem h)) else ub.

Definition put (n : nat) (a v : Z) : M kheap unit :=
  let* h := deref in
  if in_region h a (Z.of_nat n) then store (with_mem h (st n (at_addr h a) v (h_mem h))) else ub.

(** ** Alignment *)

Definition kmem_align_up_size (value align : Z) : Z :=
  if align =? 0 then value
  else
    let mask := u64 (align - 1) in
    if negb (Z.land align mask =? 0) then 0
    else if SIZE_MAX - mask <? value then 0
    else Z.land (value + mask) (wnot 64 mask).

Definition kmem_align_up_ptr (value align : Z) : Z :=
  let mask := u64 (align - 1) in
  if negb (Z.land align mask =? 0) then 0
  else if UINT64_MAX - mask <? value then 0
  else Z.land (value + mask) (wnot 64 mask).

(** ** Blocks *)

Definition kmem_memset (dst value bytes : Z) : M kheap unit :=
  let* h := deref in
  if (bytes =? 0) || in_region h dst bytes
  then store (with_mem h (splice (at_addr h dst) (replicate (Z.to_nat bytes) (u8 value)) (h_mem h)))
  else ub.

Definition kmem_payload (block : Z) : Z := block + sizeof_block.
Definition kmem_header_from_payload (ptr : Z) : Z := ptr - sizeof_block.

Definition kmem_ptr_in_heap (ptr : Z) : M kheap bool :=
  let* h := deref in
  ret (g_initialized h && (g_heap_base h <=? ptr) && (ptr <? g_heap_end h)).

Definition kmem_split_if_useful (block wanted : Z) : M kheap unit :=
  let header := kmem_align_up_size sizeof_block KMEM_ALIGN in
  if header =? 0 then ret tt
  else
    let* size := load 8 (block + off_size) in
    if size <? u64 (wanted + header + KMEM_MIN_SPLIT) then ret tt
    else
      let new_addr := kmem_align_up_ptr (kmem_payload block + wanted) KMEM_ALIGN in
      if new_addr =? 0 then ret tt
      else
        let* h := deref in
        if g_heap_end h <=? new_addr + sizeof_block then ret tt
        else
          let consumed := new_addr - kmem_payload block in
          if size <=? u64 (consumed + sizeof_block + KMEM_MIN_SPLIT) then ret tt
          else
            put 8 (new_addr + off_magic) KMEM_MAGIC ;;
            put 8 (new_addr + off_size) (size - consumed - sizeof_block) ;;
            put 4 (new_addr + off_free) 1 ;;
            put 8 (new_addr + off_prev) block ;;
            let* next := load 8 (block + off_next) in
            put 8 (new_addr + off_next) next ;;
            (if negb (next =? 0) then put 8 (next + off_prev) new_addr else ret tt) ;;
            put 8 (block + off_next) new_addr ;;
            put 8 (block + off_size) wanted.

(** The fuel bounds the number of blocks of the heap. *)
Fixpoint coalesce_loop (fuel : nat) (block : Z) : M kheap unit :=
  match fuel with
  | O => ub
  | S fuel =>
      if block =? 0 then ret tt
      else
        let* next := load 8 (block + off_next) in
        if next =? 0 then ret tt
        else
          let* free := load 4 (next + off_free) in
          if free =? 0 then ret tt
          else
            let* size := load 8 (block + off_size) in
            let expected := kmem_align_up_ptr (kmem_payload block + size) KMEM_ALIGN in
            if negb (expected =? next) then ret tt
            else
              let* next_size := load 8 (next + off_size) in
              put 8 (block + off_size) (u64 (size + (sizeof_block + next_size))) ;;
              let* next_next := load 8 (next + off_next) in
              put 8 (block + off_next) next_next ;;
              (if negb (next_next =? 0) then put 8 (next_next + off_prev) block else ret tt) ;;
              put 8 (next + off_magic) 0 ;;
              put 8 (next + off_size) 0 ;;
              put 8 (next + off_prev) 0 ;;
              put 8 (next + off_next) 0 ;;
              coalesce_loop fuel block
  end.

Definition heap_fuel (h : kheap) : nat := Z.to_nat ((g_heap_end h - g_heap_base h) / sizeof_block + 2).

Definition kmem_coalesce_forward (block : Z) : M kheap unit :=
  let* h := deref in coalesce_loop (heap_fuel h) block.

(** ** Validation *)

Fixpoint validate_blocks (fuel : nat) (h : kheap) (cur prev cursor guard : Z) : M kheap Z :=
  if cur =? 0 then ret 0
  else
    match fuel with
    | O => ub
    | S fuel =>
        let guard := guard + 1 in
        if 1048576 <? guard then ret (-3)
        else if negb (cur =? cursor) then ret (-4)
        else if (cur <? g_heap_base h) || (g_heap_end h <? cur + sizeof_block) then ret (-5)
        else
          let* magic := load 8 (cur + off_magic) in
          if negb (magic =? KMEM_MAGIC) then ret (-6)
          else
            let* p := load 8 (cur + off_prev) in
            if negb (p =? prev) then ret (-7)
            else
              let* size := load 8 (cur + off_size) in
              if g_heap_end h - kmem_payload cur <? size then ret (-8)
              else
                let cursor := kmem_align_up_ptr (kmem_payload cur + size) KMEM_ALIGN in
                if (cursor =? 0) || (g_heap_end h <? cursor) then ret (-9)
                else
                  let* next := load 8 (cur + off_next) in
                  validate_blocks fuel h next cur cursor guard
    end.

(** The guard ends the loop after 1048577 rounds at the latest, the heap's end
    earlier. *)
Definition kmem_validate : M kheap Z :=
  let* h := deref in
  if negb (g_initialized h) || (g_heap_base h =? 0) || (g_heap_end h <=? g_heap_base h) || (g_head h =? 0)
  then ret (-1)
  else if negb (g_head h =? g_heap_base h) then ret (-2)
  else validate_blocks (heap_fuel h) h (g_head h) 0 (g_heap_base h) 0.

(** ** Operations *)

Definition kmem_init (base bytes : Z) : M kheap Z :=
  if (base =? 0) || (bytes <? sizeof_block + KMEM_MIN_SPLIT) then ret (-1)
  else
    let start := kmem_align_up_ptr base KMEM_ALIGN in
    if (start =? 0) || (start <? base) then ret (-2)
    else
      let lost := start - base in
      if bytes <=? lost + sizeof_block + KMEM_MIN_SPLIT then ret (-3)
      else
        let usable := Z.land (bytes - lost) (wnot 64 (KMEM_ALIGN - 1)) in
        if usable <=? sizeof_block + KMEM_MIN_SPLIT then ret (-4)
        else
          let* h := deref in
          store (mk_heap (h_region h) (h_mem h) start (start + usable) start (g_initialized h)) ;;
          put 8 (start + off_magic) KMEM_MAGIC ;;
          put 8 (start + off_size) (usable - sizeof_block) ;;
          put 4 (start + off_free) 1 ;;
          put 8 (start + off_prev) 0 ;;
          put 8 (start + off_next) 0 ;;
          let* h := deref in
          store (mk_heap (h_region h) (h_mem h) (g_heap_base h) (g_heap_end h) (g_head h) true) ;;
          kmem_validate.

Fixpoint alloc_loop (fuel : nat) (cur wanted : Z) : M kheap Z :=
  if cur =? 0 then ret 0
  else
    match fuel with
    | O => ub
    | S fuel =>
        let* magic := load 8 (cur + off_magic) in
        if negb (magic =? KMEM_MAGIC) then ret 0
        else
          let* free := load 4 (cur + off_free) in
          let* size := load 8 (cur + off_size) in
          if negb (free =? 0) && (wanted <=? size) then
            kmem_split_if_useful cur wanted ;;
            put 4 (cur + off_free) 0 ;;
            ret (kmem_payload cur)
          else
            let* next := load 8 (cur + off_next) in
            alloc_loop fuel next wanted
    end.

Definition kmem_alloc (bytes : Z) : M kheap Z :=
  let* h := deref in
  if negb (g_initialized h) || (bytes =? 0) then ret 0
  else
    let wanted := kmem_align_up_size bytes KMEM_ALIGN in
    if wanted =? 0 then ret 0
    else alloc_loop (heap_fuel h) (g_head h) wanted.

Definition kmem_calloc (count bytes : Z) : M kheap Z :=
  if negb (count =? 0) && (SIZE_MAX / count <? bytes) then ret 0
  else
    let total := u64 (count * bytes) in
    let* ptr := kmem_alloc total in
    (if negb (ptr =? 0) then kmem_memset ptr 0 total else ret tt) ;;
    ret ptr.

Definition kmem_free_checked (ptr : Z) : M kheap Z :=
  if ptr =? 0 then ret 0
  else
    let* inside := kmem_ptr_in_heap ptr in
    if negb inside then ret (-1)
    else if negb (Z.land ptr (KMEM_ALIGN - 1) =? 0) then ret (-2)
    else
      let block := kmem_header_from_payload ptr in
      let* inside := kmem_ptr_in_heap block in
      if negb inside then ret (-3)
      else
        let* magic := load 8 (block + off_magic) in
        if negb (magic =? KMEM_MAGIC) then ret (-3)
        else
          let* free := load 4 (block + off_free) in
          if negb (free =? 0) then ret (-4)
          else
            put 4 (block + off_free) 1 ;;
            kmem_coalesce_forward block ;;
            let* prev := load 8 (block + off_prev) in
            (if negb (prev =? 0) then
               let* prev_free := load 4 (prev + off_free) in
               if negb (prev_free =? 0) then kmem_coalesce_forward prev else ret tt
             else ret tt) ;;
            kmem_validate.

(** The loop of [kmem_get_stats]. *)
Fixpoint stats_loop (fuel : nat) (cur : Z) (out : kmem_stats) : M kheap kmem_stats :=
  if cur =? 0 then ret out
  else
    match fuel with
    | O => ub
    | S fuel =>
        let* free := load 4 (cur + off_free) in
        let* size := load 8 (cur + off_size) in
        let out' :=
          if negb (free =? 0) then
            mk_stats (total_bytes out) (used_bytes out) (u64 (free_bytes out + size))
              (u64 (block_count out + 1)) (u64 (free_count out + 1))
              (if largest_free out <? size then size else largest_free out)
          else
            mk_stats (total_bytes out) (u64 (used_bytes out + size)) (free_bytes out)
              (u64 (block_count out + 1)) (free_count out) (largest_free out) in
        let* next := load 8 (cur + off_next) in
        stats_loop fuel next out'
    end.

Definition kmem_get_stats : M kheap kmem_stats :=
  let* h := deref in
  if negb (g_initialized h) then ret (mk_stats 0 0 0 0 0 0)
  else stats_loop (heap_fuel h) (g_head h) (mk_stats (g_heap_end h - g_heap_base h) 0 0 0 0 0).

(** ** Start-up (kernel/core/kmain.c) *)

Definition panic_if (b : bool) : M kheap unit := fail_if b KERNEL_PANIC.

Definition m8_heap_bootstrap (m8_boot_heap size : Z) : M kheap kmem_stats :=
  let* rc := kmem_init m8_boot_heap size in
  panic_if (negb (rc =? 0)) ;;
  let* probe := kmem_alloc 128 in
  panic_if (probe =? 0) ;;
  let* rc := kmem_free_checked probe in
  panic_if (negb (rc =? 0)) ;;
  kmem_get_stats.
