(* ===== verification/KmemProof.v ===== *)
(** * The kernel heap as a list of blocks
      (kernel/mm/kmem.c)

    The headers tile the heap: each block follows the one before it, the links
    run in both directions and no two free blocks are neighbours.  A used block
    owns the contents of its payload. *)

From Stdlib Require Import ZArith Lia.
From stdpp Require Import base numbers option list gmap.
From S2P Require Import Prelude Kmem.

Local Open Scope Z_scope.
Local Open Scope cm_scope.

(** ** Loads and stores by address *)

Section memory.
Context (R : Z).
Implicit Types mem : list Z.

Definition L mem (n : nat) (a : Z) : Z := ld n (Z.to_nat (a - R)) mem.
Definition P mem (n : nat) (a v : Z) : list Z := st n (Z.to_nat (a - R)) v mem.
Definition bytes_at mem (a n : Z) : list Z := slice (Z.to_nat (a - R)) (Z.to_nat n) mem.
Definition limit mem : Z := R + Z.of_nat (length mem).

Lemma length_P mem n a v : length (P mem n a v) = length mem.
Proof. apply length_st. Qed.

Lemma limit_P mem n a v : limit (P mem n a v) = limit mem.
Proof. unfold limit. by rewrite length_P. Qed.

Lemma L_P_eq mem n a v :
  R <= a → a + Z.of_nat n <= limit mem → fits (8 * Z.of_nat n) v → L (P mem n a v) n a = v.
Proof. unfold limit. intros ? ? ?. unfold L, P. apply ld_st_eq; [lia|done]. Qed.

Lemma L_P_ne mem n a v n' a' :
  R <= a → R <= a' → (a' + Z.of_nat n' <= a ∨ a + Z.of_nat n <= a') → L (P mem n a v) n' a' = L mem n' a'.
Proof. intros ? ? ?. unfold L, P. apply ld_st_ne. lia. Qed.

Lemma bytes_at_P mem n a v a' k :
  R <= a → R <= a' → 0 <= k → (a' + k <= a ∨ a + Z.of_nat n <= a') →
  bytes_at (P mem n a v) a' k = bytes_at mem a' k.
Proof. intros ? ? ? ?. unfold bytes_at, P. apply slice_st_ne. lia. Qed.

(** ** Headers and segments *)

(** [b_data] is [None] for a free block, the payload's bytes for a used one. *)
Record blk := mk_blk { b_size : Z; b_data : option (list Z) }.

Definition is_free (b : blk) : bool := if b_data b is None then true else false.
Definition span (b : blk) : Z := sizeof_block + b_size b.

Fixpoint len (bs : list blk) : Z :=
  match bs with [] => 0 | b :: bs => span b + len bs end.

Definition size_ok (b : blk) : Prop :=
  0 < b_size b ∧ b_size b mod KMEM_ALIGN = 0 ∧
  match b_data b with Some d => Z.of_nat (length d) = b_size b | None => True end.

Record header mem (a prev next : Z) (b : blk) : Prop := {
  hd_magic : L mem 8 (a + off_magic) = KMEM_MAGIC;
  hd_size : L mem 8 (a + off_size) = b_size b;
  hd_free : (L mem 4 (a + off_free) =? 0) = negb (is_free b);
  hd_prev : L mem 8 (a + off_prev) = prev;
  hd_next : L mem 8 (a + off_next) = next;
  hd_data : match b_data b with Some d => bytes_at mem (a + sizeof_block) (b_size b) = d | None => True end
}.

(** The blocks from [a] on; [fin] is the link of the last one. *)
Fixpoint seg mem (a prev : Z) (bs : list blk) (fin : Z) : Prop :=
  match bs with
  | [] => True
  | b :: bs' =>
      header mem a prev (match bs' with [] => fin | _ => a + span b end) b ∧
      size_ok b ∧ seg mem (a + span b) a bs' fin
  end.

(** The address of the last block of a list that starts at [a]. *)
Fixpoint last_addr (a prev : Z) (bs : list blk) : Z :=
  match bs with [] => prev | b :: bs' => last_addr (a + span b) a bs' end.

Lemma len_app l r : len (l ++ r) = len l + len r.
Proof. induction l as [|b l IH]; simpl; [done|]. rewrite IH. lia. Qed.

Lemma size_ok_pos b : size_ok b → 16 <= b_size b.
Proof.
  intros (H0 & Hm & _). unfold KMEM_ALIGN in Hm. pose proof (Z.div_mod (b_size b) 16 ltac:(lia)). lia.
Qed.

Lemma len_nonneg mem a p bs fin : seg mem a p bs fin → 0 <= len bs.
Proof.
  revert a p. induction bs as [|b bs IH]; intros a p; simpl; [lia|].
  intros (_ & [Hp _] & H). apply IH in H. unfold span, sizeof_block in *. lia.
Qed.

Lemma seg_app mem a p l r fin :
  seg mem a p (l ++ r) fin ↔
  seg mem a p l (match r with [] => fin | _ => a + len l end) ∧ seg mem (a + len l) (last_addr a p l) r fin.
Proof.
  revert a p. induction l as [|b l IH]; intros a p; simpl.
  { rewrite Z.add_0_r. tauto. }
  rewrite IH, Z.add_assoc. split.
  - intros (Hh & Hs & Hl & Hr). split_and!; try done. destruct l; simpl in *; [|done].
    destruct r; [done|]. by rewrite Z.add_0_r.
  - intros ((Hh & Hs & Hl) & Hr). split_and!; try done. destruct l; simpl in *; [|done].
    destruct r; [done|]. by rewrite Z.add_0_r in Hh.
Qed.

(** Memory that agrees on a range. *)
Definition same_bytes mem mem' (lo hi : Z) : Prop :=
  length mem' = length mem ∧ ∀ x, lo <= x < hi → mem' !! Z.to_nat (x - R) = mem !! Z.to_nat (x - R).

Lemma same_bytes_sub mem mem' lo hi lo' hi' :
  same_bytes mem mem' lo hi → lo <= lo' → hi' <= hi → same_bytes mem mem' lo' hi'.
Proof. intros [Hl H] ? ?. split; [done|]. intros x ?. apply H. lia. Qed.

Lemma same_bytes_refl mem lo hi : same_bytes mem mem lo hi.
Proof. done. Qed.

Lemma same_bytes_trans mem mem' mem'' lo hi :
  same_bytes mem mem' lo hi → same_bytes mem' mem'' lo hi → same_bytes mem mem'' lo hi.
Proof. intros [E1 H1] [E2 H2]. split; [congruence|]. intros x ?. by rewrite H2, H1. Qed.

Lemma same_bytes_P mem n a v lo hi :
  R <= a → R <= lo → (hi <= a ∨ a + Z.of_nat n <= lo) → same_bytes mem (P mem n a v) lo hi.
Proof.
  intros Ha Hlo Hd. split; [apply length_P|]. intros x Hx. unfold P, st.
  apply lookup_splice_out. rewrite length_le_bytes. lia.
Qed.

Lemma same_bytes_slice mem mem' lo hi a n :
  same_bytes mem mem' lo hi → R <= lo <= a → a + n <= hi → bytes_at mem' a n = bytes_at mem a n.
Proof.
  intros [_ H] Ha Hn. unfold bytes_at. apply list_eq. intros i.
  destruct (decide (i < Z.to_nat n)%nat) as [Hi|Hi].
  - rewrite !lookup_slice by done. replace (Z.to_nat (a - R) + i)%nat with (Z.to_nat (a + Z.of_nat i - R)) by lia.
    apply H. lia.
  - rewrite !lookup_ge_None_2; [done|..]; unfold slice; rewrite length_take; lia.
Qed.

Lemma same_bytes_L mem mem' lo hi n a :
  same_bytes mem mem' lo hi → R <= lo <= a → a + Z.of_nat n <= hi → L mem' n a = L mem n a.
Proof.
  intros H Ha Hn. pose proof (same_bytes_slice mem mem' lo hi a (Z.of_nat n) H Ha Hn) as E.
  unfold bytes_at in E. rewrite Nat2Z.id in E. unfold L, ld. by rewrite E.
Qed.

Lemma header_same mem mem' lo hi a p n b :
  same_bytes mem mem' lo hi → R <= lo <= a → a + span b <= hi → 0 < b_size b →
  header mem a p n b → header mem' a p n b.
Proof.
  unfold span, sizeof_block. intros Hs Ha Hb Hp [H1 H2 H3 H4 H5 H6].
  unfold off_magic, off_size, off_free, off_prev, off_next in *.
  constructor; unfold off_magic, off_size, off_free, off_prev, off_next;
    try (rewrite (same_bytes_L mem mem' lo hi) by (done || lia); done).
  destruct (b_data b); [|done]. unfold sizeof_block in *.
  by rewrite (same_bytes_slice mem mem' lo hi) by (done || lia).
Qed.

Lemma seg_same mem mem' a p bs fin :
  R <= a → same_bytes mem mem' a (a + len bs) → seg mem a p bs fin → seg mem' a p bs fin.
Proof.
  revert a p. induction bs as [|b bs IH]; intros a p Ha Hs H; simpl in *; [done|].
  destruct H as (Hh & Hk & H). pose proof (len_nonneg _ _ _ _ _ H) as Hl. pose proof (size_ok_pos b Hk).
  split; [|split; [done|]].
  - eapply header_same; [exact Hs|lia|lia|lia|done].
  - apply IH; [unfold span, sizeof_block; lia| |done].
    eapply same_bytes_sub; [exact Hs|unfold span, sizeof_block; lia|lia].
Qed.

End memory.

(** ** Invariant *)

Fixpoint no_adjacent (bs : list blk) : Prop :=
  match bs with
  | b :: (c :: _) as r => (is_free b && is_free c = false) ∧ no_adjacent r
  | _ => True
  end.

Record kinv (h : kheap) (bs : list blk) : Prop := {
  ki_init : g_initialized h = true;
  ki_head : g_head h = g_heap_base h;
  ki_base : 0 < h_region h <= g_heap_base h ∧ g_heap_base h mod KMEM_ALIGN = 0;
  ki_end : g_heap_end h = g_heap_base h + len bs;
  ki_size : len bs < 2 ^ 63;
  ki_limit : g_heap_end h <= limit (h_region h) (h_mem h) < 2 ^ 64;
  ki_seg : seg (h_region h) (h_mem h) (g_heap_base h) 0 bs 0;
  ki_adj : no_adjacent bs;
  ki_some : bs ≠ []
}.

(** ** Running loads and stores *)

Ltac offs := unfold span, off_magic, off_size, off_free, off_prev, off_next, kmem_payload in *; unfold sizeof_block in *.

(** Loads after stores, with the disjointness left to [lia]. *)
Ltac klia :=
  rewrite ?limit_P; unfold fits, KMEM_MAGIC in *; change (8 * Z.of_nat 8) with 64 in *;
  change (8 * Z.of_nat 4) with 32 in *; offs; lia.
Ltac klp := repeat first [rewrite L_P_eq by klia | rewrite L_P_ne by klia].

(** Several stores below or above a range leave it alone. *)
Ltac same_range :=
  repeat first [apply same_bytes_refl | (eapply same_bytes_trans; [|apply same_bytes_P; klia])].

(** ** Alignment *)

Lemma align_ptr_id x : x mod KMEM_ALIGN = 0 → 0 <= x < 2 ^ 64 - 15 → kmem_align_up_ptr x KMEM_ALIGN = x.
Proof.
  intros Hm Hx. unfold kmem_align_up_ptr, KMEM_ALIGN, UINT64_MAX in *. change (u64 (16 - 1)) with 15.
  change (Z.land 16 15) with 0. cbn [Z.eqb negb]. destruct (Z.ltb_spec (2 ^ 64 - 1 - 15) x); [lia|].
  change (wnot 64 15) with (wnot 64 (2 ^ 4 - 1)). rewrite land_wnot_mask by (unfold fits; lia). change (2 ^ 4) with 16.
  rewrite Z.add_mod, Hm by lia. change (15 mod 16) with 15. change ((0 + 15) mod 16) with 15. lia.
Qed.

Lemma align_size_spec x : 0 < x <= 2 ^ 64 - 16 →
  let w := kmem_align_up_size x KMEM_ALIGN in w mod KMEM_ALIGN = 0 ∧ x <= w < x + 16.
Proof.
  intros Hx w. subst w. unfold kmem_align_up_size, KMEM_ALIGN, SIZE_MAX. change (u64 (16 - 1)) with 15.
  change (Z.land 16 15) with 0. cbn [Z.eqb negb]. destruct (Z.ltb_spec (2 ^ 64 - 1 - 15) x); [lia|].
  change (wnot 64 15) with (wnot 64 (2 ^ 4 - 1)). rewrite !land_wnot_mask by (unfold fits; lia). change (2 ^ 4) with 16.
  pose proof (Z.mod_pos_bound (x + 15) 16 ltac:(lia)). split; [by apply mod_sub_mod|lia].
Qed.

Lemma align_size_zero x : 2 ^ 64 - 16 < x → kmem_align_up_size x KMEM_ALIGN = 0.
Proof.
  intros Hx. unfold kmem_align_up_size, KMEM_ALIGN, SIZE_MAX. change (u64 (16 - 1)) with 15.
  change (Z.land 16 15) with 0. cbn [Z.eqb negb]. destruct (Z.ltb_spec (2 ^ 64 - 1 - 15) x); [done|lia].
Qed.

Section running.
Context (h : kheap).
Let R := h_region h.
Implicit Types m : list Z.

Lemma load_run m n a :
  R <= a → a + Z.of_nat n <= limit R m →
  load n a (Some (with_mem h m)) = (Ok (L R m n a), Some (with_mem h m)).
Proof.
  unfold limit. intros Ha Hn. unfold load. rewrite (bind_ok _ _ _ (with_mem h m) (Some (with_mem h m))) by done.
  unfold in_region. cbn [with_mem h_region h_mem]. fold R.
  destruct (Z.leb_spec R a); [|lia]. destruct (Z.leb_spec (a + Z.of_nat n) (R + Z.of_nat (length m))); [done|lia].
Qed.

Lemma put_run m n a v :
  R <= a → a + Z.of_nat n <= limit R m →
  put n a v (Some (with_mem h m)) = (Ok tt, Some (with_mem h (P R m n a v))).
Proof.
  unfold limit. intros Ha Hn. unfold put. rewrite (bind_ok _ _ _ (with_mem h m) (Some (with_mem h m))) by done.
  unfold in_region. cbn [with_mem h_region h_mem]. fold R.
  destruct (Z.leb_spec R a); [|lia]. destruct (Z.leb_spec (a + Z.of_nat n) (R + Z.of_nat (length m))); [done|lia].
Qed.

(** ** Taking a block *)

(** The blocks a free block becomes when [wanted] bytes of it are taken. *)
Definition split_blk (wanted : Z) (b : blk) : list blk :=
  if wanted + sizeof_block + KMEM_MIN_SPLIT <? b_size b
  then [mk_blk wanted None; mk_blk (b_size b - wanted - sizeof_block) None]
  else [b].

Lemma mod16_sub x y : x mod KMEM_ALIGN = 0 → y mod KMEM_ALIGN = 0 → (x - y) mod KMEM_ALIGN = 0.
Proof. intros Hx Hy. by rewrite Zminus_mod, Hx, Hy. Qed.
Lemma mod16_add x y : x mod KMEM_ALIGN = 0 → y mod KMEM_ALIGN = 0 → (x + y) mod KMEM_ALIGN = 0.
Proof. intros Hx Hy. by rewrite Zplus_mod, Hx, Hy. Qed.

(** The situation of an operation on the block [b] at [a]. *)
Record place m (a p : Z) (bs : list blk) : Prop := {
  pl_addr : 0 < R <= a;
  pl_align : a mod KMEM_ALIGN = 0;
  pl_end : g_heap_end h = a + len bs;
  pl_size : len bs < 2 ^ 63;
  pl_limit : g_heap_end h <= limit R m < 2 ^ 64;
  pl_seg : seg R m a p bs 0
}.

(** The first header of a segment takes a new predecessor. *)
Lemma seg_relink m a p p' c r :
  0 < R <= a → a + len (c :: r) <= limit R m → fits 64 p' → seg R m a p (c :: r) 0 →
  seg R (P R m 8 (a + off_prev) p') a p' (c :: r) 0.
Proof.
  intros Ha Hl Hp (Hh & Hk & Hr). pose proof (size_ok_pos c Hk) as Hc. cbn [len] in Hl.
  pose proof (len_nonneg _ _ _ _ _ _ Hr) as Hlr. split; [|split; [done|]].
  - destruct Hh as [H1 H2 H3 H4 H5 H6]. constructor; try (klp; offs; done).
    revert H6. destruct (b_data c); [|done]. intros H6. rewrite bytes_at_P; [done|klia..].
  - eapply seg_same; [|apply same_bytes_P|exact Hr]; klia.
Qed.

(** One load or store at the head of a run. *)
Ltac kload := erewrite bind_ok; [|apply load_run; klia].
Ltac kput := erewrite bind_ok; [|apply put_run; klia].

(** A header after stores, and a size, field by field. *)
Ltac khead := constructor; cbn [b_size b_data is_free negb]; klp; offs; cbn [b_size]; first [done | lia].
Ltac ksize := unfold size_ok; cbn [b_size b_data]; split_and!; first [done | lia].

Lemma seg_P m n x v a p bs :
  R <= a → R <= x → (x + Z.of_nat n <= a ∨ a + len bs <= x) → seg R m a p bs 0 → seg R (P R m n x v) a p bs 0.
Proof. intros ? ? Hd H. eapply seg_same; [done| |exact H]. apply same_bytes_P; lia. Qed.

(** Stores outside a segment are peeled off. *)
Ltac seg_frame := repeat (apply seg_P; [klia|klia|cbn [len]; klia|]).

Lemma split_run m a p b r wanted :
  place m a p (b :: r) → b_data b = None → 0 < wanted <= b_size b → wanted mod KMEM_ALIGN = 0 →
  ∃ m', kmem_split_if_useful a wanted (Some (with_mem h m)) = (Ok tt, Some (with_mem h m')) ∧
    length m' = length m ∧ same_bytes R m m' R a ∧ seg R m' a p (split_blk wanted b ++ r) 0.
Proof.
  intros [Ha Hal Hend Hsz Hlim Hseg] Hfree Hw Hwm. pose proof Hseg as (Hh & Hk & Hr).
  pose proof (size_ok_pos b Hk) as Hb. pose proof (len_nonneg _ _ _ _ _ _ Hr) as Hlr. cbn [len] in Hend, Hsz.
  unfold kmem_split_if_useful. change (kmem_align_up_size sizeof_block KMEM_ALIGN) with 48. cbn [Z.eqb].
  kload. rewrite (hd_size _ _ _ _ _ _ Hh).
  assert (fits 64 (wanted + 48 + KMEM_MIN_SPLIT)) as Hfit by (unfold KMEM_MIN_SPLIT; klia).
  rewrite (wrap_small 64 (wanted + 48 + KMEM_MIN_SPLIT)) by done.
  unfold split_blk, sizeof_block, KMEM_MIN_SPLIT in *.
  destruct (Z.ltb_spec (b_size b) (wanted + 48 + 32)) as [Hlt|Hge].
  { exists m. destruct (Z.ltb_spec (wanted + 48 + 32) (b_size b)); [lia|]. by split_and!. }
  set (na := a + 48 + wanted).
  rewrite align_ptr_id by (first [by repeat apply mod16_add | klia]). change (kmem_payload a + wanted) with na.
  rewrite (proj2 (Z.eqb_neq na 0)) by (unfold na; lia).
  rewrite (bind_ok _ _ _ (with_mem h m) (Some (with_mem h m))) by done. cbn [with_mem g_heap_end].
  destruct (Z.leb_spec (g_heap_end h) (na + 48)); [unfold na in *; klia|].
  replace (na - kmem_payload a) with wanted by (unfold na; klia).
  rewrite (wrap_small 64 (wanted + 48 + 32)) by done.
  destruct (Z.leb_spec (b_size b) (wanted + 48 + 32)) as [Hle|Hgt].
  { exists m. destruct (Z.ltb_spec (wanted + 48 + 32) (b_size b)); [lia|]. by split_and!. }
  destruct (Z.ltb_spec (wanted + 48 + 32) (b_size b)); [|lia].
  set (ns := b_size b - wanted - 48) in *.
  assert (na = a + 48 + wanted) as Hna by done. clearbody na.
  assert (ns = b_size b - wanted - 48) as Hns by done. clearbody ns.
  do 4 kput. kload.
  assert (ns mod KMEM_ALIGN = 0) as Hnm by (subst ns; repeat apply mod16_sub; [apply Hk|done|done]).
  klp. rewrite (hd_next _ _ _ _ _ _ Hh).
  kput.
  destruct r as [|c r].
  - cbn [Z.eqb negb]. rewrite (bind_ok _ _ _ tt (Some (with_mem h _))) by reflexivity.
    kput.
    rewrite put_run by klia. eexists. split; [reflexivity|].
    split; [by rewrite !length_P|]. split; [same_range|]. destruct Hh as [H1 H2 H3 H4 H5 H6].
    unfold is_free in H3. rewrite Hfree in H3. cbn [app]. split; [khead|]. split; [ksize|].
    replace (a + span (mk_blk wanted None)) with na by (unfold span; cbn [b_size]; klia).
    split; [khead|]. by split; [ksize|].
  - cbn [len] in *. pose proof Hr as (_ & Hck & Hrr). pose proof (size_ok_pos c Hck) as Hcs.
    pose proof (len_nonneg _ _ _ _ _ _ Hrr) as Hrl.
    rewrite (proj2 (Z.eqb_neq (a + span b) 0)) by klia. cbn [negb].
    do 2 kput.
    rewrite put_run by klia. eexists. split; [reflexivity|].
    split; [by rewrite !length_P|]. split; [same_range|]. destruct Hh as [H1 H2 H3 H4 H5 H6].
    unfold is_free in H3. rewrite Hfree in H3. cbn [app]. split; [khead|]. split; [ksize|].
    replace (a + span (mk_blk wanted None)) with na by (unfold span; cbn [b_size]; klia).
    split; [khead|]. split; [ksize|].
    replace (na + span (mk_blk ns None)) with (a + span b) by (unfold span; cbn [b_size]; klia).
    seg_frame. apply (seg_relink _ _ a); [klia|cbn [len]; klia|klia|]. by seg_frame.
Qed.

(** A block becomes used with the bytes its payload holds, or free. *)
Lemma seg_mark m a p b r v :
  0 < R <= a → a + len (b :: r) <= limit R m → v = 0 ∨ v = 1 → seg R m a p (b :: r) 0 →
  let d := if v =? 0 then Some (bytes_at R m (a + sizeof_block) (b_size b)) else None in
  seg R (P R m 4 (a + off_free) v) a p (mk_blk (b_size b) d :: r) 0.
Proof.
  intros Ha Hl Hv (Hh & Hk & Hr) d. pose proof (size_ok_pos b Hk) as Hb. cbn [len] in Hl.
  pose proof (len_nonneg _ _ _ _ _ _ Hr) as Hlr. split; [|split].
  - destruct Hh as [H1 H2 H3 H4 H5 H6]. constructor; cbn [b_size b_data]; try (klp; offs; done).
    + rewrite L_P_eq by klia. subst d. by destruct Hv as [->| ->].
    + subst d. destruct Hv as [->| ->]; [|done]. apply bytes_at_P; klia.
  - destruct Hk as (? & ? & _). split_and!; try done. subst d. destruct Hv as [->| ->]; [|done]. cbn [Z.eqb b_data b_size].
    unfold bytes_at, limit in *. rewrite length_slice; klia.
  - change (span (mk_blk (b_size b) d)) with (span b). by seg_frame.
Qed.

Definition take_blk (wanted : Z) (b : blk) (d : list Z) : list blk :=
  if wanted + sizeof_block + KMEM_MIN_SPLIT <? b_size b
  then [mk_blk wanted (Some d); mk_blk (b_size b - wanted - sizeof_block) None]
  else [mk_blk (b_size b) (Some d)].

Definition suitable (wanted : Z) (b : blk) : bool := is_free b && (wanted <=? b_size b).

Lemma len_split wanted b : len (split_blk wanted b) = span b.
Proof. unfold split_blk. destruct (_ <? _); cbn [len]; unfold span; cbn [b_size]; lia. Qed.

Lemma take_run m a p b r wanted :
  place m a p (b :: r) → suitable wanted b = true → 0 < wanted → wanted mod KMEM_ALIGN = 0 →
  ∃ m' d, (kmem_split_if_useful a wanted ;; put 4 (a + off_free) 0 ;; ret (kmem_payload a)) (Some (with_mem h m)) =
      (Ok (a + sizeof_block), Some (with_mem h m')) ∧
    length m' = length m ∧ same_bytes R m m' R a ∧ seg R m' a p (take_blk wanted b d ++ r) 0.
Proof.
  intros H Hs Hw Hwm. unfold suitable in Hs. apply andb_true_iff in Hs as [Hf Hle]. apply Z.leb_le in Hle.
  assert (b_data b = None) as Hd by (unfold is_free in Hf; by destruct (b_data b)).
  destruct (split_run m a p b r wanted H Hd ltac:(lia) Hwm) as (m1 & R1 & E1 & S1 & G1).
  destruct H as [Ha Hal Hend Hsz Hlim Hseg]. rewrite (bind_ok _ _ _ _ _ R1).
  assert (limit R m1 = limit R m) as El by (unfold limit; by rewrite E1).
  assert (len (split_blk wanted b ++ r) = len (b :: r)) as Elen by (rewrite len_app, len_split; done).
  assert (∃ b1 r1, split_blk wanted b ++ r = b1 :: r1 ∧ ∀ d, take_blk wanted b d ++ r = mk_blk (b_size b1) (Some d) :: r1)
    as (b1 & r1 & Eq & Etake).
  { unfold split_blk, take_blk. destruct (_ <? _); by eexists _, _. }
  rewrite Eq in *. pose proof G1 as (_ & Hk1 & Hr1). pose proof (size_ok_pos b1 Hk1).
  pose proof (len_nonneg _ _ _ _ _ _ Hr1). cbn [len] in Elen, Hend.
  kput. eexists _, _. split; [reflexivity|].
  split; [by rewrite length_P|]. split; [eapply same_bytes_trans; [exact S1|same_range]|].
  rewrite Etake. apply (seg_mark m1 a p b1 r1 0); [lia|cbn [len]; lia|by left|done].
Qed.

Lemma place_next m a p b r : place m a p (b :: r) → place m (a + span b) a r.
Proof.
  intros [Ha Hal Hend Hsz Hlim (Hh & Hk & Hr)]. pose proof (size_ok_pos b Hk). cbn [len] in *.
  constructor; try done; try klia. unfold span. repeat apply mod16_add; [done|done|apply Hk].
Qed.

Lemma place_bounds m a p b r :
  place m a p (b :: r) → 64 <= span b ∧ a + span b <= g_heap_end h ∧ 0 <= len r.
Proof.
  intros [Ha Hal Hend Hsz Hlim (Hh & Hk & Hr)]. pose proof (size_ok_pos b Hk).
  pose proof (len_nonneg _ _ _ _ _ _ Hr). cbn [len] in *. klia.
Qed.

(** First fit. *)
Lemma alloc_loop_run bs fuel m a p wanted :
  place m a p bs → bs ≠ [] → (length bs <= fuel)%nat → 0 < wanted → wanted mod KMEM_ALIGN = 0 →
  (Forall (λ b, suitable wanted b = false) bs ∧
   alloc_loop fuel a wanted (Some (with_mem h m)) = (Ok 0, Some (with_mem h m))) ∨
  ∃ l b r d m', bs = l ++ b :: r ∧ Forall (λ b, suitable wanted b = false) l ∧ suitable wanted b = true ∧
    alloc_loop fuel a wanted (Some (with_mem h m)) = (Ok (a + len l + sizeof_block), Some (with_mem h m')) ∧
    length m' = length m ∧ same_bytes R m m' R a ∧ seg R m' a p (l ++ take_blk wanted b d ++ r) 0.
Proof.
  revert bs m a p. induction fuel as [|fuel IH]; intros bs m a p H Hne Hf Hw Hwm; destruct bs as [|b bs]; try done.
  { simpl in Hf. lia. }
  destruct (place_bounds m a p b bs H) as (B1 & B2 & B3). pose proof (pl_addr _ _ _ _ H). pose proof (pl_limit _ _ _ _ H).
  pose proof (pl_seg _ _ _ _ H) as (Hh & Hk & Hr). pose proof (size_ok_pos b Hk) as Hb.
  cbn [alloc_loop]. rewrite (proj2 (Z.eqb_neq a 0)) by lia.
  kload. rewrite (hd_magic _ _ _ _ _ _ Hh), Z.eqb_refl. cbn [negb].
  kload. kload. rewrite (hd_free _ _ _ _ _ _ Hh), (hd_size _ _ _ _ _ _ Hh), negb_involutive.
  change (is_free b && (wanted <=? b_size b)) with (suitable wanted b).
  destruct (suitable wanted b) eqn:Hs.
  { right. destruct (take_run m a p b bs wanted H Hs Hw Hwm) as (m' & d & Rr & ? & ? & ?).
    exists [], b, bs, d, m'. cbn [app len]. rewrite Z.add_0_r. by split_and!. }
  kload. rewrite (hd_next _ _ _ _ _ _ Hh). destruct bs as [|c bs].
  { left. split; [by repeat constructor|]. by destruct fuel. }
  destruct (IH (c :: bs) m (a + span b) a (place_next m a p b _ H) ltac:(done) ltac:(simpl in *; lia) Hw Hwm)
    as [[Hall Rr]|(l & b' & r & d & m' & Eq & Hl & Hs' & Rr & El & Sm & G)].
  - left. split; [by constructor|done].
  - right. exists (b :: l), b', r, d, m'. rewrite Eq. split; [done|]. split; [by constructor|]. split; [done|].
    split; [rewrite Rr; cbn [len]; do 2 f_equal; lia|]. split; [done|].
    split; [eapply same_bytes_sub; [exact Sm|lia|klia]|].
    split; [|done]. assert (l ++ take_blk wanted b' d ++ r ≠ []) as Hnil
      by (unfold take_blk; destruct l, (_ <? _); done).
    destruct (l ++ take_blk wanted b' d ++ r); [done|].
    eapply header_same; [exact Sm|lia|lia|lia|done].
Qed.

(** ** Merging blocks *)

(** A free block absorbs the free blocks that follow it. *)
Fixpoint merge (b : blk) (r : list blk) : list blk :=
  match r with
  | c :: r' => if is_free c then merge (mk_blk (b_size b + span c) None) r' else b :: r
  | [] => [b]
  end.

(** The part of the loop's body that unlinks the second block. *)
Definition absorb (block next size : Z) : M kheap unit :=
  let* next_size := load 8 (next + off_size) in
  put 8 (block + off_size) (u64 (size + (sizeof_block + next_size))) ;;
  let* next_next := load 8 (next + off_next) in
  put 8 (block + off_next) next_next ;;
  (if negb (next_next =? 0) then put 8 (next_next + off_prev) block else ret tt) ;;
  put 8 (next + off_magic) 0 ;;
  put 8 (next + off_size) 0 ;;
  put 8 (next + off_prev) 0 ;;
  put 8 (next + off_next) 0.

Lemma absorb_run m a p b c r :
  place m a p (b :: c :: r) → b_data b = None →
  ∃ m', absorb a (a + span b) (b_size b) (Some (with_mem h m)) = (Ok tt, Some (with_mem h m')) ∧
    length m' = length m ∧ same_bytes R m m' R a ∧
    seg R m' a p (mk_blk (b_size b + span c) None :: r) 0.
Proof.
  intros H Hd. destruct (place_bounds _ _ _ _ _ H) as (B1 & B2 & B3).
  destruct (place_bounds _ _ _ _ _ (place_next _ _ _ _ _ H)) as (C1 & C2 & C3).
  destruct H as [Ha Hal Hend Hsz Hlim (Hh & Hk & (Hch & Hck & Hr))]. cbn [len] in Hend, Hsz.
  pose proof (size_ok_pos b Hk) as Hb. pose proof (size_ok_pos c Hck) as Hc.
  assert (size_ok (mk_blk (b_size b + span c) None)) as Hs'.
  { split; [cbn [b_size]; klia|]. split; [|done]. cbn [b_size]. unfold span.
    repeat apply mod16_add; [apply Hk|done|apply Hck]. }
  set (na := a + span b) in *. assert (na = a + span b) as Hna by done. clearbody na.
  unfold absorb. kload. rewrite (hd_size _ _ _ _ _ _ Hch).
  change (sizeof_block + b_size c) with (span c). rewrite wrap_small by klia.
  kput. kload. klp. rewrite (hd_next _ _ _ _ _ _ Hch). kput.
  destruct Hh as [H1 H2 H3 H4 H5 H6]. unfold is_free in H3. rewrite Hd in H3.
  destruct r as [|e r].
  - cbn [Z.eqb negb]. rewrite (bind_ok _ _ _ tt (Some (with_mem h _))) by reflexivity.
    do 3 kput. rewrite put_run by klia. eexists. split; [reflexivity|].
    split; [by rewrite !length_P|]. split; [same_range|]. split; [khead|]. by split.
  - pose proof Hr as (_ & Hek & Her). pose proof (size_ok_pos e Hek) as Hes.
    pose proof (len_nonneg _ _ _ _ _ _ Her) as Hel. cbn [len] in *.
    rewrite (proj2 (Z.eqb_neq (na + span c) 0)) by klia. cbn [negb].
    do 4 kput. rewrite put_run by klia. eexists. split; [reflexivity|].
    split; [by rewrite !length_P|]. split; [same_range|]. split; [khead|]. split; [done|].
    replace (a + span (mk_blk (b_size b + span c) None)) with (na + span c) by (unfold span; cbn [b_size]; klia).
    seg_frame. apply (seg_relink _ _ na); [klia|cbn [len]; klia|klia|]. by seg_frame.
Qed.

Lemma place_change m m' a p bs bs' :
  place m a p bs → length m' = length m → len bs' = len bs → seg R m' a p bs' 0 → place m' a p bs'.
Proof.
  intros [Ha Hal Hend Hsz Hlim Hseg] El Elen G. constructor; try done.
  - by rewrite Elen.
  - by rewrite Elen.
  - unfold limit in *. by rewrite El.
Qed.

Lemma coalesce_loop_run fuel m a p b r :
  place m a p (b :: r) → b_data b = None → (length r < fuel)%nat →
  ∃ m', coalesce_loop fuel a (Some (with_mem h m)) = (Ok tt, Some (with_mem h m')) ∧
    length m' = length m ∧ same_bytes R m m' R a ∧ seg R m' a p (merge b r) 0.
Proof.
  revert m b r. induction fuel as [|fuel IH]; intros m b r H Hd Hf; [lia|].
  destruct (place_bounds _ _ _ _ _ H) as (B1 & B2 & B3). pose proof (pl_addr _ _ _ _ H). pose proof (pl_limit _ _ _ _ H).
  pose proof (pl_seg _ _ _ _ H) as (Hh & Hk & Hr). pose proof (size_ok_pos b Hk) as Hb.
  cbn [coalesce_loop]. rewrite (proj2 (Z.eqb_neq a 0)) by lia.
  kload. rewrite (hd_next _ _ _ _ _ _ Hh). destruct r as [|c r].
  { exists m. split_and!; try done. }
  rewrite (proj2 (Z.eqb_neq (a + span b) 0)) by lia.
  destruct (place_bounds _ _ _ _ _ (place_next _ _ _ _ _ H)) as (C1 & C2 & C3).
  pose proof Hr as (Hch & Hck & Hrr). kload. rewrite (hd_free _ _ _ _ _ _ Hch).
  cbn [merge]. destruct (is_free c); cbn [negb].
  2:{ exists m. split_and!; try done. }
  kload. rewrite (hd_size _ _ _ _ _ _ Hh). change (kmem_payload a + b_size b) with (a + 48 + b_size b).
  rewrite align_ptr_id.
  2:{ repeat apply mod16_add; [apply (pl_align _ _ _ _ H)|done|apply Hk]. }
  2:{ klia. }
  replace (a + 48 + b_size b) with (a + span b) by klia. rewrite Z.eqb_refl. cbn [negb].
  destruct (absorb_run m a p b c r H Hd) as (m1 & R1 & E1 & S1 & G1).
  assert (place m1 a p (mk_blk (b_size b + span c) None :: r)) as Hp1.
  { eapply place_change; [exact H|done| |done]. cbn [len]. unfold span. cbn [b_size]. lia. }
  destruct (IH m1 _ r Hp1 eq_refl ltac:(simpl in Hf; lia)) as (m2 & R2 & E2 & S2 & G2).
  exists m2. split; [|split; [congruence|split; [by eapply same_bytes_trans|done]]].
  rewrite <-R2. unfold absorb in R1.
  match goal with |- ?lhs = _ => assert (lhs = bind (absorb a (a + span b) (b_size b)) (λ _, coalesce_loop fuel a)
    (Some (with_mem h m))) as -> end; [|by rewrite (bind_ok _ _ _ _ _ R1)].
  unfold absorb. symmetry. repeat (rewrite bind_assoc; apply bind_ext; [done|]; intros ? ?). done.
Qed.

(** ** Validation and statistics *)

Definition start_of (a : Z) (bs : list blk) : Z := match bs with [] => 0 | _ => a end.

Lemma place_end m a p bs : place m a p bs → (g_heap_end h) mod KMEM_ALIGN = 0 → g_heap_end h <= 2 ^ 64 - 16.
Proof.
  intros H Hm. pose proof (pl_limit _ _ _ _ H). unfold KMEM_ALIGN in Hm.
  pose proof (Z.div_mod (g_heap_end h) 16 ltac:(lia)). lia.
Qed.

Lemma validate_blocks_run bs fuel m a p h0 guard :
  place m a p bs → (g_heap_end h) mod KMEM_ALIGN = 0 → (length bs <= fuel)%nat →
  g_heap_base h0 <= a → g_heap_end h0 = g_heap_end h →
  0 <= guard → guard + Z.of_nat (length bs) <= 1048576 →
  validate_blocks fuel h0 (start_of a bs) p a guard (Some (with_mem h m)) = (Ok 0, Some (with_mem h m)).
Proof.
  revert fuel a p guard. induction bs as [|b bs IH]; intros fuel a p guard H Hem Hf Hb0 He0 Hg Hgl.
  { by destruct fuel. }
  simpl length in *. destruct fuel as [|fuel]; [lia|].
  pose proof (place_end _ _ _ _ H Hem) as Hend.
  destruct (place_bounds _ _ _ _ _ H) as (B1 & B2 & B3). pose proof (pl_addr _ _ _ _ H). pose proof (pl_limit _ _ _ _ H).
  pose proof (pl_seg _ _ _ _ H) as (Hh & Hk & Hr). pose proof (size_ok_pos b Hk) as Hb.
  cbn [validate_blocks start_of]. rewrite (proj2 (Z.eqb_neq a 0)) by lia.
  rewrite (proj2 (Z.ltb_ge 1048576 (guard + 1))) by lia. rewrite Z.eqb_refl. cbn [negb].
  rewrite (proj2 (Z.ltb_ge a (g_heap_base h0))), He0 by lia.
  rewrite (proj2 (Z.ltb_ge (g_heap_end h) (a + sizeof_block))) by klia. cbn [orb].
  kload. rewrite (hd_magic _ _ _ _ _ _ Hh), Z.eqb_refl. cbn [negb].
  kload. rewrite (hd_prev _ _ _ _ _ _ Hh), Z.eqb_refl. cbn [negb].
  kload. rewrite (hd_size _ _ _ _ _ _ Hh).
  rewrite (proj2 (Z.ltb_ge (g_heap_end h - kmem_payload a) (b_size b))) by klia.
  rewrite align_ptr_id.
  2:{ unfold kmem_payload. repeat apply mod16_add; [apply (pl_align _ _ _ _ H)|done|apply Hk]. }
  2:{ klia. }
  replace (kmem_payload a + b_size b) with (a + span b) by klia.
  rewrite (proj2 (Z.eqb_neq (a + span b) 0)), (proj2 (Z.ltb_ge (g_heap_end h) (a + span b))) by lia. cbn [orb].
  kload. rewrite (hd_next _ _ _ _ _ _ Hh).
  change (match bs with [] => 0 | _ => a + span b end) with (start_of (a + span b) bs).
  apply IH; try done; [by eapply place_next|lia..].
Qed.

(** The statistics of a list of blocks added to [st]. *)
Fixpoint count_blocks (bs : list blk) (st : kmem_stats) : kmem_stats :=
  match bs with
  | [] => st
  | b :: bs =>
      count_blocks bs
        (if is_free b then
           mk_stats (total_bytes st) (used_bytes st) (free_bytes st + b_size b) (block_count st + 1)
             (free_count st + 1) (Z.max (largest_free st) (b_size b))
         else
           mk_stats (total_bytes st) (used_bytes st + b_size b) (free_bytes st) (block_count st + 1)
             (free_count st) (largest_free st))
  end.

Lemma stats_loop_run bs fuel m a p out :
  place m a p bs → (length bs <= fuel)%nat →
  0 <= used_bytes out → 0 <= free_bytes out → 0 <= block_count out → 0 <= free_count out →
  used_bytes out + len bs < 2 ^ 64 → free_bytes out + len bs < 2 ^ 64 →
  block_count out + len bs < 2 ^ 64 → free_count out + len bs < 2 ^ 64 →
  stats_loop fuel (start_of a bs) out (Some (with_mem h m)) = (Ok (count_blocks bs out), Some (with_mem h m)).
Proof.
  revert fuel a p out. induction bs as [|b bs IH]; intros fuel a p out H Hf U F B C U' F' B' C'.
  { by destruct fuel. }
  simpl length in *. destruct fuel as [|fuel]; [lia|].
  destruct (place_bounds _ _ _ _ _ H) as (B1 & B2 & B3). pose proof (pl_addr _ _ _ _ H). pose proof (pl_limit _ _ _ _ H).
  pose proof (pl_seg _ _ _ _ H) as (Hh & Hk & Hr). pose proof (size_ok_pos b Hk) as Hb. cbn [len] in *.
  cbn [stats_loop start_of count_blocks]. rewrite (proj2 (Z.eqb_neq a 0)) by lia.
  kload. rewrite (hd_free _ _ _ _ _ _ Hh), negb_involutive. kload. rewrite (hd_size _ _ _ _ _ _ Hh).
  kload. rewrite (hd_next _ _ _ _ _ _ Hh).
  change (match bs with [] => 0 | _ => a + span b end) with (start_of (a + span b) bs).
  destruct (is_free b).
  - rewrite !wrap_small by klia.
    replace (if largest_free out <? b_size b then b_size b else largest_free out)
      with (Z.max (largest_free out) (b_size b)) by (destruct (Z.ltb_spec (largest_free out) (b_size b)); lia).
    apply (IH fuel (a + span b) a); [by eapply place_next|lia|..];
      cbn [used_bytes free_bytes block_count free_count]; klia.
  - rewrite !wrap_small by klia. apply (IH fuel (a + span b) a); [by eapply place_next|lia|..];
      cbn [used_bytes free_bytes block_count free_count]; klia.
Qed.

End running.

Ltac kload := erewrite bind_ok; [|apply load_run; klia].
Ltac kput := erewrite bind_ok; [|apply put_run; klia].

(** ** The operations under the invariant *)

Lemma with_mem_id h : with_mem h (h_mem h) = h.
Proof. by destruct h. Qed.

Lemma kinv_place h bs : kinv h bs → place h (h_mem h) (g_heap_base h) 0 bs.
Proof. intros [H1 H2 [H3 H3'] H4 H5 H6 H7 H8]. by constructor. Qed.

Lemma seg_length R mem a p bs fin : seg R mem a p bs fin → 64 * Z.of_nat (length bs) <= len bs.
Proof.
  revert a p. induction bs as [|b bs IH]; intros a p; simpl; [lia|].
  intros (_ & Hk & H). apply IH in H. pose proof (size_ok_pos b Hk). unfold span, sizeof_block. lia.
Qed.

Lemma kinv_fuel h bs : kinv h bs → (length bs < heap_fuel h)%nat.
Proof.
  intros H. unfold heap_fuel. rewrite (ki_end _ _ H). pose proof (seg_length _ _ _ _ _ _ (ki_seg _ _ H)) as Hl.
  replace (g_heap_base h + len bs - g_heap_base h) with (len bs) by lia. unfold sizeof_block.
  assert (Z.of_nat (length bs) <= len bs / 48) by (apply Z.div_le_lower_bound; lia). lia.
Qed.

Lemma len_mod R mem a p bs fin : seg R mem a p bs fin → len bs mod KMEM_ALIGN = 0.
Proof.
  revert a p. induction bs as [|b bs IH]; intros a p; simpl; [done|].
  intros (_ & Hk & H). apply IH in H. unfold span. repeat apply mod16_add; [done|apply Hk|done].
Qed.

Lemma kinv_end_mod h bs : kinv h bs → g_heap_end h mod KMEM_ALIGN = 0.
Proof.
  intros H. rewrite (ki_end _ _ H). apply mod16_add; [apply (ki_base _ _ H)|].
  apply (len_mod _ _ _ _ _ _ (ki_seg _ _ H)).
Qed.

(** No neighbours are both free. *)
Definition ends_used (l : list blk) : Prop := match last l with Some c => is_free c = false | None => True end.
Definition starts_used (r : list blk) : Prop := match r with c :: _ => is_free c = false | [] => True end.

Lemma no_adjacent_cons b r :
  no_adjacent (b :: r) ↔ no_adjacent r ∧ (is_free b = true → starts_used r).
Proof.
  destruct r as [|c r]; simpl; [tauto|]. destruct (is_free b); simpl; [|naive_solver].
  split; intros [H1 H2]; split; try done; auto.
Qed.

Lemma no_adjacent_app l r :
  no_adjacent (l ++ r) ↔ no_adjacent l ∧ no_adjacent r ∧ (ends_used l ∨ starts_used r).
Proof.
  induction l as [|b l IH].
  { simpl. unfold ends_used. simpl. tauto. }
  cbn [app]. rewrite !no_adjacent_cons, IH. unfold ends_used. destruct l as [|c l].
  - simpl. destruct (is_free b); [|intuition congruence]. split; [|naive_solver]. intros ((_ & H & _) & H2).
    split_and!; try done. right. by apply H2.
  - rewrite last_cons_cons. simpl starts_used. tauto.
Qed.

Lemma take_adjacent l b r w d :
  no_adjacent (l ++ b :: r) → is_free b = true → no_adjacent (l ++ take_blk w b d ++ r).
Proof.
  intros (Hl & [Hr Hbr]%no_adjacent_cons & _)%no_adjacent_app Hb. specialize (Hbr Hb).
  apply no_adjacent_app. split; [done|]. unfold take_blk. destruct (_ <? _); (split; [|by right]); simpl app.
  - rewrite !no_adjacent_cons. by split_and!.
  - rewrite no_adjacent_cons. by split_and!.
Qed.

Lemma len_take w b d : len (take_blk w b d) = span b.
Proof. unfold take_blk. destruct (_ <? _); cbn [len]; unfold span; cbn [b_size]; lia. Qed.

Lemma kinv_change h bs m' bs' :
  kinv h bs → length m' = length (h_mem h) → len bs' = len bs → bs' ≠ [] → no_adjacent bs' →
  seg (h_region h) m' (g_heap_base h) 0 bs' 0 → kinv (with_mem h m') bs'.
Proof.
  intros [H1 H2 H3 H4 H5 H6 H7 H8 H9] El Elen Hne Hadj G. constructor; cbn [with_mem g_initialized g_head g_heap_base
    g_heap_end h_region h_mem]; try done.
  - by rewrite Elen.
  - by rewrite Elen.
  - unfold limit in *. by rewrite El.
Qed.

(** The request is served by the first free block that is large enough. *)
Lemma kmem_alloc_run h bs n :
  kinv h bs → fits 64 n →
  let w := kmem_align_up_size n KMEM_ALIGN in
  ((n = 0 ∨ 2 ^ 64 - 16 < n ∨ Forall (λ b, suitable w b = false) bs) ∧
   kmem_alloc n (Some h) = (Ok 0, Some h)) ∨
  ∃ l b r d m', 0 < n <= 2 ^ 64 - 16 ∧ bs = l ++ b :: r ∧ Forall (λ b, suitable w b = false) l ∧
    suitable w b = true ∧
    kmem_alloc n (Some h) = (Ok (g_heap_base h + len l + sizeof_block), Some (with_mem h m')) ∧
    kinv (with_mem h m') (l ++ take_blk w b d ++ r).
Proof.
  intros H Hn w. unfold kmem_alloc. rewrite (bind_ok _ _ _ h (Some h)) by done. rewrite (ki_init _ _ H). cbn [negb orb].
  destruct (Z.eqb_spec n 0) as [Hz|Hz]; [left; split; [by left|done]|].
  destruct (decide (n <= 2 ^ 64 - 16)) as [Hle|Hgt].
  2:{ left. rewrite align_size_zero by lia. split; [|done]. right. left. lia. }
  destruct (align_size_spec n ltac:(unfold fits in Hn; lia)) as [Hwm Hw]. fold w in Hwm, Hw |- *.
  rewrite (proj2 (Z.eqb_neq w 0)) by (unfold fits in Hn; lia). rewrite (ki_head _ _ H).
  pose proof (kinv_fuel h bs H) as Hfuel.
  destruct (alloc_loop_run h bs (heap_fuel h) (h_mem h) (g_heap_base h) 0 w (kinv_place h bs H) (ki_some _ _ H))
    as [[Hall Rr]|(l & b & r & d & m' & Eq & Hl & Hs & Rr & El & _ & G)]; [lia|unfold fits in Hn; lia|done|..];
    rewrite with_mem_id in Rr.
  - left. split; [by do 2 right|done].
  - right. exists l, b, r, d, m'. split; [unfold fits in Hn; lia|]. split_and!; try done.
    pose proof (ki_adj _ _ H) as Hadj. rewrite Eq in Hadj.
    apply (kinv_change h bs); try done.
    + rewrite Eq, !len_app, len_take. cbn [len]. lia.
    + unfold take_blk. destruct l, (_ <? _); done.
    + apply take_adjacent; [done|]. unfold suitable in Hs. by apply andb_true_iff in Hs as [? _].
Qed.

(** ** Release *)

Definition freed (l : list blk) (b : blk) (r : list blk) : list blk :=
  let mr := merge (mk_blk (b_size b) None) r in
  match last l with
  | Some c => if is_free c then take (pred (length l)) l ++ merge c mr else l ++ mr
  | None => mr
  end.

Lemma merge_spec b r :
  b_data b = None → ∃ B r1, merge b r = B :: r1 ∧ b_data B = None ∧ starts_used r1 ∧
    (no_adjacent r → no_adjacent r1) ∧ len (merge b r) = span b + len r.
Proof.
  revert b. induction r as [|c r IH]; intros b Hb; cbn [merge].
  { exists b, []. by split_and!. }
  destruct (is_free c) eqn:Hc.
  - destruct (IH (mk_blk (b_size b + span c) None) eq_refl) as (B & r1 & E & HB & Hs & Ha & Hl).
    exists B, r1. split_and!; try done.
    + intros [? _]%no_adjacent_cons. by apply Ha.
    + rewrite Hl. cbn [len]. unfold span. cbn [b_size]. lia.
  - exists b, (c :: r). by split_and!.
Qed.

Lemma merge_adjacent b r : b_data b = None → no_adjacent r → no_adjacent (merge b r).
Proof.
  intros Hb Hr. destruct (merge_spec b r Hb) as (B & r1 & -> & HB & Hs & Ha & _).
  apply no_adjacent_cons. split; [by apply Ha|done].
Qed.

Lemma freed_snoc l c b r :
  freed (l ++ [c]) b r =
  if is_free c then l ++ merge c (merge (mk_blk (b_size b) None) r)
  else (l ++ [c]) ++ merge (mk_blk (b_size b) None) r.
Proof.
  unfold freed. rewrite last_snoc, length_app. simpl length. replace (pred (length l + 1)) with (length l) by lia.
  rewrite take_app_length. done.
Qed.

Lemma is_free_data c : is_free c = true → b_data c = None.
Proof. unfold is_free. by destruct (b_data c). Qed.

Lemma freed_spec l b r :
  no_adjacent (l ++ b :: r) → no_adjacent (freed l b r) ∧ len (freed l b r) = len (l ++ b :: r) ∧ freed l b r ≠ [].
Proof.
  intros (Hl & [Hr _]%no_adjacent_cons & _)%no_adjacent_app. rewrite len_app. cbn [len].
  pose proof (merge_adjacent (mk_blk (b_size b) None) r eq_refl Hr) as Hm.
  destruct (merge_spec (mk_blk (b_size b) None) r eq_refl) as (B & r1 & E & HB & Hs & _ & Hlen).
  change (span (mk_blk (b_size b) None)) with (span b) in Hlen.
  destruct l as [|c l _] using rev_ind.
  { unfold freed. simpl. rewrite E in *. by rewrite Hlen. }
  rewrite freed_snoc. apply no_adjacent_app in Hl as (Hl & Hc & Hlc). rewrite len_app. cbn [len].
  destruct (is_free c) eqn:Hfc.
  - pose proof (merge_adjacent c _ (is_free_data c Hfc) Hm) as Hmc.
    destruct (merge_spec c (merge (mk_blk (b_size b) None) r) (is_free_data c Hfc)) as (B' & r' & E' & HB' & Hs' & _ & Hlen').
    split_and!.
    + apply no_adjacent_app. split; [done|]. split; [done|]. left. destruct Hlc as [|Hlc]; [done|].
      simpl in Hlc. congruence.
    + rewrite len_app, Hlen', Hlen. lia.
    + rewrite E'. by destruct l.
  - split_and!.
    + apply no_adjacent_app. split; [|split; [done|left; unfold ends_used; by rewrite last_snoc]].
      by apply no_adjacent_app.
    + rewrite !len_app, Hlen. cbn [len]. lia.
    + by destruct l.
Qed.

Lemma kinv_suffix h l r :
  kinv h (l ++ r) → place h (h_mem h) (g_heap_base h + len l) (last_addr (g_heap_base h) 0 l) r.
Proof.
  intros [H1 H2 [H3 H3'] H4 H5 H6 [Hl Hr]%seg_app H8]. pose proof (len_nonneg _ _ _ _ _ _ Hl) as Hll.
  rewrite len_app in *. constructor; try done; try lia.
  apply mod16_add; [done|]. by eapply len_mod.
Qed.

(** New blocks from an address on, under an untouched prefix. *)
Lemma seg_join R m m' a p l r r' :
  0 < R <= a → seg R m a p (l ++ r) 0 → r ≠ [] → r' ≠ [] → same_bytes R m m' R (a + len l) →
  seg R m' (a + len l) (last_addr a p l) r' 0 → seg R m' a p (l ++ r') 0.
Proof.
  intros Ha [Hl _]%seg_app Hr Hr' Hs G. apply seg_app. split; [|done].
  destruct r; [done|]. destruct r'; [done|]. eapply seg_same; [lia| |exact Hl].
  eapply same_bytes_sub; [exact Hs|lia|lia].
Qed.

Lemma last_addr_snoc a p l c : last_addr a p (l ++ [c]) = a + len l.
Proof.
  revert a p. induction l as [|b l IH]; intros a p; simpl; [lia|]. rewrite IH. lia.
Qed.

Lemma freed_run h l b r :
  kinv h (l ++ b :: r) →
  ∃ m', (put 4 (g_heap_base h + len l + off_free) 1 ;;
         kmem_coalesce_forward (g_heap_base h + len l) ;;
         let* prev := load 8 (g_heap_base h + len l + off_prev) in
         (if negb (prev =? 0) then
            let* prev_free := load 4 (prev + off_free) in
            if negb (prev_free =? 0) then kmem_coalesce_forward prev else ret tt
          else ret tt)) (Some h) = (Ok tt, Some (with_mem h m')) ∧
    kinv (with_mem h m') (freed l b r).
Proof.
  intros H. pose proof (kinv_suffix h l (b :: r) H) as Hp. pose proof (kinv_fuel _ _ H) as Hfuel.
  rewrite length_app in Hfuel. simpl length in Hfuel.
  destruct (freed_spec l b r (ki_adj _ _ H)) as (Fadj & Flen & Fne).
  destruct (ki_base _ _ H) as [Hb Hbm]. pose proof (ki_seg _ _ H) as Hseg.
  pose proof Hseg as [Hsl _]%seg_app. pose proof (len_nonneg _ _ _ _ _ _ Hsl) as Hll.
  set (a := g_heap_base h + len l) in *. set (p := last_addr (g_heap_base h) 0 l) in *.
  destruct (place_bounds _ _ _ _ _ _ Hp) as (B1 & B2 & B3). pose proof (pl_limit _ _ _ _ _ Hp) as Hlim.
  assert (Some h = Some (with_mem h (h_mem h))) as -> by (by rewrite with_mem_id). kput.
  pose proof (seg_mark h (h_mem h) a p b r 1 ltac:(lia) ltac:(rewrite <-(pl_end _ _ _ _ _ Hp); lia) ltac:(by right)
    (pl_seg _ _ _ _ _ Hp)) as G1. cbn [Z.eqb] in G1. set (m1 := P _ _ _ _ _) in *.
  assert (length m1 = length (h_mem h)) as E1 by apply length_P.
  assert (same_bytes (h_region h) (h_mem h) m1 (h_region h) a) as S1 by (subst m1; same_range).
  assert (place h m1 a p (mk_blk (b_size b) None :: r)) as Hp1 by (by apply (place_change h (h_mem h) m1 a p (b :: r))).
  unfold kmem_coalesce_forward at 1. rewrite bind_assoc.
  rewrite (bind_ok _ _ _ (with_mem h m1) (Some (with_mem h m1))) by done.
  destruct (coalesce_loop_run h (heap_fuel h) m1 a p (mk_blk (b_size b) None) r Hp1 eq_refl ltac:(lia))
    as (m2 & R2 & E2 & S2 & G2).
  change (heap_fuel (with_mem h m1)) with (heap_fuel h). rewrite (bind_ok _ _ _ _ _ R2).
  pose proof (merge_spec (mk_blk (b_size b) None) r eq_refl) as (B & r1 & E & HB & Hs & _ & Hlen).
  change (span (mk_blk (b_size b) None)) with (span b) in Hlen.
  assert (limit (h_region h) m2 = limit (h_region h) (h_mem h)) as El2 by (unfold limit; congruence).
  kload. rewrite E in G2, Hlen. pose proof G2 as (HhB & _). rewrite (hd_prev _ _ _ _ _ _ HhB). subst p.
  assert (seg (h_region h) m2 (g_heap_base h) 0 (l ++ B :: r1) 0) as Gall.
  { eapply (seg_join _ (h_mem h) m2 _ _ l (b :: r)); try done. by eapply same_bytes_trans. }
  destruct l as [|c l _] using rev_ind.
  { cbn [last_addr Z.eqb negb]. exists m2. split; [done|]. unfold freed in *. simpl last in *. cbv iota in *. rewrite E in *.
    apply (kinv_change h ([] ++ b :: r)); try done. congruence. }
  rewrite last_addr_snoc in *. rewrite freed_snoc, E in *. rewrite <-app_assoc in Gall. cbn [app] in Gall.
  apply seg_app in Gall as Gc. destruct Gc as [Gl Gc]. pose proof Gc as (Hhc & Hkc & _).
  pose proof (len_nonneg _ _ _ _ _ _ Gl) as Hl0. pose proof (size_ok_pos c Hkc) as Hcs.
  assert (a = g_heap_base h + len l + span c) as Ea by (subst a; rewrite len_app; cbn [len]; lia).
  rewrite (proj2 (Z.eqb_neq (g_heap_base h + len l) 0)) by lia. cbn [negb].
  kload. rewrite (hd_free _ _ _ _ _ _ Hhc), negb_involutive. destruct (is_free c) eqn:Hfc.
  2:{ exists m2. split; [done|]. apply (kinv_change h ((l ++ [c]) ++ b :: r)); try done; [congruence|].
      by rewrite <-app_assoc. }
  assert (place h m2 (g_heap_base h + len l) (last_addr (g_heap_base h) 0 l) (c :: B :: r1)) as Hpc.
  { rewrite <-app_assoc in H. cbn [app] in H. eapply (place_change h (h_mem h)); [by apply kinv_suffix|congruence| |done].
    cbn [len] in *. lia. }
  unfold kmem_coalesce_forward. rewrite (bind_ok _ _ _ (with_mem h m2) (Some (with_mem h m2))) by done.
  assert (length (B :: r1) <= S (length r))%nat as Hlr.
  { rewrite <-E. clear. generalize (mk_blk (b_size b) None). induction r as [|e r IH]; intros x; simpl; [lia|].
    destruct (is_free e); simpl; [etrans; [apply IH|lia]|lia]. }
  destruct (coalesce_loop_run h (heap_fuel h) m2 _ _ c (B :: r1) Hpc (is_free_data c Hfc))
    as (m3 & R3 & E3 & S3 & G3); [rewrite length_app in Hfuel; simpl in *; lia|].
  change (heap_fuel (with_mem h m2)) with (heap_fuel h). exists m3. split; [done|].
  apply (kinv_change h ((l ++ [c]) ++ b :: r)); try done; [congruence|].
  destruct (merge_spec c (B :: r1) (is_free_data c Hfc)) as (B' & r' & E' & _).
  eapply (seg_join _ m2 m3 _ _ l (c :: B :: r1)); try done. by rewrite E'.
Qed.
