(* ===== verification/KmemSpec.v ===== *)
(** * What the kernel heap promises its clients
      (kernel/mm/kmem.c; start-up of kernel/core/kmain.c)

    A client sees a map from the pointers it holds to the bytes behind them:
    allocation adds a pointer, release removes it, and neither touches what the
    other pointers lead to. *)

From Stdlib Require Import ZArith Lia.
From stdpp Require Import base numbers option list gmap.
From S2P Require Import Prelude Kmem KmemProof.

Local Open Scope Z_scope.
Local Open Scope cm_scope.

(** ** The client's view *)

Fixpoint live (a : Z) (bs : list blk) : gmap Z (list Z) :=
  match bs with
  | [] => ∅
  | b :: bs' =>
      match b_data b with
      | Some d => <[a + sizeof_block := d]> (live (a + span b) bs')
      | None => live (a + span b) bs'
      end
  end.

Definition sizes_ok (bs : list blk) : Prop := Forall size_ok bs.

Lemma seg_sizes R m a p bs fin : seg R m a p bs fin → sizes_ok bs.
Proof.
  revert a p. induction bs as [|b bs IH]; intros a p; simpl; [constructor|].
  intros (_ & Hk & H). constructor; [done|]. by eapply IH.
Qed.

Lemma sizes_len bs : sizes_ok bs → 0 <= len bs.
Proof.
  induction 1 as [|b bs Hb _ IH]; simpl; [lia|]. pose proof (size_ok_pos b Hb). unfold span, sizeof_block. lia.
Qed.

Lemma live_bounds a bs q d :
  sizes_ok bs → live a bs !! q = Some d →
  a + sizeof_block <= q ∧ q + Z.of_nat (length d) <= a + len bs ∧ 0 < Z.of_nat (length d).
Proof.
  intros H. revert a. induction H as [|b bs Hb Hbs IH]; intros a; simpl; [done|].
  pose proof (size_ok_pos b Hb) as Hp. pose proof (sizes_len bs Hbs) as Hl. intros Hq.
  assert (live (a + span b) bs !! q = Some d →
    a + sizeof_block <= q ∧ q + Z.of_nat (length d) <= a + (span b + len bs) ∧ 0 < Z.of_nat (length d)) as Hrec.
  { intros H'. destruct (IH _ H') as (? & ? & ?). unfold span, sizeof_block in *. lia. }
  destruct Hb as (Hb1 & _ & Hb3). destruct (b_data b) as [d'|]; [|by apply Hrec].
  apply lookup_insert_Some in Hq as [[<- <-]|[_ Hq]]; [|by apply Hrec].
  unfold span, sizeof_block in *. lia.
Qed.

Lemma live_app a l r : sizes_ok l → sizes_ok r → live a (l ++ r) = live a l ∪ live (a + len l) r.
Proof.
  intros Hl Hr. revert a. induction Hl as [|b l Hb _ IH]; intros a; simpl.
  { by rewrite Z.add_0_r, map_empty_union. }
  rewrite IH, Z.add_assoc. destruct (b_data b); [|done]. by rewrite insert_union_l.
Qed.

Lemma live_past a bs q : sizes_ok bs → a + len bs <= q → live a bs !! q = None.
Proof.
  intros H Hq. destruct (live a bs !! q) as [d|] eqn:E; [|done].
  apply live_bounds in E; [|done]. lia.
Qed.

Lemma live_below a bs q : sizes_ok bs → q < a + sizeof_block → live a bs !! q = None.
Proof.
  intros H Hq. destruct (live a bs !! q) as [d|] eqn:E; [|done].
  apply live_bounds in E; [|done]. lia.
Qed.

(** Changing the block at one place changes its entry only. *)
Lemma live_at a l b r d :
  sizes_ok (l ++ b :: r) → b_data b = Some d →
  live a (l ++ b :: r) = <[a + len l + sizeof_block := d]> (live a l ∪ live (a + len l + span b) r).
Proof.
  intros [Hl Hbr]%Forall_app Hb. rewrite live_app by done. cbn [live]. rewrite Hb.
  rewrite insert_union_r; [done|]. apply live_past; [done|]. unfold sizeof_block. lia.
Qed.

Lemma live_free_at a l b r :
  sizes_ok (l ++ b :: r) → b_data b = None →
  live a (l ++ b :: r) = live a l ∪ live (a + len l + span b) r.
Proof. intros [Hl Hbr]%Forall_app Hb. rewrite live_app by done. cbn [live]. by rewrite Hb. Qed.

Lemma live_take a l b r w d :
  sizes_ok (l ++ b :: r) → sizes_ok (l ++ take_blk w b d ++ r) → b_data b = None →
  live a (l ++ take_blk w b d ++ r) = <[a + len l + sizeof_block := d]> (live a (l ++ b :: r)) ∧
  live a (l ++ b :: r) !! (a + len l + sizeof_block) = None.
Proof.
  intros Hs Ht Hb. pose proof Hs as [Hl [Hbk Hr]%Forall_cons]%Forall_app. rewrite (live_free_at a l b r Hs Hb). split.
  - unfold take_blk in *. destruct (_ <? _); cbn [app] in *.
    + rewrite (live_at _ _ _ _ d) by done. cbn [live b_data]. do 3 f_equal. unfold span. cbn [b_size]. lia.
    + rewrite (live_at _ _ _ _ d) by done. done.
  - apply lookup_union_None. pose proof (size_ok_pos b Hbk). split.
    + apply live_past; [done|]. unfold sizeof_block. lia.
    + apply live_below; [done|]. unfold span, sizeof_block. lia.
Qed.

Lemma live_merge a b r : b_data b = None → live a (merge b r) = live (a + span b) r.
Proof.
  revert b. induction r as [|c r IH]; intros b Hb; cbn [merge].
  { cbn [live]. by rewrite Hb. }
  destruct (is_free c) eqn:Hc.
  - rewrite IH by done. cbn [live]. rewrite (is_free_data c Hc). f_equal. unfold span. cbn [b_size]. lia.
  - cbn [live]. by rewrite Hb.
Qed.

Lemma merge_sizes b r : size_ok b → b_data b = None → sizes_ok r → sizes_ok (merge b r).
Proof.
  intros Hb Hd Hr. revert b Hb Hd. induction Hr as [|c r Hc Hr IH]; intros b Hb Hd; cbn [merge].
  { constructor; [done|constructor]. }
  destruct (is_free c); [|by do 2 (constructor; [done|])]. apply IH; [|done].
  destruct Hb as (? & ? & _), Hc as (? & ? & _). unfold size_ok, span. cbn [b_size b_data].
  split; [unfold sizeof_block; lia|]. split; [|done]. by repeat apply mod16_add.
Qed.

Lemma live_freed a l b r d :
  sizes_ok (l ++ b :: r) → b_data b = Some d →
  live a (freed l b r) = delete (a + len l + sizeof_block) (live a (l ++ b :: r)).
Proof.
  intros Hs Hd. pose proof Hs as [Hl [Hb Hr]%Forall_cons]%Forall_app.
  assert (size_ok (mk_blk (b_size b) None)) as Hb' by (destruct Hb as (? & ? & _); by split_and!).
  assert (live a l !! (a + len l + sizeof_block) = None) as N1 by (apply live_past; [done|unfold sizeof_block; lia]).
  assert (live (a + len l + span b) r !! (a + len l + sizeof_block) = None) as N2.
  { apply live_below; [done|]. pose proof (size_ok_pos b Hb). unfold span, sizeof_block. lia. }
  rewrite (live_at a l b r d) by done. rewrite delete_insert_id by (by apply lookup_union_None).
  set (mr := merge (mk_blk (b_size b) None) r) in *.
  assert (sizes_ok mr) as Hmr by (by apply merge_sizes).
  assert (∀ x, live x mr = live (x + span b) r) as Hm by (intros x; unfold mr; by rewrite live_merge).
  destruct l as [|c l _] using rev_ind.
  { unfold freed. simpl last. cbv iota. fold mr. rewrite Hm. simpl. by rewrite Z.add_0_r, map_empty_union. }
  rewrite freed_snoc. fold mr. apply Forall_app in Hl as [Hl [Hc _]%Forall_cons].
  destruct (is_free c) eqn:Hfc.
  - pose proof (is_free_data c Hfc) as Hcd. rewrite live_app by (done || by apply merge_sizes).
    rewrite (live_app a l [c]) by (done || by constructor).
    rewrite live_merge by (by apply is_free_data). rewrite Hm, len_app. cbn [len live]. rewrite (is_free_data c Hfc).
    rewrite map_union_empty. do 2 f_equal. lia.
  - rewrite live_app; [by rewrite Hm| |done]. apply Forall_app. split; [done|]. by constructor.
Qed.

(** ** Writing through a pointer *)

(** A client's store of [data] at address [a]. *)
Definition client_write (a : Z) (data : list Z) : M kheap unit :=
  let* h := deref in
  if in_region h a (Z.of_nat (length data))
  then store (with_mem h (splice (at_addr h a) data (h_mem h)))
  else ub.

Lemma slice_splice_inside {A} off n k (src l : list A) :
  (k + length src <= n)%nat → (off + n <= length l)%nat →
  slice off n (splice (off + k) src l) = splice k src (slice off n l).
Proof.
  intros Hk Hn. apply list_eq. intros i. destruct (decide (i < n)%nat) as [Hi|Hi].
  2:{ rewrite !lookup_ge_None_2; [done|rewrite length_splice, length_slice; lia|].
      rewrite length_slice; [lia|]. rewrite length_splice. lia. }
  rewrite lookup_slice by done. destruct (decide (k <= i < k + length src)%nat) as [Hin|Hout].
  - replace (off + i)%nat with (off + k + (i - k))%nat by lia. rewrite lookup_splice_in by lia.
    replace i with (k + (i - k))%nat at 2 by lia. rewrite lookup_splice_in; [done| |lia].
    rewrite length_slice; lia.
  - rewrite lookup_splice_out by lia. rewrite lookup_splice_out by lia. by rewrite lookup_slice.
Qed.

Lemma same_bytes_splice R mem a src lo hi :
  R <= a → R <= lo → (hi <= a ∨ a + Z.of_nat (length src) <= lo) →
  same_bytes R mem (splice (Z.to_nat (a - R)) src mem) lo hi.
Proof.
  intros ? ? ?. split; [apply length_splice|]. intros x Hx. apply lookup_splice_out. lia.
Qed.

Lemma write_kinv h l b r d off data :
  kinv h (l ++ b :: r) → b_data b = Some d → (off + length data <= length d)%nat →
  kinv (with_mem h (splice (at_addr h (g_heap_base h + len l + sizeof_block + Z.of_nat off)) data (h_mem h)))
    (l ++ mk_blk (b_size b) (Some (splice off data d)) :: r).
Proof.
  intros H Hd Hoff. pose proof (kinv_suffix h l (b :: r) H) as Hp.
  destruct (place_bounds _ _ _ _ _ _ Hp) as (B1 & B2 & B3). pose proof (pl_addr _ _ _ _ _ Hp) as Ha.
  pose proof (pl_limit _ _ _ _ _ Hp) as Hlim. pose proof (pl_seg _ _ _ _ _ Hp) as (Hh & Hk & Hr).
  pose proof (ki_base _ _ H) as [Hb _].
  set (a := g_heap_base h + len l) in *. pose proof (size_ok_pos b Hk) as Hbs.
  pose proof Hk as (Hk1 & Hk2 & Hk3). rewrite Hd in Hk3.
  set (m' := splice _ _ _).
  assert (same_bytes (h_region h) (h_mem h) m' (h_region h) a) as S1.
  { apply same_bytes_splice; unfold sizeof_block; lia. }
  assert (same_bytes (h_region h) (h_mem h) m' a (a + sizeof_block)) as S2.
  { apply same_bytes_splice; unfold sizeof_block in *; lia. }
  assert (same_bytes (h_region h) (h_mem h) m' (a + span b) (a + span b + len r)) as S3.
  { apply same_bytes_splice; unfold span, sizeof_block in *; lia. }
  apply (kinv_change h (l ++ b :: r)); try done.
  - apply length_splice.
  - rewrite !len_app. done.
  - by destruct l.
  - pose proof (ki_adj _ _ H) as (? & [? Hf]%no_adjacent_cons & Hor)%no_adjacent_app. apply no_adjacent_app.
    split; [done|]. split; [apply no_adjacent_cons; by split|]. destruct Hor as [?|Hor]; [by left|]. right.
    done.
  - eapply (seg_join _ (h_mem h) m' _ _ l (b :: r)); [lia|apply (ki_seg _ _ H)|done|done|done|]. fold a.
    split; [|split; [split_and!; try done; cbn [b_data b_size]; by rewrite length_splice|]].
    + destruct Hh as [H1 H2 H3 H4 H5 H6]. rewrite Hd in H6.
      constructor; cbn [b_size b_data];
        try (rewrite (same_bytes_L _ (h_mem h) m' a (a + sizeof_block)) by (done || (unfold off_magic, off_size, off_free, off_prev, off_next, sizeof_block in *; lia)); done).
      * rewrite (same_bytes_L _ (h_mem h) m' a (a + sizeof_block)) by (done || (unfold off_free, sizeof_block in *; lia)).
        rewrite H3. unfold is_free. by rewrite Hd.
      * rewrite <-H6. unfold bytes_at, m', at_addr.
        replace (Z.to_nat (a + sizeof_block + Z.of_nat off - h_region h))
          with (Z.to_nat (a + sizeof_block - h_region h) + off)%nat by (unfold sizeof_block; lia).
        apply slice_splice_inside; [lia|]. unfold limit, span, sizeof_block in *. lia.
    + change (span (mk_blk (b_size b) (Some (splice off data d)))) with (span b).
      eapply seg_same; [unfold span, sizeof_block in *; lia|exact S3|done].
Qed.

Lemma client_write_run h l b r d off data :
  kinv h (l ++ b :: r) → b_data b = Some d → (off + length data <= length d)%nat →
  let a := g_heap_base h + len l + sizeof_block + Z.of_nat off in
  client_write a data (Some h) = (Ok tt, Some (with_mem h (splice (at_addr h a) data (h_mem h)))) ∧
  in_region h a (Z.of_nat (length data)) = true.
Proof.
  intros H Hd Hoff a. pose proof (kinv_suffix h l (b :: r) H) as Hp.
  destruct (place_bounds _ _ _ _ _ _ Hp) as (B1 & B2 & B3). pose proof (pl_addr _ _ _ _ _ Hp) as Ha.
  pose proof (pl_limit _ _ _ _ _ Hp) as Hlim. pose proof (pl_seg _ _ _ _ _ Hp) as (_ & (_ & _ & Hk) & _).
  rewrite Hd in Hk. assert (in_region h a (Z.of_nat (length data)) = true) as Hin.
  { unfold in_region, limit, span, sizeof_block in *. apply andb_true_iff. split; apply Z.leb_le; lia. }
  split; [|done]. unfold client_write. rewrite (bind_ok _ _ _ h (Some h)) by done. by rewrite Hin.
Qed.

(** ** Validation and release *)

Lemma kinv_validate h bs :
  kinv h bs → Z.of_nat (length bs) <= 1048576 → kmem_validate (Some h) = (Ok 0, Some h).
Proof.
  intros H Hl. unfold kmem_validate. rewrite (bind_ok _ _ _ h (Some h)) by done.
  pose proof (ki_base _ _ H) as [Hb _]. pose proof (seg_length _ _ _ _ _ _ (ki_seg _ _ H)) as Hlen.
  pose proof (ki_some _ _ H) as Hne. assert (0 < len bs) by (destruct bs; [done|]; simpl length in Hlen; lia).
  rewrite (ki_init _ _ H), (ki_head _ _ H). cbn [negb orb].
  rewrite (proj2 (Z.eqb_neq (g_heap_base h) 0)), (proj2 (Z.leb_gt (g_heap_end h) _)) by (rewrite ?(ki_end _ _ H); lia).
  rewrite Z.eqb_refl. cbn [negb orb].
  pose proof (validate_blocks_run h bs (heap_fuel h) (h_mem h) (g_heap_base h) 0 h 0 (kinv_place h bs H)
    (kinv_end_mod h bs H) ltac:(pose proof (kinv_fuel h bs H); lia) ltac:(lia) eq_refl ltac:(lia) ltac:(lia)) as Hv.
  rewrite with_mem_id in Hv. unfold start_of in Hv. by destruct bs.
Qed.

Lemma length_freed l b r : (length (freed l b r) <= length (l ++ b :: r))%nat.
Proof.
  assert (∀ x s, (length (merge x s) <= S (length s))%nat) as Hm.
  { intros x s. revert x. induction s as [|e s IH]; intros x; simpl; [lia|].
    destruct (is_free e); simpl; [etrans; [apply IH|lia]|lia]. }
  pose proof (Hm (mk_blk (b_size b) None) r) as H1. rewrite length_app. simpl.
  destruct l as [|c l _] using rev_ind; [unfold freed; simpl; lia|].
  rewrite freed_snoc. pose proof (Hm c (merge (mk_blk (b_size b) None) r)).
  destruct (is_free c); rewrite !length_app; simpl; lia.
Qed.

Lemma kmem_free_run h l b r d :
  kinv h (l ++ b :: r) → b_data b = Some d → Z.of_nat (length (l ++ b :: r)) <= 1048576 →
  ∃ m', kmem_free_checked (g_heap_base h + len l + sizeof_block) (Some h) = (Ok 0, Some (with_mem h m')) ∧
    kinv (with_mem h m') (freed l b r).
Proof.
  intros H Hd Hn. pose proof (kinv_suffix h l (b :: r) H) as Hp.
  destruct (place_bounds _ _ _ _ _ _ Hp) as (B1 & B2 & B3). pose proof (pl_addr _ _ _ _ _ Hp) as Ha.
  pose proof (pl_limit _ _ _ _ _ Hp) as Hlim. pose proof (pl_seg _ _ _ _ _ Hp) as (Hh & Hk & Hr).
  pose proof (ki_base _ _ H) as [Hb _]. pose proof (size_ok_pos b Hk) as Hbs.
  destruct (freed_run h l b r H) as (m' & Rf & Hi). pose proof (pl_align _ _ _ _ _ Hp) as Hal.
  pose proof (sizes_len l ltac:(apply seg_sizes in Hr; pose proof (ki_seg _ _ H) as Hs; apply seg_sizes, Forall_app in Hs as [? _]; done)) as Hll.
  set (a := g_heap_base h + len l) in *.
  assert (∀ x, g_heap_base h <= x < g_heap_end h → kmem_ptr_in_heap x (Some h) = (Ok true, Some h)) as Hin.
  { intros x Hx. unfold kmem_ptr_in_heap. rewrite (bind_ok _ _ _ h (Some h)) by done. rewrite (ki_init _ _ H).
    rewrite (proj2 (Z.leb_le _ x)), (proj2 (Z.ltb_lt x _)) by lia. done. }
  exists m'. split; [|done]. unfold kmem_free_checked.
  rewrite (proj2 (Z.eqb_neq (a + sizeof_block) 0)) by (unfold sizeof_block; lia).
  rewrite (bind_ok _ _ _ _ _ (Hin (a + sizeof_block) ltac:(unfold span, sizeof_block in *; lia))). cbn [negb].
  assert (Z.land (a + sizeof_block) (KMEM_ALIGN - 1) = 0) as ->.
  { change (KMEM_ALIGN - 1) with (2 ^ 4 - 1). rewrite land_ones_mod by lia. by apply mod16_add. }
  cbn [Z.eqb negb]. change (kmem_header_from_payload (a + sizeof_block)) with (a + sizeof_block - sizeof_block).
  rewrite Z.add_simpl_r. rewrite (bind_ok _ _ _ _ _ (Hin a ltac:(lia))). cbn [negb].
  assert (Some h = Some (with_mem h (h_mem h))) as E0 by (by rewrite with_mem_id). rewrite E0.
  kload. rewrite (hd_magic _ _ _ _ _ _ Hh), Z.eqb_refl. cbn [negb].
  kload. rewrite (hd_free _ _ _ _ _ _ Hh), negb_involutive. unfold is_free. rewrite Hd. rewrite <-E0.
  match goal with |- ?f (Some h) = _ => assert (f (Some h) = bind (put 4 (a + off_free) 1 ;;
    kmem_coalesce_forward a ;;
    let* prev := load 8 (a + off_prev) in
    (if negb (prev =? 0) then
       let* prev_free := load 4 (prev + off_free) in
       if negb (prev_free =? 0) then kmem_coalesce_forward prev else ret tt
     else ret tt)) (λ _, kmem_validate) (Some h)) as -> end.
  { symmetry. repeat (rewrite bind_assoc; apply bind_ext; [done|]; intros ? ?). done. }
  rewrite (bind_ok _ _ _ _ _ Rf). apply (kinv_validate _ _ Hi). pose proof (length_freed l b r). lia.
Qed.

(** ** Initialisation *)

Lemma align_ptr_spec x : 0 < x <= 2 ^ 64 - 16 →
  let w := kmem_align_up_ptr x KMEM_ALIGN in w mod KMEM_ALIGN = 0 ∧ x <= w < x + 16.
Proof.
  intros Hx w. subst w. unfold kmem_align_up_ptr, KMEM_ALIGN, UINT64_MAX. change (u64 (16 - 1)) with 15.
  change (Z.land 16 15) with 0. cbn [Z.eqb negb]. destruct (Z.ltb_spec (2 ^ 64 - 1 - 15) x); [lia|].
  change (wnot 64 15) with (wnot 64 (2 ^ 4 - 1)). rewrite !land_wnot_mask by (unfold fits; lia). change (2 ^ 4) with 16.
  pose proof (Z.mod_pos_bound (x + 15) 16 ltac:(lia)). split; [by apply mod_sub_mod|lia].
Qed.

(** The bytes of the region that the heap uses. *)
Definition heap_start (base : Z) : Z := kmem_align_up_ptr base KMEM_ALIGN.
Definition heap_usable (base bytes : Z) : Z :=
  let rest := bytes - (heap_start base - base) in rest - rest mod KMEM_ALIGN.

Lemma kmem_init_run h :
  let base := h_region h in
  let bytes := Z.of_nat (length (h_mem h)) in
  0 < base → base + bytes < 2 ^ 64 → bytes < 2 ^ 63 →
  (∃ rc, rc < 0 ∧ kmem_init base bytes (Some h) = (Ok rc, Some h) ∧
    (bytes < 80 ∨ heap_usable base bytes <= 80)) ∨
  ∃ h', kmem_init base bytes (Some h) = (Ok 0, Some h') ∧
    g_heap_base h' = heap_start base ∧ h_region h' = base ∧ length (h_mem h') = length (h_mem h) ∧
    kinv h' [mk_blk (heap_usable base bytes - sizeof_block) None].
Proof.
  intros base bytes Hb Hlim Hsz. unfold kmem_init. rewrite (proj2 (Z.eqb_neq base 0)) by lia. cbn [orb].
  unfold sizeof_block, KMEM_MIN_SPLIT. change (48 + 32) with 80.
  destruct (Z.ltb_spec bytes 80); [left; exists (-1); split_and!; try done; by left|].
  destruct (align_ptr_spec base ltac:(lia)) as [Hsm Hs]. unfold heap_usable. fold (heap_start base) in *.
  set (start := heap_start base) in *.
  rewrite (proj2 (Z.eqb_neq start 0)), (proj2 (Z.ltb_ge start base)) by lia. cbn [orb].
  set (rest := bytes - (start - base)). pose proof (Z.mod_pos_bound rest KMEM_ALIGN ltac:(done)) as Hmod.
  unfold KMEM_ALIGN in Hmod at 2.
  destruct (Z.leb_spec bytes (start - base + 48 + 32)); [left; exists (-3); split_and!; try done; right; lia|].
  assert (Z.land rest (wnot 64 (KMEM_ALIGN - 1)) = rest - rest mod KMEM_ALIGN) as ->.
  { change (KMEM_ALIGN - 1) with (2 ^ 4 - 1). rewrite land_wnot_mask by (unfold fits, rest; lia). done. }
  set (us := rest - rest mod KMEM_ALIGN) in *.
  assert (us mod KMEM_ALIGN = 0) as Hum by (by apply mod_sub_mod).
  destruct (Z.leb_spec us 80); [left; exists (-4); split_and!; try done; right; lia|]. right.
  rewrite (bind_ok _ _ _ h (Some h)) by done.
  set (h1 := mk_heap base (h_mem h) start (start + us) start (g_initialized h)).
  rewrite (bind_ok _ _ _ tt (Some h1)) by done.
  assert (start + us <= limit base (h_mem h)) as Hus by (unfold limit, us, rest in *; fold bytes; lia).
  assert (Some h1 = Some (with_mem h1 (h_mem h))) as -> by done.
  change base with (h_region h1) in Hus. assert (h_region h1 <= start) as Hst by (simpl; lia). cbn [h_region] in *.
  do 5 kput.
  set (m' := P _ _ _ _ _). rewrite (bind_ok _ _ _ (with_mem h1 m') (Some (with_mem h1 m'))) by done.
  cbn [with_mem h_region h_mem g_heap_base g_heap_end g_head].
  set (h2 := mk_heap base m' start (start + us) start true).
  rewrite (bind_ok _ _ _ tt (Some h2)) by done.
  assert (length m' = length (h_mem h)) as El by (unfold m'; by rewrite !length_P).
  assert (kinv h2 [mk_blk (us - 48) None]) as Hk.
  { constructor; cbn [h2 g_initialized g_head g_heap_base g_heap_end h_region h_mem]; try done.
    - cbn [len]. unfold span. cbn [b_size]. unfold sizeof_block. lia.
    - cbn [len]. unfold span. cbn [b_size]. unfold sizeof_block. lia.
    - unfold limit in *. rewrite El. cbn [h1 h_region] in Hus. fold bytes. lia.
    - split; [|split; [split; [cbn [b_size]; lia|split; [|done]]|done]].
      + unfold m'. change (h_region h1) with base in *. assert (rest <= bytes) by (unfold rest; lia).
        assert (us <= bytes) by (unfold us; lia).
        constructor; cbn [b_size b_data is_free negb]; klp; done.
      + cbn [b_size]. by apply mod16_sub. }
  exists h2. split; [|done]. apply (kinv_validate _ _ Hk). simpl. lia.
Qed.

(** ** Clients *)

Inductive kop := KAlloc (n : Z) | KCalloc (count n : Z) | KFree (q : Z) | KWrite (q : Z) (off : nat) (data : list Z).

Definition kmem_op (o : kop) : M kheap Z :=
  match o with
  | KAlloc n => kmem_alloc n
  | KCalloc count n => kmem_calloc count n
  | KFree q => kmem_free_checked q
  | KWrite q off data => client_write (q + Z.of_nat off) data ;; ret 0
  end.

(** What a client may do with the pointers it holds, each with the bytes it
    asked for. *)
Definition kop_ok (held : gmap Z (list Z)) (o : kop) : Prop :=
  match o with
  | KAlloc n => fits 64 n
  | KCalloc count n => fits 64 count ∧ fits 64 n
  | KFree q => is_Some (held !! q)
  | KWrite q off data => ∃ d, held !! q = Some d ∧ (off + length data <= length d)%nat
  end.

Definition mem_at (h : kheap) (a n : Z) : list Z := bytes_at (h_region h) (h_mem h) a n.

Definition client_step (held : gmap Z (list Z)) (o : kop) (r : Z) (h' : kheap) : gmap Z (list Z) :=
  match o with
  | KAlloc n => if r =? 0 then held else <[r := mem_at h' r n]> held
  | KCalloc count n => if r =? 0 then held else <[r := mem_at h' r (count * n)]> held
  | KFree q => delete q held
  | KWrite q off data => match held !! q with Some d => <[q := splice off data d]> held | None => held end
  end.

(** A heap of at most 64 MiB that was initialised and used by clients. *)
Inductive kreach : kheap → gmap Z (list Z) → Prop :=
| kr_init h h' :
    0 < h_region h → h_region h + Z.of_nat (length (h_mem h)) < 2 ^ 64 →
    Z.of_nat (length (h_mem h)) <= 2 ^ 26 →
    kmem_init (h_region h) (Z.of_nat (length (h_mem h))) (Some h) = (Ok 0, Some h') →
    kreach h' ∅
| kr_step h held o r h' :
    kreach h held → kop_ok held o → kmem_op o (Some h) = (Ok r, Some h') →
    kreach h' (client_step held o r h').

(** The pointers held are the used blocks, the bytes known are a prefix. *)
Definition holds (h : kheap) (bs : list blk) (held : gmap Z (list Z)) : Prop :=
  ∀ q, match live (g_heap_base h) bs !! q, held !! q with
       | Some D, Some d => ∃ D', D = d ++ D'
       | None, None => True
       | _, _ => False
       end.

Lemma live_split a bs q d :
  live a bs !! q = Some d → sizes_ok bs →
  ∃ l b r, bs = l ++ b :: r ∧ b_data b = Some d ∧ q = a + len l + sizeof_block.
Proof.
  revert a. induction bs as [|b bs IH]; intros a Hq Hs; simpl in Hq; [done|].
  apply Forall_cons in Hs as [Hb Hs].
  assert (live (a + span b) bs !! q = Some d →
    ∃ l b' r, b :: bs = l ++ b' :: r ∧ b_data b' = Some d ∧ q = a + len l + sizeof_block) as Hrec.
  { intros H'. destruct (IH _ H' Hs) as (l & b' & r & -> & ? & ->). exists (b :: l), b', r.
    split; [done|]. split; [done|]. cbn [len]. lia. }
  destruct (b_data b) as [d'|] eqn:Hd; [|by apply Hrec].
  apply lookup_insert_Some in Hq as [[<- <-]|[_ Hq]]; [|by apply Hrec].
  exists [], b, bs. split; [done|]. split; [done|]. cbn [len]. lia.
Qed.

Lemma holds_some h bs held q d :
  holds h bs held → held !! q = Some d → ∃ D D', live (g_heap_base h) bs !! q = Some D ∧ D = d ++ D'.
Proof.
  intros H Hq. specialize (H q). rewrite Hq in H. destruct (live _ _ !! q) as [D|]; [|done].
  destruct H as [D' ->]. by eexists _, _.
Qed.

(** The memory behind a used block. *)
Lemma live_mem h bs q D :
  kinv h bs → live (g_heap_base h) bs !! q = Some D →
  mem_at h q (Z.of_nat (length D)) = D ∧ q mod KMEM_ALIGN = 0 ∧
  g_heap_base h < q ∧ q + Z.of_nat (length D) <= g_heap_end h.
Proof.
  intros H Hq. pose proof (seg_sizes _ _ _ _ _ _ (ki_seg _ _ H)) as Hs.
  pose proof (live_bounds _ _ _ _ Hs Hq) as (B1 & B2 & B3).
  destruct (live_split _ _ _ _ Hq Hs) as (l & b & r & -> & Hd & ->).
  pose proof (kinv_suffix h l (b :: r) H) as Hp. pose proof (pl_align _ _ _ _ _ Hp) as Hal.
  pose proof (pl_seg _ _ _ _ _ Hp) as (Hh & (_ & _ & Hk) & _). rewrite Hd in Hk.
  pose proof (hd_data _ _ _ _ _ _ Hh) as Hdata. rewrite Hd in Hdata. split_and!.
  - unfold mem_at. by rewrite Hk.
  - by apply mod16_add.
  - unfold sizeof_block in *. lia.
  - rewrite (ki_end _ _ H). lia.
Qed.

Lemma bytes_at_take R m a n n' :
  0 <= n <= n' → bytes_at R m a n = take (Z.to_nat n) (bytes_at R m a n').
Proof. intros. unfold bytes_at, slice. rewrite take_take. f_equal. lia. Qed.

(** One step of a client: it returns, and the invariant and the correspondence
    with the client's knowledge are kept. *)
Definition step_ok (h : kheap) (held : gmap Z (list Z)) (o : kop) : Prop :=
  ∃ r h' bs', kmem_op o (Some h) = (Ok r, Some h') ∧ kinv h' bs' ∧ holds h' bs' (client_step held o r h') ∧
    g_heap_base h' = g_heap_base h ∧ g_heap_end h' = g_heap_end h ∧
    match o with
    | KFree _ => r = 0
    | KAlloc n => r ≠ 0 → held !! r = None ∧ length (mem_at h' r n) = Z.to_nat n
    | KCalloc count n => r ≠ 0 → held !! r = None ∧ mem_at h' r (count * n) = replicate (Z.to_nat (count * n)) 0
    | KWrite _ _ _ => r = 0
    end.

Lemma holds_insert h h' bs bs' held q D d D' :
  holds h bs held → g_heap_base h' = g_heap_base h →
  live (g_heap_base h) bs' = <[q := D]> (live (g_heap_base h) bs) → D = d ++ D' →
  holds h' bs' (<[q := d]> held).
Proof.
  intros H Hb Hl -> x. rewrite Hb, Hl. destruct (decide (x = q)) as [->|Hne].
  - rewrite !lookup_insert_eq. by exists D'.
  - rewrite !lookup_insert_ne by done. apply H.
Qed.

Lemma holds_none h bs held q : holds h bs held → live (g_heap_base h) bs !! q = None → held !! q = None.
Proof. intros H Hq. specialize (H q). rewrite Hq in H. by destruct (held !! q). Qed.

(** The block an allocation takes holds at least the bytes asked for. *)
Lemma take_blk_data w b d l r a n :
  sizes_ok (l ++ take_blk w b d ++ r) → suitable w b = true → n <= w →
  live a (l ++ take_blk w b d ++ r) !! (a + len l + sizeof_block) = Some d → n <= Z.of_nat (length d).
Proof.
  intros Hs Hsu Hn _. apply andb_true_iff in Hsu as [_ Hle%Z.leb_le].
  apply Forall_app in Hs as [_ [Hs _]%Forall_app]. unfold take_blk in Hs.
  destruct (_ <? _); apply Forall_cons in Hs as [(_ & _ & Hd) _]; cbn [b_data b_size] in Hd; lia.
Qed.

Lemma alloc_step h bs held n :
  kinv h bs → holds h bs held → fits 64 n →
  (kmem_alloc n (Some h) = (Ok 0, Some h)) ∨
  ∃ l b r d m', let q := g_heap_base h + len l + sizeof_block in
    let h' := with_mem h m' in let bs' := l ++ b :: r in
    b_data b = Some d ∧ kmem_alloc n (Some h) = (Ok q, Some h') ∧ kinv h' bs' ∧ 0 < n <= Z.of_nat (length d) ∧ q ≠ 0 ∧
    live (g_heap_base h) bs' = <[q := d]> (live (g_heap_base h) bs) ∧ held !! q = None ∧
    mem_at h' q n = take (Z.to_nat n) d.
Proof.
  intros H Hh Hn. destruct (kmem_alloc_run h bs n H Hn) as [[_ Ra]|(l & b & r & d & m' & Hn' & -> & Hl & Hs & Ra & Hi)];
    [by left|]. right.
  pose proof (seg_sizes _ _ _ _ _ _ (ki_seg _ _ H)) as Hsz. pose proof (seg_sizes _ _ _ _ _ _ (ki_seg _ _ Hi)) as Hsz'.
  pose proof Hs as [Hf _]%andb_true_iff.
  destruct (live_take (g_heap_base h) l b r _ d Hsz Hsz' (is_free_data b Hf)) as [Hlive Hnone].
  assert (live (g_heap_base h) (l ++ take_blk (kmem_align_up_size n KMEM_ALIGN) b d ++ r)
    !! (g_heap_base h + len l + sizeof_block) = Some d) as Hq by (by rewrite Hlive, lookup_insert_eq).
  pose proof (align_size_spec n Hn') as [_ Hw].
  pose proof (take_blk_data _ b d l r _ n Hsz' Hs ltac:(lia) Hq) as Hlen.
  destruct (live_mem (with_mem h m') _ _ d Hi Hq) as (Hmem & _ & Hpos & _).
  assert (∃ b1 r1, take_blk (kmem_align_up_size n KMEM_ALIGN) b d ++ r = b1 :: r1 ∧ b_data b1 = Some d) as (b1 & r1 & E & Hb1).
  { unfold take_blk. destruct (_ <? _); by eexists _, _. }
  rewrite E in *. exists l, b1, r1, d, m'. cbn zeta. split_and!; try done; try lia.
  - pose proof (ki_base _ _ H) as [? _]. cbn [with_mem g_heap_base] in Hpos. lia.
  - by eapply holds_none.
  - unfold mem_at in *. rewrite (bytes_at_take _ _ _ n (Z.of_nat (length d))) by lia. by rewrite Hmem.
Qed.

Lemma kinv_count h bs : kinv h bs → g_heap_end h - g_heap_base h <= 2 ^ 26 → Z.of_nat (length bs) <= 1048576.
Proof.
  intros H Hs. pose proof (seg_length _ _ _ _ _ _ (ki_seg _ _ H)). rewrite (ki_end _ _ H) in Hs. lia.
Qed.

Lemma calloc_total count n :
  fits 64 count → fits 64 n → (count =? 0) = true ∨ (SIZE_MAX / count <? n) = false → fits 64 (count * n).
Proof.
  unfold fits, SIZE_MAX. intros Hc Hn [->%Z.eqb_eq|Hd%Z.ltb_ge]; [lia|].
  destruct (decide (count = 0)) as [->|Hne]; [lia|]. split; [lia|].
  assert (count * n <= count * ((2 ^ 64 - 1) / count)) by (apply Z.mul_le_mono_nonneg_l; lia).
  pose proof (Z.mul_div_le (2 ^ 64 - 1) count ltac:(lia)). lia.
Qed.

Lemma write_live h l b r d off data :
  kinv h (l ++ b :: r) → b_data b = Some d →
  live (g_heap_base h) (l ++ mk_blk (b_size b) (Some (splice off data d)) :: r) =
    <[g_heap_base h + len l + sizeof_block := splice off data d]> (live (g_heap_base h) (l ++ b :: r)).
Proof.
  intros H Hd. pose proof (seg_sizes _ _ _ _ _ _ (ki_seg _ _ H)) as Hs.
  rewrite (live_at _ l b r d) by done.
  rewrite (live_at _ l (mk_blk (b_size b) (Some (splice off data d))) r (splice off data d)); [|..|done].
  - by rewrite insert_insert_eq.
  - apply Forall_app in Hs as [Hl [Hb Hr]%Forall_cons]. apply Forall_app. split; [done|]. constructor; [|done].
    destruct Hb as (? & ? & Hb). rewrite Hd in Hb. split_and!; try done. cbn [b_data b_size]. by rewrite length_splice.
Qed.

Lemma splice_app_prefix {A} off (data d D' : list A) :
  (off + length data <= length d)%nat → splice off data (d ++ D') = splice off data d ++ D'.
Proof.
  intros H. rewrite !splice_in by (rewrite ?length_app; lia).
  rewrite take_app_le by lia. rewrite drop_app_le by lia. by rewrite !app_assoc.
Qed.

Lemma calloc_step h bs held count n :
  kinv h bs → holds h bs held → fits 64 count → fits 64 n → step_ok h held (KCalloc count n).
Proof.
  intros H Hh Hc Hn. unfold step_ok. cbn [kmem_op client_step]. unfold kmem_calloc.
  destruct (negb (count =? 0) && (SIZE_MAX / count <? n)) eqn:Hov.
  { exists 0, h, bs. cbn [Z.eqb]. split_and!; done. }
  apply andb_false_iff in Hov. rewrite negb_false_iff in Hov.
  pose proof (calloc_total count n Hc Hn Hov) as Hfit. rewrite (wrap_small 64) by done.
  destruct (alloc_step h bs held (count * n) H Hh Hfit) as [Ra|(l & b & r & d & m' & Hd & Ra & Hi & Hlen & Hq & Hlive & Hnone & _)];
    rewrite (bind_ok _ _ _ _ _ Ra).
  { exists 0, h, bs. cbn [Z.eqb negb]. split_and!; done. }
  set (q := g_heap_base h + len l + sizeof_block) in *. set (h' := with_mem h m') in *.
  rewrite (proj2 (Z.eqb_neq q 0)) by done. cbn [negb].
  assert (length (replicate (Z.to_nat (count * n)) (u8 0)) = Z.to_nat (count * n)) as Hrl by apply length_replicate.
  destruct (client_write_run h' l b r d 0 (replicate (Z.to_nat (count * n)) (u8 0)) Hi Hd ltac:(lia)) as [_ Hin].
  pose proof (write_kinv h' l b r d 0 (replicate (Z.to_nat (count * n)) (u8 0)) Hi Hd ltac:(lia)) as Hw.
  cbn [h' with_mem g_heap_base] in Hin, Hw. fold h' in Hin, Hw. fold q in Hin, Hw. rewrite Z.add_0_r in Hin, Hw.
  rewrite Hrl, Z2Nat.id in Hin by lia.
  set (h2 := with_mem h' _) in Hw.
  rewrite (bind_ok _ _ _ tt (Some h2)).
  2:{ unfold kmem_memset. rewrite (bind_ok _ _ _ h' (Some h')) by done. rewrite Hin, orb_true_r. done. }
  pose proof (write_live h' l b r d 0 (replicate (Z.to_nat (count * n)) (u8 0)) Hi Hd) as Hlive2.
  cbn [h' with_mem g_heap_base] in Hlive2. fold q in Hlive2. rewrite Hlive, insert_insert_eq in Hlive2.
  set (D := splice 0 _ d) in *.
  assert (D = replicate (Z.to_nat (count * n)) (u8 0) ++ drop (Z.to_nat (count * n)) d) as HD.
  { unfold D. rewrite splice_in by lia. rewrite Hrl. done. }
  assert (mem_at h2 q (count * n) = replicate (Z.to_nat (count * n)) 0) as Hmem.
  { destruct (live_mem h2 _ q D Hw) as (Hm & _); [change (g_heap_base h2) with (g_heap_base h); by rewrite Hlive2, lookup_insert_eq|].
    unfold mem_at in *. rewrite (bytes_at_take _ _ _ (count * n) (Z.of_nat (length D))).
    - rewrite Hm, HD, take_app_le by lia. rewrite take_ge by lia. done.
    - rewrite HD, length_app, Hrl. lia. }
  eexists q, h2, _. split; [done|]. split; [exact Hw|]. split; [|split_and!; done].
  rewrite Hmem, (proj2 (Z.eqb_neq q 0)) by done. eapply (holds_insert h h2 bs _ held q D); [done|done|exact Hlive2|exact HD].
Qed.

Lemma kmem_step h bs held o :
  kinv h bs → holds h bs held → g_heap_end h - g_heap_base h <= 2 ^ 26 → kop_ok held o → step_ok h held o.
Proof.
  intros H Hh Hsz Hok. pose proof (kinv_count h bs H Hsz) as Hcnt.
  pose proof (seg_sizes _ _ _ _ _ _ (ki_seg _ _ H)) as Hs. destruct o as [n|count n|q|q off data].
  - destruct (alloc_step h bs held n H Hh Hok) as [Ra|(l & b & r & d & m' & Hd & Ra & Hi & Hlen & Hq & Hlive & Hnone & Hmem)].
    { exists 0, h, bs. cbn [kmem_op client_step Z.eqb]. by split_and!. }
    eexists _, _, _. cbn [kmem_op client_step]. split; [exact Ra|]. split; [exact Hi|].
    rewrite (proj2 (Z.eqb_neq _ 0)) by done. split; [|split_and!; try done].
    + rewrite Hmem. eapply (holds_insert h); [done|done|exact Hlive|]. by rewrite take_drop.
    + intros _. split; [done|]. rewrite Hmem, length_take. lia.
  - by apply (calloc_step h bs); [..|apply Hok|apply Hok].
  - destruct Hok as [d Hq]. destruct (holds_some _ _ _ _ _ Hh Hq) as (D & D' & HD & _).
    destruct (live_split _ _ _ _ HD Hs) as (l & b & r & -> & Hd & ->).
    destruct (kmem_free_run h l b r D H Hd Hcnt) as (m' & Rf & Hi).
    eexists 0, _, _. cbn [kmem_op client_step]. split; [exact Rf|]. split; [exact Hi|]. split; [|split_and!; done].
    intros x. cbn [with_mem g_heap_base]. rewrite (live_freed _ l b r D) by done.
    destruct (decide (x = g_heap_base h + len l + sizeof_block)) as [->|Hne]; [by rewrite !lookup_delete_eq|].
    rewrite !lookup_delete_ne by done. apply Hh.
  - destruct Hok as (d & Hq & Hoff). destruct (holds_some _ _ _ _ _ Hh Hq) as (D & D' & HD & ->).
    destruct (live_split _ _ _ _ HD Hs) as (l & b & r & -> & Hd & ->).
    destruct (client_write_run h l b r (d ++ D') off data H Hd ltac:(rewrite length_app; lia)) as [Rw _].
    pose proof (write_kinv h l b r (d ++ D') off data H Hd ltac:(rewrite length_app; lia)) as Hw.
    pose proof (write_live h l b r (d ++ D') off data H Hd) as Hlive.
    eexists 0, _, _. cbn [kmem_op client_step]. rewrite (bind_ok _ _ _ _ _ Rw). split; [done|]. split; [exact Hw|].
    split; [|split_and!; done]. rewrite Hq. eapply (holds_insert h); [done|done|exact Hlive|]. by apply splice_app_prefix.
Qed.

Lemma kreach_inv h held :
  kreach h held → ∃ bs, kinv h bs ∧ holds h bs held ∧ g_heap_end h - g_heap_base h <= 2 ^ 26.
Proof.
  induction 1 as [h h' H1 H2 H3 Hi|h held o r h' _ (bs & Hk & Hh & Hs) Hok Hrun].
  - destruct (kmem_init_run h) as [(rc & Hrc & Hi' & _)|(h2 & Hi' & Hb & _ & _ & Hk)]; [done|done|lia| |].
    { rewrite Hi in Hi'. injection Hi' as <- _. lia. }
    rewrite Hi in Hi'. injection Hi' as <-. eexists. split; [exact Hk|]. split; [by intros q|].
    rewrite (ki_end _ _ Hk). cbn [len]. unfold span, heap_usable. cbn [b_size].
    destruct (align_ptr_spec (h_region h)) as [_ Ha].
    { split; [done|]. unfold kmem_init in Hi. destruct ((_ =? 0) || (_ <? _)) eqn:E; [done|].
      apply orb_false_iff in E as [_ E%Z.ltb_ge]. unfold sizeof_block, KMEM_MIN_SPLIT in E. lia. }
    fold (heap_start (h_region h)) in Ha.
    set (rest := Z.of_nat _ - _). pose proof (Z.mod_pos_bound rest KMEM_ALIGN ltac:(done)). unfold rest in *. lia.
  - destruct (kmem_step h bs held o Hk Hh Hs Hok) as (r2 & h2 & bs2 & Hrun2 & Hk2 & Hh2 & E1 & E2 & _).
    rewrite Hrun in Hrun2. injection Hrun2 as -> ->. exists bs2. split_and!; try done. lia.
Qed.

(** The steps a client may take, taken. *)
Lemma kreach_run h held o :
  kreach h held → kop_ok held o →
  ∃ r h', kmem_op o (Some h) = (Ok r, Some h') ∧ kreach h' (client_step held o r h') ∧
    g_heap_base h' = g_heap_base h ∧ g_heap_end h' = g_heap_end h ∧
    match o with
    | KAlloc n => r ≠ 0 → held !! r = None ∧ length (mem_at h' r n) = Z.to_nat n
    | KCalloc count n => r ≠ 0 → held !! r = None ∧ mem_at h' r (count * n) = replicate (Z.to_nat (count * n)) 0
    | KFree _ | KWrite _ _ _ => r = 0
    end.
Proof.
  intros Hr Ho. destruct (kreach_inv _ _ Hr) as (bs & Hk & Hh & Hs).
  destruct (kmem_step h bs held o Hk Hh Hs Ho) as (r & h' & bs' & Hrun & _ & _ & Hb & He & Hres).
  exists r, h'. split_and!; try done; by apply (kr_step h).
Qed.

(** ** Isolation *)

Lemma live_disjoint a bs q1 q2 d1 d2 :
  sizes_ok bs → live a bs !! q1 = Some d1 → live a bs !! q2 = Some d2 → q1 < q2 →
  q1 + Z.of_nat (length d1) + sizeof_block <= q2.
Proof.
  intros Hs H1 H2 Hlt. destruct (live_split _ _ _ _ H1 Hs) as (l & b & r & -> & Hd & ->).
  rewrite (live_at _ l b r d1) in H2 by done. apply Forall_app in Hs as [Hl [(_ & _ & Hb) Hr]%Forall_cons].
  rewrite Hd in Hb. rewrite lookup_insert_ne in H2 by lia.
  apply lookup_union_Some_raw in H2 as [H2|[_ H2]]; apply live_bounds in H2; try done; unfold span, sizeof_block in *; lia.
Qed.

Lemma holds_prefix h bs held q d :
  kinv h bs → holds h bs held → held !! q = Some d →
  ∃ D, live (g_heap_base h) bs !! q = Some D ∧ (length d <= length D)%nat ∧ mem_at h q (Z.of_nat (length d)) = d.
Proof.
  intros H Hh Hq. destruct (holds_some _ _ _ _ _ Hh Hq) as (D & D' & HD & ->).
  exists (d ++ D'). split; [done|]. rewrite length_app. split; [lia|].
  destruct (live_mem _ _ _ _ H HD) as (Hm & _). unfold mem_at in *.
  rewrite (bytes_at_take _ _ _ _ (Z.of_nat (length (d ++ D')))) by (rewrite length_app; lia).
  by rewrite Hm, Nat2Z.id, take_app_length.
Qed.

(** ** Statistics *)

Lemma count_blocks_sums bs st :
  let st' := count_blocks bs st in
  total_bytes st' = total_bytes st ∧
  used_bytes st' + free_bytes st' + sizeof_block * block_count st' =
    used_bytes st + free_bytes st + sizeof_block * block_count st + len bs ∧
  block_count st' - free_count st' =
    block_count st - free_count st + Z.of_nat (length (filter (λ b, is_free b = false) bs)).
Proof.
  revert st. induction bs as [|b bs IH]; intros st; cbn [count_blocks len].
  { rewrite filter_nil. simpl length. lia. }
  rewrite filter_cons. unfold span. destruct (is_free b);
    match goal with |- context [count_blocks bs ?s] => destruct (IH s) as (E1 & E2 & E3) end;
    cbn [total_bytes used_bytes free_bytes block_count free_count] in *.
  - rewrite decide_False by done. split_and!; [done|lia|lia].
  - rewrite decide_True by done. simpl length. split_and!; [done|lia|lia].
Qed.

Lemma count_blocks_largest bs st w :
  w <= largest_free (count_blocks bs st) ↔ w <= largest_free st ∨ Exists (λ b, suitable w b = true) bs.
Proof.
  revert st. induction bs as [|b bs IH]; intros st; cbn [count_blocks].
  { rewrite Exists_nil. tauto. }
  rewrite IH, Exists_cons. unfold suitable at 2. destruct (is_free b); cbn [largest_free andb].
  - rewrite Z.max_le_iff, Z.leb_le. tauto.
  - intuition done.
Qed.

Lemma count_blocks_aligned bs st :
  sizes_ok bs → 0 <= largest_free st → largest_free st mod KMEM_ALIGN = 0 →
  0 <= largest_free (count_blocks bs st) ∧ largest_free (count_blocks bs st) mod KMEM_ALIGN = 0.
Proof.
  intros H. revert st. induction H as [|b bs (Hb & Hm & _) _ IH]; intros st H0 Hs; cbn [count_blocks]; [done|].
  apply IH; destruct (is_free b); cbn [largest_free]; try done; [lia|].
  destruct (Z.max_spec (largest_free st) (b_size b)) as [[_ ->]|[_ ->]]; done.
Qed.

Lemma live_size a bs : sizes_ok bs → size (live a bs) = length (filter (λ b, is_free b = false) bs).
Proof.
  intros H. revert a. induction H as [|b bs Hb Hbs IH]; intros a; cbn [live]; [done|].
  rewrite filter_cons. destruct (b_data b) as [d|] eqn:E.
  - rewrite decide_True by (unfold is_free; by rewrite E). rewrite map_size_insert_None, IH; [done|].
    apply live_below; [done|]. pose proof (size_ok_pos b Hb). unfold span, sizeof_block. lia.
  - rewrite decide_False by (unfold is_free; by rewrite E). apply IH.
Qed.

Lemma holds_size h bs held : holds h bs held → size held = size (live (g_heap_base h) bs).
Proof.
  intros H. rewrite <-!size_dom. f_equal. apply set_eq. intros q. rewrite !elem_of_dom. specialize (H q).
  destruct (live _ _ !! q), (held !! q); split; intros [? [=]]; done.
Qed.

Lemma elem_len bs b : sizes_ok bs → b ∈ bs → b_size b <= len bs.
Proof.
  intros H. induction H as [|c bs Hc Hbs IH]; intros Hb; [by apply elem_of_nil in Hb|].
  pose proof (size_ok_pos c Hc). pose proof (sizes_len bs Hbs). cbn [len]. unfold span, sizeof_block.
  apply elem_of_cons in Hb as [->|Hb]; [lia|]. specialize (IH Hb). lia.
Qed.

Definition stats0 (h : kheap) : kmem_stats := mk_stats (g_heap_end h - g_heap_base h) 0 0 0 0 0.

Lemma kinv_stats h bs : kinv h bs → kmem_get_stats (Some h) = (Ok (count_blocks bs (stats0 h)), Some h).
Proof.
  intros H. unfold kmem_get_stats. rewrite (bind_ok _ _ _ h (Some h)) by done. rewrite (ki_init _ _ H). cbn [negb].
  rewrite (ki_head _ _ H). pose proof (kinv_fuel h bs H). pose proof (ki_size _ _ H).
  pose proof (stats_loop_run h bs (heap_fuel h) (h_mem h) (g_heap_base h) 0 (stats0 h) (kinv_place h bs H)) as R.
  rewrite with_mem_id in R. cbn [stats0 used_bytes free_bytes block_count free_count] in R.
  destruct bs as [|b bs]; [by destruct (ki_some _ _ H)|]. apply R; lia.
Qed.

Lemma aligned_le w L n : w mod KMEM_ALIGN = 0 → L mod KMEM_ALIGN = 0 → w < n + 16 → n <= L → w <= L.
Proof. unfold KMEM_ALIGN. intros. Z.to_euclidean_division_equations. lia. Qed.

Lemma kinv_alloc_iff h bs n :
  kinv h bs → fits 64 n → ∃ r h', kmem_alloc n (Some h) = (Ok r, Some h') ∧
    (r ≠ 0 ↔ 0 < n <= largest_free (count_blocks bs (stats0 h))).
Proof.
  intros H Hn. pose proof (seg_sizes _ _ _ _ _ _ (ki_seg _ _ H)) as Hs.
  destruct (count_blocks_aligned bs (stats0 h) Hs) as [L0 Lm]; [done|done|]. set (L := largest_free _) in *.
  assert (∀ w, 0 < w → w <= L ↔ Exists (λ b, suitable w b = true) bs) as HL.
  { intros w Hw. unfold L. rewrite count_blocks_largest. cbn [stats0 largest_free]. split; [|tauto]. intros [?|?]; [lia|done]. }
  assert (L < 2 ^ 63) as Lb.
  { destruct (decide (L = 0)) as [->|Hne]; [lia|]. pose proof (proj1 (HL L ltac:(lia)) ltac:(lia)) as (b & Hb & Hb')%Exists_exists.
    apply andb_true_iff in Hb' as [_ Hb'%Z.leb_le]. pose proof (elem_len bs b Hs Hb). pose proof (ki_size _ _ H). lia. }
  destruct (kmem_alloc_run h bs n H Hn) as [[Hno Ra]|(l & b & r & d & m' & Hp & -> & _ & Hsuit & Ra & _)].
  - exists 0, h. split; [exact Ra|]. split; [done|]. intros [Hp Hle]. exfalso.
    destruct Hno as [->|[?|Hall]]; [lia|lia|].
    destruct (align_size_spec n ltac:(lia)) as [Hwm Hw]. set (w := kmem_align_up_size n KMEM_ALIGN) in *.
    assert (w <= L) as HwL by (by apply (aligned_le w L n); [..|lia|]). apply HL in HwL; [|lia].
    apply Exists_exists in HwL as (b & Hb & Hb'). rewrite Forall_forall in Hall. rewrite (Hall b Hb) in Hb'. done.
  - eexists _, _. split; [exact Ra|]. destruct (align_size_spec n ltac:(lia)) as [Hwm Hw]. split; intros _.
    + split; [lia|]. transitivity (kmem_align_up_size n KMEM_ALIGN); [lia|]. apply HL; [lia|].
      apply Exists_app. right. by left.
    + pose proof (ki_base _ _ H). apply Forall_app in Hs as [Hl _]. pose proof (sizes_len l Hl). unfold sizeof_block. lia.
Qed.

(** A heap no client holds anything of is one free block. *)
Lemma kinv_idle h bs :
  kinv h bs → holds h bs ∅ → bs = [mk_blk (g_heap_end h - g_heap_base h - sizeof_block) None].
Proof.
  intros H Hh. pose proof (seg_sizes _ _ _ _ _ _ (ki_seg _ _ H)) as Hs.
  assert (length (filter (λ b, is_free b = false) bs) = O) as Hu.
  { rewrite <-(live_size (g_heap_base h)), <-(holds_size _ _ _ Hh) by done. apply map_size_empty. }
  apply length_zero_iff_nil in Hu.
  assert (∀ b, b ∈ bs → b_data b = None) as Hf.
  { intros b Hb. apply is_free_data. destruct (is_free b) eqn:E; [done|].
    assert (b ∈ filter (λ b, is_free b = false) bs) as Hb' by (by apply list_elem_of_filter). rewrite Hu in Hb'.
    by apply elem_of_nil in Hb'. }
  pose proof (ki_some _ _ H). pose proof (ki_adj _ _ H) as Ha. rewrite (ki_end _ _ H).
  destruct bs as [|b [|c bs]]; [done| |].
  - cbn [len]. pose proof (Hf b ltac:(set_solver)). destruct b as [z o]. cbn [b_data] in *. subst o.
    do 2 f_equal. unfold span. cbn [b_size]. lia.
  - exfalso. destruct Ha as [Ha _]. unfold is_free in Ha.
    rewrite (Hf b ltac:(set_solver)), (Hf c ltac:(set_solver)) in Ha. done.
Qed.

Definition idle_stats (total : Z) : kmem_stats := mk_stats total 0 (total - sizeof_block) 1 1 (total - sizeof_block).

Lemma kreach_idle h : kreach h ∅ → kmem_get_stats (Some h) = (Ok (idle_stats (g_heap_end h - g_heap_base h)), Some h).
Proof.
  intros (bs & Hk & Hh & _)%kreach_inv. pose proof (kinv_idle h bs Hk Hh) as ->. rewrite (kinv_stats h _ Hk).
  do 3 f_equal. cbn [count_blocks]. unfold idle_stats, stats0. cbn [b_size is_free b_data total_bytes used_bytes free_bytes block_count free_count largest_free].
  pose proof (seg_sizes _ _ _ _ _ _ (ki_seg _ _ Hk)) as [(Hp & _) _]%Forall_cons. cbn [b_size] in Hp.
  f_equal; lia.
Qed.

(** ** Properties *)

(** C7: in every state that clients of a heap of at most 64 MiB reach by
    allocating, clearing allocation, freeing what they hold and writing inside
    what they hold, each
    held pointer is aligned and leads to a piece inside the heap that still has
    the bytes its holder left there; the pieces of two holders do not overlap
    (a header lies between them); and every further operation of a client
    returns: release succeeds, an allocation that is not refused gives a pointer
    no one held, and a clearing allocation gives zeroes. *)
Theorem kmem_isolation h held :
  kreach h held →
  (∀ q d, held !! q = Some d →
     q mod KMEM_ALIGN = 0 ∧ g_heap_base h < q ∧ q + Z.of_nat (length d) <= g_heap_end h ∧
     mem_at h q (Z.of_nat (length d)) = d) ∧
  (∀ q1 q2 d1 d2, held !! q1 = Some d1 → held !! q2 = Some d2 → q1 < q2 →
     q1 + Z.of_nat (length d1) + sizeof_block <= q2) ∧
  (∀ o, kop_ok held o → ∃ r h', kmem_op o (Some h) = (Ok r, Some h') ∧
     match o with
     | KAlloc n => r ≠ 0 → held !! r = None ∧ length (mem_at h' r n) = Z.to_nat n
     | KCalloc count n => r ≠ 0 → held !! r = None ∧ mem_at h' r (count * n) = replicate (Z.to_nat (count * n)) 0
     | KFree _ | KWrite _ _ _ => r = 0
     end).
Proof.
  intros Hreach. destruct (kreach_inv _ _ Hreach) as (bs & Hk & Hh & Hs).
  pose proof (seg_sizes _ _ _ _ _ _ (ki_seg _ _ Hk)) as Hsz. split_and!.
  - intros q d Hq. destruct (holds_prefix h bs held q d Hk Hh Hq) as (D & HD & Hl & Hm).
    destruct (live_mem _ _ _ _ Hk HD) as (_ & Ha & Hb & He). split_and!; try done. lia.
  - intros q1 q2 d1 d2 H1 H2 Hlt. destruct (holds_prefix _ _ _ _ _ Hk Hh H1) as (D1 & HD1 & Hl1 & _).
    destruct (holds_prefix _ _ _ _ _ Hk Hh H2) as (D2 & HD2 & _ & _).
    pose proof (live_disjoint _ _ _ _ _ _ Hsz HD1 HD2 Hlt). lia.
  - intros o Ho. destruct (kreach_run h held o Hreach Ho) as (r & h' & Hrun & _ & _ & _ & Hr). by exists r, h'.
Qed.

(** The statistics of a heap in use account for every byte (what is used,
    what is free and a header per block add up to the heap), count one used
    block per pointer held, and predict allocation exactly: a request is
    granted if and only if it is not empty and not larger than the largest free
    block reported. *)
Theorem kmem_stats_exact h held :
  kreach h held →
  ∃ st, kmem_get_stats (Some h) = (Ok st, Some h) ∧
    total_bytes st = g_heap_end h - g_heap_base h ∧
    used_bytes st + free_bytes st + sizeof_block * block_count st = total_bytes st ∧
    block_count st - free_count st = Z.of_nat (size held) ∧
    ∀ n, fits 64 n → ∃ r h', kmem_alloc n (Some h) = (Ok r, Some h') ∧ (r ≠ 0 ↔ 0 < n <= largest_free st).
Proof.
  intros (bs & Hk & Hh & Hs)%kreach_inv. eexists. split; [by apply kinv_stats|].
  pose proof (count_blocks_sums bs (stats0 h)) as (E1 & E2 & E3).
  cbn [stats0 total_bytes used_bytes free_bytes block_count free_count] in E1, E2, E3. fold (stats0 h) in E1, E2, E3.
  rewrite (ki_end _ _ Hk) in *. split_and!; [lia|lia| |intros n Hn; by apply kinv_alloc_iff].
  rewrite E3, (holds_size _ _ _ Hh), live_size by (by eapply seg_sizes, ki_seg). lia.
Qed.

(** C19: nothing is lost and nothing stays fragmented: whenever the clients of
    the heap have freed all they hold, in whatever order, the heap is again one
    free block of all its bytes. *)
Theorem kmem_no_leak h :
  kreach h ∅ → kmem_get_stats (Some h) = (Ok (idle_stats (g_heap_end h - g_heap_base h)), Some h).
Proof. apply kreach_idle. Qed.

(** The start-up of the heap on its aligned 64 KiB array never panics: the
    probe is allocated and freed, and the statistics it logs are those of one
    free block. *)
Theorem m8_heap_bootstrap_ok h :
  0 < h_region h → h_region h mod 4096 = 0 → h_region h + 65536 < 2 ^ 64 → Z.of_nat (length (h_mem h)) = 65536 →
  ∃ h', m8_heap_bootstrap (h_region h) 65536 (Some h) = (Ok (mk_stats 65536 0 65488 1 1 65488), Some h').
Proof.
  intros Hp Ha Hlim Hl'. unfold m8_heap_bootstrap.
  assert (heap_usable (h_region h) 65536 = 65536 ∧ heap_start (h_region h) = h_region h) as [Hu Hst].
  { unfold heap_usable, heap_start. destruct (align_ptr_spec (h_region h)) as [Hm Hr]; [lia|].
    set (w := kmem_align_up_ptr _ _) in *. assert (h_region h mod KMEM_ALIGN = 0) as Ha'
      by (unfold KMEM_ALIGN; clear -Ha; Z.to_euclidean_division_equations; lia).
    pose proof (aligned_le w (h_region h) (h_region h) Hm Ha' ltac:(lia) ltac:(lia)).
    assert (w = h_region h) as -> by lia.
    rewrite Z.sub_diag. done. }
  destruct (kmem_init_run h) as [(rc & _ & _ & Hbad)|(h1 & Hi & Hb & _ & _ & Hk)]; [done|lia|lia| |]; rewrite Hl' in *; [lia|].
  rewrite Hu, Hst in *. rewrite (bind_ok _ _ _ 0 (Some h1)) by done. rewrite (bind_ok _ _ _ tt (Some h1)) by done.
  assert (kreach h1 ∅) as R1 by (apply (kr_init h); rewrite ?Hl'; done || lia).
  assert (g_heap_end h1 - g_heap_base h1 = 65536) as Hend by (rewrite (ki_end _ _ Hk); cbn [len]; unfold span, sizeof_block; simpl; lia).
  destruct (kinv_alloc_iff h1 _ 128 Hk ltac:(done)) as (q & h2 & Ra & Hq).
  assert (q ≠ 0) as Hq0 by (apply Hq; done). rewrite (bind_ok _ _ _ _ _ Ra).
  rewrite (proj2 (Z.eqb_neq q 0)) by done. rewrite (bind_ok _ _ _ tt (Some h2)) by done.
  assert (kreach h2 {[q := mem_at h2 q 128]}) as R2.
  { pose proof (kr_step h1 ∅ (KAlloc 128) q h2 R1 ltac:(done) Ra) as R2. cbn [client_step] in R2.
    by rewrite (proj2 (Z.eqb_neq q 0)) in R2 by done. }
  assert (kop_ok {[q := mem_at h2 q 128]} (KFree q)) as Hok by (exists (mem_at h2 q 128); apply lookup_singleton_eq).
  destruct (kreach_run h1 ∅ (KAlloc 128) R1 ltac:(done)) as (? & h2' & Ra' & _ & Hb2 & He2 & _).
  cbn [kmem_op] in Ra'. rewrite Ra in Ra'. injection Ra' as <- <-.
  destruct (kreach_run h2 _ _ R2 Hok) as (r & h3 & Rf & R3 & Hb3 & He3 & ->). cbn [kmem_op client_step] in Rf, R3.
  rewrite delete_singleton_eq in R3. rewrite (bind_ok _ _ _ _ _ Rf). rewrite (bind_ok _ _ _ tt (Some h3)) by done.
  exists h3. rewrite (kreach_idle h3 R3), Hb3, He3, Hb2, He2, Hend. done.
Qed.

(** ** A heap of 256 bytes *)

Definition heap_of (p : res Z * ptr kheap) (h : kheap) : kheap := default h p.2.

Definition heap_raw : kheap := mk_heap 4096 (replicate 256 170) 0 0 0 false.
Definition heap_0 : kheap := Eval vm_compute in heap_of (kmem_init 4096 256 (Some heap_raw)) heap_raw.
Definition heap_1 : kheap := Eval vm_compute in heap_of (kmem_calloc 2 8 (Some heap_0)) heap_0.
Definition heap_2 : kheap := Eval vm_compute in heap_of (kmem_op (KWrite 4144 3 [7; 9]) (Some heap_1)) heap_1.
Definition heap_3 : kheap := Eval vm_compute in heap_of (kmem_op (KFree 4144) (Some heap_2)) heap_2.

Definition held_1 : gmap Z (list Z) := client_step ∅ (KCalloc 2 8) 4144 heap_1.
Definition held_2 : gmap Z (list Z) := client_step held_1 (KWrite 4144 3 [7; 9]) 0 heap_2.

Lemma heap_2_reach : kreach heap_2 held_2.
Proof.
  apply (kr_step heap_1); [|by eexists; split; [vm_compute; reflexivity|simpl; lia]|vm_compute; reflexivity].
  apply (kr_step heap_0); [|done|vm_compute; reflexivity]. apply (kr_init heap_raw); [done..|]. vm_compute. reflexivity.
Qed.

Lemma heap_3_reach : kreach heap_3 ∅.
Proof.
  pose proof (kr_step heap_2 held_2 (KFree 4144) 0 heap_3 heap_2_reach) as H.
  assert (client_step held_2 (KFree 4144) 0 heap_3 = ∅) as E by (apply map_eq_iff; vm_compute; reflexivity || by apply bool_decide_unpack).
  rewrite E in H. apply H; [|vm_compute; reflexivity]. eexists. vm_compute. reflexivity.
Qed.

Lemma kmem_isolation_witness :
  held_2 !! 4144 = Some [0; 0; 0; 7; 9; 0; 0; 0; 0; 0; 0; 0; 0; 0; 0; 0] ∧
  mem_at heap_2 4144 16 = [0; 0; 0; 7; 9; 0; 0; 0; 0; 0; 0; 0; 0; 0; 0; 0] ∧
  ∃ r h', kmem_op (KFree 4144) (Some heap_2) = (Ok r, Some h') ∧ r = 0.
Proof.
  assert (held_2 !! 4144 = Some [0; 0; 0; 7; 9; 0; 0; 0; 0; 0; 0; 0; 0; 0; 0; 0]) as H by (vm_compute; reflexivity).
  destruct (kmem_isolation heap_2 held_2 heap_2_reach) as (Hp & _ & Hn).
  split; [exact H|]. split; [exact (proj2 (proj2 (proj2 (Hp _ _ H))))|]. apply (Hn (KFree 4144)). eexists. exact H.
Defined.

Lemma kmem_stats_exact_witness :
  ∃ st, kmem_get_stats (Some heap_2) = (Ok st, Some heap_2) ∧ block_count st - free_count st = 1 ∧ total_bytes st = 256.
Proof.
  destruct (kmem_stats_exact heap_2 held_2 heap_2_reach) as (st & Hs & Ht & _ & Hc & _).
  exists st. split; [exact Hs|]. split; [rewrite Hc; vm_compute; reflexivity|rewrite Ht; vm_compute; reflexivity].
Defined.

Lemma kmem_no_leak_witness : kmem_get_stats (Some heap_3) = (Ok (mk_stats 256 0 208 1 1 208), Some heap_3).
Proof. exact (kmem_no_leak heap_3 heap_3_reach). Defined.

Lemma m8_heap_bootstrap_ok_witness :
  ∃ h', m8_heap_bootstrap 0x200000 65536 (Some (mk_heap 0x200000 (replicate (Z.to_nat 65536) 0) 0 0 0 false)) =
    (Ok (mk_stats 65536 0 65488 1 1 65488), Some h').
Proof.
  apply (m8_heap_bootstrap_ok (mk_heap 0x200000 (replicate (Z.to_nat 65536) 0) 0 0 0 false)); [done..|].
  cbn [h_mem]. rewrite length_replicate. apply Z2Nat.id. done.
Defined.
