(* ===== verification/Vfs.v ===== *)
(** * RAM file system and file descriptors
      (kernel/vfs/ramfs.c, kernel/vfs/fd.c, include/mcs_vfs.h; start-up of
      kernel/core/kmain.c)

    A C string is the list of its characters before the terminating NUL, so a
    [const char *] into a string is a suffix of it; a [mcs_vnode_t *] is the
    index of the node in its file system.  There is one file system and one
    process, each possibly NULL. *)

From Stdlib Require Import ZArith Lia Ascii String.
From stdpp Require Import base numbers option list.
From S2P Require Import Prelude.

Local Open Scope Z_scope.
Local Open Scope cm_scope.

(** ** Constants *)

Definition MCS_MAX_NAME : nat := 32.
Definition MCS_MAX_PATH : nat := 128.
Definition MCS_MAX_NODES : nat := 64.
Definition MCS_MAX_OPEN_FILES : nat := 16.
Definition MCS_RAMFS_DATA_BYTES : Z := 8192.

Definition MCS_O_RDONLY : Z := 0x0001.
Definition MCS_O_WRONLY : Z := 0x0002.
Definition MCS_O_RDWR : Z := 0x0004.
Definition MCS_O_CREAT : Z := 0x0100.
Definition MCS_O_TRUNC : Z := 0x0200.
Definition MCS_O_APPEND : Z := 0x0400.

Definition MCS_SEEK_SET : Z := 0.
Definition MCS_SEEK_CUR : Z := 1.
Definition MCS_SEEK_END : Z := 2.

Definition MCS_ENOENT : Z := -2.
Definition MCS_EBADF : Z := -9.
Definition MCS_EACCES : Z := -13.
Definition MCS_ENOTDIR : Z := -20.
Definition MCS_EISDIR : Z := -21.
Definition MCS_EINVAL : Z := -22.
Definition MCS_ENFILE : Z := -23.
Definition MCS_ENOSPC : Z := -28.
Definition MCS_ENAMETOOLONG : Z := -36.

Definition SLASH : Z := 47.

(** ** Data *)

Inductive mcs_vnode_type := MCS_VNODE_DIR | MCS_VNODE_FILE.

#[export] Instance mcs_vnode_type_eq_dec : EqDecision mcs_vnode_type.
Proof. solve_decision. Defined.

Record mcs_vnode := mk_vnode {
  n_used : bool;
  n_id : Z;
  n_parent : Z;
  n_type : mcs_vnode_type;
  n_name : list Z;
  n_size : Z;
  n_data_offset : Z;
  n_data_capacity : Z
}.

Record mcs_ramfs := mk_ramfs {
  nodes : list mcs_vnode;
  node_count : nat;
  fs_data : list Z;
  data_used : Z
}.

(** [f_fs] says whether the pointer [fs] is set. *)
Record mcs_file := mk_file {
  f_used : bool;
  f_flags : Z;
  f_offset : Z;
  f_node : ptr nat;
  f_fs : bool
}.

(** A process with its descriptor table, and the file system it works on. *)
Record mcs_process := mk_process {
  pid : Z;
  files : list mcs_file;
  ramfs : ptr mcs_ramfs
}.

(** ** Strings and copies *)

(** [s[i]] up to the terminator. *)
Definition char_at (s : list Z) (i : nat) : Z := default 0 (s !! i).

Definition mcs_strlen (s : list Z) : nat := length s.

Definition mcs_streq_n (a b : list Z) (n : nat) : bool :=
  forallb (λ i, char_at a i =? char_at b i) (seq 0 n) && (char_at b n =? 0).

Definition mcs_copy_name (src : list Z) (n : nat) : list Z :=
  splice 0 (take (min n (MCS_MAX_NAME - 1)) src) (replicate MCS_MAX_NAME 0).

(** The copy loops between a buffer and the data area. *)
Definition mcs_copy_bytes (data : list Z) (off : Z) (src : list Z) (n : Z) : res (list Z) :=
  if (Z.of_nat (length data) <? off + n) || (Z.of_nat (length src) <? n) then Ub
  else Ok (splice (Z.to_nat off) (take (Z.to_nat n) src) data).

Definition mcs_copy_to_user (data : list Z) (off n : Z) : res (list Z) :=
  if Z.of_nat (length data) <? off + n then Ub else Ok (slice (Z.to_nat off) (Z.to_nat n) data).

(** ** The RAM file system *)

Definition with_node (fs : mcs_ramfs) (i : nat) (n : mcs_vnode) : mcs_ramfs :=
  mk_ramfs (<[i := n]> (nodes fs)) (node_count fs) (fs_data fs) (data_used fs).
Definition with_data (fs : mcs_ramfs) (d : list Z) : mcs_ramfs :=
  mk_ramfs (nodes fs) (node_count fs) d (data_used fs).
Definition with_size (n : mcs_vnode) (size : Z) : mcs_vnode :=
  mk_vnode (n_used n) (n_id n) (n_parent n) (n_type n) (n_name n) size (n_data_offset n) (n_data_capacity n).

Definition get_node (i : nat) : M mcs_ramfs mcs_vnode :=
  let* fs := deref in
  match nodes fs !! i with Some n => ret n | None => ub end.

Fixpoint find_loop (i n : nat) (parent : Z) (name : list Z) (name_len : nat) : M mcs_ramfs nat :=
  match n with
  | O => fail MCS_ENOENT
  | S n =>
      let* nd := get_node i in
      if n_used nd && (n_parent nd =? parent) && mcs_streq_n name (n_name nd) name_len then ret i
      else find_loop (S i) n parent name name_len
  end.

Definition mcs_find_child (parent : Z) (name : list Z) (name_len : nat) : M mcs_ramfs nat :=
  null_check MCS_EINVAL ;;
  fail_if ((name_len =? 0)%nat || (MCS_MAX_NAME <=? name_len)%nat) MCS_EINVAL ;;
  let* fs := deref in
  find_loop 0 (node_count fs) parent name name_len.

(** [while ( *next != '/' && *next != '\0') next++;] *)
Fixpoint seg_end (seg : list Z) : list Z :=
  match seg with
  | [] => []
  | c :: r => if c =? SLASH then seg else seg_end r
  end.

(** The loop of [mcs_split_parent_leaf]; a path has fewer segments than
    characters. *)
Fixpoint split_loop (fuel : nat) (cur : nat) (seg : list Z) : M mcs_ramfs (nat * list Z * nat) :=
  match fuel with
  | O => ub
  | S fuel =>
      let next := seg_end seg in
      let seg_len := (length seg - length next)%nat in
      fail_if ((seg_len =? 0)%nat || (MCS_MAX_NAME <=? seg_len)%nat) MCS_EINVAL ;;
      match next with
      | [] => ret (cur, seg, seg_len)
      | _ :: rest =>
          let* cn := get_node cur in
          let* cur := mcs_find_child (n_id cn) seg seg_len in
          let* cn := get_node cur in
          fail_if (negb (bool_decide (n_type cn = MCS_VNODE_DIR))) MCS_ENOTDIR ;;
          split_loop fuel cur rest
      end
  end.

Definition mcs_split_parent_leaf (path : list Z) : M mcs_ramfs (nat * list Z * nat) :=
  null_check MCS_EINVAL ;;
  fail_if (negb (char_at path 0 =? SLASH)) MCS_EINVAL ;;
  fail_if (char_at path 1 =? 0) MCS_EINVAL ;;
  fail_if (MCS_MAX_PATH <=? mcs_strlen path)%nat MCS_ENAMETOOLONG ;;
  split_loop (S (length path)) 0 (drop 1 path).

Definition mcs_alloc_node (parent : Z) (type : mcs_vnode_type) (name : list Z) (name_len : nat) (capacity : Z)
    : M mcs_ramfs nat :=
  null_check MCS_EINVAL ;;
  fail_if ((name_len =? 0)%nat || (MCS_MAX_NAME <=? name_len)%nat) MCS_EINVAL ;;
  let* fs := deref in
  let is_file := bool_decide (type = MCS_VNODE_FILE) in
  fail_if (MCS_MAX_NODES <=? node_count fs)%nat MCS_ENOSPC ;;
  fail_if (is_file && (MCS_RAMFS_DATA_BYTES <? u64 (data_used fs + capacity))) MCS_ENOSPC ;;
  let i := node_count fs in
  get_node i ;;
  let nd := mk_vnode true (u32 (Z.of_nat i)) parent type (mcs_copy_name name name_len) 0
              (if is_file then data_used fs else 0) (if is_file then capacity else 0) in
  store (mk_ramfs (<[i := nd]> (nodes fs)) (S (node_count fs)) (fs_data fs)
           (if is_file then u64 (data_used fs + capacity) else data_used fs)) ;;
  ret i.

Definition reset_node (n : mcs_vnode) : mcs_vnode :=
  mk_vnode false 0 0 MCS_VNODE_FILE (<[0%nat := 0]> (n_name n)) 0 0 0.

Definition root_node (n : mcs_vnode) : mcs_vnode :=
  mk_vnode true 0 0 MCS_VNODE_DIR (<[1%nat := 0]> (<[0%nat := SLASH]> (n_name n)))
    (n_size n) (n_data_offset n) (n_data_capacity n).

Definition mcs_ramfs_init : M mcs_ramfs unit := λ p,
  match p with
  | None => (Ok tt, p)
  | Some fs =>
      (Ok tt, Some (mk_ramfs (alter root_node 0%nat (reset_node <$> nodes fs)) 1
                      ((λ _, 0) <$> fs_data fs) 0))
  end.

Fixpoint lookup_loop (fuel : nat) (cur : nat) (seg : list Z) : M mcs_ramfs nat :=
  match fuel with
  | O => ub
  | S fuel =>
      match seg with
      | [] => fail MCS_EINVAL
      | _ :: _ =>
          let next := seg_end seg in
          let seg_len := (length seg - length next)%nat in
          fail_if ((seg_len =? 0)%nat || (MCS_MAX_NAME <=? seg_len)%nat) MCS_EINVAL ;;
          let* cn := get_node cur in
          let* cur := mcs_find_child (n_id cn) seg seg_len in
          match next with
          | [] => ret cur
          | _ :: rest =>
              let* cn := get_node cur in
              fail_if (negb (bool_decide (n_type cn = MCS_VNODE_DIR))) MCS_ENOTDIR ;;
              lookup_loop fuel cur rest
          end
      end
  end.

Definition mcs_ramfs_lookup (path : list Z) : M mcs_ramfs nat :=
  null_check MCS_EINVAL ;;
  fail_if (negb (char_at path 0 =? SLASH)) MCS_EINVAL ;;
  fail_if (MCS_MAX_PATH <=? mcs_strlen path)%nat MCS_ENAMETOOLONG ;;
  if char_at path 1 =? 0 then ret 0%nat
  else lookup_loop (S (length path)) 0 (drop 1 path).

Definition mcs_ramfs_create_file (path : list Z) : M mcs_ramfs nat :=
  null_check MCS_EINVAL ;;
  let* existing := on_error (let* i := mcs_ramfs_lookup path in ret (Some i)) (λ _, ret None) in
  match existing with
  | Some i =>
      let* nd := get_node i in
      fail_if (negb (bool_decide (n_type nd = MCS_VNODE_FILE))) MCS_EISDIR ;;
      ret i
  | None =>
      let* '(parent, leaf, leaf_len) := mcs_split_parent_leaf path in
      let* pn := get_node parent in
      fail_if (negb (bool_decide (n_type pn = MCS_VNODE_DIR))) MCS_ENOTDIR ;;
      mcs_alloc_node (n_id pn) MCS_VNODE_FILE leaf leaf_len 256
  end.

Definition mcs_ramfs_seed_file (path : ptr (list Z)) (data : ptr (list Z)) (len : Z) : M mcs_ramfs unit :=
  null_check MCS_EINVAL ;;
  match path with
  | None => fail MCS_EINVAL
  | Some path =>
      fail_if (bool_decide (data = None) && negb (len =? 0)) MCS_EINVAL ;;
      let* node := mcs_ramfs_create_file path in
      let* nd := get_node node in
      fail_if (n_data_capacity nd <? len) MCS_ENOSPC ;;
      let* fs := deref in
      let* d := lift (mcs_copy_bytes (fs_data fs) (n_data_offset nd) (default [] data) len) in
      store (with_node (with_data fs d) node (with_size nd len))
  end.

(** ** Descriptors *)

Definition mcs_min_size (a b : Z) : Z := if a <? b then a else b.

Definition mcs_can_read (flags : Z) : bool :=
  negb (Z.land flags MCS_O_RDONLY =? 0) || negb (Z.land flags MCS_O_RDWR =? 0).
Definition mcs_can_write (flags : Z) : bool :=
  negb (Z.land flags MCS_O_WRONLY =? 0) || negb (Z.land flags MCS_O_RDWR =? 0).

Definition closed_file : mcs_file := mk_file false 0 0 None false.

Definition mcs_fd_table_init : M mcs_process unit := λ p,
  match p with
  | None => (Ok tt, p)
  | Some v => (Ok tt, Some (mk_process (pid v) ((λ _, closed_file) <$> files v) (ramfs v)))
  end.

Definition with_files (v : mcs_process) (l : list mcs_file) : mcs_process := mk_process (pid v) l (ramfs v).
Definition set_file (fd : nat) (f : mcs_file) : M mcs_process unit :=
  let* v := deref in store (with_files v (<[fd := f]> (files v))).

(** Work on the file system behind the process. *)
Definition on_fs {A} (m : M mcs_ramfs A) : M mcs_process A := λ p,
  match p with
  | None => (Ub, p)
  | Some v => let '(r, fs) := m (ramfs v) in (r, Some (mk_process (pid v) (files v) fs))
  end.

Definition mcs_fd_get (fd : Z) : M mcs_process (ptr (nat * mcs_file)) := λ p,
  match p with
  | None => (Ok None, p)
  | Some v =>
      if (fd <? 0) || (Z.of_nat MCS_MAX_OPEN_FILES <=? fd) then (Ok None, p)
      else
        match files v !! Z.to_nat fd with
        | None => (Ub, p)
        | Some f => (Ok (if f_used f then Some (Z.to_nat fd, f) else None), p)
        end
  end.

(** [if (!file) return MCS_EBADF;] *)
Definition fd_or_ebadf (fd : Z) : M mcs_process (nat * mcs_file) :=
  let* f := mcs_fd_get fd in
  match f with Some f => ret f | None => fail MCS_EBADF end.

Fixpoint alloc_fd_loop (i n : nat) : M mcs_process nat :=
  match n with
  | O => fail MCS_ENFILE
  | S n =>
      let* v := deref in
      match files v !! i with
      | None => ub
      | Some f =>
          if f_used f then alloc_fd_loop (S i) n
          else set_file i (mk_file true (f_flags f) (f_offset f) (f_node f) (f_fs f)) ;; ret i
      end
  end.

Definition mcs_fd_alloc : M mcs_process nat :=
  null_check MCS_EINVAL ;; alloc_fd_loop 0 MCS_MAX_OPEN_FILES.

Definition set_node_size (i : nat) (size : Z) : M mcs_ramfs unit :=
  let* nd := get_node i in let* fs := deref in store (with_node fs i (with_size nd size)).

Definition mcs_vfs_open (path : ptr (list Z)) (flags : Z) : M mcs_process Z :=
  null_check MCS_EINVAL ;;
  let* v := deref in
  match ramfs v, path with
  | Some _, Some path =>
      let flags := if Z.land flags (Z.lor MCS_O_RDONLY (Z.lor MCS_O_WRONLY MCS_O_RDWR)) =? 0
                   then Z.lor flags MCS_O_RDONLY else flags in
      let* node := on_fs (on_error (mcs_ramfs_lookup path) (λ rc,
                     if Z.land flags MCS_O_CREAT =? 0 then fail rc else mcs_ramfs_create_file path)) in
      let* nd := on_fs (get_node node) in
      fail_if (bool_decide (n_type nd = MCS_VNODE_DIR) && mcs_can_write flags) MCS_EISDIR ;;
      let* fd := mcs_fd_alloc in
      let off := if negb (Z.land flags MCS_O_APPEND =? 0) then n_size nd else 0 in
      set_file fd (mk_file true flags off (Some node) true) ;;
      (if negb (Z.land flags MCS_O_TRUNC =? 0) then
         if negb (mcs_can_write flags) then
           set_file fd (mk_file false flags off None false) ;; fail MCS_EACCES
         else
           on_fs (set_node_size node 0) ;; set_file fd (mk_file true flags 0 (Some node) true)
       else ret tt) ;;
      ret (Z.of_nat fd)
  | _, _ => fail MCS_EINVAL
  end.

(** [if (!file->node || !file->fs) return MCS_EINVAL;] and the directory
    check, with the node. *)
Definition file_node (f : mcs_file) : M mcs_process (nat * mcs_vnode) :=
  match f_node f, f_fs f with
  | Some i, true =>
      let* nd := on_fs (get_node i) in
      fail_if (bool_decide (n_type nd = MCS_VNODE_DIR)) MCS_EISDIR ;;
      ret (i, nd)
  | _, _ => fail MCS_EINVAL
  end.

Definition with_offset (f : mcs_file) (off : Z) : mcs_file :=
  mk_file (f_used f) (f_flags f) off (f_node f) (f_fs f).

(** The result is the bytes copied to the buffer. *)
Definition mcs_vfs_read (fd : Z) (buf_null : bool) (len : Z) : M mcs_process (list Z) :=
  fail_if (buf_null && negb (len =? 0)) MCS_EINVAL ;;
  let* '(i, f) := fd_or_ebadf fd in
  fail_if (negb (mcs_can_read (f_flags f))) MCS_EACCES ;;
  let* '(_, nd) := file_node f in
  if n_size nd <=? f_offset f then ret []
  else
    let remain := n_size nd - f_offset f in
    let n := mcs_min_size len remain in
    let* out := on_fs (let* fs := deref in
                       lift (mcs_copy_to_user (fs_data fs) (u64 (n_data_offset nd + f_offset f)) n)) in
    set_file i (with_offset f (u64 (f_offset f + n))) ;;
    ret out.

Definition mcs_vfs_write (fd : Z) (buf : ptr (list Z)) (len : Z) : M mcs_process Z :=
  fail_if (bool_decide (buf = None) && negb (len =? 0)) MCS_EINVAL ;;
  let* '(i, f) := fd_or_ebadf fd in
  fail_if (negb (mcs_can_write (f_flags f))) MCS_EACCES ;;
  let* '(node, nd) := file_node f in
  let f := if negb (Z.land (f_flags f) MCS_O_APPEND =? 0) then with_offset f (n_size nd) else f in
  set_file i f ;;
  fail_if (n_data_capacity nd <? f_offset f) MCS_EINVAL ;;
  let n := mcs_min_size len (n_data_capacity nd - f_offset f) in
  fail_if (n <? len) MCS_ENOSPC ;;
  on_fs (let* fs := deref in
         let* d := lift (mcs_copy_bytes (fs_data fs) (u64 (n_data_offset nd + f_offset f)) (default [] buf) n) in
         store (with_data fs d)) ;;
  let offset := u64 (f_offset f + n) in
  set_file i (with_offset f offset) ;;
  (if n_size nd <? offset then on_fs (set_node_size node offset) else ret tt) ;;
  ret n.

(** Signed 64-bit addition, undefined on overflow. *)
Definition long_add (a b : Z) : res Z :=
  let s := a + b in
  if (s <? - 2 ^ 63) || (2 ^ 63 <=? s) then Ub else Ok s.

Definition mcs_vfs_lseek (fd offset whence : Z) : M mcs_process Z :=
  let* '(i, f) := fd_or_ebadf fd in
  match f_node f with
  | None => fail MCS_EISDIR
  | Some node =>
      let* nd := on_fs (get_node node) in
      fail_if (bool_decide (n_type nd = MCS_VNODE_DIR)) MCS_EISDIR ;;
      let* base :=
        (if whence =? MCS_SEEK_SET then ret 0
         else if whence =? MCS_SEEK_CUR then ret (to_signed 64 (f_offset f))
         else if whence =? MCS_SEEK_END then ret (to_signed 64 (n_size nd))
         else fail MCS_EINVAL) in
      let* next := lift (long_add base offset) in
      fail_if (next <? 0) MCS_EINVAL ;;
      set_file i (with_offset f (u64 next)) ;;
      ret (to_signed 32 (u32 (u64 next)))
  end.

Definition mcs_vfs_close (fd : Z) : M mcs_process unit :=
  let* '(i, _) := fd_or_ebadf fd in
  set_file i closed_file.

Definition mcs_vfs_dup (fd : Z) : M mcs_process Z :=
  let* '(i, f) := fd_or_ebadf fd in
  let* newfd := mcs_fd_alloc in
  set_file newfd (mk_file true (f_flags f) (f_offset f) (f_node f) (f_fs f)) ;;
  ret (Z.of_nat newfd).

(** ** System calls *)

Definition mcs_sys_open (user_path : ptr (list Z)) (flags : Z) : M mcs_process Z :=
  null_check MCS_EINVAL ;;
  let* v := deref in
  fail_if (bool_decide (ramfs v = None) || bool_decide (user_path = None)) MCS_EINVAL ;;
  mcs_vfs_open user_path flags.
Definition mcs_sys_read (fd : Z) (buf_null : bool) (len : Z) : M mcs_process (list Z) :=
  null_check MCS_EINVAL ;;
  fail_if (buf_null && negb (len =? 0)) MCS_EINVAL ;;
  mcs_vfs_read fd buf_null len.
Definition mcs_sys_write (fd : Z) (user_buf : ptr (list Z)) (len : Z) : M mcs_process Z :=
  null_check MCS_EINVAL ;;
  fail_if (bool_decide (user_buf = None) && negb (len =? 0)) MCS_EINVAL ;;
  mcs_vfs_write fd user_buf len.
Definition mcs_sys_close (fd : Z) : M mcs_process unit :=
  null_check MCS_EINVAL ;; mcs_vfs_close fd.
Definition mcs_sys_lseek (fd offset whence : Z) : M mcs_process Z :=
  null_check MCS_EINVAL ;; mcs_vfs_lseek fd offset whence.

(** ** Start-up (kernel/core/kmain.c) *)

Definition panic_unless (b : bool) : M mcs_process unit := fail_if (negb b) KERNEL_PANIC.

(** The result is what the read buffer holds. *)
Definition m13_vfs_bootstrap : M mcs_process (list Z) :=
  on_fs mcs_ramfs_init ;;
  let* v := deref in
  store (mk_process 1 (files v) (ramfs v)) ;;
  mcs_fd_table_init ;;
  or_panic (on_fs (mcs_ramfs_seed_file (Some (chars "/motd.txt")) (Some (chars "mcsos-m13-ramfs")) 15)) ;;
  let* fd := or_panic (mcs_sys_open (Some (chars "/motd.txt")) MCS_O_RDONLY) in
  panic_unless (0 <=? fd) ;;
  let* readbuf := or_panic (mcs_sys_read fd false 15) in
  panic_unless (Z.of_nat (List.length readbuf) =? 15) ;;
  let* wfd := or_panic (mcs_sys_open (Some (chars "/log.txt"))
                          (Z.lor MCS_O_CREAT (Z.lor MCS_O_RDWR MCS_O_TRUNC))) in
  panic_unless (0 <=? wfd) ;;
  let* wn := or_panic (mcs_sys_write wfd (Some (chars "boot-ok")) 7) in
  panic_unless (wn =? 7) ;;
  or_panic (mcs_sys_close fd) ;;
  or_panic (mcs_sys_close wfd) ;;
  ret readbuf.
