(* ===== verification/VfsSpec.v ===== *)
(** * What the file system and its descriptors promise
      (kernel/vfs/ramfs.c, kernel/vfs/fd.c; start-up of kernel/core/kmain.c)

    The specification has named files, each with 256 bytes of its own, and
    descriptors that refer to them; the node table, the shared data area and the
    walk over paths refine it. *)

From Stdlib Require Import ZArith Lia String.
From stdpp Require Import base numbers option list.
From S2P Require Import Prelude Vfs.

Local Open Scope Z_scope.
Local Open Scope cm_scope.

(** ** Specification *)

Record afile := mk_afile {
  a_name : list Z;
  a_size : Z;
  a_bytes : list Z
}.

(** A descriptor: its target is the root directory or a file. *)
Record adesc := mk_adesc {
  d_flags : Z;
  d_offset : Z;
  d_target : option nat
}.

Record aproc := mk_aproc {
  a_files : list afile;
  a_fds : list (option adesc)
}.

(** The first component of a path after its slash, and whether more follows. *)
Definition seg_of (p : list Z) : list Z := take (length p - length (seg_end p)) p.
Definition valid_len (n : nat) : bool := negb ((n =? 0)%nat || (MCS_MAX_NAME <=? n)%nat).

Definition find_file (fl : list afile) (name : list Z) : option nat :=
  fst <$> list_find (λ a, a_name a = name) fl.

Definition a_lookup (fl : list afile) (path : list Z) : res (option nat) :=
  match path with
  | c :: rest =>
      if negb (c =? SLASH) then Err MCS_EINVAL
      else if (MCS_MAX_PATH <=? length path)%nat then Err MCS_ENAMETOOLONG
      else
        match rest with
        | [] => Ok None
        | _ =>
            if negb (valid_len (length (seg_of rest))) then Err MCS_EINVAL
            else
              match find_file fl (seg_of rest), seg_end rest with
              | None, _ => Err MCS_ENOENT
              | Some i, [] => Ok (Some i)
              | Some _, _ :: _ => Err MCS_ENOTDIR
              end
        end
  | [] => Err MCS_EINVAL
  end.

Definition new_file (name : list Z) : afile := mk_afile name 0 (replicate 256 0).

(** At most 32 files of 256 bytes fit. *)
Definition a_create (fl : list afile) (path : list Z) : res nat * list afile :=
  match a_lookup fl path with
  | Ok (Some i) => (Ok i, fl)
  | Ok None => (Err MCS_EISDIR, fl)
  | Err rc =>
      if bool_decide (rc = MCS_ENOENT) && bool_decide (seg_end (drop 1 path) = []) then
        if (32 <=? length fl)%nat then (Err MCS_ENOSPC, fl)
        else (Ok (length fl), fl ++ [new_file (drop 1 path)])
      else (Err rc, fl)
  | Ub => (Ub, fl)
  end.

Definition resize (n : Z) (a : afile) : afile := mk_afile (a_name a) n (a_bytes a).

Definition open_flags (flags : Z) : Z :=
  if Z.land flags 7 =? 0 then Z.lor flags MCS_O_RDONLY else flags.

(** The file a path opens, created when the flags say so. *)
Definition a_target (fl : list afile) (path : list Z) (flags : Z) : res (option nat) * list afile :=
  match a_lookup fl path with
  | Err rc =>
      if Z.land flags MCS_O_CREAT =? 0 then (Err rc, fl)
      else match a_create fl path with
           | (Ok i, fl) => (Ok (Some i), fl)
           | (Err rc, fl) => (Err rc, fl)
           | (Ub, fl) => (Ub, fl)
           end
  | r => (r, fl)
  end.

Definition free_fd (fds : list (option adesc)) : option nat := fst <$> list_find (λ d, d = None) fds.

Definition size_of (fl : list afile) (t : option nat) : Z :=
  match t with Some i => from_option a_size 0 (fl !! i) | None => 0 end.

Definition a_open (path : list Z) (flags : Z) (s : aproc) : res Z * aproc :=
  let flags := open_flags flags in
  match a_target (a_files s) path flags with
  | (Ok t, fl) =>
      let s := mk_aproc fl (a_fds s) in
      if bool_decide (t = None) && mcs_can_write flags then (Err MCS_EISDIR, s)
      else
        match free_fd (a_fds s) with
        | None => (Err MCS_ENFILE, s)
        | Some fd =>
            if negb (Z.land flags MCS_O_TRUNC =? 0) then
              if negb (mcs_can_write flags) then (Err MCS_EACCES, s)
              else (Ok (Z.of_nat fd),
                    mk_aproc (match t with Some i => alter (resize 0) i fl | None => fl end)
                      (<[fd := Some (mk_adesc flags 0 t)]> (a_fds s)))
            else
              let off := if negb (Z.land flags MCS_O_APPEND =? 0) then size_of fl t else 0 in
              (Ok (Z.of_nat fd), mk_aproc fl (<[fd := Some (mk_adesc flags off t)]> (a_fds s)))
        end
  | (Err rc, fl) => (Err rc, mk_aproc fl (a_fds s))
  | (Ub, fl) => (Ub, mk_aproc fl (a_fds s))
  end.

(** The open descriptor [fd], if any. *)
Definition a_fd (s : aproc) (fd : Z) : option (nat * adesc) :=
  if (fd <? 0) || (16 <=? fd) then None
  else d ← mjoin (a_fds s !! Z.to_nat fd); Some (Z.to_nat fd, d).

Definition set_fd (s : aproc) (fd : nat) (d : option adesc) : aproc := mk_aproc (a_files s) (<[fd := d]> (a_fds s)).
Definition move (d : adesc) (off : Z) : adesc := mk_adesc (d_flags d) off (d_target d).

Definition a_read (fd : Z) (buf_null : bool) (len : Z) (s : aproc) : res (list Z) * aproc :=
  if buf_null && negb (len =? 0) then (Err MCS_EINVAL, s)
  else
    match a_fd s fd with
    | None => (Err MCS_EBADF, s)
    | Some (i, d) =>
        if negb (mcs_can_read (d_flags d)) then (Err MCS_EACCES, s)
        else
          match d_target d ≫= λ t, a_files s !! t with
          | None => (Err MCS_EISDIR, s)
          | Some a =>
              if a_size a <=? d_offset d then (Ok [], s)
              else
                let n := Z.min len (a_size a - d_offset d) in
                (Ok (slice (Z.to_nat (d_offset d)) (Z.to_nat n) (a_bytes a)),
                 set_fd s i (Some (move d (d_offset d + n))))
          end
    end.

Definition overwrite (off : Z) (data : list Z) (a : afile) : afile :=
  mk_afile (a_name a) (Z.max (a_size a) (off + Z.of_nat (length data))) (splice (Z.to_nat off) data (a_bytes a)).

Definition a_write (fd : Z) (buf : option (list Z)) (len : Z) (s : aproc) : res Z * aproc :=
  if bool_decide (buf = None) && negb (len =? 0) then (Err MCS_EINVAL, s)
  else
    match a_fd s fd with
    | None => (Err MCS_EBADF, s)
    | Some (i, d) =>
        if negb (mcs_can_write (d_flags d)) then (Err MCS_EACCES, s)
        else
          match d_target d ≫= λ t, pair t <$> a_files s !! t with
          | None => (Err MCS_EISDIR, s)
          | Some (t, a) =>
              let off := if negb (Z.land (d_flags d) MCS_O_APPEND =? 0) then a_size a else d_offset d in
              if 256 <? off then (Err MCS_EINVAL, set_fd s i (Some (move d off)))
              else if 256 <? off + len then (Err MCS_ENOSPC, set_fd s i (Some (move d off)))
              else
                (Ok len,
                 set_fd (mk_aproc (alter (overwrite off (take (Z.to_nat len) (default [] buf))) t (a_files s)) (a_fds s))
                   i (Some (move d (off + len))))
          end
    end.

Definition a_lseek (fd offset whence : Z) (s : aproc) : res Z * aproc :=
  match a_fd s fd with
  | None => (Err MCS_EBADF, s)
  | Some (i, d) =>
      match d_target d ≫= λ t, a_files s !! t with
      | None => (Err MCS_EISDIR, s)
      | Some a =>
          if negb ((0 <=? whence) && (whence <=? 2)) then (Err MCS_EINVAL, s)
          else
            let base := if whence =? MCS_SEEK_SET then 0 else if whence =? MCS_SEEK_CUR then d_offset d else a_size a in
            match long_add base offset with
            | Ok next =>
                if next <? 0 then (Err MCS_EINVAL, s)
                else (Ok (to_signed 32 (u32 next)), set_fd s i (Some (move d next)))
            | Err rc => (Err rc, s)
            | Ub => (Ub, s)
            end
      end
  end.

Definition a_close (fd : Z) (s : aproc) : res unit * aproc :=
  match a_fd s fd with
  | None => (Err MCS_EBADF, s)
  | Some (i, _) => (Ok tt, set_fd s i None)
  end.

Definition a_dup (fd : Z) (s : aproc) : res Z * aproc :=
  match a_fd s fd with
  | None => (Err MCS_EBADF, s)
  | Some (_, d) =>
      match free_fd (a_fds s) with
      | None => (Err MCS_ENFILE, s)
      | Some i => (Ok (Z.of_nat i), set_fd s i (Some d))
      end
  end.

(** ** Operations of a process *)

Inductive vop :=
| VOpen (path : list Z) (flags : Z)
| VRead (fd : Z) (buf_null : bool) (len : Z)
| VWrite (fd : Z) (buf : option (list Z)) (len : Z)
| VLseek (fd offset whence : Z)
| VClose (fd : Z)
| VDup (fd : Z).

(** A path is a C string, a buffer has the size it is said to have. *)
Definition vop_ok (o : vop) : Prop :=
  match o with
  | VOpen path _ => Forall (λ c, c ≠ 0) path
  | VRead _ _ len => fits 64 len
  | VWrite _ buf len => fits 64 len ∧ match buf with Some b => len <= Z.of_nat (length b) | None => True end
  | _ => True
  end.

(** What a call returns: a number or the bytes read. *)
Definition mmap {S A B} (f : A → B) (m : M S A) : M S B := λ p, let '(r, p') := m p in (rmap f r, p').

Definition vfs_op (o : vop) : M mcs_process (Z + list Z) :=
  match o with
  | VOpen path flags => mmap inl (mcs_sys_open (Some path) flags)
  | VRead fd buf_null len => mmap inr (mcs_sys_read fd buf_null len)
  | VWrite fd buf len => mmap inl (mcs_sys_write fd buf len)
  | VLseek fd offset whence => mmap inl (mcs_sys_lseek fd offset whence)
  | VClose fd => mmap (λ _, inl 0) (mcs_sys_close fd)
  | VDup fd => mmap inl (mcs_vfs_dup fd)
  end.

Definition amap {A B} (f : A → B) (r : res A * aproc) : res B * aproc := (rmap f r.1, r.2).

Definition a_op (o : vop) (s : aproc) : res (Z + list Z) * aproc :=
  match o with
  | VOpen path flags => amap inl (a_open path flags s)
  | VRead fd buf_null len => amap inr (a_read fd buf_null len s)
  | VWrite fd buf len => amap inl (a_write fd buf len s)
  | VLseek fd offset whence => amap inl (a_lseek fd offset whence s)
  | VClose fd => amap (λ _, inl 0) (a_close fd s)
  | VDup fd => amap inl (a_dup fd s)
  end.

(** ** Representation *)

Definition node_of (i : nat) (a : afile) : mcs_vnode :=
  mk_vnode true (Z.of_nat (S i)) 0 MCS_VNODE_FILE (a_name a ++ replicate (32 - length (a_name a)) 0)
    (a_size a) (256 * Z.of_nat i) 256.

Record afile_ok (a : afile) : Prop := {
  ao_len : valid_len (length (a_name a)) = true;
  ao_chars : Forall (λ c, c ≠ 0) (a_name a);
  ao_size : 0 <= a_size a <= 256;
  ao_bytes : length (a_bytes a) = 256%nat
}.

Record root_ok (nd : mcs_vnode) : Prop := {
  ro_id : n_id nd = 0;
  ro_type : n_type nd = MCS_VNODE_DIR;
  ro_name : char_at (n_name nd) 0 = SLASH;
  ro_size : n_size nd = 0
}.

Record fs_rep (fs : mcs_ramfs) (fl : list afile) : Prop := {
  fr_nodes : length (nodes fs) = MCS_MAX_NODES;
  fr_data : length (fs_data fs) = Z.to_nat MCS_RAMFS_DATA_BYTES;
  fr_count : node_count fs = S (length fl);
  fr_used : data_used fs = 256 * Z.of_nat (length fl);
  fr_len : (length fl <= 32)%nat;
  fr_root : ∃ nd, nodes fs !! 0%nat = Some nd ∧ root_ok nd;
  fr_file i a : fl !! i = Some a →
    nodes fs !! S i = Some (node_of i a) ∧ afile_ok a ∧ slice (256 * i) 256 (fs_data fs) = a_bytes a;
  fr_rest i : (256 * length fl <= i < 32 * 256)%nat → fs_data fs !! i = Some 0;
  fr_names : NoDup (a_name <$> fl)
}.

Definition node_index (t : option nat) : nat := match t with Some i => S i | None => 0%nat end.

Definition desc_rep (n : nat) (f : mcs_file) (d : option adesc) : Prop :=
  match d with
  | None => f_used f = false
  | Some d =>
      f = mk_file true (d_flags d) (d_offset d) (Some (node_index (d_target d))) true ∧
      0 <= d_offset d < 2 ^ 63 ∧
      match d_target d with Some i => (i < n)%nat | None => True end
  end.

Definition proc_rep (v : mcs_process) (s : aproc) : Prop :=
  ∃ fs, ramfs v = Some fs ∧ fs_rep fs (a_files s) ∧ length (files v) = MCS_MAX_OPEN_FILES ∧
    Forall2 (desc_rep (length (a_files s))) (files v) (a_fds s).

(** ** Strings *)

Lemma seg_split p : p = seg_of p ++ seg_end p.
Proof.
  unfold seg_of. induction p as [|c p IH]; [done|]. cbn [seg_end]. destruct (c =? SLASH).
  { by rewrite Nat.sub_diag. }
  assert (length (seg_end p) <= length p)%nat.
  { clear IH. induction p as [|x p IH]; simpl; [lia|]. destruct (x =? SLASH); simpl; lia. }
  cbn [length]. rewrite Nat.sub_succ_l by done. cbn [take app]. by rewrite <-IH.
Qed.

Lemma length_seg p : (length p - length (seg_end p))%nat = length (seg_of p).
Proof. pose proof (f_equal length (seg_split p)) as H. rewrite length_app in H. lia. Qed.

Lemma seg_head p c l : seg_of p = c :: l → c ≠ SLASH.
Proof.
  intros H. pose proof (seg_split p) as E. rewrite H in E. intros ->. rewrite E in H. unfold seg_of in H.
  cbn [app seg_end] in H. rewrite Z.eqb_refl, Nat.sub_diag in H. done.
Qed.

Lemma char_at_app_l a b i : (i < length a)%nat → char_at (a ++ b) i = char_at a i.
Proof. intros. unfold char_at. by rewrite lookup_app_l. Qed.

Lemma char_at_pad nm k i : (length nm <= i)%nat → char_at (nm ++ replicate k 0) i = 0.
Proof.
  intros. unfold char_at. rewrite lookup_app_r by done.
  destruct (replicate k 0 !! (i - length nm)%nat) as [x|] eqn:E; [|done]. by apply lookup_replicate in E as [-> _].
Qed.

Lemma char_at_nz l i : Forall (λ c, c ≠ 0) l → (i < length l)%nat → char_at l i ≠ 0.
Proof.
  intros H Hi. destruct (lookup_lt_is_Some_2 l i Hi) as [x Hx]. unfold char_at. rewrite Hx.
  exact (Forall_lookup_1 _ l i x H Hx).
Qed.

Lemma char_at_eq a b : length a = length b → (∀ i, (i < length a)%nat → char_at a i = char_at b i) → a = b.
Proof.
  intros Hl H. apply (list_eq_same_length _ _ (length a)); [done|done|]. intros i x y Hi Hx Hy.
  specialize (H i Hi). unfold char_at in H. by rewrite Hx, Hy in H.
Qed.

Lemma streq_iff a b n :
  mcs_streq_n a b n = true ↔ (∀ i, (i < n)%nat → char_at a i = char_at b i) ∧ char_at b n = 0.
Proof.
  unfold mcs_streq_n. rewrite andb_true_iff, forallb_forall, Z.eqb_eq. split; intros [H ?]; (split; [|done]).
  - intros i Hi. apply Z.eqb_eq, H, in_seq. lia.
  - intros i Hi%in_seq. apply Z.eqb_eq, H. lia.
Qed.

Lemma streq_spec seg rest nm k :
  Forall (λ c, c ≠ 0) seg → Forall (λ c, c ≠ 0) nm →
  mcs_streq_n (seg ++ rest) (nm ++ replicate k 0) (length seg) = bool_decide (nm = seg).
Proof.
  intros Zs Zn. apply eq_true_iff_eq. rewrite streq_iff, bool_decide_eq_true. split.
  - intros [H He]. destruct (lt_eq_lt_dec (length seg) (length nm)) as [[Hlt|Heq]|Hgt].
    + rewrite char_at_app_l in He by done. by destruct (char_at_nz nm (length seg)).
    + apply char_at_eq; [done|]. intros i Hi. rewrite <-(char_at_app_l nm (replicate k 0)) by done.
      rewrite <-H by lia. by rewrite char_at_app_l by lia.
    + specialize (H (length nm) Hgt). rewrite char_at_pad, char_at_app_l in H by lia.
      by destruct (char_at_nz seg (length nm)).
  - intros ->. split; [|by rewrite char_at_pad]. intros i Hi. by rewrite !char_at_app_l.
Qed.

Lemma streq_root seg rest name :
  seg ≠ [] → (∀ c l, seg = c :: l → c ≠ SLASH) → char_at name 0 = SLASH →
  mcs_streq_n (seg ++ rest) name (length seg) = false.
Proof.
  intros Hs Hc Hn. apply not_true_iff_false. rewrite streq_iff. intros [H _]. destruct seg as [|c l]; [done|].
  specialize (H 0%nat ltac:(simpl; lia)). rewrite Hn in H. by apply (Hc c l).
Qed.

Lemma copy_name_pad nm : (length nm < 32)%nat → mcs_copy_name nm (length nm) = nm ++ replicate (32 - length nm) 0.
Proof.
  intros H. unfold mcs_copy_name, MCS_MAX_NAME. rewrite take_ge by lia.
  rewrite splice_in by (rewrite length_replicate; lia). cbn [take app]. by rewrite drop_replicate.
Qed.

(** ** Lookup *)

Lemma valid_len_nz n : valid_len n = true → (0 < n < 32)%nat.
Proof. unfold valid_len, MCS_MAX_NAME. destruct n; [done|]. intros H%negb_true_iff%orb_false_iff. destruct H as [_ H%Nat.leb_gt]. lia. Qed.

Lemma valid_len_guard n : ((n =? 0)%nat || (MCS_MAX_NAME <=? n)%nat) = negb (valid_len n).
Proof. unfold valid_len. by rewrite negb_involutive. Qed.

Section lookup.
Context (fs : mcs_ramfs) (fl : list afile) (R : fs_rep fs fl).

Lemma get_node_root : ∃ nd, get_node 0 (Some fs) = (Ok nd, Some fs) ∧ root_ok nd.
Proof. destruct (fr_root _ _ R) as (nd & E & H). exists nd. split; [|done]. unfold get_node, bind, deref. by rewrite E. Qed.

Lemma get_node_file i a : fl !! i = Some a → get_node (S i) (Some fs) = (Ok (node_of i a), Some fs).
Proof. intros Ha. destruct (fr_file _ _ R i a Ha) as (E & _). unfold get_node, bind, deref. by rewrite E. Qed.

Lemma find_loop_files seg rest k i l :
  Forall (λ c, c ≠ 0) seg → drop i fl = l → k = length l →
  find_loop (S i) k 0 (seg ++ rest) (length seg) (Some fs) =
    (match find_file l seg with Some j => Ok (S (i + j)) | None => Err MCS_ENOENT end, Some fs).
Proof.
  intros Zs. revert i l. induction k as [|k IH]; intros i l Hd Hk; destruct l as [|a l]; try done.
  cbn [find_loop]. assert (fl !! i = Some a) as Ha by (rewrite <-(Nat.add_0_r i), <-lookup_drop, Hd; done).
  rewrite (bind_ok _ _ _ _ _ (get_node_file i a Ha)). destruct (fr_file _ _ R i a Ha) as (_ & Hok & _).
  cbn [node_of n_used n_parent n_name]. rewrite (streq_spec _ _ _ _ Zs (ao_chars _ Hok)). cbn [Z.eqb andb].
  unfold find_file. cbn [list_find]. destruct (decide (a_name a = seg)) as [He|Hne].
  - rewrite bool_decide_true by done. simpl. by rewrite Nat.add_0_r.
  - rewrite bool_decide_false by done. rewrite (IH (S i) l); [|rewrite <-Nat.add_1_r, <-drop_drop, Hd; done|simpl in Hk; lia].
    unfold find_file. destruct (list_find _ l) as [[j b]|]; simpl; [|done]. do 3 f_equal. lia.
Qed.

Lemma find_child_run p :
  valid_len (length (seg_of p)) = true → Forall (λ c, c ≠ 0) p →
  mcs_find_child 0 p (length (seg_of p)) (Some fs) =
    (match find_file fl (seg_of p) with Some j => Ok (S j) | None => Err MCS_ENOENT end, Some fs).
Proof.
  intros Hv Hz. unfold mcs_find_child. rewrite (bind_ok _ _ _ tt (Some fs)) by done.
  rewrite valid_len_guard, Hv. rewrite (bind_ok _ _ _ tt (Some fs)) by done. rewrite (bind_ok _ _ _ fs (Some fs)) by done.
  rewrite (fr_count _ _ R). cbn [find_loop]. destruct get_node_root as (nd & Hg & Hr). rewrite (bind_ok _ _ _ _ _ Hg).
  assert (mcs_streq_n p (n_name nd) (length (seg_of p)) = false) as ->.
  { rewrite (seg_split p) at 1. apply streq_root; [intros E; by rewrite E in Hv|apply seg_head|apply (ro_name _ Hr)]. }
  rewrite andb_false_r. rewrite (seg_split p) in Hz. apply Forall_app in Hz as [Hz _].
  pose proof (find_loop_files (seg_of p) (seg_end p) (length fl) 0 fl Hz eq_refl eq_refl) as F.
  by rewrite <-seg_split in F.
Qed.

Lemma lookup_run path :
  Forall (λ c, c ≠ 0) path →
  mcs_ramfs_lookup path (Some fs) = (rmap node_index (a_lookup fl path), Some fs).
Proof.
  intros Hz. unfold mcs_ramfs_lookup. rewrite (bind_ok _ _ _ tt (Some fs)) by done.
  destruct path as [|c rest]; [reflexivity|]. assert (char_at (c :: rest) 0 = c) as -> by done. cbn [a_lookup].
  destruct (c =? SLASH); [|reflexivity]. cbn [negb]. rewrite (bind_ok _ _ _ tt (Some fs)) by done. unfold mcs_strlen.
  destruct (MCS_MAX_PATH <=? length (c :: rest))%nat; [reflexivity|]. rewrite (bind_ok _ _ _ tt (Some fs)) by done.
  destruct rest as [|x r]; [reflexivity|]. apply Forall_cons in Hz as [_ Hz]. set (rest := x :: r) in *.
  assert ((char_at (c :: rest) 1 =? 0) = false) as ->.
  { apply Z.eqb_neq. apply Forall_cons in Hz as [Hx _]. done. }
  assert (drop 1 (c :: rest) = rest) as -> by done. cbn [lookup_loop]. unfold rest at 1. cbv iota. rewrite length_seg.
  rewrite valid_len_guard. destruct (valid_len (length (seg_of rest))) eqn:Hv; [|reflexivity]. cbn [negb].
  rewrite (bind_ok _ _ _ tt (Some fs)) by done. destruct get_node_root as (nd & Hg & Hr).
  rewrite (bind_ok _ _ _ _ _ Hg), (ro_id _ Hr). unfold bind at 1. rewrite (find_child_run rest Hv Hz).
  destruct (find_file fl (seg_of rest)) as [j|] eqn:Ef; [|reflexivity]. destruct (seg_end rest) as [|y q]; [done|].
  unfold find_file in Ef. apply fmap_Some in Ef as ([j' a] & (Ha & _)%list_find_Some & ->).
  rewrite (bind_ok _ _ _ _ _ (get_node_file _ a Ha)). reflexivity.
Qed.

Lemma split_parent_run path :
  Forall (λ c, c ≠ 0) path → drop 1 path ≠ [] →
  mcs_split_parent_leaf path (Some fs) =
    (match a_lookup fl path with
     | Err rc => if bool_decide (rc = MCS_ENOENT) && bool_decide (seg_end (drop 1 path) = [])
                 then Ok (0%nat, drop 1 path, length (drop 1 path)) else Err rc
     | Ok _ => Ok (0%nat, drop 1 path, length (drop 1 path))
     | Ub => Ub
     end, Some fs).
Proof.
  intros Hz Hne. unfold mcs_split_parent_leaf. rewrite (bind_ok _ _ _ tt (Some fs)) by done.
  destruct path as [|c rest]; [done|]. assert (char_at (c :: rest) 0 = c) as -> by done. cbn [a_lookup].
  destruct (c =? SLASH); [|reflexivity]. cbn [negb]. rewrite (bind_ok _ _ _ tt (Some fs)) by done. unfold mcs_strlen.
  assert (drop 1 (c :: rest) = rest) as Ed by done. rewrite Ed in *. apply Forall_cons in Hz as [_ Hz].
  assert ((char_at (c :: rest) 1 =? 0) = false) as ->.
  { destruct rest as [|x r]; [done|]. apply Z.eqb_neq. apply Forall_cons in Hz as [Hx _]. done. }
  rewrite (bind_ok _ _ _ tt (Some fs)) by done.
  destruct (MCS_MAX_PATH <=? length (c :: rest))%nat; [reflexivity|]. rewrite (bind_ok _ _ _ tt (Some fs)) by done.
  cbn [split_loop]. rewrite length_seg, valid_len_guard.
  destruct rest as [|x r]; [done|]. set (rest := x :: r) in *.
  destruct (valid_len (length (seg_of rest))) eqn:Hv; [|reflexivity]. cbn [negb].
  rewrite (bind_ok _ _ _ tt (Some fs)) by done. pose proof (seg_split rest) as Es.
  destruct (seg_end rest) as [|y q].
  { rewrite app_nil_r in Es. rewrite <-Es. by destruct (find_file fl rest). }
  destruct get_node_root as (nd & Hg & Hr).
  rewrite (bind_ok _ _ _ _ _ Hg), (ro_id _ Hr). unfold bind at 1. rewrite (find_child_run rest Hv Hz).
  destruct (find_file fl (seg_of rest)) as [j|] eqn:Ef; [|reflexivity].
  unfold find_file in Ef. apply fmap_Some in Ef as ([j' a] & (Ha & _)%list_find_Some & ->).
  rewrite (bind_ok _ _ _ _ _ (get_node_file _ a Ha)). reflexivity.
Qed.

Lemma fresh_bytes : (length fl < 32)%nat → slice (256 * length fl) 256 (fs_data fs) = replicate 256 0.
Proof.
  intros Hl. pose proof (fr_data _ _ R) as Hd. change (Z.to_nat MCS_RAMFS_DATA_BYTES) with (32 * 256)%nat in Hd.
  apply (list_eq_same_length _ _ 256); [by rewrite length_replicate|rewrite length_slice; lia|].
  intros i x y Hi Hx Hy. rewrite lookup_slice, (fr_rest _ _ R) in Hx by lia. apply lookup_replicate in Hy as [-> _]. congruence.
Qed.

Lemma alloc_run name :
  valid_len (length name) = true → Forall (λ c, c ≠ 0) name → find_file fl name = None → (length fl < 32)%nat →
  ∃ fs', mcs_alloc_node 0 MCS_VNODE_FILE name (length name) 256 (Some fs) = (Ok (S (length fl)), Some fs') ∧
    fs_rep fs' (fl ++ [new_file name]).
Proof.
  intros Hv Hz Hf Hl. unfold mcs_alloc_node. rewrite (bind_ok _ _ _ tt (Some fs)) by done. rewrite valid_len_guard, Hv.
  do 2 (rewrite (bind_ok _ _ _ _ (Some fs)) by done). pose proof (valid_len_nz _ Hv) as Hn.
  rewrite (fr_count _ _ R), (fr_used _ _ R). rewrite (bind_ok _ _ _ tt (Some fs)).
  2:{ apply fail_if_false, Nat.leb_gt. unfold MCS_MAX_NODES. lia. }
  rewrite bool_decide_true by done. rewrite (wrap_small 64) by (unfold fits; lia). rewrite (bind_ok _ _ _ tt (Some fs)).
  2:{ apply fail_if_false, Z.ltb_ge. unfold MCS_RAMFS_DATA_BYTES. lia. }
  pose proof (fr_nodes _ _ R) as Hnd. unfold MCS_MAX_NODES in Hnd.
  destruct (lookup_lt_is_Some_2 (nodes fs) (S (length fl)) ltac:(lia)) as [old Hold].
  rewrite (bind_ok _ _ _ old (Some fs)) by (unfold get_node, bind, deref; by rewrite Hold).
  rewrite copy_name_pad by lia. rewrite (wrap_small 32) by (unfold fits; lia).
  eexists. split; [done|].
  constructor; cbn [nodes node_count fs_data data_used]; rewrite ?length_app; cbn [length].
  - by rewrite length_insert.
  - apply (fr_data _ _ R).
  - lia.
  - lia.
  - lia.
  - rewrite list_lookup_insert_ne by done. apply (fr_root _ _ R).
  - intros i a Ha. destruct (decide (i < length fl)%nat) as [Hi|Hi].
    + rewrite lookup_app_l in Ha by done. rewrite list_lookup_insert_ne by lia. by apply (fr_file _ _ R).
    + rewrite lookup_app_r in Ha by lia. apply list_lookup_singleton_Some in Ha as [Hi' <-].
      assert (i = length fl) as -> by lia. rewrite list_lookup_insert_eq by lia. split; [done|]. split; [|by apply fresh_bytes].
      constructor; cbn [new_file a_name a_size a_bytes]; done.
  - intros i Hi. apply (fr_rest _ _ R). lia.
  - rewrite fmap_app. apply NoDup_app. split; [apply (fr_names _ _ R)|]. split; [|apply NoDup_singleton].
    intros x Hx ->%list_elem_of_singleton. apply list_elem_of_fmap in Hx as (a & Hxa & Ha).
    unfold find_file in Hf. apply fmap_None, list_find_None in Hf. rewrite Forall_forall in Hf. by apply (Hf a Ha).
Qed.

Lemma alloc_full name :
  valid_len (length name) = true → length fl = 32%nat →
  mcs_alloc_node 0 MCS_VNODE_FILE name (length name) 256 (Some fs) = (Err MCS_ENOSPC, Some fs).
Proof.
  intros Hv Hl. unfold mcs_alloc_node. rewrite (bind_ok _ _ _ tt (Some fs)) by done. rewrite valid_len_guard, Hv.
  do 2 (rewrite (bind_ok _ _ _ _ (Some fs)) by done). by rewrite (fr_count _ _ R), (fr_used _ _ R), Hl.
Qed.

Lemma find_file_lt nm i : find_file fl nm = Some i → (i < length fl)%nat.
Proof.
  unfold find_file. intros ([j a] & (H & _)%list_find_Some & ->)%fmap_Some. by eapply lookup_lt_Some.
Qed.

Lemma lookup_lt path i : a_lookup fl path = Ok (Some i) → (i < length fl)%nat.
Proof.
  destruct path as [|c rest]; [done|]. cbn [a_lookup].
  destruct (negb (c =? SLASH)); [done|]. destruct (_ <=? _)%nat; [done|]. destruct rest as [|x r]; [done|].
  destruct (negb (valid_len _)); [done|]. destruct (find_file _ _) eqn:Ef; [|done].
  destruct (seg_end _); [|done]. intros [= ->]. by eapply find_file_lt.
Qed.

(** What a failed lookup says of the path. *)
Lemma lookup_enoent path :
  a_lookup fl path = Err MCS_ENOENT → seg_end (drop 1 path) = [] →
  valid_len (length (drop 1 path)) = true ∧ find_file fl (drop 1 path) = None.
Proof.
  destruct path as [|c rest]; [done|]. cbn [a_lookup]. assert (drop 1 (c :: rest) = rest) as -> by done.
  intros H He. pose proof (seg_split rest) as Es. rewrite He, app_nil_r in Es. rewrite <-Es in H.
  destruct (negb (c =? SLASH)); [done|]. destruct (_ <=? _)%nat; [done|]. destruct rest as [|x r]; [done|].
  destruct (valid_len _) eqn:Hv; [|done]. rewrite He in H. cbn [negb] in H. by destruct (find_file fl (x :: r)).
Qed.

Lemma create_run path :
  Forall (λ c, c ≠ 0) path →
  ∃ fs', mcs_ramfs_create_file path (Some fs) = (rmap S (a_create fl path).1, Some fs') ∧ fs_rep fs' (a_create fl path).2.
Proof.
  intros Hz. unfold mcs_ramfs_create_file, a_create. rewrite (bind_ok _ _ _ tt (Some fs)) by done.
  unfold bind at 1, on_error. unfold bind at 1. rewrite (lookup_run path Hz).
  destruct (a_lookup fl path) as [[i|]|rc|] eqn:El; cbn [rmap node_index ret fst snd].
  - pose proof (lookup_lt path i El) as Hi.
    destruct (lookup_lt_is_Some_2 fl i Hi) as [a Ha]. rewrite (bind_ok _ _ _ _ _ (get_node_file i a Ha)).
    exists fs. done.
  - destruct get_node_root as (nd & Hg & Hr). rewrite (bind_ok _ _ _ _ _ Hg), (ro_type _ Hr). exists fs. done.
  - destruct (decide (drop 1 path = [])) as [Hd|Hd].
    { exists fs. rewrite Hd. destruct path as [|c [|]]; [|..]; try done; cbn [a_lookup] in El.
      - injection El as <-. done.
      - destruct (c =? SLASH) eqn:Ec; [done|]. injection El as <-.
        unfold mcs_split_parent_leaf. assert (char_at [c] 0 = c) as -> by done. by rewrite Ec. }
    unfold bind at 1. rewrite (split_parent_run path Hz Hd), El.
    destruct (bool_decide (rc = MCS_ENOENT) && _) eqn:E; [|by exists fs].
    apply andb_true_iff in E as [->%bool_decide_eq_true He%bool_decide_eq_true].
    destruct (lookup_enoent path El He) as [Hv Hf]. destruct get_node_root as (nd & Hg & Hr).
    rewrite (bind_ok _ _ _ _ _ Hg), (ro_type _ Hr), (ro_id _ Hr). rewrite (bind_ok _ _ _ tt (Some fs)) by done.
    pose proof (fr_len _ _ R). destruct (Nat.leb_spec 32 (length fl)).
    + exists fs. by rewrite alloc_full by (done || lia).
    + by apply alloc_run; [|apply Forall_drop| |].
  - exfalso. destruct path as [|c rest]; [done|]. cbn [a_lookup] in El. destruct (negb (c =? SLASH)); [done|].
    destruct (_ <=? _)%nat; [done|]. destruct rest; [done|]. destruct (negb (valid_len _)); [done|].
    destruct (find_file _ _); [|done]. by destruct (seg_end _).
Qed.
End lookup.

Lemma create_grows fl path :
  (length fl <= length (a_create fl path).2)%nat ∧
  match (a_create fl path).1 with Ok i => is_Some ((a_create fl path).2 !! i) | _ => True end.
Proof.
  unfold a_create. destruct (a_lookup fl path) as [[i|]|rc|] eqn:E; cbn [fst snd]; try done.
  - split; [done|]. apply lookup_lt_is_Some_2. by eapply lookup_lt.
  - destruct (_ && _); [|done]. destruct (_ <=? _)%nat; [done|]. cbn [fst snd]. rewrite length_app. split; [lia|].
    apply lookup_lt_is_Some_2. rewrite length_app. simpl. lia.
Qed.

(** The file an open finds or creates. *)
Lemma target_run fs fl path flags :
  fs_rep fs fl → Forall (λ c, c ≠ 0) path →
  let '(r, fl') := a_target fl path flags in
  ∃ fs', on_error (mcs_ramfs_lookup path) (λ rc,
           if Z.land flags MCS_O_CREAT =? 0 then fail rc else mcs_ramfs_create_file path) (Some fs) =
      (rmap node_index r, Some fs') ∧ fs_rep fs' fl' ∧ (length fl <= length fl')%nat ∧
    match r with Ok (Some i) => is_Some (fl' !! i) | _ => True end.
Proof.
  intros R Hz. unfold a_target, on_error. rewrite (lookup_run fs fl R path Hz).
  destruct (a_lookup fl path) as [[i|]|rc|] eqn:E; cbn [rmap node_index].
  - exists fs. split_and!; try done. apply lookup_lt_is_Some_2. by eapply lookup_lt.
  - by exists fs.
  - destruct (Z.land flags MCS_O_CREAT =? 0); [by exists fs|].
    destruct (create_run fs fl R path Hz) as (fs' & Hrun & R'). destruct (create_grows fl path) as [Hl Hi].
    rewrite Hrun. destruct (a_create fl path) as [[i|rc'|] fl']; cbn [fst snd rmap] in *; by exists fs'.
  - by exists fs.
Qed.

(** ** Changing a file *)

Lemma alter_some {A} (f : A → A) (l : list A) i x : l !! i = Some x → alter f i l = <[i := f x]> l.
Proof.
  revert i. induction l as [|y l IH]; intros [|i] H; simpl in *; try done; [by injection H as ->|].
  f_equal. by apply IH.
Qed.

Lemma rep_update fs fl i a a' data' :
  fs_rep fs fl → fl !! i = Some a → a_name a' = a_name a → afile_ok a' →
  length data' = length (fs_data fs) → slice (256 * i) 256 data' = a_bytes a' →
  (∀ j, (j < 256 * i ∨ 256 * i + 256 <= j)%nat → data' !! j = fs_data fs !! j) →
  fs_rep (mk_ramfs (<[S i := node_of i a']> (nodes fs)) (node_count fs) data' (data_used fs)) (<[i := a']> fl).
Proof.
  intros R Ha Hn Hok Hl Hs Ho. pose proof (lookup_lt_Some _ _ _ Ha) as Hi. pose proof (fr_len _ _ R).
  constructor; cbn [nodes node_count fs_data data_used]; rewrite ?length_insert; try apply R.
  - rewrite Hl. apply R.
  - rewrite list_lookup_insert_ne by done. apply R.
  - intros j b Hb. destruct (decide (i = j)) as [<-|Hne].
    + rewrite list_lookup_insert_eq in Hb by done. injection Hb as <-. rewrite list_lookup_insert_eq; [done|].
      rewrite (fr_nodes _ _ R). unfold MCS_MAX_NODES. lia.
    + rewrite list_lookup_insert_ne in Hb by done. rewrite list_lookup_insert_ne by lia.
      destruct (fr_file _ _ R j b Hb) as (H1 & H2 & H3). split_and!; try done. rewrite <-H3.
      pose proof (fr_data _ _ R) as Hd. change (Z.to_nat MCS_RAMFS_DATA_BYTES) with (32 * 256)%nat in Hd.
      pose proof (lookup_lt_Some _ _ _ Hb). apply (list_eq_same_length _ _ 256); [rewrite length_slice; lia..|].
      intros k x y Hk Hx Hy. rewrite lookup_slice in Hx, Hy by done. rewrite Ho in Hx by lia. congruence.
  - intros j Hj. rewrite Ho by lia. by apply (fr_rest _ _ R).
  - rewrite list_fmap_insert, Hn, list_insert_id; [apply R|]. by rewrite list_lookup_fmap, Ha.
Qed.

Lemma resize_run fs fl i a n :
  fs_rep fs fl → fl !! i = Some a → 0 <= n <= 256 →
  ∃ fs', set_node_size (S i) n (Some fs) = (Ok tt, Some fs') ∧ fs_rep fs' (alter (resize n) i fl).
Proof.
  intros R Ha Hn. unfold set_node_size. rewrite (bind_ok _ _ _ _ _ (get_node_file fs fl R i a Ha)).
  eexists. split; [done|]. destruct (fr_file _ _ R i a Ha) as (_ & Hok & Hb). rewrite (alter_some _ _ _ _ Ha).
  apply (rep_update fs fl i a (resize n a) (fs_data fs)); try done. destruct Hok. by constructor.
Qed.

Lemma file_in_data fs fl i a : fs_rep fs fl → fl !! i = Some a → (256 * i + 256 <= length (fs_data fs))%nat.
Proof.
  intros R Ha. rewrite (fr_data _ _ R). change (Z.to_nat MCS_RAMFS_DATA_BYTES) with (32 * 256)%nat.
  pose proof (fr_len _ _ R). apply lookup_lt_Some in Ha. lia.
Qed.

Lemma copy_out_run fs fl i a off n :
  fs_rep fs fl → fl !! i = Some a → 0 <= off → 0 <= n → off + n <= 256 →
  mcs_copy_to_user (fs_data fs) (256 * Z.of_nat i + off) n = Ok (slice (Z.to_nat off) (Z.to_nat n) (a_bytes a)).
Proof.
  intros R Ha Ho Hn Hle. pose proof (file_in_data fs fl i a R Ha). unfold mcs_copy_to_user.
  rewrite (proj2 (Z.ltb_ge _ _)) by lia. destruct (fr_file _ _ R i a Ha) as (_ & _ & <-). f_equal.
  unfold slice. rewrite skipn_firstn_comm, firstn_firstn, drop_drop. f_equal; [lia|]. f_equal. lia.
Qed.

Definition patch (off : Z) (data : list Z) (a : afile) : afile :=
  mk_afile (a_name a) (a_size a) (splice (Z.to_nat off) data (a_bytes a)).

Lemma copy_in_run fs fl i a off buf n :
  fs_rep fs fl → fl !! i = Some a → 0 <= off → 0 <= n → off + n <= 256 → n <= Z.of_nat (length buf) →
  ∃ d, mcs_copy_bytes (fs_data fs) (256 * Z.of_nat i + off) buf n = Ok d ∧
    fs_rep (with_data fs d) (<[i := patch off (take (Z.to_nat n) buf) a]> fl).
Proof.
  intros R Ha Ho Hn Hle Hb. pose proof (file_in_data fs fl i a R Ha) as Hd. unfold mcs_copy_bytes.
  rewrite !(proj2 (Z.ltb_ge _ _)) by lia. cbn [orb]. eexists. split; [done|].
  destruct (fr_file _ _ R i a Ha) as (Hnode & Hok & Hs).
  set (src := take (Z.to_nat n) buf). assert (length src = Z.to_nat n) as Hsrc by (unfold src; rewrite length_take; lia).
  set (at_ := Z.to_nat (256 * Z.of_nat i + off)). assert (at_ = 256 * i + Z.to_nat off)%nat as Eat by lia.
  pose proof (rep_update fs fl i a (patch off src a) (splice at_ src (fs_data fs)) R Ha) as U.
  assert (<[S i := node_of i (patch off src a)]> (nodes fs) = nodes fs) as En by (by apply list_insert_id).
  rewrite En in U. apply U; try done.
  - destruct Hok. constructor; cbn [patch a_name a_size a_bytes]; try done. by rewrite length_splice.
  - by rewrite length_splice.
  - cbn [patch a_bytes]. rewrite Eat, <-Hs.
    apply (list_eq_same_length _ _ 256); [rewrite length_splice, length_slice; lia|rewrite length_slice; [done|rewrite length_splice; lia]|].
    intros k x y Hk Hx Hy. rewrite lookup_slice in Hx by done.
    destruct (decide (Z.to_nat off <= k < Z.to_nat off + length src)%nat) as [Hin|Hout].
    + replace (256 * i + k)%nat with (256 * i + Z.to_nat off + (k - Z.to_nat off))%nat in Hx by lia.
      rewrite lookup_splice_in in Hx by lia. replace k with (Z.to_nat off + (k - Z.to_nat off))%nat in Hy by lia.
      rewrite lookup_splice_in in Hy by (rewrite ?length_slice; lia). congruence.
    + rewrite lookup_splice_out in Hx by lia. rewrite lookup_splice_out in Hy by lia. rewrite lookup_slice in Hy by done. congruence.
  - intros j Hj. apply lookup_splice_out. lia.
Qed.

(** ** Descriptors *)

Definition file_of (d : adesc) : mcs_file :=
  mk_file true (d_flags d) (d_offset d) (Some (node_index (d_target d))) true.

Lemma desc_mono n n' f d : (n <= n')%nat → desc_rep n f d → desc_rep n' f d.
Proof. intros Hn. destruct d as [d|]; [|done]. intros (? & ? & H). split; [done|]. split; [done|]. revert H. destruct (d_target d); [lia|done]. Qed.

Definition with_fs (v : mcs_process) (fs : mcs_ramfs) : mcs_process := mk_process (pid v) (files v) (Some fs).

Lemma on_fs_run {A} (m : M mcs_ramfs A) v fs r fs' :
  ramfs v = Some fs → m (Some fs) = (r, Some fs') → on_fs m (Some v) = (r, Some (with_fs v fs')).
Proof. intros Hv Hm. unfold on_fs. by rewrite Hv, Hm. Qed.

Lemma with_fs_id v fs : ramfs v = Some fs → with_fs v fs = v.
Proof. destruct v as [p f r]. simpl. by intros ->. Qed.

Lemma rep_fs v s fs' fl' :
  proc_rep v s → fs_rep fs' fl' → (length (a_files s) <= length fl')%nat →
  proc_rep (with_fs v fs') (mk_aproc fl' (a_fds s)).
Proof.
  intros (fs & Hfs & Hr & Hl & Hd) Hr' Hlen. exists fs'. split_and!; try done.
  eapply Forall2_impl; [exact Hd|]. intros f d. by apply desc_mono.
Qed.

Definition with_file (v : mcs_process) (i : nat) (f : mcs_file) : mcs_process := with_files v (<[i := f]> (files v)).

Lemma set_file_run v i f : set_file i f (Some v) = (Ok tt, Some (with_file v i f)).
Proof. done. Qed.

Lemma with_file_twice v i f g : with_file (with_file v i f) i g = with_file v i g.
Proof. unfold with_file, with_files. simpl. by rewrite list_insert_insert_eq. Qed.

Lemma rep_file v s i f d :
  proc_rep v s → desc_rep (length (a_files s)) f d → proc_rep (with_file v i f) (set_fd s i d).
Proof.
  intros (fs & Hfs & Hr & Hl & Hd) Hf. exists fs. cbn [with_file with_files set_fd ramfs files a_files a_fds].
  rewrite length_insert. split_and!; try done. by apply Forall2_insert.
Qed.

Section descriptors.
Context (v : mcs_process) (s : aproc) (R : proc_rep v s).

Lemma fd_run fd :
  fd_or_ebadf fd (Some v) =
    (match a_fd s fd with Some (i, d) => Ok (i, file_of d) | None => Err MCS_EBADF end, Some v).
Proof.
  destruct R as (fs & _ & _ & Hl & Hd). unfold fd_or_ebadf, mcs_fd_get, a_fd, bind.
  change (Z.of_nat MCS_MAX_OPEN_FILES) with 16. destruct ((fd <? 0) || (16 <=? fd)) eqn:E; [done|].
  apply orb_false_iff in E as [E1%Z.ltb_ge E2%Z.leb_gt].
  destruct (lookup_lt_is_Some_2 (files v) (Z.to_nat fd)) as [f Hf]; [rewrite Hl; unfold MCS_MAX_OPEN_FILES; lia|].
  destruct (Forall2_lookup_l _ _ _ _ _ Hd Hf) as (d & Hd' & Hrep). rewrite Hf, Hd'. cbn [mjoin option_join].
  destruct d as [d|]; cbn [desc_rep] in Hrep.
  - destruct Hrep as (-> & _). done.
  - rewrite Hrep. done.
Qed.

Lemma fd_facts fd i d :
  a_fd s fd = Some (i, d) → 0 <= d_offset d < 2 ^ 63 ∧ match d_target d with Some t => is_Some (a_files s !! t) | None => True end.
Proof.
  destruct R as (fs & _ & _ & Hl & Hd). unfold a_fd. destruct (_ || _); [done|].
  destruct (a_fds s !! Z.to_nat fd) as [[d'|]|] eqn:E; try done. intros [= _ <-].
  destruct (Forall2_lookup_r _ _ _ _ _ Hd E) as (f & _ & (_ & ? & Ht)). split; [done|].
  destruct (d_target d'); [|done]. by apply lookup_lt_is_Some_2.
Qed.

Lemma alloc_fd_loop_run k i :
  (i + k = 16)%nat →
  (list_find (λ d, d = None) (drop i (a_fds s)) = None ∧ alloc_fd_loop i k (Some v) = (Err MCS_ENFILE, Some v)) ∨
  ∃ j f, fst <$> list_find (λ d, d = None) (drop i (a_fds s)) = Some j ∧
    alloc_fd_loop i k (Some v) = (Ok (i + j)%nat, Some (with_file v (i + j) f)).
Proof.
  destruct R as (fs & _ & _ & Hl & Hd). unfold MCS_MAX_OPEN_FILES in Hl. pose proof (Forall2_length _ _ _ Hd) as Hl2.
  revert i. induction k as [|k IH]; intros i Hi.
  { left. rewrite drop_ge by lia. done. }
  destruct (lookup_lt_is_Some_2 (files v) i ltac:(lia)) as [f Hf].
  destruct (Forall2_lookup_l _ _ _ _ _ Hd Hf) as (d & Hd' & Hrep). cbn [alloc_fd_loop].
  rewrite (bind_ok _ _ _ v (Some v)) by done. rewrite Hf, (drop_S _ _ _ Hd'). cbn [list_find].
  destruct d as [d|]; cbn [desc_rep] in Hrep.
  - destruct Hrep as (-> & _). cbn [f_used]. rewrite decide_False by done.
    destruct (IH (S i) ltac:(lia)) as [[E Hr]|(j & g & E & Hr)]; rewrite Hr.
    + left. by rewrite E.
    + right. exists (S j), g. apply fmap_Some in E as ([j' x] & -> & ->). simpl.
      by replace (i + S j')%nat with (S (i + j')) by lia.
  - rewrite Hrep. right. eexists 0%nat, _. rewrite decide_True by done. simpl. rewrite Nat.add_0_r. done.
Qed.

Lemma alloc_fd_run :
  (free_fd (a_fds s) = None ∧ mcs_fd_alloc (Some v) = (Err MCS_ENFILE, Some v)) ∨
  ∃ i f, free_fd (a_fds s) = Some i ∧ mcs_fd_alloc (Some v) = (Ok i, Some (with_file v i f)).
Proof.
  unfold mcs_fd_alloc, free_fd. rewrite (bind_ok _ _ _ tt (Some v)) by done.
  destruct (alloc_fd_loop_run 16 0 eq_refl) as [[E Hr]|(j & f & E & Hr)]; rewrite drop_0 in E; change MCS_MAX_OPEN_FILES with 16%nat; rewrite Hr.
  - left. by rewrite E.
  - right. by exists j, f.
Qed.

Lemma node_run t :
  match t with Some i => is_Some (a_files s !! i) | None => True end →
  ∃ nd, on_fs (get_node (node_index t)) (Some v) = (Ok nd, Some v) ∧
    match t ≫= λ i, pair i <$> a_files s !! i with
    | Some (i, a) => t = Some i ∧ nd = node_of i a ∧ a_files s !! i = Some a ∧ afile_ok a
    | None => t = None ∧ n_type nd = MCS_VNODE_DIR ∧ n_size nd = 0
    end.
Proof.
  destruct R as (fs & Hfs & Hr & _). intros Ht. destruct t as [i|]; cbn [node_index mbind option_bind].
  - destruct Ht as [a Ha]. rewrite Ha. cbn [fmap option_fmap option_map]. exists (node_of i a). split.
    + rewrite (on_fs_run _ _ _ _ _ Hfs (get_node_file fs _ Hr i a Ha)). by rewrite with_fs_id.
    + split_and!; try done. by destruct (fr_file _ _ Hr i a Ha) as (_ & ? & _).
  - destruct (get_node_root fs _ Hr) as (nd & Hg & [? ? ? ?]). exists nd. split; [|done].
    rewrite (on_fs_run _ _ _ _ _ Hfs Hg). by rewrite with_fs_id.
Qed.

Lemma file_node_run fd i d :
  a_fd s fd = Some (i, d) →
  file_node (file_of d) (Some v) =
    (match d_target d ≫= λ t, pair t <$> a_files s !! t with
     | Some (t, a) => Ok (S t, node_of t a)
     | None => Err MCS_EISDIR
     end, Some v).
Proof.
  intros Hfd. destruct (fd_facts fd i d Hfd) as [_ Ht]. unfold file_node, file_of. cbn [f_node f_fs].
  destruct (node_run (d_target d) Ht) as (nd & Hn & Hnd). rewrite (bind_ok _ _ _ _ _ Hn).
  destruct (d_target d ≫= _) as [[t a]|].
  - destruct Hnd as (-> & -> & _). done.
  - destruct Hnd as (_ & -> & _). done.
Qed.

Lemma set_fd_rep i d d' :
  0 <= d_offset d' < 2 ^ 63 → d_target d' = d_target d →
  match d_target d with Some t => is_Some (a_files s !! t) | None => True end →
  proc_rep (with_file v i (file_of d')) (set_fd s i (Some d')).
Proof.
  intros Ho Et Ht. apply rep_file; [done|]. split; [done|]. split; [done|]. rewrite Et.
  destruct (d_target d); [by apply lookup_lt_is_Some_1|done].
Qed.
End descriptors.

(** ** Calls *)

(** A call behaves as its specification. *)
Definition sim {A} (m : M mcs_process A) (v : mcs_process) (spec : res A * aproc) : Prop :=
  ∃ v', m (Some v) = (spec.1, Some v') ∧ proc_rep v' spec.2.

Lemma target_lookup s d :
  (d_target d ≫= λ t, a_files s !! t) = snd <$> (d_target d ≫= λ t, pair t <$> a_files s !! t).
Proof. destruct (d_target d) as [t|]; [|done]. cbn [mbind option_bind]. by destruct (a_files s !! t). Qed.

Lemma target_some s d t a :
  (d_target d ≫= λ t, pair t <$> a_files s !! t) = Some (t, a) → d_target d = Some t ∧ a_files s !! t = Some a.
Proof.
  destruct (d_target d) as [t'|]; [|done]. cbn [mbind option_bind]. destruct (a_files s !! t') eqn:E; [|done].
  intros [= -> ->]. done.
Qed.

Section calls.
Context (v : mcs_process) (s : aproc) (R : proc_rep v s).

Lemma read_sim fd buf_null len : fits 64 len → sim (mcs_sys_read fd buf_null len) v (a_read fd buf_null len s).
Proof.
  intros Hlen. unfold sim, mcs_sys_read, mcs_vfs_read, a_read. rewrite (bind_ok _ _ _ tt (Some v)) by done.
  destruct (buf_null && negb (len =? 0)); [by exists v|]. do 2 (rewrite (bind_ok _ _ _ tt (Some v)) by done).
  unfold bind at 1. rewrite (fd_run v s R). destruct (a_fd s fd) as [[i d]|] eqn:Hfd; [|by exists v].
  cbn [file_of f_flags]. destruct (negb (mcs_can_read (d_flags d))); [by exists v|].
  rewrite (bind_ok _ _ _ tt (Some v)) by done. unfold bind at 1. rewrite (file_node_run v s R fd i d Hfd), target_lookup.
  destruct (d_target d ≫= _) as [[t a]|] eqn:Et; [|by exists v]. apply target_some in Et as [Et Ha].
  cbn [fmap option_fmap option_map snd node_of n_size n_data_offset f_offset file_of].
  destruct (Z.leb_spec (a_size a) (d_offset d)); [by exists v|].
  destruct (fd_facts v s R fd i d Hfd) as [Ho Ht]. pose proof R as (fs & Hfs & Hr & _).
  destruct (fr_file _ _ Hr t a Ha) as (_ & Hok & _). pose proof (ao_size _ Hok). pose proof (lookup_lt_Some _ _ _ Ha).
  pose proof (fr_len _ _ Hr). assert (mcs_min_size len (a_size a - d_offset d) = Z.min len (a_size a - d_offset d)) as ->.
  { unfold mcs_min_size. destruct (Z.ltb_spec len (a_size a - d_offset d)); lia. }
  unfold fits in Hlen. set (n := Z.min _ _). rewrite !(wrap_small 64) by (unfold fits; lia).
  rewrite (bind_ok _ _ _ (slice (Z.to_nat (d_offset d)) (Z.to_nat n) (a_bytes a)) (Some v)).
  2:{ rewrite (on_fs_run _ v fs (Ok (slice (Z.to_nat (d_offset d)) (Z.to_nat n) (a_bytes a))) fs Hfs); [by rewrite with_fs_id|].
      rewrite (bind_ok _ _ _ fs (Some fs)) by done. unfold lift. by rewrite (copy_out_run fs _ t a) by (done || lia). }
  eexists. split; [reflexivity|]. cbn [snd]. apply (set_fd_rep v s R i d (move d (d_offset d + n))); try done.
  cbn [move d_offset]. lia.
Qed.

Lemma lseek_sim fd offset whence : sim (mcs_sys_lseek fd offset whence) v (a_lseek fd offset whence s).
Proof.
  unfold sim, mcs_sys_lseek, mcs_vfs_lseek, a_lseek. rewrite (bind_ok _ _ _ tt (Some v)) by done.
  unfold bind at 1. rewrite (fd_run v s R). destruct (a_fd s fd) as [[i d]|] eqn:Hfd; [|by exists v].
  cbn [file_of f_node f_offset]. destruct (fd_facts v s R fd i d Hfd) as [Ho Ht].
  destruct (node_run v s R (d_target d) Ht) as (nd & Hn & Hnd). rewrite (bind_ok _ _ _ _ _ Hn), target_lookup.
  destruct (d_target d ≫= _) as [[t a]|] eqn:Et.
  2:{ destruct Hnd as (_ & -> & _). by exists v. }
  destruct Hnd as (_ & -> & Ha & Hok). pose proof (ao_size _ Hok). cbn [node_of n_type fmap option_fmap option_map snd n_size].
  rewrite (bind_ok _ _ _ tt (Some v)) by done.
  assert (∀ x, 0 <= x < 2 ^ 63 → to_signed 64 x = x) as Hts by (intros x Hx; unfold to_signed; rewrite (proj2 (Z.ltb_lt _ _)); [done|lia]).
  rewrite !Hts by lia.
  destruct (negb ((0 <=? whence) && (whence <=? 2))) eqn:Ew.
  { exists v. split; [|done]. unfold MCS_SEEK_SET, MCS_SEEK_CUR, MCS_SEEK_END.
    rewrite !(proj2 (Z.eqb_neq whence _)) by (intros ->; done). done. }
  set (base := if whence =? MCS_SEEK_SET then 0 else _).
  rewrite (bind_ok _ _ _ base (Some v)).
  2:{ unfold base. destruct (whence =? MCS_SEEK_SET) eqn:E0; [done|]. destruct (whence =? MCS_SEEK_CUR) eqn:E1; [done|].
      apply negb_false_iff, andb_true_iff in Ew as [?%Z.leb_le ?%Z.leb_le]. apply Z.eqb_neq in E0, E1.
      destruct (Z.eqb_spec whence MCS_SEEK_END); [done|]. unfold MCS_SEEK_SET, MCS_SEEK_CUR, MCS_SEEK_END in *. lia. }
  unfold bind at 1, lift. destruct (long_add base offset) as [next|rc|] eqn:El; [|by exists v|by exists v].
  destruct (Z.ltb_spec next 0); [by exists v|]. rewrite (bind_ok _ _ _ tt (Some v)) by done.
  assert (next < 2 ^ 63) as Hnext.
  { unfold long_add in El. destruct (_ || _) eqn:E; [done|]. injection El as <-. apply orb_false_iff in E as [_ E%Z.leb_gt]. done. }
  rewrite (wrap_small 64) by (unfold fits; lia).
  eexists. split; [reflexivity|]. apply (set_fd_rep v s R i d (move d next)); done.
Qed.

Lemma close_sim fd : sim (mcs_sys_close fd) v (a_close fd s).
Proof.
  unfold sim, mcs_sys_close, mcs_vfs_close, a_close. rewrite (bind_ok _ _ _ tt (Some v)) by done.
  unfold bind at 1. rewrite (fd_run v s R). destruct (a_fd s fd) as [[i d]|] eqn:Hfd; [|by exists v].
  eexists. split; [done|]. by apply rep_file.
Qed.

Lemma dup_sim fd : sim (mcs_vfs_dup fd) v (a_dup fd s).
Proof.
  unfold sim, mcs_vfs_dup, a_dup. unfold bind at 1. rewrite (fd_run v s R).
  destruct (a_fd s fd) as [[i d]|] eqn:Hfd; [|by exists v]. destruct (fd_facts v s R fd i d Hfd) as [Ho Ht].
  unfold bind at 1. destruct (alloc_fd_run v s R) as [[-> ->]|(j & f & -> & ->)]; [by exists v|].
  eexists. split; [unfold bind; rewrite set_file_run; reflexivity|]. rewrite with_file_twice. by apply (set_fd_rep v s R j d d).
Qed.

Lemma write_sim fd buf len :
  fits 64 len → match buf with Some b => len <= Z.of_nat (length b) | None => True end →
  sim (mcs_sys_write fd buf len) v (a_write fd buf len s).
Proof.
  intros Hlen Hbuf. unfold sim, mcs_sys_write, mcs_vfs_write, a_write. rewrite (bind_ok _ _ _ tt (Some v)) by done.
  destruct (bool_decide (buf = None) && negb (len =? 0)) eqn:Hb; [by exists v|].
  do 2 (rewrite (bind_ok _ _ _ tt (Some v)) by done).
  unfold bind at 1. rewrite (fd_run v s R). destruct (a_fd s fd) as [[i d]|] eqn:Hfd; [|by exists v].
  cbn [file_of f_flags]. destruct (negb (mcs_can_write (d_flags d))); [by exists v|].
  rewrite (bind_ok _ _ _ tt (Some v)) by done. unfold bind at 1. rewrite (file_node_run v s R fd i d Hfd).
  destruct (d_target d ≫= _) as [[t a]|] eqn:Et; [|by exists v]. apply target_some in Et as [Et Ha].
  destruct (fd_facts v s R fd i d Hfd) as [Ho Ht]. pose proof R as (fs & Hfs & Hr & _).
  destruct (fr_file _ _ Hr t a Ha) as (_ & Hok & _). pose proof (ao_size _ Hok) as Hsz.
  cbn [node_of n_size n_data_offset n_data_capacity].
  set (off := if negb (Z.land (d_flags d) MCS_O_APPEND =? 0) then a_size a else d_offset d).
  assert ((if negb (Z.land (d_flags d) MCS_O_APPEND =? 0) then with_offset (file_of d) (a_size a) else file_of d) =
    file_of (move d off)) as -> by (unfold off; by destruct (Z.land (d_flags d) MCS_O_APPEND =? 0)).
  assert (0 <= off < 2 ^ 63) as Hoff by (unfold off; destruct (Z.land (d_flags d) MCS_O_APPEND =? 0); simpl; lia). cbn [file_of f_offset move d_offset].
  rewrite (bind_ok _ _ _ _ _ (set_file_run v i _)). set (v1 := with_file v i _).
  assert (proc_rep v1 (set_fd s i (Some (move d off)))) as R1 by (by apply (set_fd_rep v s R i d (move d off))).
  destruct (Z.ltb_spec 256 off); [by exists v1|]. rewrite (bind_ok _ _ _ tt (Some v1)) by done.
  unfold fits in Hlen. assert ((mcs_min_size len (256 - off) <? len) = (256 <? off + len)) as ->.
  { unfold mcs_min_size. destruct (Z.ltb_spec len (256 - off)), (Z.ltb_spec 256 (off + len)); lia. }
  destruct (Z.ltb_spec 256 (off + len)); [by exists v1|]. rewrite (bind_ok _ _ _ tt (Some v1)) by done.
  assert (mcs_min_size len (256 - off) = len) as -> by (unfold mcs_min_size; destruct (Z.ltb_spec len (256 - off)); lia).
  assert (len <= Z.of_nat (length (default [] buf))) as Hbl.
  { destruct buf; [done|]. simpl in *. apply negb_false_iff, Z.eqb_eq in Hb. lia. }
  pose proof (lookup_lt_Some _ _ _ Ha). pose proof (fr_len _ _ Hr).
  rewrite !(wrap_small 64) by (unfold fits; lia).
  destruct (copy_in_run fs _ t a off (default [] buf) len Hr Ha) as (data & Hcopy & R2); [lia..|].
  set (src := take (Z.to_nat len) (default [] buf)) in *.
  assert (length src = Z.to_nat len) as Hsrc by (unfold src; rewrite length_take; lia).
  rewrite (bind_ok _ _ _ tt (Some (with_fs v1 (with_data fs data)))).
  2:{ apply (on_fs_run _ v1 fs); [done|]. rewrite (bind_ok _ _ _ fs (Some fs)) by done. unfold lift. by rewrite Hcopy. }
  pose proof (rep_fs _ _ _ _ R1 R2) as R3. rewrite length_insert in R3. specialize (R3 ltac:(done)).
  set (v3 := with_fs v1 _) in *. set (s3 := mk_aproc _ _) in *.
  rewrite (bind_ok _ _ _ _ _ (set_file_run v3 i _)).
  assert (proc_rep (with_file v3 i (file_of (move d (off + len)))) (set_fd s3 i (Some (move d (off + len))))) as R4.
  { apply (set_fd_rep v3 s3 R3 i (move d (off + len))); [simpl; lia|done|]. cbn [move d_target]. rewrite Et.
    cbn [s3 a_files]. apply lookup_lt_is_Some_2. by rewrite length_insert. }
  change (with_offset _ _) with (file_of (move d (off + len))). set (v4 := with_file v3 i _) in *.
  unfold s3, set_fd in R4. cbn [a_files a_fds] in R4. rewrite list_insert_insert_eq in R4. rewrite (alter_some _ _ _ _ Ha).
  assert (overwrite off src a = resize (Z.max (a_size a) (off + len)) (patch off src a)) as Eo.
  { unfold overwrite, resize, patch. cbn [a_name a_bytes]. do 2 f_equal. lia. }
  destruct (Z.ltb_spec (a_size a) (off + len)).
  - destruct (resize_run _ _ t (patch off src a) (off + len) R2) as (fs5 & Hrun & R5); [by apply list_lookup_insert_eq|lia|].
    rewrite (bind_ok _ _ _ tt (Some (with_fs v4 fs5))) by (by apply (on_fs_run _ v4 (with_data fs data))).
    eexists. split; [reflexivity|]. pose proof (rep_fs _ _ _ _ R4 R5) as R6. cbn [a_files a_fds] in R6.
    rewrite length_alter in R6. specialize (R6 ltac:(done)).
    rewrite (alter_some _ _ t (patch off src a)) in R6 by (by apply list_lookup_insert_eq).
    rewrite list_insert_insert_eq in R6. cbn [snd set_fd a_files a_fds]. rewrite Eo, Z.max_r by lia. exact R6.
  - rewrite (bind_ok _ _ _ tt (Some v4)) by done. eexists. split; [reflexivity|].
    cbn [snd set_fd a_files a_fds]. rewrite Eo, Z.max_l by lia. exact R4.
Qed.

Lemma open_sim path flags : Forall (λ c, c ≠ 0) path → sim (mcs_sys_open (Some path) flags) v (a_open path flags s).
Proof.
  intros Hz. pose proof R as (fs & Hfs & Hr & _). unfold sim, mcs_sys_open, mcs_vfs_open, a_open.
  do 2 (rewrite (bind_ok _ _ _ _ (Some v)) by done). rewrite Hfs. rewrite (bind_ok _ _ _ tt (Some v)) by done.
  do 2 (rewrite (bind_ok _ _ _ _ (Some v)) by done). rewrite Hfs.
  change (Z.lor MCS_O_RDONLY (Z.lor MCS_O_WRONLY MCS_O_RDWR)) with 7. fold (open_flags flags).
  set (fl := open_flags flags). pose proof (target_run fs _ path fl Hr Hz) as T.
  destruct (a_target (a_files s) path fl) as [r fs_l]. destruct T as (fs1 & Hrun & R1 & Hlen & Ht).
  unfold bind at 1. rewrite (on_fs_run _ v fs _ fs1 Hfs Hrun). pose proof (rep_fs v s fs1 fs_l R R1 Hlen) as Rv.
  set (v1 := with_fs v fs1) in *. destruct r as [t|rc|]; cbn [rmap]; [|by exists v1|by exists v1].
  set (s1 := mk_aproc fs_l (a_fds s)) in *.
  assert (match t with Some i => is_Some (a_files s1 !! i) | None => True end) as Ht' by (by destruct t).
  destruct (node_run v1 s1 Rv t Ht') as (nd & Hn & Hnd). rewrite (bind_ok _ _ _ _ _ Hn).
  assert (bool_decide (n_type nd = MCS_VNODE_DIR) = bool_decide (t = None) ∧ n_size nd = size_of fs_l t ∧
    (∀ i, t = Some i → is_Some (fs_l !! i)) ∧ 0 <= size_of fs_l t <= 256) as (-> & -> & Hti & Hsz).
  { destruct t as [i|].
    - destruct Ht' as [a Ha]. cbn [mbind option_bind s1 a_files] in Hnd, Ha. rewrite Ha in Hnd.
      destruct Hnd as (_ & -> & _ & Hok). unfold size_of. rewrite Ha. split_and!; try done; try apply Hok. by intros ? [= <-].
    - destruct Hnd as (_ & -> & ->). done. }
  destruct (bool_decide (t = None) && mcs_can_write fl) eqn:Hdir; [by exists v1|].
  rewrite (bind_ok _ _ _ tt (Some v1)) by done. unfold bind at 1.
  destruct (alloc_fd_run v1 s1 Rv) as [[-> ->]|(fd & f & Hfree & ->)]; [by exists v1|]. rewrite Hfree.
  rewrite (bind_ok _ _ _ _ _ (set_file_run _ fd _)), with_file_twice.
  set (off := if negb (Z.land fl MCS_O_APPEND =? 0) then size_of fs_l t else 0).
  assert (0 <= off <= 256) as Hoff by (unfold off; destruct (Z.land fl MCS_O_APPEND =? 0); simpl; lia).
  assert (∀ o, 0 <= o <= 256 → proc_rep (with_file v1 fd (file_of (mk_adesc fl o t))) (set_fd s1 fd (Some (mk_adesc fl o t)))) as Rd.
  { intros o Hob. apply (set_fd_rep v1 s1 Rv fd (mk_adesc fl o t)); [simpl; lia|done|]. by destruct t. }
  destruct (negb (Z.land fl MCS_O_TRUNC =? 0)).
  2:{ eexists. split; [reflexivity|]. by apply Rd. }
  destruct (mcs_can_write fl) eqn:Hw; cbn [negb].
  - destruct t as [i|]; [|done]. destruct (Hti i eq_refl) as [a Ha].
    destruct (resize_run fs1 fs_l i a 0 R1 Ha ltac:(lia)) as (fs2 & Hres & R2).
    set (v2 := with_file v1 fd _). unfold bind at 1. unfold bind at 1.
    change (node_index (Some i)) with (S i). rewrite (on_fs_run _ v2 fs1 _ fs2 eq_refl Hres), set_file_run.
    eexists. split; [reflexivity|]. pose proof (rep_fs _ _ fs2 _ (Rd 0 ltac:(lia)) R2) as R3.
    unfold s1, set_fd in R3. cbn [a_files a_fds] in R3. rewrite length_alter in R3. specialize (R3 ltac:(done)).
    replace (with_file (with_fs v2 fs2) fd _) with (with_fs (with_file v1 fd (file_of (mk_adesc fl 0 (Some i)))) fs2); [exact R3|].
    unfold v2, with_file, with_files, with_fs. cbn [pid files ramfs]. by rewrite list_insert_insert_eq.
  - unfold bind at 1. unfold bind at 1. rewrite set_file_run. eexists. split; [reflexivity|]. rewrite with_file_twice. cbn [snd].
    assert (set_fd s1 fd None = s1) as <-; [|by apply rep_file].
    unfold set_fd. unfold free_fd in Hfree. apply fmap_Some in Hfree as ([j d] & (Hd & -> & _)%list_find_Some & ->).
    cbn [s1 a_files a_fds] in *. by rewrite list_insert_id.
Qed.
End calls.

Lemma op_sim v s o : proc_rep v s → vop_ok o → sim (vfs_op o) v (a_op o s).
Proof.
  intros R Ho. assert (∀ A (m : M mcs_process A) (f : A → Z + list Z) spec, sim m v spec → sim (mmap f m) v (amap f spec)) as Hm.
  { intros A m f [r s'] (v' & Hrun & R'). exists v'. unfold mmap, amap. rewrite Hrun. done. }
  destruct o; cbn [vfs_op a_op]; apply Hm.
  - by apply open_sim.
  - by apply read_sim.
  - destruct Ho. by apply write_sim.
  - by apply lseek_sim.
  - by apply close_sim.
  - by apply dup_sim.
Qed.

(** ** Runs *)

(** A run ends where the behaviour is undefined. *)
Fixpoint vfs_run (l : list vop) (p : ptr mcs_process) : list (res (Z + list Z)) * ptr mcs_process :=
  match l with
  | [] => ([], p)
  | o :: l =>
      match vfs_op o p with
      | (Ub, p') => ([Ub], p')
      | (r, p') => let '(rs, q) := vfs_run l p' in (r :: rs, q)
      end
  end.

Fixpoint a_run (l : list vop) (s : aproc) : list (res (Z + list Z)) * aproc :=
  match l with
  | [] => ([], s)
  | o :: l =>
      match a_op o s with
      | (Ub, s') => ([Ub], s')
      | (r, s') => let '(rs, q) := a_run l s' in (r :: rs, q)
      end
  end.

Lemma run_sim l v s :
  proc_rep v s → Forall vop_ok l →
  ∃ v', vfs_run l (Some v) = ((a_run l s).1, Some v') ∧ proc_rep v' (a_run l s).2.
Proof.
  intros R Hl. revert v s R. induction Hl as [|o l Ho _ IH]; intros v s R; cbn [vfs_run a_run]; [by exists v|].
  destruct (op_sim v s o R Ho) as (v1 & Hrun & R1). rewrite Hrun. destruct (a_op o s) as [r s1]. cbn [fst snd] in *.
  destruct (IH v1 s1 R1) as (v2 & -> & R2). destruct (a_run l s1) as [rs s2]. cbn [fst snd] in *.
  destruct r; eexists; (split; [reflexivity|done]).
Qed.

(** The objects before initialisation: arrays of the declared sizes. *)
Record proc_raw (v : mcs_process) (fs : mcs_ramfs) : Prop := {
  raw_fs : ramfs v = Some fs;
  raw_nodes : length (nodes fs) = MCS_MAX_NODES;
  raw_names : Forall (λ n, length (n_name n) = MCS_MAX_NAME) (nodes fs);
  raw_data : length (fs_data fs) = Z.to_nat MCS_RAMFS_DATA_BYTES;
  raw_files : length (files v) = MCS_MAX_OPEN_FILES
}.

Definition vfs_init : M mcs_process unit := on_fs mcs_ramfs_init ;; mcs_fd_table_init.
Definition empty_proc : aproc := mk_aproc [] (replicate 16 None).

Lemma init_rep v fs : proc_raw v fs → ∃ v', vfs_init (Some v) = (Ok tt, Some v') ∧ proc_rep v' empty_proc.
Proof.
  intros [Hfs Hn Hnm Hd Hf]. unfold vfs_init. eexists. split.
  { unfold bind. rewrite (on_fs_run mcs_ramfs_init v fs (Ok tt) _ Hfs eq_refl). reflexivity. }
  eexists. split; [reflexivity|]. split; [|split].
  - constructor; cbn [nodes node_count fs_data data_used empty_proc a_files length]; try done.
    + by rewrite length_alter, length_fmap.
    + by rewrite length_fmap.
    + lia.
    + unfold MCS_MAX_NODES in Hn. destruct (nodes fs) as [|n l] eqn:E; [done|]. cbn [fmap list_fmap alter list_alter].
      eexists. split; [done|]. apply Forall_cons in Hnm as [Hl _]. destruct (n_name n) as [|x [|y nm]] eqn:En; try done.
      constructor; cbn [root_node reset_node n_id n_type n_name n_size]; try done. by rewrite En.
    + intros i Hi. rewrite list_lookup_fmap. change (Z.to_nat MCS_RAMFS_DATA_BYTES) with (32 * 256)%nat in Hd.
      destruct (lookup_lt_is_Some_2 (fs_data fs) i ltac:(lia)) as [x ->]. done.
    + constructor.
  - cbn [files with_files with_fs]. by rewrite length_fmap.
  - cbn [files with_fs empty_proc a_fds a_files]. apply Forall2_same_length_lookup_2.
    { by rewrite length_fmap, length_replicate. }
    intros i x y Hx [-> _]%lookup_replicate. apply list_lookup_fmap_Some in Hx as (? & -> & _). done.
Qed.

(** ** Finding a file again *)

Lemma find_file_names fl nm : find_file fl nm = fst <$> list_find (λ x, x = nm) (a_name <$> fl).
Proof. unfold find_file. rewrite list_find_fmap, <-option_fmap_compose. by destruct (list_find _ fl) as [[]|]. Qed.

Lemma lookup_names fl fl' path : a_name <$> fl = a_name <$> fl' → a_lookup fl path = a_lookup fl' path.
Proof.
  intros E. destruct path as [|c rest]; [done|]. cbn [a_lookup]. by rewrite !find_file_names, E.
Qed.

Lemma lookup_created fl path :
  a_lookup fl path = Err MCS_ENOENT → seg_end (drop 1 path) = [] →
  a_lookup (fl ++ [new_file (drop 1 path)]) path = Ok (Some (length fl)).
Proof.
  intros E He. destruct (lookup_enoent fl path E He) as [_ Hf]. destruct path as [|c rest]; [done|].
  assert (drop 1 (c :: rest) = rest) as Ed by done. rewrite Ed in *. pose proof (seg_split rest) as Es.
  rewrite He, app_nil_r in Es. cbn [a_lookup] in *. rewrite He, <-Es in *.
  destruct (negb (c =? SLASH)); [done|]. destruct (_ <=? _)%nat; [done|]. destruct rest as [|x r]; [done|].
  destruct (negb (valid_len _)); [done|]. unfold find_file in *. apply fmap_None in Hf.
  rewrite list_find_app_r by done. cbn [list_find new_file a_name]. rewrite decide_True by done. done.
Qed.

Lemma target_lookup_again fl path flags t fl' : a_target fl path flags = (Ok t, fl') → a_lookup fl' path = Ok t.
Proof.
  unfold a_target. destruct (a_lookup fl path) as [t0|rc|] eqn:E; [by intros [= <- <-]| |done].
  destruct (_ =? 0); [done|]. unfold a_create. rewrite E.
  destruct (bool_decide (rc = MCS_ENOENT) && _) eqn:Ec; [|done].
  apply andb_true_iff in Ec as [->%bool_decide_eq_true He%bool_decide_eq_true].
  destruct (_ <=? _)%nat; [done|]. intros [= <- <-]. by apply lookup_created.
Qed.

Lemma free_fd_spec fds i : free_fd fds = Some i → fds !! i = Some None.
Proof. unfold free_fd. intros ([j d] & (H & -> & _)%list_find_Some & ->)%fmap_Some. done. Qed.

Lemma free_fd_exists fds i : fds !! i = Some None → ∃ j, free_fd fds = Some j.
Proof.
  intros H. unfold free_fd. destruct (list_find (λ d, d = None) fds) as [[j d]|] eqn:E; [by exists j|].
  apply list_find_None in E. by destruct (Forall_lookup_1 _ _ _ _ E H).
Qed.

Lemma a_fd_at s (i : nat) d : a_fds s !! i = Some (Some d) → (i < 16)%nat → a_fd s (Z.of_nat i) = Some (i, d).
Proof.
  intros H Hi. unfold a_fd. rewrite (proj2 (Z.ltb_ge _ 0)), (proj2 (Z.leb_gt 16 _)) by lia. cbn [orb].
  by rewrite Nat2Z.id, H.
Qed.

Lemma rep_fds v s : proc_rep v s → length (a_fds s) = 16%nat.
Proof. intros (fs & _ & _ & Hl & Hd). by rewrite <-(Forall2_length _ _ _ Hd). Qed.

Lemma rep_file_ok v s i a : proc_rep v s → a_files s !! i = Some a → afile_ok a.
Proof. intros (fs & _ & Hr & _) Ha. by destruct (fr_file _ _ Hr i a Ha) as (_ & ? & _). Qed.

Definition O_NEW : Z := Z.lor MCS_O_CREAT (Z.lor MCS_O_RDWR MCS_O_TRUNC).

(** What an open that creates or empties a file gives. *)
Lemma open_new path s fd s1 :
  a_open path O_NEW s = (Ok fd, s1) →
  ∃ (k i : nat) a, fd = Z.of_nat k ∧ a_fds s !! k = Some None ∧ a_files s1 !! i = Some (resize 0 a) ∧
    a_lookup (a_files s1) path = Ok (Some i) ∧ a_fds s1 = <[k := Some (mk_adesc O_NEW 0 (Some i))]> (a_fds s).
Proof.
  unfold a_open. change (open_flags O_NEW) with O_NEW. destruct (a_target (a_files s) path O_NEW) as [[t|rc|] fl] eqn:Et; try done.
  pose proof (target_lookup_again _ _ _ _ _ Et) as El. change (mcs_can_write O_NEW) with true.
  destruct t as [i|]; [|done]. cbn [bool_decide andb a_fds]. rewrite bool_decide_false by done. cbn [andb].
  destruct (free_fd (a_fds s)) as [k|] eqn:Ef; [|done]. change (negb (Z.land O_NEW MCS_O_TRUNC =? 0)) with true. cbn [negb].
  intros [= <- <-]. destruct (lookup_lt_is_Some_2 fl i (lookup_lt _ _ _ El)) as [a Ha]. exists k, i, a.
  cbn [a_files a_fds]. split_and!; try done.
  - by apply free_fd_spec.
  - rewrite (alter_some _ _ _ _ Ha). apply list_lookup_insert_eq. by eapply lookup_lt_Some.
  - rewrite <-El. apply lookup_names. rewrite (alter_some _ _ _ _ Ha), list_fmap_insert. apply list_insert_id.
    by rewrite list_lookup_fmap, Ha.
Qed.

(** Writing to such a descriptor and closing it. *)
Definition written (s1 : aproc) (k i : nat) (a : afile) (data : list Z) : aproc :=
  mk_aproc (<[i := mk_afile (a_name a) (Z.of_nat (length data)) (splice 0 data (a_bytes a))]> (a_files s1))
    (<[k := Some (mk_adesc O_NEW (Z.of_nat (length data)) (Some i))]> (a_fds s1)).

Lemma write_new s1 k i a data :
  a_fds s1 !! k = Some (Some (mk_adesc O_NEW 0 (Some i))) → (k < 16)%nat →
  a_files s1 !! i = Some (resize 0 a) → Z.of_nat (length data) <= 256 →
  a_write (Z.of_nat k) (Some data) (Z.of_nat (length data)) s1 = (Ok (Z.of_nat (length data)), written s1 k i a data).
Proof.
  intros Hk Hlt Ha Hd. unfold a_write. rewrite (a_fd_at s1 k _ Hk Hlt). cbn [bool_decide d_flags d_target d_offset mbind option_bind].
  rewrite bool_decide_false by done. cbn [andb]. change (negb (mcs_can_write O_NEW)) with false.
  rewrite Ha. cbn [fmap option_fmap option_map]. change (negb (Z.land O_NEW MCS_O_APPEND =? 0)) with false.
  cbv zeta. change (if false then a_size (resize 0 a) else 0) with 0. rewrite (proj2 (Z.ltb_ge 256 0)) by lia. rewrite (proj2 (Z.ltb_ge 256 (0 + _))) by lia. cbv iota.
  change (default [] (Some data)) with data. rewrite take_ge by lia. unfold set_fd, written, move. cbn [a_files a_fds d_flags d_target].
  rewrite (alter_some _ _ _ _ Ha). unfold overwrite, resize. cbn [a_name a_size a_bytes]. rewrite Z.max_r by lia. done.
Qed.

(** Opening the file again for reading and reading it. *)
Lemma open_read s path i k :
  a_lookup (a_files s) path = Ok (Some i) → a_fds s !! k = Some None →
  ∃ j, a_fds s !! j = Some None ∧
    a_open path MCS_O_RDONLY s =
      (Ok (Z.of_nat j), mk_aproc (a_files s) (<[j := Some (mk_adesc MCS_O_RDONLY 0 (Some i))]> (a_fds s))).
Proof.
  intros Hl Hk. destruct (free_fd_exists _ _ Hk) as [j Hj]. exists j. split; [by apply free_fd_spec|].
  unfold a_open. change (open_flags MCS_O_RDONLY) with MCS_O_RDONLY. unfold a_target. rewrite Hl.
  rewrite bool_decide_false by done. cbn [andb a_fds]. rewrite Hj. done.
Qed.

Lemma read_open s j i a n :
  a_fds s !! j = Some (Some (mk_adesc MCS_O_RDONLY 0 (Some i))) → (j < 16)%nat → a_files s !! i = Some a → 0 < a_size a → 0 <= n →
  (a_read (Z.of_nat j) false n s).1 = Ok (take (Z.to_nat (Z.min n (a_size a))) (a_bytes a)).
Proof.
  intros Hj Hlt Ha Hs Hn. unfold a_read. rewrite (a_fd_at s j _ Hj Hlt). cbn [andb d_flags d_target d_offset mbind option_bind].
  change (negb (mcs_can_read MCS_O_RDONLY)) with false. rewrite Ha. rewrite (proj2 (Z.leb_gt (a_size a) 0)) by done.
  cbn [fst]. by rewrite Z.sub_0_r.
Qed.

Lemma reopen_read v s path i k a n :
  proc_rep v s → Forall (λ c, c ≠ 0) path → a_lookup (a_files s) path = Ok (Some i) → a_fds s !! k = Some None →
  a_files s !! i = Some a → 0 < a_size a → fits 64 n →
  ∃ fd v1 v2, mcs_sys_open (Some path) MCS_O_RDONLY (Some v) = (Ok fd, Some v1) ∧
    mcs_sys_read fd false n (Some v1) = (Ok (take (Z.to_nat (Z.min n (a_size a))) (a_bytes a)), Some v2).
Proof.
  intros R Hz Hl Hk Ha Hs Hn. destruct (open_read s path i k Hl Hk) as (j & Hj & Ho5).
  destruct (open_sim v s R path MCS_O_RDONLY Hz) as (v5 & Ho & R5). rewrite Ho5 in Ho, R5. cbn [fst snd] in Ho, R5.
  set (s5 := mk_aproc _ _) in *. pose proof (lookup_lt_Some _ _ _ Hj) as Hj16. rewrite (rep_fds _ _ R) in Hj16.
  destruct (read_sim v5 s5 R5 (Z.of_nat j) false n Hn) as (v6 & Hrd & _). exists (Z.of_nat j), v5, v6. split; [done|].
  rewrite Hrd, (read_open s5 j i a n); try done; [|unfold fits in Hn; lia].
  cbn [s5 a_fds]. apply list_lookup_insert_eq. by rewrite (rep_fds _ _ R).
Qed.

(** ** Properties *)

(** C11: every sequence of opens, reads, writes, seeks, closes and duplications
    a process makes after initialisation returns what the specification with
    named files of their own bytes returns, error codes and bytes read
    included, and leaves a state that represents the specification's.  In
    particular files do not overlap in the shared data area, no access leaves
    an array, and every path is resolved. *)
Theorem vfs_refines_files v fs l :
  proc_raw v fs → Forall vop_ok l →
  ∃ v0 v', vfs_init (Some v) = (Ok tt, Some v0) ∧
    vfs_run l (Some v0) = ((a_run l empty_proc).1, Some v') ∧ proc_rep v' (a_run l empty_proc).2.
Proof.
  intros H Hl. destruct (init_rep v fs H) as (v0 & Hi & R). destruct (run_sim l v0 empty_proc R Hl) as (v' & Hr & R').
  by exists v0, v'.
Qed.

(** C26: what is written to a new or emptied file is there for later readers:
    whenever a file could be opened so, up to 256 bytes can be written to it,
    and after closing it, opening the path again and reading returns those
    bytes, or as many of them as were asked for. *)
Theorem vfs_roundtrip v fs l v0 v1 path data n fd v2 :
  proc_raw v fs → Forall vop_ok l → vfs_init (Some v) = (Ok tt, Some v0) → (vfs_run l (Some v0)).2 = Some v1 →
  Forall (λ c, c ≠ 0) path → 0 < Z.of_nat (length data) <= 256 → fits 64 n →
  mcs_sys_open (Some path) O_NEW (Some v1) = (Ok fd, Some v2) →
  ∃ v3 v4 v5 v6 fd',
    mcs_sys_write fd (Some data) (Z.of_nat (length data)) (Some v2) = (Ok (Z.of_nat (length data)), Some v3) ∧
    mcs_sys_close fd (Some v3) = (Ok tt, Some v4) ∧
    mcs_sys_open (Some path) MCS_O_RDONLY (Some v4) = (Ok fd', Some v5) ∧
    mcs_sys_read fd' false n (Some v5) = (Ok (take (Z.to_nat n) data), Some v6).
Proof.
  intros Hraw Hl Hi Hrun Hz Hd Hn Hopen.
  destruct (init_rep v fs Hraw) as (v0' & Hi' & R0). rewrite Hi in Hi'. injection Hi' as <-.
  destruct (run_sim l v0 empty_proc R0 Hl) as (v1' & Hr & R1). rewrite Hr in Hrun. injection Hrun as ->.
  set (s := (a_run l empty_proc).2) in *. destruct (open_sim v1 s R1 path O_NEW Hz) as (v2' & Ho & R2).
  rewrite Hopen in Ho. injection Ho as Ho <-. destruct (a_open path O_NEW s) as [r s1] eqn:Ea. cbn [fst snd] in *. subst r.
  destruct (open_new path s fd s1 Ea) as (k & i & a & -> & Hk & Ha & Hlk & Hfds). pose proof (rep_fds _ _ R1) as Hl16.
  pose proof (lookup_lt_Some _ _ _ Hk) as Hk16. rewrite Hl16 in Hk16.
  assert (a_fds s1 !! k = Some (Some (mk_adesc O_NEW 0 (Some i)))) as Hk1 by (rewrite Hfds; apply list_lookup_insert_eq; lia).
  destruct (write_sim v2 s1 R2 (Z.of_nat k) (Some data) (Z.of_nat (length data))) as (v3 & Hw & R3); [unfold fits; lia|done|].
  rewrite (write_new s1 k i a data Hk1 Hk16 Ha) in Hw, R3 by lia. cbn [fst snd] in Hw, R3.
  destruct (close_sim v3 _ R3 (Z.of_nat k)) as (v4 & Hc & R4). unfold a_close in Hc, R4.
  assert (a_fd (written s1 k i a data) (Z.of_nat k) = Some (k, mk_adesc O_NEW (Z.of_nat (length data)) (Some i))) as Hk3.
  { apply a_fd_at; [|done]. cbn [written a_fds]. apply list_lookup_insert_eq. by rewrite Hfds, length_insert, Hl16. }
  rewrite Hk3 in Hc, R4. cbn [fst snd] in Hc, R4.
  set (s4 := set_fd _ k None) in *.
  set (b := mk_afile (a_name a) (Z.of_nat (length data)) (splice 0 data (a_bytes a))).
  assert (a_files s4 !! i = Some b) as Ha4.
  { cbn [s4 set_fd written a_files]. apply list_lookup_insert_eq. by eapply lookup_lt_Some. }
  assert (a_lookup (a_files s4) path = Ok (Some i)) as Hlk4.
  { rewrite <-Hlk. apply lookup_names. cbn [s4 set_fd written a_files]. rewrite list_fmap_insert. apply list_insert_id.
    by rewrite list_lookup_fmap, Ha. }
  destruct (reopen_read v4 s4 path i k b n R4 Hz Hlk4) as (fd' & v5 & v6 & Ho & Hrd); [|exact Ha4|simpl; lia|done|].
  { cbn [s4 set_fd written a_fds]. apply list_lookup_insert_eq. rewrite length_insert, Hfds, length_insert. lia. }
  exists v3, v4, v5, v6, fd'. split_and!; try done. rewrite Hrd. do 2 f_equal. unfold b. cbn [a_size a_bytes].
  pose proof (ao_bytes _ (rep_file_ok _ _ _ _ R2 Ha)) as Hb. cbn [resize a_bytes] in Hb.
  rewrite splice_in by lia. rewrite take_0, app_nil_l. unfold fits in Hn. rewrite take_app_le by lia.
  destruct (Z.min_spec n (Z.of_nat (length data))) as [[? ->]|[? ->]]; [done|]. rewrite !take_ge by lia. done.
Qed.

(** Where a seek starts from. *)
Definition seek_base (d : adesc) (a : afile) (whence : Z) : Z :=
  if whence =? MCS_SEEK_SET then 0 else if whence =? MCS_SEEK_CUR then d_offset d else a_size a.

(** C38: every seek of an open file to an offset [o] that is not negative
    succeeds and moves the offset to [o], whatever it is counted from, but
    returns only the low 32 bits of [o] as a signed number: the offset itself
    exactly when it is below 2 GiB, and a negative number, like that of a failed
    call, exactly when bit 31 of [o] is set. *)
Theorem vfs_lseek_truncates v s fd i d t a off whence :
  proc_rep v s → a_fd s fd = Some (i, d) → d_target d = Some t → a_files s !! t = Some a → 0 <= whence <= 2 →
  let o := seek_base d a whence + off in
  0 <= o < 2 ^ 63 →
  ∃ v' r, mcs_sys_lseek fd off whence (Some v) = (Ok r, Some v') ∧ proc_rep v' (set_fd s i (Some (move d o))) ∧
    r = to_signed 32 (o mod 2 ^ 32) ∧ (r = o ↔ o < 2 ^ 31) ∧ (r < 0 ↔ 2 ^ 31 <= o mod 2 ^ 32).
Proof.
  intros R Hfd Ht Ha Hw o Ho. destruct (lseek_sim v s R fd off whence) as (v' & Hrun & R').
  assert (a_lseek fd off whence s = (Ok (to_signed 32 (u32 o)), set_fd s i (Some (move d o)))) as E.
  { unfold a_lseek. rewrite Hfd, Ht. cbn [mbind option_bind]. rewrite Ha.
    rewrite (proj2 (Z.leb_le 0 whence)), (proj2 (Z.leb_le whence 2)) by lia. cbn [andb negb].
    fold (seek_base d a whence). unfold long_add. fold o.
    rewrite (proj2 (Z.ltb_ge o (- 2 ^ 63))), (proj2 (Z.leb_gt (2 ^ 63) o)) by lia. cbn [orb].
    by rewrite (proj2 (Z.ltb_ge o 0)) by lia. }
  rewrite E in Hrun, R'. exists v', (to_signed 32 (u32 o)). split; [done|]. split; [done|]. split; [done|].
  unfold to_signed, wrap. change (2 ^ (32 - 1)) with (2 ^ 31). pose proof (Z.mod_pos_bound o (2 ^ 32) ltac:(lia)).
  pose proof (Z.mod_le o (2 ^ 32) ltac:(lia) ltac:(lia)). clear E Hrun R'. clearbody o.
  destruct (Z.ltb_spec (o mod 2 ^ 32) (2 ^ 31)).
  - split; [|lia]. split; [lia|]. intros Hlt. apply Z.mod_small. lia.
  - split; [|lia]. split; [lia|]. intros Hlt. rewrite Z.mod_small in * by lia. lia.
Qed.

(** ** The objects of the kernel, zero before initialisation *)

Definition zero_node : mcs_vnode := mk_vnode false 0 0 MCS_VNODE_FILE (replicate 32 0) 0 0 0.
Definition g_m13_ramfs : mcs_ramfs := mk_ramfs (replicate 64 zero_node) 0 (replicate (Z.to_nat 8192) 0) 0.
Definition g_m13_process : mcs_process := mk_process 0 (replicate 16 closed_file) (Some g_m13_ramfs).

Lemma m13_raw : proc_raw g_m13_process g_m13_ramfs.
Proof.
  constructor; try done.
  apply Forall_replicate. done.
Qed.

(** The start-up does not panic and reads back the seeded file. *)
Lemma m13_vfs_bootstrap_ok : (m13_vfs_bootstrap (Some g_m13_process)).1 = Ok (chars "mcsos-m13-ramfs").
Proof. vm_compute. reflexivity. Qed.

Lemma vfs_refines_files_witness :
  ∃ v0 v', vfs_init (Some g_m13_process) = (Ok tt, Some v0) ∧
    vfs_run [VOpen (chars "/a") O_NEW; VWrite 0 (Some [1; 2; 3]) 3; VLseek 0 1 0; VRead 0 false 10; VOpen (chars "a") 0]
      (Some v0) = ([Ok (inl 0); Ok (inl 3); Ok (inl 1); Ok (inr [2; 3]); Err MCS_EINVAL], Some v').
Proof.
  destruct (vfs_refines_files g_m13_process g_m13_ramfs
    [VOpen (chars "/a") O_NEW; VWrite 0 (Some [1; 2; 3]) 3; VLseek 0 1 0; VRead 0 false 10; VOpen (chars "a") 0])
    as (v0 & v' & H0 & Hr & _); [exact m13_raw|repeat (constructor; try done)|].
  exists v0, v'. split; [exact H0|]. rewrite Hr. vm_compute. reflexivity.
Defined.

Lemma vfs_roundtrip_witness :
  ∃ v1 v2 v3 v4 v5 v6 fd,
    mcs_sys_open (Some (chars "/a")) O_NEW (Some v1) = (Ok 0, Some v2) ∧
    mcs_sys_write 0 (Some [7; 8; 9]) 3 (Some v2) = (Ok 3, Some v3) ∧
    mcs_sys_close 0 (Some v3) = (Ok tt, Some v4) ∧
    mcs_sys_open (Some (chars "/a")) MCS_O_RDONLY (Some v4) = (Ok fd, Some v5) ∧
    mcs_sys_read fd false 2 (Some v5) = (Ok [7; 8], Some v6).
Proof.
  destruct (init_rep _ _ m13_raw) as (v1 & Hi & R).
  assert (Forall (λ c, c ≠ 0) (chars "/a")) as Hz by (repeat (constructor; try done)).
  destruct (open_sim v1 empty_proc R (chars "/a") O_NEW Hz) as (v2 & Ho & _).
  destruct (vfs_roundtrip g_m13_process g_m13_ramfs [] v1 v1 (chars "/a") [7; 8; 9] 2 0 v2)
    as (v3 & v4 & v5 & v6 & fd & H); [exact m13_raw|constructor|exact Hi|reflexivity|exact Hz|done|done|exact Ho|].
  exists v1, v2, v3, v4, v5, v6, fd. split; [exact Ho|exact H].
Defined.

Lemma vfs_lseek_truncates_witness :
  ∃ v v' r, mcs_sys_lseek 0 (2 ^ 31) MCS_SEEK_END (Some v) = (Ok r, Some v') ∧ r = - 2 ^ 31.
Proof.
  destruct (init_rep _ _ m13_raw) as (v0 & Hi & R).
  assert (Forall (λ c, c ≠ 0) (chars "/a")) as Hz by (repeat (constructor; try done)).
  destruct (open_sim v0 empty_proc R (chars "/a") O_NEW Hz) as (v1 & _ & R1).
  set (s1 := (a_open (chars "/a") O_NEW empty_proc).2) in R1.
  destruct (a_files s1 !! 0%nat) as [a|] eqn:Ha; [|by vm_compute in Ha].
  assert (a_size a = 0) as Hsz by (vm_compute in Ha; by injection Ha as <-).
  destruct (vfs_lseek_truncates v1 s1 0 0 (mk_adesc O_NEW 0 (Some 0%nat)) 0 a (2 ^ 31) MCS_SEEK_END R1)
    as (v' & r & H & _ & Hr & _); [reflexivity|reflexivity|exact Ha|by split|..]; unfold seek_base in *; cbn in *; rewrite Hsz in *.
  - lia.
  - exists v1, v', r. split; [exact H|]. by rewrite Hr.
Defined.
