(* ===== verification/Mcsfs1.v ===== *)
(** * MCSFS1: a flat file system on a block device
      (fs/mcsfs1/mcsfs1.c, fs/mcsfs1/mcsfs1.h)

    The device is the caller's: a context with optional callbacks that read,
    write and flush 512-byte blocks.  The on-disk structures are byte offsets
    into a block, as the C code overlays its structs on block buffers. *)

From Stdlib Require Import ZArith Lia.
From stdpp Require Import base list numbers option.
From S2P Require Import Prelude Bitmap.

Local Open Scope Z_scope.
Local Open Scope cm_scope.

(** ** Constants *)

Definition MCSFS1_BLOCK_SIZE : Z := 512.
Definition MCSFS1_MAGIC : Z := 0x31465343.
Definition MCSFS1_VERSION : Z := 1.
Definition MCSFS1_MAX_INODES : Z := 32.
Definition MCSFS1_DIRECT_BLOCKS : Z := 8.
Definition MCSFS1_MAX_NAME : Z := 27.
Definition MCSFS1_ROOT_INO : Z := 1.
Definition MCSFS1_MODE_FILE : Z := 1.
Definition MCSFS1_MODE_DIR : Z := 2.
Definition MCSFS1_ERR_INVAL : Z := -1.
Definition MCSFS1_ERR_IO : Z := -2.
Definition MCSFS1_ERR_NOSPC : Z := -3.
Definition MCSFS1_ERR_EXIST : Z := -4.
Definition MCSFS1_ERR_NOENT : Z := -5.
Definition MCSFS1_ERR_NAMETOOLONG : Z := -6.
Definition MCSFS1_ERR_CORRUPT : Z := -7.
Definition MCSFS1_ERR_ISDIR : Z := -8.
Definition MCSFS1_ERR_RANGE : Z := -9.

Definition MCSFS1_SB_LBA : Z := 0.
Definition MCSFS1_INODE_BMAP_LBA : Z := 1.
Definition MCSFS1_BLOCK_BMAP_LBA : Z := 2.
Definition MCSFS1_INODE_TABLE_LBA : Z := 3.
Definition MCSFS1_INODE_TABLE_BLOCKS : Z := 4.
Definition MCSFS1_ROOT_DIR_LBA : Z := 7.
Definition MCSFS1_DATA_START_LBA : Z := 8.
Definition MCSFS1_MIN_BLOCKS : Z := 16.
Definition MCSFS1_DIRENT_COUNT : Z := 16.

(** Field offsets of [struct mcsfs1_super_disk], [mcsfs1_inode_disk] and
    [mcsfs1_dirent_disk], and the sizes of the latter two. *)
Module Fld.
Definition magic : nat := 0.
Definition version : nat := 4.
Definition block_size : nat := 8.
Definition sb_block_count : nat := 12.
Definition inode_count : nat := 16.
Definition inode_bmap_lba : nat := 20.
Definition block_bmap_lba : nat := 24.
Definition inode_table_lba : nat := 28.
Definition inode_table_blocks : nat := 32.
Definition root_ino : nat := 36.
Definition root_dir_lba : nat := 40.
Definition data_start_lba : nat := 44.
Definition clean : nat := 48.
Definition mode : nat := 0.
Definition links : nat := 2.
Definition size : nat := 4.
Definition direct (i : nat) : nat := 8 + 4 * i.
Definition inode_bytes : nat := 60.
Definition d_ino : nat := 0.
Definition d_type : nat := 4.
Definition d_name : nat := 5.
Definition dirent_bytes : nat := 32.
End Fld.

(** ** Strings *)

(** [s] are the bytes that may be read from the pointer on. *)
Fixpoint strlen_from (s : list Z) (max : nat) (n : Z) {struct max} : res Z :=
  match max, s with
  | O, _ => Ok n
  | S _, [] => Ub
  | S max, c :: s => if c =? 0 then Ok n else strlen_from s max (n + 1)
  end.

Definition mcsfs_strlen_bound (s : ptr (list Z)) (max_plus_one : Z) : res Z :=
  match s with
  | None => Ok max_plus_one
  | Some s => strlen_from s (Z.to_nat max_plus_one) 0
  end.

Fixpoint memcmp_from (x y : list Z) (n : nat) {struct n} : res Z :=
  match n, x, y with
  | O, _, _ => Ok 0
  | S n, a :: x, b :: y => if a =? b then memcmp_from x y n else Ok (a - b)
  | _, _, _ => Ub
  end.
Definition mcsfs_memcmp (a b : list Z) (n : Z) : res Z := memcmp_from a b (Z.to_nat n).

(** A C string is the list of its bytes before the NUL. *)
Definition c_str (name : list Z) : list Z := name ++ [0].

(** The result is [*len_out]. *)
Definition valid_name (name : ptr (list Z)) : res Z :=
  match mcsfs_strlen_bound (c_str <$> name) (MCSFS1_MAX_NAME + 1) with
  | Ok n =>
      if n =? 0 then Err MCSFS1_ERR_INVAL
      else if MCSFS1_MAX_NAME <? n then Err MCSFS1_ERR_NAMETOOLONG
      else if existsb (λ c, c =? 47) (take (Z.to_nat n) (default [] name)) then Err MCSFS1_ERR_INVAL
      else Ok n
  | r => r
  end.

(** ** Bits *)

(** Undefined outside the array. *)
Definition bit_test (b : list Z) (bit : Z) : res bool :=
  if 8 * Z.of_nat (length b) <=? bit then Ub else Ok (bm_test b bit).
Definition bit_set (b : list Z) (bit : Z) : list Z := bm_set b bit.
Definition bit_clear (b : list Z) (bit : Z) : list Z := bm_clear b bit.

(** [for (i = ...; n more; i++) if (!bit_test(b, i)) found i], 0 when none. *)
Fixpoint first_clear (b : list Z) (i : Z) (n : nat) : res Z :=
  match n with
  | O => Ok 0
  | S n =>
      match bit_test b i with
      | Ok true => first_clear b (i + 1) n
      | Ok false => Ok i
      | Err rc => Err rc
      | Ub => Ub
      end
  end.

Definition zeros (n : nat) : list Z := replicate n 0.

Section mcsfs1.
Context {C : Type}.

(** ** Device *)

Record mcsfs1_blkdev := mk_blkdev {
  ctx : C;
  block_count : Z;
  op_read : ptr (C → Z → Z * list Z * C);
  op_write : ptr (C → Z → list Z → Z * C);
  op_flush : ptr (C → Z * C)
}.

(** A mounted file system; its [dev] is the device the operations run on. *)
Record mcsfs1_mount := mk_mount {
  mnt_block_count : Z;
  mnt_data_start : Z
}.

Definition with_ctx (d : mcsfs1_blkdev) (c : C) : mcsfs1_blkdev :=
  mk_blkdev c (block_count d) (op_read d) (op_write d) (op_flush d).

Definition dev_read (lba : Z) : M mcsfs1_blkdev (list Z) :=
  null_check MCSFS1_ERR_INVAL ;;
  let* d := deref in
  match op_read d with
  | None => fail MCSFS1_ERR_INVAL
  | Some f =>
      fail_if (block_count d <=? lba) MCSFS1_ERR_INVAL ;;
      let '(rc, buf, c) := f (ctx d) lba in
      store (with_ctx d c) ;;
      fail_if (negb (rc =? 0)) MCSFS1_ERR_IO ;;
      ret buf
  end.

Definition dev_write (lba : Z) (buf : list Z) : M mcsfs1_blkdev unit :=
  null_check MCSFS1_ERR_INVAL ;;
  let* d := deref in
  match op_write d with
  | None => fail MCSFS1_ERR_INVAL
  | Some f =>
      fail_if (block_count d <=? lba) MCSFS1_ERR_INVAL ;;
      let '(rc, c) := f (ctx d) lba buf in
      store (with_ctx d c) ;;
      fail_if (negb (rc =? 0)) MCSFS1_ERR_IO
  end.

Definition dev_flush : M mcsfs1_blkdev unit :=
  null_check MCSFS1_ERR_INVAL ;;
  let* d := deref in
  match op_flush d with
  | None => fail MCSFS1_ERR_INVAL
  | Some f =>
      let '(rc, c) := f (ctx d) in
      store (with_ctx d c) ;;
      fail_if (negb (rc =? 0)) MCSFS1_ERR_IO
  end.

(** ** Metadata *)

Definition load_super : M mcsfs1_blkdev (list Z) :=
  let* sb := dev_read MCSFS1_SB_LBA in
  let* d := deref in
  let get f := ld 4 f sb in
  fail_if (negb (get Fld.magic =? MCSFS1_MAGIC) || negb (get Fld.version =? MCSFS1_VERSION)
    || negb (get Fld.block_size =? MCSFS1_BLOCK_SIZE)) MCSFS1_ERR_CORRUPT ;;
  fail_if (negb (get Fld.sb_block_count =? block_count d) || negb (get Fld.inode_count =? MCSFS1_MAX_INODES))
    MCSFS1_ERR_CORRUPT ;;
  fail_if (negb (get Fld.inode_bmap_lba =? MCSFS1_INODE_BMAP_LBA)
    || negb (get Fld.block_bmap_lba =? MCSFS1_BLOCK_BMAP_LBA)
    || negb (get Fld.inode_table_lba =? MCSFS1_INODE_TABLE_LBA)) MCSFS1_ERR_CORRUPT ;;
  fail_if (negb (get Fld.root_ino =? MCSFS1_ROOT_INO) || negb (get Fld.root_dir_lba =? MCSFS1_ROOT_DIR_LBA)
    || negb (get Fld.data_start_lba =? MCSFS1_DATA_START_LBA)) MCSFS1_ERR_CORRUPT ;;
  fail_if (get Fld.sb_block_count <=? get Fld.data_start_lba) MCSFS1_ERR_CORRUPT ;;
  ret sb.

Definition per_block : Z := MCSFS1_BLOCK_SIZE / Z.of_nat Fld.inode_bytes.
Definition inode_lba (ino : Z) : Z := MCSFS1_INODE_TABLE_LBA + (ino - 1) / per_block.
Definition inode_off (ino : Z) : nat := Z.to_nat ((ino - 1) mod per_block * Z.of_nat Fld.inode_bytes).

Definition read_inode (ino : Z) : M mcsfs1_blkdev (list Z) :=
  fail_if ((ino =? 0) || (MCSFS1_MAX_INODES <? ino)) MCSFS1_ERR_INVAL ;;
  fail_if (MCSFS1_DATA_START_LBA <=? inode_lba ino) MCSFS1_ERR_CORRUPT ;;
  let* block := dev_read (inode_lba ino) in
  ret (slice (inode_off ino) Fld.inode_bytes block).

Definition write_inode (ino : Z) (inode : list Z) : M mcsfs1_blkdev unit :=
  fail_if ((ino =? 0) || (MCSFS1_MAX_INODES <? ino)) MCSFS1_ERR_INVAL ;;
  fail_if (MCSFS1_DATA_START_LBA <=? inode_lba ino) MCSFS1_ERR_CORRUPT ;;
  let* block := dev_read (inode_lba ino) in
  dev_write (inode_lba ino) (splice (inode_off ino) inode block).

Definition load_bmaps : M mcsfs1_blkdev (list Z * list Z) :=
  let* ib := dev_read MCSFS1_INODE_BMAP_LBA in
  let* bb := dev_read MCSFS1_BLOCK_BMAP_LBA in
  ret (ib, bb).

Definition store_bmaps (ib bb : list Z) : M mcsfs1_blkdev unit :=
  dev_write MCSFS1_INODE_BMAP_LBA ib ;;
  dev_write MCSFS1_BLOCK_BMAP_LBA bb.

(** ** Directory *)

Definition dirent_off (i : Z) (f : nat) : nat := (Z.to_nat i * Fld.dirent_bytes + f)%nat.
Definition de_ino (block : list Z) (i : Z) : Z := ld 4 (dirent_off i Fld.d_ino) block.
Definition de_type (block : list Z) (i : Z) : Z := ld 1 (dirent_off i Fld.d_type) block.
(** What can be read from [de[i].name] on: the rest of the block the entries
    are overlaid on. *)
Definition de_name (block : list Z) (i : Z) : list Z := drop (dirent_off i Fld.d_name) block.

(** The condition of the search at entry [i]. *)
Definition de_matches (block name : list Z) (name_len i : Z) : res bool :=
  if de_ino block i =? 0 then Ok false
  else
    match mcsfs_strlen_bound (Some (de_name block i)) (MCSFS1_MAX_NAME + 1) with
    | Ok n =>
        if negb (n =? name_len) then Ok false
        else
          match mcsfs_memcmp (de_name block i) name name_len with
          | Ok r => Ok (r =? 0)
          | Err rc => Err rc
          | Ub => Ub
          end
    | Err rc => Err rc
    | Ub => Ub
    end.

(** The result is the slot and the inode number. *)
Fixpoint find_loop (block name : list Z) (name_len i : Z) (n : nat) : res (Z * Z) :=
  match n with
  | O => Err MCSFS1_ERR_NOENT
  | S n =>
      match de_matches block name name_len i with
      | Ok true => Ok (i, de_ino block i)
      | Ok false => find_loop block name name_len (i + 1) n
      | Err rc => Err rc
      | Ub => Ub
      end
  end.

Definition find_dirent (name : ptr (list Z)) : M mcsfs1_blkdev (Z * Z) :=
  let* name_len := lift (valid_name name) in
  let* block := dev_read MCSFS1_ROOT_DIR_LBA in
  lift (find_loop block (default [] name) name_len 0 (Z.to_nat MCSFS1_DIRENT_COUNT)).

(** ** Allocation *)

Definition alloc_inode_block : M mcsfs1_blkdev (Z * Z) :=
  let* '(ib, bb) := load_bmaps in
  let* ino := lift (first_clear ib 2 (Z.to_nat (MCSFS1_MAX_INODES - 1))) in
  fail_if (ino =? 0) MCSFS1_ERR_NOSPC ;;
  let* d := deref in
  let* lba := lift (first_clear bb MCSFS1_DATA_START_LBA (Z.to_nat (block_count d - MCSFS1_DATA_START_LBA))) in
  fail_if (lba =? 0) MCSFS1_ERR_NOSPC ;;
  store_bmaps (bit_set ib ino) (bit_set bb lba) ;;
  ret (ino, lba).

Definition alloc_data_block : M mcsfs1_blkdev Z :=
  let* '(ib, bb) := load_bmaps in
  let* d := deref in
  let* b := lift (first_clear bb MCSFS1_DATA_START_LBA (Z.to_nat (block_count d - MCSFS1_DATA_START_LBA))) in
  fail_if (b =? 0) MCSFS1_ERR_NOSPC ;;
  store_bmaps ib (bit_set bb b) ;;
  ret b.

Definition direct_of (inode : list Z) (i : nat) : Z := ld 4 (Fld.direct i) inode.

(** The loop over [direct]; bits beyond the array are undefined. *)
Fixpoint clear_blocks (n : Z) (inode bb : list Z) (l : list nat) : res (list Z) :=
  match l with
  | [] => Ok bb
  | i :: l =>
      let b := direct_of inode i in
      if negb (b =? 0) && (b <? n) then
        if 8 * Z.of_nat (length bb) <=? b then Ub else clear_blocks n inode (bit_clear bb b) l
      else clear_blocks n inode bb l
  end.

Definition free_inode_and_blocks (ino : Z) (inode : list Z) : M mcsfs1_blkdev unit :=
  let* '(ib, bb) := load_bmaps in
  let* d := deref in
  let* bb := lift (clear_blocks (block_count d) inode bb (seq 0 (Z.to_nat MCSFS1_DIRECT_BLOCKS))) in
  store_bmaps (bit_clear ib ino) bb.

(** ** Operations *)

Definition new_super (n : Z) : list Z :=
  st 4 Fld.clean 1 (st 4 Fld.data_start_lba MCSFS1_DATA_START_LBA (st 4 Fld.root_dir_lba MCSFS1_ROOT_DIR_LBA
  (st 4 Fld.root_ino MCSFS1_ROOT_INO (st 4 Fld.inode_table_blocks MCSFS1_INODE_TABLE_BLOCKS
  (st 4 Fld.inode_table_lba MCSFS1_INODE_TABLE_LBA (st 4 Fld.block_bmap_lba MCSFS1_BLOCK_BMAP_LBA
  (st 4 Fld.inode_bmap_lba MCSFS1_INODE_BMAP_LBA (st 4 Fld.inode_count MCSFS1_MAX_INODES
  (st 4 Fld.sb_block_count n (st 4 Fld.block_size MCSFS1_BLOCK_SIZE (st 4 Fld.version MCSFS1_VERSION
  (st 4 Fld.magic MCSFS1_MAGIC (zeros 512))))))))))))).

Definition new_inode (mode size direct0 : Z) : list Z :=
  st 4 (Fld.direct 0) direct0 (st 4 Fld.size size (st 2 Fld.links 1 (st 2 Fld.mode mode (zeros Fld.inode_bytes)))).

Definition mcsfs1_format : M mcsfs1_blkdev unit :=
  null_check MCSFS1_ERR_INVAL ;;
  let* d := deref in
  fail_if ((block_count d <? MCSFS1_MIN_BLOCKS) || (MCSFS1_BLOCK_SIZE * 8 <? block_count d)) MCSFS1_ERR_INVAL ;;
  iterM (λ lba, dev_write lba (zeros 512)) (seqZ 0 (block_count d)) ;;
  dev_write MCSFS1_SB_LBA (new_super (block_count d)) ;;
  let ib := bit_set (bit_set (zeros 512) 0) MCSFS1_ROOT_INO in
  let bb := bit_set (foldl bit_set (zeros 512) (seqZ 0 MCSFS1_DATA_START_LBA)) MCSFS1_ROOT_DIR_LBA in
  store_bmaps ib bb ;;
  write_inode MCSFS1_ROOT_INO (new_inode MCSFS1_MODE_DIR MCSFS1_BLOCK_SIZE MCSFS1_ROOT_DIR_LBA) ;;
  dev_flush.

Definition mode_of (inode : list Z) : Z := ld 2 Fld.mode inode.
Definition size_of (inode : list Z) : Z := ld 4 Fld.size inode.

(** [root.mode != MCSFS1_MODE_DIR || root.direct[0] != MCSFS1_ROOT_DIR_LBA] *)
Definition bad_root (root : list Z) : bool :=
  negb (mode_of root =? MCSFS1_MODE_DIR) || negb (direct_of root 0 =? MCSFS1_ROOT_DIR_LBA).

(** [mcsfs1_mount]; [mnt_null] says that [mnt] is NULL, the result is [*mnt]. *)
Definition mcsfs1_mount_dev (mnt_null : bool) : M mcsfs1_blkdev mcsfs1_mount :=
  fail_if mnt_null MCSFS1_ERR_INVAL ;;
  null_check MCSFS1_ERR_INVAL ;;
  let* sb := load_super in
  let* root := read_inode MCSFS1_ROOT_INO in
  fail_if (bad_root root) MCSFS1_ERR_CORRUPT ;;
  ret (mk_mount (ld 4 Fld.sb_block_count sb) (ld 4 Fld.data_start_lba sb)).

(** [if (mnt == 0 || mnt->dev == 0) return MCSFS1_ERR_INVAL;] *)
Definition mounted (mnt : ptr mcsfs1_mount) : M mcsfs1_blkdev mcsfs1_mount :=
  null_check MCSFS1_ERR_INVAL ;;
  match mnt with Some m => ret m | None => fail MCSFS1_ERR_INVAL end.

Definition set_dirent (block : list Z) (slot ino : Z) (name : list Z) (name_len : Z) : list Z :=
  splice (dirent_off slot Fld.d_name) (take (Z.to_nat name_len) name)
    (splice (dirent_off slot Fld.d_name) (zeros (Z.to_nat MCSFS1_MAX_NAME))
      (st 1 (dirent_off slot Fld.d_type) MCSFS1_MODE_FILE (st 4 (dirent_off slot Fld.d_ino) ino block))).

Definition mcsfs1_create (mnt : ptr mcsfs1_mount) (name : ptr (list Z)) : M mcsfs1_blkdev unit :=
  let* _ := mounted mnt in
  let* name_len := lift (valid_name name) in
  let* exists_ := on_error (let* _ := find_dirent name in ret true) (λ _, ret false) in
  fail_if exists_ MCSFS1_ERR_EXIST ;;
  let* dir_block := dev_read MCSFS1_ROOT_DIR_LBA in
  match find_z (λ i, de_ino dir_block i =? 0) 0 (Z.to_nat MCSFS1_DIRENT_COUNT) with
  | None => fail MCSFS1_ERR_NOSPC
  | Some free_slot =>
      let* '(ino, first_data) := alloc_inode_block in
      write_inode ino (new_inode MCSFS1_MODE_FILE 0 first_data) ;;
      dev_write MCSFS1_ROOT_DIR_LBA (set_dirent dir_block free_slot ino (default [] name) name_len) ;;
      dev_flush
  end.

(** [(len + MCSFS1_BLOCK_SIZE - 1u) / MCSFS1_BLOCK_SIZE] *)
Definition blocks_for (len : Z) : Z := u32 (len + MCSFS1_BLOCK_SIZE - 1) / MCSFS1_BLOCK_SIZE.

(** The first loop of [mcsfs1_write]; the result is the inode with its blocks. *)
Fixpoint grow_loop (inode : list Z) (l : list nat) : M mcsfs1_blkdev (list Z) :=
  match l with
  | [] => ret inode
  | i :: l =>
      if direct_of inode i =? 0 then
        let* b := alloc_data_block in
        grow_loop (st 4 (Fld.direct i) b inode) l
      else grow_loop inode l
  end.

Definition chunk_of (remain : Z) : Z := if MCSFS1_BLOCK_SIZE <? remain then MCSFS1_BLOCK_SIZE else remain.

Fixpoint write_loop (inode buf : list Z) (len written : Z) (l : list nat) : M mcsfs1_blkdev unit :=
  match l with
  | [] => ret tt
  | i :: l =>
      let chunk := chunk_of (len - written) in
      let* block :=
        (if chunk =? 0 then ret (zeros 512)
         else lift (c_memcpy (zeros 512) (drop (Z.to_nat written) buf) chunk)) in
      dev_write (direct_of inode i) block ;;
      write_loop inode buf len (written + chunk) l
  end.

(** Find a file and read its inode. *)
Definition open_file (name : ptr (list Z)) : M mcsfs1_blkdev (Z * Z * list Z) :=
  let* '(slot, ino) := find_dirent name in
  let* inode := read_inode ino in
  fail_if (negb (mode_of inode =? MCSFS1_MODE_FILE)) MCSFS1_ERR_ISDIR ;;
  ret (slot, ino, inode).

Definition mcsfs1_write (mnt : ptr mcsfs1_mount) (name buf : ptr (list Z)) (len : Z) : M mcsfs1_blkdev unit :=
  let* _ := mounted mnt in
  fail_if (bool_decide (buf = None) && negb (len =? 0)) MCSFS1_ERR_INVAL ;;
  fail_if (MCSFS1_DIRECT_BLOCKS * MCSFS1_BLOCK_SIZE <? len) MCSFS1_ERR_RANGE ;;
  let* '(_, ino, inode) := open_file name in
  let blocks_needed := if blocks_for len =? 0 then 1 else blocks_for len in
  let* inode := grow_loop inode (seq 0 (Z.to_nat blocks_needed)) in
  write_loop inode (default [] buf) len 0 (seq 0 (Z.to_nat blocks_needed)) ;;
  write_inode ino (st 4 Fld.size len inode) ;;
  dev_flush.

(** The loop of [mcsfs1_read]: [buf] is the caller's buffer. *)
Fixpoint read_loop (n : Z) (inode buf : list Z) (copied : Z) (i : nat) (k : nat) : M mcsfs1_blkdev (list Z) :=
  match k with
  | O => ret buf
  | S k =>
      if MCSFS1_DIRECT_BLOCKS <=? Z.of_nat i then ub
      else
        let b := direct_of inode i in
        fail_if ((b =? 0) || (n <=? b)) MCSFS1_ERR_CORRUPT ;;
        let* block := dev_read b in
        let chunk := chunk_of (size_of inode - copied) in
        if Z.of_nat (length buf) <? copied + chunk then ub
        else
          read_loop n inode (splice (Z.to_nat copied) (take (Z.to_nat chunk) block) buf) (copied + chunk) (S i) k
  end.

(** The result is the buffer and [*out_len]; on an error the buffer may have
    been overwritten in part, which is left out. *)
Definition mcsfs1_read (mnt : ptr mcsfs1_mount) (name buf : ptr (list Z)) (cap : Z) (out_null : bool)
    : M mcsfs1_blkdev (list Z * Z) :=
  let* m := mounted mnt in
  match buf with
  | None => fail MCSFS1_ERR_INVAL
  | Some buf =>
      fail_if out_null MCSFS1_ERR_INVAL ;;
      let* '(_, _, inode) := open_file name in
      fail_if (cap <? size_of inode) MCSFS1_ERR_RANGE ;;
      let* out := read_loop (mnt_block_count m) inode buf 0 0 (Z.to_nat (blocks_for (size_of inode))) in
      ret (out, size_of inode)
  end.

Definition mcsfs1_unlink (mnt : ptr mcsfs1_mount) (name : ptr (list Z)) : M mcsfs1_blkdev unit :=
  let* _ := mounted mnt in
  let* '(slot, ino, inode) := open_file name in
  let* dir_block := dev_read MCSFS1_ROOT_DIR_LBA in
  dev_write MCSFS1_ROOT_DIR_LBA (splice (dirent_off slot 0) (zeros Fld.dirent_bytes) dir_block) ;;
  free_inode_and_blocks ino inode ;;
  write_inode ino (zeros Fld.inode_bytes) ;;
  dev_flush.

Definition mcsfs1_stat (mnt : ptr mcsfs1_mount) (name : ptr (list Z)) (out_null : bool) : M mcsfs1_blkdev Z :=
  let* _ := mounted mnt in
  fail_if out_null MCSFS1_ERR_INVAL ;;
  let* '(_, _, inode) := open_file name in
  ret (size_of inode).

(** ** Check *)

(** [if (!bit_test(b, i)) return MCSFS1_ERR_CORRUPT;] *)
Definition bit_or_corrupt (b : list Z) (i : Z) : M mcsfs1_blkdev unit :=
  let* t := lift (bit_test b i) in
  fail_if (negb t) MCSFS1_ERR_CORRUPT.

Definition fsck_block (bb inode : list Z) (j : nat) : M mcsfs1_blkdev unit :=
  let* d := deref in
  let lba := direct_of inode j in
  fail_if ((lba <? MCSFS1_DATA_START_LBA) || (block_count d <=? lba)) MCSFS1_ERR_CORRUPT ;;
  bit_or_corrupt bb lba.

Definition fsck_dirent (ib bb dir : list Z) (i : Z) : M mcsfs1_blkdev unit :=
  let ino := de_ino dir i in
  if ino =? 0 then ret tt
  else
    fail_if ((MCSFS1_MAX_INODES <? ino) || negb (de_type dir i =? MCSFS1_MODE_FILE)) MCSFS1_ERR_CORRUPT ;;
    bit_or_corrupt ib ino ;;
    let* inode := read_inode ino in
    fail_if (negb (mode_of inode =? MCSFS1_MODE_FILE)
      || (MCSFS1_DIRECT_BLOCKS * MCSFS1_BLOCK_SIZE <? size_of inode)) MCSFS1_ERR_CORRUPT ;;
    let needed := if blocks_for (size_of inode) =? 0 then 1 else blocks_for (size_of inode) in
    iterM (fsck_block bb inode) (seq 0 (Z.to_nat needed)).

Definition mcsfs1_fsck : M mcsfs1_blkdev unit :=
  null_check MCSFS1_ERR_INVAL ;;
  load_super ;;
  let* '(ib, bb) := load_bmaps in
  bit_or_corrupt ib MCSFS1_ROOT_INO ;;
  bit_or_corrupt bb MCSFS1_ROOT_DIR_LBA ;;
  iterM (bit_or_corrupt bb) (seqZ 0 MCSFS1_DATA_START_LBA) ;;
  let* root := read_inode MCSFS1_ROOT_INO in
  fail_if (bad_root root) MCSFS1_ERR_CORRUPT ;;
  let* dir := dev_read MCSFS1_ROOT_DIR_LBA in
  iterM (fsck_dirent ib bb dir) (seqZ 0 MCSFS1_DIRENT_COUNT).

End mcsfs1.
Arguments mcsfs1_blkdev : clear implicits.
