(* ===== verification/Mcsfs1Proof.v ===== *)
(** * MCSFS1: the representation of files on the device and its operations

    The operations are run against any device whose callbacks store blocks
    ([BlockStore]); on such a device each is a function of the blocks. *)

From Stdlib Require Import ZArith Lia.
From stdpp Require Import base numbers option list.
From S2P Require Import Prelude Bitmap Mcsfs1.

Local Open Scope Z_scope.
Local Open Scope cm_scope.

(** ** Devices that store blocks *)

Definition blk (bs : list (list Z)) (lba : Z) : list Z := default [] (bs !! Z.to_nat lba).

(** What the file system relies on: callbacks return 0, a read gives the block
    last written, and neither reading nor flushing changes a block. *)
Class BlockStore {C : Type} (rd : C → Z → Z * list Z * C) (wr : C → Z → list Z → Z * C) (fl : C → Z * C) := {
  bs_blocks : C → list (list Z);
  bs_read c lba : 0 <= lba < Z.of_nat (length (bs_blocks c)) →
    ∃ c', rd c lba = (0, blk (bs_blocks c) lba, c') ∧ bs_blocks c' = bs_blocks c;
  bs_write c lba b : 0 <= lba < Z.of_nat (length (bs_blocks c)) → length b = 512%nat →
    ∃ c', wr c lba b = (0, c') ∧ bs_blocks c' = <[Z.to_nat lba := b]> (bs_blocks c);
  bs_flush c : ∃ c', fl c = (0, c') ∧ bs_blocks c' = bs_blocks c
}.

Section runs.
Context {C : Type} {rd : C → Z → Z * list Z * C} {wr : C → Z → list Z → Z * C} {fl : C → Z * C}.
Context {BS : BlockStore rd wr fl}.

Record on_disk (d : mcsfs1_blkdev C) (bs : list (list Z)) : Prop := {
  od_read : op_read d = Some rd;
  od_write : op_write d = Some wr;
  od_flush : op_flush d = Some fl;
  od_count : block_count d = Z.of_nat (length bs);
  od_blocks : bs_blocks (ctx d) = bs
}.

(** [m] turns the blocks [bs] into [bs'] with result [r]. *)
Definition runs {A} (m : M (mcsfs1_blkdev C) A) (bs : list (list Z)) (r : res A) (bs' : list (list Z)) : Prop :=
  ∀ d, on_disk d bs → ∃ d', m (Some d) = (r, Some d') ∧ on_disk d' bs'.

Lemma runs_ret {A} (a : A) bs : runs (ret a) bs (Ok a) bs.
Proof. intros d H. by exists d. Qed.

Lemma runs_fail {A} rc bs : runs (fail (A := A) rc) bs (Err rc) bs.
Proof. intros d H. by exists d. Qed.

Lemma runs_lift {A} (r : res A) bs : runs (lift r) bs r bs.
Proof. intros d H. by exists d. Qed.

Lemma runs_bind {A B} (m : M (mcsfs1_blkdev C) A) (k : A → M (mcsfs1_blkdev C) B) bs a bs1 r bs2 :
  runs m bs (Ok a) bs1 → runs (k a) bs1 r bs2 → runs (bind m k) bs r bs2.
Proof.
  intros Hm Hk d Hd. destruct (Hm d Hd) as (d1 & E & H1). rewrite (bind_ok _ _ _ _ _ E). by apply Hk.
Qed.

Lemma runs_bind_err {A B} (m : M (mcsfs1_blkdev C) A) (k : A → M (mcsfs1_blkdev C) B) bs rc bs1 :
  runs m bs (Err rc) bs1 → runs (bind m k) bs (Err rc) bs1.
Proof. intros Hm d Hd. destruct (Hm d Hd) as (d1 & E & H1). rewrite (bind_err _ _ _ _ _ E). by exists d1. Qed.

Lemma runs_deref {A} (k : mcsfs1_blkdev C → M (mcsfs1_blkdev C) A) bs r bs' :
  (∀ d, block_count d = Z.of_nat (length bs) → runs (k d) bs r bs') → runs (bind deref k) bs r bs'.
Proof. intros H d Hd. apply (H d); [by apply (od_count _ _ Hd)|done]. Qed.

Lemma runs_null rc bs : runs (null_check rc) bs (Ok tt) bs.
Proof. intros d H. by exists d. Qed.

Lemma runs_pass (b : bool) rc bs : b = false → runs (fail_if b rc) bs (Ok tt) bs.
Proof. intros -> d H. by exists d. Qed.

Lemma runs_stop (b : bool) rc bs : b = true → runs (fail_if b rc) bs (Err rc) bs.
Proof. intros -> d H. by exists d. Qed.

Lemma runs_on_error {A} (m : M (mcsfs1_blkdev C) A) h bs rc bs1 r bs2 :
  runs m bs (Err rc) bs1 → runs (h rc) bs1 r bs2 → runs (on_error m h) bs r bs2.
Proof. intros Hm Hh d Hd. destruct (Hm d Hd) as (d1 & E & H1). unfold on_error. rewrite E. by apply Hh. Qed.

Lemma runs_no_error {A} (m : M (mcsfs1_blkdev C) A) h bs a bs1 :
  runs m bs (Ok a) bs1 → runs (on_error m h) bs (Ok a) bs1.
Proof. intros Hm d Hd. destruct (Hm d Hd) as (d1 & E & H1). unfold on_error. rewrite E. by exists d1. Qed.

Lemma runs_iter {A} (f : A → M (mcsfs1_blkdev C) unit) l bs :
  (∀ x, x ∈ l → runs (f x) bs (Ok tt) bs) → runs (iterM f l) bs (Ok tt) bs.
Proof.
  induction l as [|x l IH]; intros H; [apply runs_ret|]. apply (runs_bind _ _ _ tt bs).
  - apply H. by left.
  - apply IH. intros y Hy. apply H. by right.
Qed.

Lemma with_ctx_disk d bs c bs' :
  on_disk d bs → bs_blocks c = bs' → length bs' = length bs → on_disk (with_ctx d c) bs'.
Proof. intros [] Hc Hl. constructor; try done. cbn [with_ctx block_count]. by rewrite Hl. Qed.

Lemma runs_read bs lba : 0 <= lba < Z.of_nat (length bs) → runs (dev_read lba) bs (Ok (blk bs lba)) bs.
Proof.
  intros Hl d Hd. unfold dev_read. rewrite (bind_ok _ _ _ tt (Some d)) by done.
  rewrite (bind_ok _ _ _ d (Some d)) by done. rewrite (od_read _ _ Hd), (od_count _ _ Hd).
  rewrite (bind_ok _ _ _ tt (Some d)) by (apply fail_if_false, Z.leb_gt; lia).
  destruct (bs_read (ctx d) lba) as (c' & E & Hc); [by rewrite (od_blocks _ _ Hd)|]. rewrite E, (od_blocks _ _ Hd) in *.
  eexists. split; [done|]. by eapply with_ctx_disk.
Qed.

Lemma runs_read_inval bs lba : Z.of_nat (length bs) <= lba → runs (dev_read lba) bs (Err MCSFS1_ERR_INVAL) bs.
Proof.
  intros Hl d Hd. unfold dev_read. rewrite (bind_ok _ _ _ tt (Some d)) by done.
  rewrite (bind_ok _ _ _ d (Some d)) by done. rewrite (od_read _ _ Hd), (od_count _ _ Hd).
  rewrite (bind_err _ _ _ MCSFS1_ERR_INVAL (Some d)) by (apply fail_if_true, Z.leb_le; lia). by exists d.
Qed.

Lemma runs_write bs lba b :
  0 <= lba < Z.of_nat (length bs) → length b = 512%nat →
  runs (dev_write lba b) bs (Ok tt) (<[Z.to_nat lba := b]> bs).
Proof.
  intros Hl Hb d Hd. unfold dev_write. rewrite (bind_ok _ _ _ tt (Some d)) by done.
  rewrite (bind_ok _ _ _ d (Some d)) by done. rewrite (od_write _ _ Hd), (od_count _ _ Hd).
  rewrite (bind_ok _ _ _ tt (Some d)) by (apply fail_if_false, Z.leb_gt; lia).
  destruct (bs_write (ctx d) lba b) as (c' & E & Hc); [by rewrite (od_blocks _ _ Hd)|done|]. rewrite E.
  rewrite (od_blocks _ _ Hd) in Hc. eexists. split; [done|]. eapply with_ctx_disk; [done..|]. by rewrite length_insert.
Qed.

Lemma runs_flush bs : runs dev_flush bs (Ok tt) bs.
Proof.
  intros d Hd. unfold dev_flush. rewrite (bind_ok _ _ _ tt (Some d)) by done.
  rewrite (bind_ok _ _ _ d (Some d)) by done. rewrite (od_flush _ _ Hd).
  destruct (bs_flush (ctx d)) as (c' & E & Hc). rewrite E. rewrite (od_blocks _ _ Hd) in Hc.
  eexists. split; [done|]. by eapply with_ctx_disk.
Qed.
End runs.

(** ** The layout *)

Definition ib_of (bs : list (list Z)) : list Z := blk bs MCSFS1_INODE_BMAP_LBA.
Definition bb_of (bs : list (list Z)) : list Z := blk bs MCSFS1_BLOCK_BMAP_LBA.
Definition dir_of (bs : list (list Z)) : list Z := blk bs MCSFS1_ROOT_DIR_LBA.
Definition inode_of (bs : list (list Z)) (ino : Z) : list Z :=
  slice (inode_off ino) Fld.inode_bytes (blk bs (inode_lba ino)).

(** A file as it lies on the device. *)
Record file := mk_file {
  f_name : list Z;
  f_ino : Z;
  f_direct : list Z;
  f_data : list Z
}.

Definition needed (len : Z) : Z := if blocks_for len =? 0 then 1 else blocks_for len.

Record name_ok (name : list Z) : Prop := {
  no_len : (1 <= length name <= 26)%nat;
  no_nz : Forall (λ c, c ≠ 0) name;
  no_slash : existsb (λ c, c =? 47) name = false
}.

(** The blocks of a file in order, padded. *)
Definition blocks_data (bs : list (list Z)) (direct : list Z) (k : nat) : list Z :=
  concat (blk bs <$> take k direct).

Record file_rep (bs : list (list Z)) (f : file) : Prop := {
  fr_name : name_ok (f_name f);
  fr_ino : 2 <= f_ino f <= 32;
  fr_mode : mode_of (inode_of bs (f_ino f)) = MCSFS1_MODE_FILE;
  fr_size : size_of (inode_of bs (f_ino f)) = Z.of_nat (length (f_data f));
  fr_len : (length (f_data f) <= 8 * 512)%nat;
  fr_dlen : length (f_direct f) = 8%nat;
  fr_direct j b : f_direct f !! j = Some b → direct_of (inode_of bs (f_ino f)) j = b;
  fr_ibit : bm_test (ib_of bs) (f_ino f) = true;
  fr_block j b : f_direct f !! j = Some b → b ≠ 0 →
    8 <= b < Z.of_nat (length bs) ∧ bm_test (bb_of bs) b = true;
  fr_need j b : f_direct f !! j = Some b → Z.of_nat j < needed (Z.of_nat (length (f_data f))) → b ≠ 0;
  fr_data : f_data f = take (length (f_data f))
              (blocks_data bs (f_direct f) (Z.to_nat (needed (Z.of_nat (length (f_data f))))))
}.

Record slot_file (dir : list Z) (i : nat) (f : file) : Prop := {
  sf_ino : de_ino dir (Z.of_nat i) = f_ino f;
  sf_type : de_type dir (Z.of_nat i) = MCSFS1_MODE_FILE;
  sf_name : slice (dirent_off (Z.of_nat i) Fld.d_name) 27 dir = f_name f ++ zeros (27 - length (f_name f))
}.

Record disk_wf (bs : list (list Z)) : Prop := {
  dw_len : 16 <= Z.of_nat (length bs) <= 4096;
  dw_blocks : Forall (λ b, length b = 512%nat ∧ bytes_ok b) bs
}.

(** The checks of [load_super]. *)
Definition super_ok (n : Z) (sb : list Z) : Prop :=
  ld 4 Fld.magic sb = MCSFS1_MAGIC ∧ ld 4 Fld.version sb = MCSFS1_VERSION ∧
  ld 4 Fld.block_size sb = MCSFS1_BLOCK_SIZE ∧ ld 4 Fld.sb_block_count sb = n ∧
  ld 4 Fld.inode_count sb = MCSFS1_MAX_INODES ∧ ld 4 Fld.inode_bmap_lba sb = MCSFS1_INODE_BMAP_LBA ∧
  ld 4 Fld.block_bmap_lba sb = MCSFS1_BLOCK_BMAP_LBA ∧ ld 4 Fld.inode_table_lba sb = MCSFS1_INODE_TABLE_LBA ∧
  ld 4 Fld.root_ino sb = MCSFS1_ROOT_INO ∧ ld 4 Fld.root_dir_lba sb = MCSFS1_ROOT_DIR_LBA ∧
  ld 4 Fld.data_start_lba sb = MCSFS1_DATA_START_LBA.

(** The slots of the directory stand for [fl]. *)
Record fs_rep (bs : list (list Z)) (fl : list (option file)) : Prop := {
  rp_wf : disk_wf bs;
  rp_super : super_ok (Z.of_nat (length bs)) (blk bs MCSFS1_SB_LBA);
  rp_root : bad_root (inode_of bs MCSFS1_ROOT_INO) = false;
  rp_root_bit : bm_test (ib_of bs) MCSFS1_ROOT_INO = true;
  rp_meta b : 0 <= b < 8 → bm_test (bb_of bs) b = true;
  rp_slots : length fl = 16%nat;
  rp_free i : fl !! i = Some None → de_ino (dir_of bs) (Z.of_nat i) = 0;
  rp_slot i f : fl !! i = Some (Some f) → slot_file (dir_of bs) i f;
  rp_file i f : fl !! i = Some (Some f) → file_rep bs f;
  rp_inos i i' f f' : fl !! i = Some (Some f) → fl !! i' = Some (Some f') → f_ino f = f_ino f' → i = i';
  rp_names i i' f f' : fl !! i = Some (Some f) → fl !! i' = Some (Some f') → f_name f = f_name f' → i = i';
  rp_blocks i i' f f' j j' b : fl !! i = Some (Some f) → fl !! i' = Some (Some f') →
    f_direct f !! j = Some b → f_direct f' !! j' = Some b → b ≠ 0 → i = i' ∧ j = j';
  rp_ibits ino : 2 <= ino <= 32 → bm_test (ib_of bs) ino = true → ∃ i f, fl !! i = Some (Some f) ∧ f_ino f = ino
}.

(** ** Blocks *)

Lemma blk_insert_eq bs k b : 0 <= k < Z.of_nat (length bs) → blk (<[Z.to_nat k := b]> bs) k = b.
Proof. intros. unfold blk. by rewrite list_lookup_insert_eq by lia. Qed.

Lemma blk_insert_ne bs k b lba : k ≠ lba → 0 <= k → 0 <= lba → blk (<[Z.to_nat k := b]> bs) lba = blk bs lba.
Proof. intros. unfold blk. by rewrite list_lookup_insert_ne by lia. Qed.

Lemma wf_blk bs lba : disk_wf bs → 0 <= lba < Z.of_nat (length bs) → length (blk bs lba) = 512%nat ∧ bytes_ok (blk bs lba).
Proof.
  intros H Hl. unfold blk. destruct (lookup_lt_is_Some_2 bs (Z.to_nat lba) ltac:(lia)) as [b Hb]. rewrite Hb.
  exact (Forall_lookup_1 _ _ _ _ (dw_blocks _ H) Hb).
Qed.

Lemma wf_insert bs k b : disk_wf bs → length b = 512%nat → bytes_ok b → disk_wf (<[Z.to_nat k := b]> bs).
Proof.
  intros H Hl Hb. constructor; [rewrite length_insert; apply H|]. apply Forall_insert; [apply H|done].
Qed.

(** ** Inodes *)

Definition ino_ok (ino : Z) : Prop := 1 <= ino <= 32.

Lemma inode_lba_range ino : ino_ok ino → 3 <= inode_lba ino <= 6.
Proof.
  unfold ino_ok, inode_lba, per_block, MCSFS1_INODE_TABLE_LBA, MCSFS1_BLOCK_SIZE. intros.
  change (512 / Z.of_nat Fld.inode_bytes) with 8. pose proof (Z.div_le_mono (ino - 1) 31 8 ltac:(lia) ltac:(lia)).
  change (31 / 8) with 3 in *. pose proof (Z.div_pos (ino - 1) 8). lia.
Qed.

Lemma inode_off_eq ino : ino_ok ino → inode_off ino = (60 * Z.to_nat ((ino - 1) mod 8))%nat.
Proof.
  intros H. unfold inode_off, per_block, MCSFS1_BLOCK_SIZE. change (512 / Z.of_nat Fld.inode_bytes) with 8.
  pose proof (Z.mod_pos_bound (ino - 1) 8 ltac:(lia)). change (Z.of_nat Fld.inode_bytes) with 60. lia.
Qed.

Lemma inode_off_range ino : ino_ok ino → (inode_off ino + 60 <= 512)%nat.
Proof. intros H. rewrite inode_off_eq by done. pose proof (Z.mod_pos_bound (ino - 1) 8 ltac:(lia)). lia. Qed.

Lemma inode_place_inj ino ino' :
  ino_ok ino → ino_ok ino' → inode_lba ino = inode_lba ino' → inode_off ino = inode_off ino' → ino = ino'.
Proof.
  intros H H'. rewrite !inode_off_eq by done. unfold inode_lba, per_block, MCSFS1_BLOCK_SIZE.
  change (512 / Z.of_nat Fld.inode_bytes) with 8. intros E1 E2.
  pose proof (Z.mod_pos_bound (ino - 1) 8 ltac:(lia)). pose proof (Z.mod_pos_bound (ino' - 1) 8 ltac:(lia)).
  pose proof (Z.div_mod (ino - 1) 8 ltac:(lia)). pose proof (Z.div_mod (ino' - 1) 8 ltac:(lia)). lia.
Qed.

Definition put_inode (bs : list (list Z)) (ino : Z) (b : list Z) : list (list Z) :=
  <[Z.to_nat (inode_lba ino) := splice (inode_off ino) b (blk bs (inode_lba ino))]> bs.

Lemma length_put_inode bs ino b : length (put_inode bs ino b) = length bs.
Proof. apply length_insert. Qed.

Lemma inode_of_put_eq bs ino b :
  disk_wf bs → ino_ok ino → length b = 60%nat → inode_of (put_inode bs ino b) ino = b.
Proof.
  intros H Hi Hb. pose proof (inode_lba_range ino Hi). pose proof (dw_len _ H). unfold inode_of, put_inode.
  rewrite blk_insert_eq by lia. destruct (wf_blk bs (inode_lba ino) H ltac:(lia)) as [Hl _].
  apply slice_splice_eq; [done|]. pose proof (inode_off_range ino Hi). lia.
Qed.

Lemma inode_of_put_ne bs ino b ino' :
  disk_wf bs → ino_ok ino → ino_ok ino' → ino ≠ ino' → length b = 60%nat →
  inode_of (put_inode bs ino b) ino' = inode_of bs ino'.
Proof.
  intros H Hi Hi' Hne Hb. pose proof (inode_lba_range ino Hi). pose proof (inode_lba_range ino' Hi'). pose proof (dw_len _ H).
  unfold inode_of, put_inode. destruct (decide (inode_lba ino = inode_lba ino')) as [E|E].
  - rewrite <-E. rewrite blk_insert_eq by lia. apply slice_splice_ne. rewrite Hb. change Fld.inode_bytes with 60%nat.
    assert (inode_off ino ≠ inode_off ino') as Ho by (intros Eo; by apply Hne, inode_place_inj).
    revert Ho. rewrite !inode_off_eq by done. lia.
  - by rewrite blk_insert_ne by lia.
Qed.

Lemma blk_put_inode bs ino b lba : ino_ok ino → 0 <= lba → ~ (3 <= lba <= 6) → blk (put_inode bs ino b) lba = blk bs lba.
Proof. intros Hi Hl Hn. pose proof (inode_lba_range ino Hi). unfold put_inode. rewrite blk_insert_ne; [done|lia..]. Qed.

Lemma wf_put_inode bs ino b : disk_wf bs → ino_ok ino → bytes_ok b → disk_wf (put_inode bs ino b).
Proof.
  intros H Hi Hb. pose proof (inode_lba_range ino Hi). pose proof (dw_len _ H).
  destruct (wf_blk bs (inode_lba ino) H ltac:(lia)) as [Hl Hk]. apply wf_insert; [done| |by apply bytes_ok_splice].
  by rewrite length_splice.
Qed.

Lemma length_inode_of bs ino : disk_wf bs → ino_ok ino → length (inode_of bs ino) = 60%nat.
Proof.
  intros H Hi. pose proof (inode_lba_range ino Hi). pose proof (dw_len _ H). pose proof (inode_off_range ino Hi).
  destruct (wf_blk bs (inode_lba ino) H ltac:(lia)) as [Hl _]. apply length_slice. change Fld.inode_bytes with 60%nat. lia.
Qed.

Lemma bytes_ok_slice off n l : bytes_ok l → bytes_ok (slice off n l).
Proof. intros H. by apply Forall_take, Forall_drop. Qed.

Lemma inode_bytes_ok bs ino : disk_wf bs → ino_ok ino → bytes_ok (inode_of bs ino).
Proof.
  intros H Hi. pose proof (inode_lba_range ino Hi). pose proof (dw_len _ H). apply bytes_ok_slice.
  by destruct (wf_blk bs (inode_lba ino) H ltac:(lia)).
Qed.

Section metadata.
Context {C : Type} {rd : C → Z → Z * list Z * C} {wr : C → Z → list Z → Z * C} {fl : C → Z * C}.
Context {BS : BlockStore rd wr fl} (bs : list (list Z)) (W : disk_wf bs).

Lemma runs_read_inode ino : ino_ok ino → runs (BS := BS) (read_inode ino) bs (Ok (inode_of bs ino)) bs.
Proof.
  intros Hi. pose proof (inode_lba_range ino Hi). pose proof (dw_len _ W). unfold ino_ok in Hi. unfold read_inode.
  eapply runs_bind. { apply runs_pass. unfold MCSFS1_MAX_INODES. lia. }
  eapply runs_bind. { apply runs_pass. unfold MCSFS1_DATA_START_LBA. lia. }
  eapply runs_bind. { apply runs_read. lia. }
  apply runs_ret.
Qed.

Lemma runs_write_inode ino b :
  ino_ok ino → runs (BS := BS) (write_inode ino b) bs (Ok tt) (put_inode bs ino b).
Proof.
  intros Hi. pose proof (inode_lba_range ino Hi). pose proof (dw_len _ W). unfold ino_ok in Hi. unfold write_inode.
  eapply runs_bind. { apply runs_pass. unfold MCSFS1_MAX_INODES. lia. }
  eapply runs_bind. { apply runs_pass. unfold MCSFS1_DATA_START_LBA. lia. }
  eapply runs_bind. { apply runs_read. lia. }
  apply runs_write; [lia|]. rewrite length_splice. apply (wf_blk bs); [done|lia].
Qed.

Definition put_bmaps (ib bb : list Z) : list (list Z) := <[2%nat := bb]> (<[1%nat := ib]> bs).

Lemma runs_load_bmaps : runs (BS := BS) load_bmaps bs (Ok (ib_of bs, bb_of bs)) bs.
Proof.
  pose proof (dw_len _ W). unfold load_bmaps, MCSFS1_INODE_BMAP_LBA, MCSFS1_BLOCK_BMAP_LBA.
  eapply runs_bind. { apply runs_read. lia. } eapply runs_bind. { apply runs_read. lia. } apply runs_ret.
Qed.

Lemma runs_store_bmaps ib bb :
  length ib = 512%nat → length bb = 512%nat → runs (BS := BS) (store_bmaps ib bb) bs (Ok tt) (put_bmaps ib bb).
Proof.
  intros Hi Hb. pose proof (dw_len _ W). unfold store_bmaps, MCSFS1_INODE_BMAP_LBA, MCSFS1_BLOCK_BMAP_LBA.
  eapply runs_bind. { apply runs_write; [lia|done]. } apply (runs_write (BS := BS) _ 2); [rewrite length_insert; lia|done].
Qed.

Lemma runs_load_super :
  super_ok (Z.of_nat (length bs)) (blk bs MCSFS1_SB_LBA) →
  runs (BS := BS) load_super bs (Ok (blk bs MCSFS1_SB_LBA)) bs.
Proof.
  intros (H1 & H2 & H3 & H4 & H5 & H6 & H7 & H8 & H9 & H10 & H11). pose proof (dw_len _ W). unfold load_super.
  eapply runs_bind. { apply runs_read. unfold MCSFS1_SB_LBA. lia. }
  apply runs_deref. intros d Hd. rewrite H1, H2, H3, H4, H5, H6, H7, H8, H9, H10, H11, Hd.
  eapply runs_bind; [by apply runs_pass|]. eapply runs_bind; [apply runs_pass; by rewrite Z.eqb_refl|].
  do 2 (eapply runs_bind; [by apply runs_pass|]).
  eapply runs_bind; [apply runs_pass; unfold MCSFS1_DATA_START_LBA; lia|]. apply runs_ret.
Qed.
End metadata.

(** ** Names *)

Definition name_err (name : list Z) : option Z :=
  if (length name =? 0)%nat then Some MCSFS1_ERR_INVAL
  else if (27 <? length name)%nat then Some MCSFS1_ERR_NAMETOOLONG
  else if existsb (λ c, c =? 47) name then Some MCSFS1_ERR_INVAL
  else None.

Lemma strlen_nul name rest max n :
  Forall (λ c, c ≠ 0) name → (length name < max)%nat →
  strlen_from (name ++ 0 :: rest) max n = Ok (n + Z.of_nat (length name)).
Proof.
  intros H. revert max n. induction H as [|c name Hc _ IH]; intros max n Hm; (destruct max as [|max]; [simpl in Hm; lia|]).
  { simpl. f_equal. lia. }
  cbn [app strlen_from]. rewrite (proj2 (Z.eqb_neq c 0)) by done. simpl length in *. rewrite IH by lia. f_equal. lia.
Qed.

Lemma strlen_long s max n :
  Forall (λ c, c ≠ 0) (take max s) → (max <= length s)%nat → strlen_from s max n = Ok (n + Z.of_nat max).
Proof.
  revert s n. induction max as [|max IH]; intros s n Hz Hl; [simpl; f_equal; lia|].
  destruct s as [|c s]; [simpl in Hl; lia|]. change (take (S max) (c :: s)) with (c :: take max s) in Hz. apply Forall_cons in Hz as [Hc Hz]. cbn [strlen_from].
  rewrite (proj2 (Z.eqb_neq c 0)) by done. simpl length in Hl. rewrite IH by (done || lia). f_equal. lia.
Qed.

Lemma valid_name_run name :
  Forall (λ c, c ≠ 0) name →
  valid_name (Some name) = match name_err name with Some e => Err e | None => Ok (Z.of_nat (length name)) end.
Proof.
  intros Hz. unfold valid_name, name_err. cbn [fmap option_fmap option_map mcsfs_strlen_bound].
  change (Z.to_nat (MCSFS1_MAX_NAME + 1)) with 28%nat. destruct (Nat.ltb_spec 27 (length name)) as [Hl|Hl].
  - rewrite strlen_long; cycle 1.
    { unfold c_str. rewrite take_app_le by lia. by apply Forall_take. } { unfold c_str. rewrite length_app. lia. }
    rewrite (proj2 (Nat.eqb_neq _ 0)) by lia. done.
  - unfold c_str. rewrite (strlen_nul name [] 28 0 Hz) by lia. rewrite Z.add_0_l.
    destruct (Nat.eqb_spec (length name) 0) as [E|E].
    { by rewrite E. }
    rewrite (proj2 (Z.eqb_neq _ 0)) by lia. unfold MCSFS1_MAX_NAME. rewrite (proj2 (Z.ltb_ge 27 _)) by lia.
    rewrite Nat2Z.id. change (default [] (Some name)) with name. rewrite take_ge by done. by destruct (existsb _ name).
Qed.

Lemma memcmp_spec x y n :
  (n <= length x)%nat → (n <= length y)%nat → ∃ r, memcmp_from x y n = Ok r ∧ (r = 0 ↔ take n x = take n y).
Proof.
  revert x y. induction n as [|n IH]; intros x y Hx Hy; [by exists 0|].
  destruct x as [|a x], y as [|b y]; simpl in Hx, Hy; try lia. cbn [memcmp_from take].
  destruct (Z.eqb_spec a b) as [->|Hne].
  - destruct (IH x y) as (r & -> & Hr); [lia..|]. exists r. split; [done|]. rewrite Hr. split; [by intros ->|]. by intros [= ->].
  - exists (a - b). split; [done|]. split; [lia|]. intros [= -> _]. lia.
Qed.

(** ** The directory *)

Fixpoint find_slot (fl : list (option file)) (name : list Z) : option (nat * file) :=
  match fl with
  | [] => None
  | o :: fl =>
      let rest := prod_map S id <$> find_slot fl name in
      match o with
      | Some f => if decide (f_name f = name) then Some (0%nat, f) else rest
      | None => rest
      end
  end.

Lemma find_slot_Some fl name i f : find_slot fl name = Some (i, f) → fl !! i = Some (Some f) ∧ f_name f = name.
Proof.
  revert i. induction fl as [|o fl IH]; intros i; [done|]. cbn [find_slot].
  assert (prod_map S id <$> find_slot fl name = Some (i, f) → (o :: fl) !! i = Some (Some f) ∧ f_name f = name) as Hr.
  { intros ([j g] & E & [= -> ->])%fmap_Some. apply IH, E. }
  destruct o as [g|]; [|done]. destruct (decide (f_name g = name)); [by intros [= <- <-]|done].
Qed.

Lemma find_slot_None fl name i f : find_slot fl name = None → fl !! i = Some (Some f) → f_name f ≠ name.
Proof.
  revert i. induction fl as [|o fl IH]; intros i; [done|]. cbn [find_slot].
  destruct o as [g|]; [destruct (decide (f_name g = name)); [done|]|];
    (intros E%fmap_None; destruct i as [|i]; simpl; [intros [= ->]|by apply IH]); try done.
Qed.

Lemma de_name_split dir i : de_name dir i = slice (dirent_off i Fld.d_name) 27 dir ++ drop (dirent_off i Fld.d_name + 27) dir.
Proof. unfold de_name, slice. rewrite <-drop_drop. by rewrite take_drop. Qed.

Lemma slot_matches dir i f name :
  slot_file dir i f → name_ok (f_name f) → f_ino f ≠ 0 → name_ok name →
  de_matches dir name (Z.of_nat (length name)) (Z.of_nat i) = Ok (bool_decide (f_name f = name)).
Proof.
  intros [Hi _ Hn] [Hl Hz _] Hino [Hl' Hz' _]. unfold de_matches. rewrite Hi, (proj2 (Z.eqb_neq _ 0)) by done.
  rewrite de_name_split, Hn. cbn [mcsfs_strlen_bound]. change (Z.to_nat (MCSFS1_MAX_NAME + 1)) with 28%nat.
  destruct (27 - length (f_name f))%nat as [|k] eqn:Ek; [lia|]. change (zeros (S k)) with (0 :: zeros k).
  rewrite <-app_assoc. cbn [app]. rewrite strlen_nul by (done || lia). rewrite Z.add_0_l.
  destruct (decide (length (f_name f) = length name)) as [El|El].
  - rewrite El, Z.eqb_refl. cbn [negb]. unfold mcsfs_memcmp. rewrite Nat2Z.id.
    destruct (memcmp_spec (f_name f ++ 0 :: zeros k ++ drop (dirent_off (Z.of_nat i) Fld.d_name + 27) dir) name (length name))
      as (r & -> & Hr); [rewrite length_app; lia|done|].
    rewrite take_app_le, !take_ge in Hr by lia. f_equal. apply eq_true_iff_eq. by rewrite Z.eqb_eq, bool_decide_eq_true.
  - rewrite (proj2 (Z.eqb_neq _ _)) by lia. cbn [negb]. rewrite bool_decide_false; [done|]. intros E. by rewrite E in El.
Qed.

Lemma find_loop_run dir fl name l i :
  (∀ k, fl !! k = Some None → de_ino dir (Z.of_nat k) = 0) →
  (∀ k f, fl !! k = Some (Some f) → slot_file dir k f ∧ name_ok (f_name f) ∧ f_ino f ≠ 0) →
  name_ok name → l = drop i fl →
  find_loop dir name (Z.of_nat (length name)) (Z.of_nat i) (length l) =
    match find_slot l name with Some (j, f) => Ok (Z.of_nat (i + j), f_ino f) | None => Err MCSFS1_ERR_NOENT end.
Proof.
  intros Hfree Hfile Hn. revert i. induction l as [|o l IH]; intros i El; [done|].
  assert (fl !! i = Some o) as Ho by (rewrite <-(Nat.add_0_r i), <-lookup_drop, <-El; done).
  assert (l = drop (S i) fl) as El' by (rewrite <-Nat.add_1_r, <-drop_drop, <-El; done).
  cbn [length find_loop find_slot]. replace (Z.of_nat i + 1) with (Z.of_nat (S i)) by lia.
  assert (match prod_map S id <$> find_slot l name with Some (j, f) => Ok (Z.of_nat (i + j), f_ino f) | None => Err MCSFS1_ERR_NOENT end =
    find_loop dir name (Z.of_nat (length name)) (Z.of_nat (S i)) (length l)) as Hrest.
  { rewrite (IH (S i) El'). destruct (find_slot l name) as [[j f]|]; simpl; [|done]. do 2 f_equal. lia. }
  destruct o as [f|].
  - destruct (Hfile i f Ho) as (Hs & Hnf & Hino). rewrite (slot_matches dir i f name Hs Hnf Hino Hn).
    destruct (decide (f_name f = name)) as [E|E].
    + rewrite bool_decide_true by done. rewrite (sf_ino _ _ _ Hs), Nat.add_0_r. done.
    + rewrite bool_decide_false by done. done.
  - unfold de_matches. rewrite (Hfree i Ho). done.
Qed.

Lemma name_err_ok name : name_err name = None → length name ≠ 27%nat → Forall (λ c, c ≠ 0) name → name_ok name.
Proof.
  unfold name_err. destruct (Nat.eqb_spec (length name) 0); [done|]. destruct (Nat.ltb_spec 27 (length name)); [done|].
  destruct (existsb _ name) eqn:E; [done|]. intros _ H27 Hz. constructor; [lia|done|done].
Qed.

(** ** Finding and reading *)

(** A name as the callers pass it. A name of 27 characters is left out: it fills
    the directory entry without a terminating NUL. *)
Definition c_name (name : list Z) : Prop := Forall (λ c, 0 < c < 256) name ∧ length name ≠ 27%nat.

Lemma c_name_nz name : c_name name → Forall (λ c, c ≠ 0) name.
Proof. intros [H _]. eapply Forall_impl; [exact H|]. simpl. lia. Qed.

Lemma c_name_bytes name : c_name name → bytes_ok name.
Proof. intros [H _]. eapply Forall_impl; [exact H|]. unfold byte_ok. simpl. lia. Qed.

Definition find_spec (fl : list (option file)) (name : list Z) : res (nat * file) :=
  match name_err name with
  | Some e => Err e
  | None => match find_slot fl name with Some p => Ok p | None => Err MCSFS1_ERR_NOENT end
  end.

Lemma find_spec_Ok fl name i f : find_spec fl name = Ok (i, f) → fl !! i = Some (Some f) ∧ f_name f = name.
Proof.
  unfold find_spec. destruct (name_err name); [done|]. destruct (find_slot fl name) as [p|] eqn:E; [|done].
  intros [= ->]. by apply find_slot_Some.
Qed.

Lemma splice_splice_app {A} c (a b l : list A) :
  (c + length a + length b <= length l)%nat → splice (c + length a) b (splice c a l) = splice c (a ++ b) l.
Proof.
  intros H. apply list_eq. intros i. destruct (decide (i < c)%nat) as [H1|H1].
  { rewrite !lookup_splice_out by (rewrite ?length_app; lia). done. }
  destruct (decide (i < c + length a)%nat) as [H2|H2].
  { rewrite lookup_splice_out by lia. replace i with (c + (i - c))%nat by lia.
    rewrite !lookup_splice_in by (rewrite ?length_app; lia). by rewrite lookup_app_l by lia. }
  destruct (decide (i < c + length a + length b)%nat) as [H3|H3].
  - replace i with (c + length a + (i - c - length a))%nat at 1 by lia.
    rewrite lookup_splice_in by (rewrite ?length_splice; lia). replace i with (c + (i - c))%nat at 2 by lia.
    rewrite lookup_splice_in by (rewrite ?length_app; lia). rewrite lookup_app_r by lia. f_equal; lia.
  - rewrite !lookup_splice_out by (rewrite ?length_app; lia). done.
Qed.

Lemma splice_nil {A} c (l : list A) : splice c [] l = l.
Proof. apply list_eq. intros i. apply lookup_splice_out. simpl. lia. Qed.

Lemma concat_drop {A} (l : list (list A)) i : Forall (λ b, length b = 512%nat) l → drop (512 * i) (concat l) = concat (drop i l).
Proof.
  intros H. revert i. induction H as [|b l Hb _ IH]; intros i; [cbn [concat]; by rewrite !drop_nil|].
  destruct i as [|i]; [by rewrite Nat.mul_0_r, !drop_0|].
  replace (512 * S i)%nat with (length b + 512 * i)%nat by lia. cbn [concat]. rewrite drop_app_add. apply IH.
Qed.

(** The [i]th block of padded data. *)
Lemma data_chunk (D : list Z) len L i b :
  D = take len (concat L) → Forall (λ b, length b = 512%nat) L → L !! i = Some b →
  drop (512 * i) D = take (min 512 (len - 512 * i)) b ++ drop (512 * S i) D.
Proof.
  intros -> HL Hb. pose proof (Forall_lookup_1 _ _ _ _ HL Hb) as Hbl. simpl in Hbl.
  rewrite !skipn_firstn_comm, !concat_drop, (drop_S _ _ _ Hb) by done. cbn [concat]. rewrite firstn_app, Hbl.
  f_equal; [|f_equal; lia]. destruct (Nat.min_spec 512 (len - 512 * i)) as [[? ->]|[? ->]]; [|done].
  rewrite !take_ge by lia. done.
Qed.

Lemma blocks_for_eq len : 0 <= len <= 4096 → blocks_for len = (len + 511) / 512.
Proof. intros. unfold blocks_for, MCSFS1_BLOCK_SIZE. rewrite wrap_small by (unfold fits; lia). f_equal. lia. Qed.

(** [needed] blocks hold [len] bytes, and one fewer does not. *)
Lemma blocks_for_bounds len : 0 <= len <= 4096 →
  len <= 512 * blocks_for len < len + 512 ∧ 0 <= blocks_for len <= 8 ∧ needed len = Z.max 1 (blocks_for len).
Proof.
  intros H. unfold needed. rewrite blocks_for_eq by done. pose proof (Z.div_mod (len + 511) 512 ltac:(lia)).
  pose proof (Z.mod_pos_bound (len + 511) 512 ltac:(lia)). split; [lia|]. split; [lia|].
  destruct (Z.eqb_spec ((len + 511) / 512) 0); lia.
Qed.

Section lookups.
Context {C : Type} {rd : C → Z → Z * list Z * C} {wr : C → Z → list Z → Z * C} {fl : C → Z * C}.
Context {BS : BlockStore rd wr fl} (bs : list (list Z)) (fs : list (option file)) (R : fs_rep bs fs).

Lemma find_dirent_run name :
  c_name name →
  runs (BS := BS) (find_dirent (Some name)) bs (rmap (λ p, (Z.of_nat p.1, f_ino p.2)) (find_spec fs name)) bs.
Proof.
  intros Hcn. pose proof (c_name_nz _ Hcn) as Hz. destruct Hcn as [_ H27]. unfold find_dirent, find_spec. rewrite (valid_name_run name Hz).
  destruct (name_err name) as [e|] eqn:En; [by apply runs_bind_err, runs_lift|].
  eapply runs_bind; [apply runs_lift|].
  eapply runs_bind. { apply runs_read. pose proof (dw_len _ (rp_wf _ _ R)). unfold MCSFS1_ROOT_DIR_LBA. lia. }
  change (default [] (Some name)) with name. pose proof (rp_slots _ _ R) as H16.
  pose proof (find_loop_run (dir_of bs) fs name fs 0 (rp_free _ _ R)) as F. rewrite H16 in F.
  change (Z.to_nat MCSFS1_DIRENT_COUNT) with 16%nat. fold (dir_of bs). change (Z.of_nat 0) with 0 in F. rewrite F.
  - destruct (find_slot fs name) as [[j f]|]; apply runs_lift.
  - intros k f Hf. pose proof (rp_file _ _ R k f Hf) as Hr. split; [by apply (rp_slot _ _ R)|].
    split; [apply Hr|]. pose proof (fr_ino _ _ Hr). lia.
  - by apply name_err_ok.
  - done.
Qed.

Lemma open_file_run name :
  c_name name →
  runs (BS := BS) (open_file (Some name)) bs
    (rmap (λ p, (Z.of_nat p.1, f_ino p.2, inode_of bs (f_ino p.2))) (find_spec fs name)) bs.
Proof.
  intros Hn. unfold open_file. pose proof (find_dirent_run name Hn) as Hf.
  destruct (find_spec fs name) as [[i f]|rc|] eqn:E; cbn [rmap fst snd] in *.
  - apply find_spec_Ok in E as [Hi _]. pose proof (rp_file _ _ R i f Hi) as Hr. pose proof (fr_ino _ _ Hr).
    eapply runs_bind; [exact Hf|]. eapply runs_bind; [apply runs_read_inode; [apply R|unfold ino_ok; lia]|].
    eapply runs_bind; [apply runs_pass; by rewrite (fr_mode _ _ Hr)|]. apply runs_ret.
  - by apply runs_bind_err.
  - unfold find_spec in E. destruct (name_err name); [done|]. by destruct (find_slot fs name).
Qed.

Lemma stat_run m name :
  c_name name →
  runs (BS := BS) (mcsfs1_stat (Some m) (Some name) false) bs
    (rmap (λ p, Z.of_nat (length (f_data p.2))) (find_spec fs name)) bs.
Proof.
  intros Hn. unfold mcsfs1_stat, mounted. eapply runs_bind; [eapply runs_bind; [apply runs_null|apply runs_ret]|].
  eapply runs_bind; [by apply runs_pass|]. pose proof (open_file_run name Hn) as Hf.
  destruct (find_spec fs name) as [[i f]|rc|] eqn:E; cbn [rmap fst snd] in *.
  - apply find_spec_Ok in E as [Hi _]. eapply runs_bind; [exact Hf|]. cbv beta iota. rewrite (fr_size _ _ (rp_file _ _ R i f Hi)). apply runs_ret.
  - by apply runs_bind_err.
  - unfold find_spec in E. destruct (name_err name); [done|]. by destruct (find_slot fs name).
Qed.

Lemma file_blocks f : file_rep bs f →
  Forall (λ b, length b = 512%nat) (blk bs <$> take (Z.to_nat (needed (Z.of_nat (length (f_data f))))) (f_direct f)).
Proof.
  intros Hr. apply Forall_fmap, Forall_lookup. intros j b Hb. apply lookup_take_Some in Hb as [Hb Hj].
  destruct (fr_block _ _ Hr j b Hb) as [? _]; [apply (fr_need _ _ Hr j b Hb); lia|]. apply (wf_blk bs); [apply R|lia].
Qed.

Lemma read_loop_run f k : ∀ i buf,
  file_rep bs f → Z.of_nat (i + k) = blocks_for (Z.of_nat (length (f_data f))) →
  (length (f_data f) <= length buf)%nat →
  runs (BS := BS) (read_loop (Z.of_nat (length bs)) (inode_of bs (f_ino f)) buf (Z.of_nat (min (512 * i) (length (f_data f)))) i k) bs
    (Ok (splice (512 * i) (drop (512 * i) (f_data f)) buf)) bs.
Proof.
  induction k as [|k IH]; intros i buf Hr Hk Hbuf; cbn [read_loop].
  all: set (len := length (f_data f)) in *; pose proof (fr_len _ _ Hr) as Hlen; fold len in Hlen.
  all: destruct (blocks_for_bounds (Z.of_nat len) ltac:(lia)) as (Hb1 & Hb2 & Hnd).
  { rewrite drop_ge by (fold len; lia). rewrite splice_nil. apply runs_ret. }
  unfold MCSFS1_DIRECT_BLOCKS. rewrite (proj2 (Z.leb_gt 8 (Z.of_nat i))) by lia.
  destruct (lookup_lt_is_Some_2 (f_direct f) i) as [b Hb]; [rewrite (fr_dlen _ _ Hr); lia|].
  rewrite (fr_direct _ _ Hr i b Hb). pose proof (fr_need _ _ Hr i b Hb) as Hbn. fold len in Hbn. specialize (Hbn ltac:(lia)).
  destruct (fr_block _ _ Hr i b Hb Hbn) as [Hbr _].
  eapply runs_bind. { apply runs_pass. lia. } eapply runs_bind. { apply runs_read. lia. }
  rewrite (fr_size _ _ Hr). fold len. replace (min (512 * i) len) with (512 * i)%nat by lia.
  set (chunk := min 512 (len - 512 * i)).
  assert (chunk_of (Z.of_nat len - Z.of_nat (512 * i)) = Z.of_nat chunk) as ->.
  { unfold chunk_of, MCSFS1_BLOCK_SIZE. destruct (Z.ltb_spec 512 (Z.of_nat len - Z.of_nat (512 * i))); lia. }
  rewrite (proj2 (Z.ltb_ge _ _)) by lia. rewrite !Nat2Z.id.
  assert (drop (512 * i) (f_data f) = take chunk (blk bs b) ++ drop (512 * S i) (f_data f)) as Hd.
  { apply (data_chunk _ len (blk bs <$> take (Z.to_nat (needed (Z.of_nat len))) (f_direct f)) i); [apply (fr_data _ _ Hr)|by apply file_blocks|].
    rewrite list_lookup_fmap, lookup_take_lt, Hb by lia. done. }
  destruct (wf_blk bs b (rp_wf _ _ R) ltac:(lia)) as [H512 _].
  assert (length (take chunk (blk bs b)) = chunk) as Hc by (rewrite length_take; lia).
  replace (Z.of_nat (512 * i) + Z.of_nat chunk) with (Z.of_nat (min (512 * S i) len)) by lia.
  assert (splice (512 * i) (drop (512 * i) (f_data f)) buf =
    splice (512 * S i) (drop (512 * S i) (f_data f)) (splice (512 * i) (take chunk (blk bs b)) buf)) as ->.
  { rewrite Hd. destruct (decide (512 * S i <= len)%nat).
    - replace (512 * S i)%nat with (512 * i + length (take chunk (blk bs b)))%nat at 2 by lia.
      rewrite splice_splice_app; [done|]. rewrite Hc, length_drop. fold len. lia.
    - rewrite (drop_ge (f_data f)) by (fold len; lia). by rewrite app_nil_r, splice_nil. }
  apply IH; [done|fold len; lia|]. rewrite length_splice. done.
Qed.

Lemma find_spec_not_ub name : find_spec fs name ≠ Ub.
Proof. unfold find_spec. destruct (name_err name); [done|]. by destruct (find_slot fs name). Qed.

Lemma read_run m name buf cap :
  c_name name → mnt_block_count m = Z.of_nat (length bs) → cap <= Z.of_nat (length buf) →
  runs (BS := BS) (mcsfs1_read (Some m) (Some name) (Some buf) cap false) bs
    (match find_spec fs name with
     | Ok (_, f) =>
         if cap <? Z.of_nat (length (f_data f)) then Err MCSFS1_ERR_RANGE
         else Ok (splice 0 (f_data f) buf, Z.of_nat (length (f_data f)))
     | Err rc => Err rc
     | Ub => Ub
     end) bs.
Proof.
  intros Hn Hm Hcap. unfold mcsfs1_read, mounted. eapply runs_bind; [eapply runs_bind; [apply runs_null|apply runs_ret]|].
  cbv beta iota. eapply runs_bind; [by apply runs_pass|]. pose proof (open_file_run name Hn) as Hf.
  pose proof (find_spec_not_ub name) as Hub.
  destruct (find_spec fs name) as [[i f]|rc|] eqn:E; cbn [rmap fst snd] in *; [|by apply runs_bind_err|done].
  apply find_spec_Ok in E as [Hi _]. pose proof (rp_file _ _ R i f Hi) as Hr.
  eapply runs_bind; [exact Hf|]. cbv beta iota. rewrite (fr_size _ _ Hr).
  destruct (Z.ltb_spec cap (Z.of_nat (length (f_data f)))) as [Hlt|Hge].
  { eapply runs_bind_err. by apply runs_stop. }
  eapply runs_bind; [by apply runs_pass|]. pose proof (fr_len _ _ Hr).
  destruct (blocks_for_bounds (Z.of_nat (length (f_data f))) ltac:(lia)) as (_ & Hb2 & _).
  pose proof (read_loop_run f (Z.to_nat (blocks_for (Z.of_nat (length (f_data f))))) 0 buf Hr) as HL.
  rewrite Hm. eapply runs_bind; [apply HL; lia|]. apply runs_ret.
Qed.

Lemma fs_mount_run : runs (BS := BS) (mcsfs1_mount_dev false) bs (Ok (mk_mount (Z.of_nat (length bs)) MCSFS1_DATA_START_LBA)) bs.
Proof.
  unfold mcsfs1_mount_dev. pose proof (rp_super _ _ R) as Hs. eapply runs_bind; [by apply runs_pass|]. eapply runs_bind; [apply runs_null|].
  eapply runs_bind; [apply runs_load_super; [apply R|done]|].
  eapply runs_bind; [apply runs_read_inode; [apply R|unfold ino_ok, MCSFS1_ROOT_INO; lia]|].
  eapply runs_bind; [apply runs_pass, R|]. destruct Hs as (_ & _ & _ & -> & _ & _ & _ & _ & _ & _ & ->). apply runs_ret.
Qed.

Lemma bit_run b i : length b = 512%nat → i < 4096 → bm_test b i = true → runs (BS := BS) (bit_or_corrupt b i) bs (Ok tt) bs.
Proof.
  intros Hl Hi Ht. unfold bit_or_corrupt, bit_test. rewrite Hl, (proj2 (Z.leb_gt _ _)) by lia.
  eapply runs_bind; [apply runs_lift|]. apply runs_pass. by rewrite Ht.
Qed.

Lemma fsck_file_run i f : fs !! i = Some (Some f) →
  runs (BS := BS) (fsck_dirent (ib_of bs) (bb_of bs) (dir_of bs) (Z.of_nat i)) bs (Ok tt) bs.
Proof.
  intros Hi. pose proof (rp_file _ _ R i f Hi) as Hr. pose proof (rp_slot _ _ R i f Hi) as [Hino Hty _].
  pose proof (fr_ino _ _ Hr). pose proof (dw_len _ (rp_wf _ _ R)). pose proof (fr_len _ _ Hr).
  unfold fsck_dirent. rewrite Hino, Hty, (proj2 (Z.eqb_neq (f_ino f) 0)) by lia.
  eapply runs_bind; [apply runs_pass; unfold MCSFS1_MAX_INODES, MCSFS1_MODE_FILE; lia|].
  eapply runs_bind; [apply bit_run; [|lia|apply Hr]|].
  { apply (wf_blk bs); [apply R|unfold MCSFS1_INODE_BMAP_LBA; lia]. }
  eapply runs_bind; [apply runs_read_inode; [apply R|unfold ino_ok; lia]|].
  rewrite (fr_mode _ _ Hr), (fr_size _ _ Hr).
  eapply runs_bind; [apply runs_pass; unfold MCSFS1_MODE_FILE, MCSFS1_DIRECT_BLOCKS, MCSFS1_BLOCK_SIZE; lia|].
  fold (needed (Z.of_nat (length (f_data f)))). apply runs_iter. intros j Hj%elem_of_seq.
  destruct (blocks_for_bounds (Z.of_nat (length (f_data f))) ltac:(lia)) as (_ & Hb2 & Hnd).
  destruct (lookup_lt_is_Some_2 (f_direct f) j) as [b Hb]; [rewrite (fr_dlen _ _ Hr); lia|].
  destruct (fr_block _ _ Hr j b Hb) as [Hbr Hbit]; [apply (fr_need _ _ Hr j b Hb); lia|].
  unfold fsck_block. apply runs_deref. intros d Hd. rewrite (fr_direct _ _ Hr j b Hb), Hd.
  eapply runs_bind; [apply runs_pass; unfold MCSFS1_DATA_START_LBA; lia|]. apply bit_run; [|lia|done].
  apply (wf_blk bs); [apply R|unfold MCSFS1_BLOCK_BMAP_LBA; lia].
Qed.

Lemma fs_fsck_run : runs (BS := BS) mcsfs1_fsck bs (Ok tt) bs.
Proof.
  pose proof (dw_len _ (rp_wf _ _ R)). pose proof (rp_wf _ _ R) as W. unfold mcsfs1_fsck.
  assert (length (ib_of bs) = 512%nat) as Hib by (apply (wf_blk bs); [done|unfold MCSFS1_INODE_BMAP_LBA; lia]).
  assert (length (bb_of bs) = 512%nat) as Hbb by (apply (wf_blk bs); [done|unfold MCSFS1_BLOCK_BMAP_LBA; lia]).
  eapply runs_bind; [apply runs_null|]. eapply runs_bind; [by apply runs_load_super, R|].
  eapply runs_bind; [by apply runs_load_bmaps|]. cbv beta iota.
  eapply runs_bind; [apply bit_run; [done|unfold MCSFS1_ROOT_INO; lia|apply R]|].
  eapply runs_bind; [apply bit_run; [done|unfold MCSFS1_ROOT_DIR_LBA; lia|apply R; unfold MCSFS1_ROOT_DIR_LBA; lia]|].
  eapply runs_bind.
  { apply runs_iter. intros b Hb%elem_of_seqZ. unfold MCSFS1_DATA_START_LBA in Hb. apply bit_run; [done|lia|apply R; lia]. }
  eapply runs_bind; [apply runs_read_inode; [done|unfold ino_ok, MCSFS1_ROOT_INO; lia]|].
  eapply runs_bind; [apply runs_pass, R|]. eapply runs_bind; [apply runs_read; unfold MCSFS1_ROOT_DIR_LBA; lia|].
  apply runs_iter. intros x Hx%elem_of_seqZ. unfold MCSFS1_DIRENT_COUNT in Hx.
  destruct (lookup_lt_is_Some_2 fs (Z.to_nat x)) as [o Ho]; [rewrite (rp_slots _ _ R); lia|].
  replace x with (Z.of_nat (Z.to_nat x)) by lia. fold (dir_of bs). destruct o as [f|]; [by eapply fsck_file_run|].
  unfold fsck_dirent. rewrite (rp_free _ _ R _ Ho). apply runs_ret.
Qed.
End lookups.
