(* ===== verification/Mcsfs1Ops.v ===== *)
(** * MCSFS1: what the operations that change the device do to the files *)

From Stdlib Require Import ZArith Lia.
From stdpp Require Import base numbers option list.
From S2P Require Import Prelude Bitmap Mcsfs1 Mcsfs1Proof.

Local Open Scope Z_scope.
Local Open Scope cm_scope.

(** ** Bitmaps *)

Lemma first_clear_run b i n :
  length b = 512%nat → 0 < i → i + Z.of_nat n <= 4096 →
  (first_clear b i n = Ok 0 ∧ ∀ k, i <= k < i + Z.of_nat n → bm_test b k = true) ∨
  ∃ r, first_clear b i n = Ok r ∧ i <= r < i + Z.of_nat n ∧ bm_test b r = false.
Proof.
  intros Hl. revert i. induction n as [|n IH]; intros i Hi Hn; cbn [first_clear].
  { left. split; [done|]. lia. }
  unfold bit_test. rewrite Hl, (proj2 (Z.leb_gt _ _)) by lia. destruct (bm_test b i) eqn:Et.
  - destruct (IH (i + 1)) as [[E H]|(r & E & Hr & Ht)]; [lia..| |].
    + left. split; [done|]. intros k Hk. destruct (decide (k = i)) as [->|]; [done|]. apply H. lia.
    + right. exists r. split_and!; try done; lia.
  - right. exists i. split_and!; try done; lia.
Qed.

(** [b'] has the bits of [b] and possibly more. *)
Definition bits_le (b b' : list Z) : Prop := ∀ k, 0 <= k → bm_test b k = true → bm_test b' k = true.

Definition bm_ok (b : list Z) : Prop := length b = 512%nat ∧ bytes_ok b.

Lemma set_bit_ok b k : bm_ok b → 0 <= k < 4096 →
  bm_ok (bit_set b k) ∧ (∀ j, 0 <= j → bm_test (bit_set b k) j = (bm_test b j || (j =? k))%bool).
Proof.
  intros [Hl Hb] Hk. unfold bit_set. split; [split; [by rewrite length_bm_set|by apply bytes_ok_bm_set]|].
  intros j Hj. apply bm_test_set; [done|unfold bm_in; lia|done].
Qed.

Lemma clear_bit_ok b k : bm_ok b → 0 <= k < 4096 →
  bm_ok (bit_clear b k) ∧ (∀ j, 0 <= j → bm_test (bit_clear b k) j = (bm_test b j && negb (j =? k))%bool).
Proof.
  intros [Hl Hb] Hk. unfold bit_clear. split; [split; [by rewrite length_bm_clear|by apply bytes_ok_bm_clear]|].
  intros j Hj. apply bm_test_clear; [done|unfold bm_in; lia|done].
Qed.

Lemma ib_ok bs : disk_wf bs → bm_ok (ib_of bs).
Proof. intros H. pose proof (dw_len _ H). apply (wf_blk bs); [done|unfold MCSFS1_INODE_BMAP_LBA; lia]. Qed.
Lemma bb_ok bs : disk_wf bs → bm_ok (bb_of bs).
Proof. intros H. pose proof (dw_len _ H). apply (wf_blk bs); [done|unfold MCSFS1_BLOCK_BMAP_LBA; lia]. Qed.

(** ** Storing bitmaps *)

Section put_bmaps.
Context (bs : list (list Z)) (W : disk_wf bs) (ib bb : list Z) (Hi : bm_ok ib) (Hb : bm_ok bb).

Lemma length_put_bmaps : length (put_bmaps bs ib bb) = length bs.
Proof using. unfold put_bmaps. by rewrite !length_insert. Qed.

Lemma wf_put_bmaps : disk_wf (put_bmaps bs ib bb).
Proof.
  unfold put_bmaps. destruct Hi, Hb. apply (wf_insert _ 2); [|done..]. by apply (wf_insert _ 1).
Qed.

Lemma ib_put_bmaps : ib_of (put_bmaps bs ib bb) = ib.
Proof.
  pose proof (dw_len _ W). unfold ib_of, put_bmaps, MCSFS1_INODE_BMAP_LBA.
  rewrite (blk_insert_ne _ 2) by done. apply (blk_insert_eq _ 1). lia.
Qed.

Lemma bb_put_bmaps : bb_of (put_bmaps bs ib bb) = bb.
Proof.
  pose proof (dw_len _ W). unfold bb_of, put_bmaps, MCSFS1_BLOCK_BMAP_LBA.
  apply (blk_insert_eq _ 2). rewrite length_insert. lia.
Qed.

Lemma blk_put_bmaps lba : 0 <= lba → lba ≠ 1 → lba ≠ 2 → blk (put_bmaps bs ib bb) lba = blk bs lba.
Proof using. intros. unfold put_bmaps. rewrite (blk_insert_ne _ 2), (blk_insert_ne _ 1); done. Qed.

Lemma inode_put_bmaps ino : ino_ok ino → inode_of (put_bmaps bs ib bb) ino = inode_of bs ino.
Proof using. intros Ho. pose proof (inode_lba_range ino Ho). unfold inode_of. rewrite blk_put_bmaps; [done|lia..]. Qed.
End put_bmaps.

(** ** Frames *)

(** A file whose inode, bits and blocks are kept is kept. *)
Lemma file_frame bs bs' f :
  file_rep bs f → length bs' = length bs → inode_of bs' (f_ino f) = inode_of bs (f_ino f) →
  bm_test (ib_of bs') (f_ino f) = true →
  (∀ j b, f_direct f !! j = Some b → b ≠ 0 → bm_test (bb_of bs') b = true ∧ blk bs' b = blk bs b) →
  file_rep bs' f.
Proof.
  intros Hr Hl Hino Hib Hblk. destruct Hr. constructor; rewrite ?Hino, ?Hl; try done.
  - intros j b Hj Hb. split; [by eapply fr_block|by eapply Hblk].
  - rewrite fr_data at 1. f_equal. unfold blocks_data. f_equal. apply list_fmap_ext. intros j b Hj.
    apply lookup_take_Some in Hj as [Hj Hlt]. symmetry. apply (Hblk j b Hj). apply (fr_need j b Hj). lia.
Qed.

(** ** Directory entries *)

Definition slot_bytes (dir : list Z) (i : nat) : list Z := slice (32 * i) 32 dir.

Lemma slice_slice {A} (l : list A) a m o n : (o + n <= m)%nat → slice o n (slice a m l) = slice (a + o) n l.
Proof.
  intros H. apply list_eq. intros i. destruct (decide (i < n)%nat).
  - rewrite !lookup_slice by lia. f_equal. lia.
  - rewrite !lookup_ge_None_2; [done|..]; unfold slice; rewrite length_take; lia.
Qed.

Lemma slot_field dir dir' i o n : slot_bytes dir' i = slot_bytes dir i → (o + n <= 32)%nat →
  slice (dirent_off (Z.of_nat i) o) n dir' = slice (dirent_off (Z.of_nat i) o) n dir.
Proof.
  intros E Ho. unfold dirent_off. rewrite Nat2Z.id, Nat.mul_comm. change Fld.dirent_bytes with 32%nat.
  rewrite <-!(slice_slice _ (32 * i) 32) by done. by unfold slot_bytes in E; rewrite E.
Qed.

Lemma de_ino_ext dir dir' i : slot_bytes dir' i = slot_bytes dir i → de_ino dir' (Z.of_nat i) = de_ino dir (Z.of_nat i).
Proof. intros E. unfold de_ino, ld. by rewrite (slot_field dir dir') by (done || unfold Fld.d_ino; lia). Qed.

Lemma slot_file_ext dir dir' i f : slot_bytes dir' i = slot_bytes dir i → slot_file dir i f → slot_file dir' i f.
Proof.
  intros E [H1 H2 H3]. constructor.
  - by rewrite (de_ino_ext dir dir').
  - rewrite <-H2. unfold de_type, ld. by rewrite (slot_field dir dir') by (done || unfold Fld.d_type; lia).
  - rewrite <-H3. apply slot_field; [done|]. unfold Fld.d_name. lia.
Qed.

Lemma set_dirent_other dir i j ino name n : i ≠ j → n <= 27 → slot_bytes (set_dirent dir (Z.of_nat i) ino name n) j = slot_bytes dir j.
Proof.
  intros Hne Hn. unfold set_dirent, slot_bytes, st, dirent_off. rewrite Nat2Z.id.
  unfold Fld.dirent_bytes, Fld.d_name, Fld.d_type, Fld.d_ino.
  rewrite !slice_splice_ne; [done|..]; rewrite ?length_le_bytes, ?length_take; unfold zeros; rewrite ?length_replicate;
    change (Z.to_nat MCSFS1_MAX_NAME) with 27%nat; lia.
Qed.

Lemma set_dirent_slot dir i ino name :
  length dir = 512%nat → (i < 16)%nat → fits 32 ino → (length name <= 27)%nat →
  slot_file (set_dirent dir (Z.of_nat i) ino name (Z.of_nat (length name))) i (mk_file name ino [] []).
Proof.
  intros Hd Hi Hf Hn. unfold set_dirent. rewrite Nat2Z.id, (take_ge name) by done.
  change (Z.to_nat MCSFS1_MAX_NAME) with 27%nat. set (d1 := st 1 _ _ _).
  assert (length d1 = 512%nat) as Hd1 by (unfold d1; by rewrite !length_st).
  constructor; cbn [f_ino f_name].
  - unfold de_ino, ld. rewrite !slice_splice_ne.
    + fold (ld 4 (dirent_off (Z.of_nat i) Fld.d_ino) d1). unfold d1, dirent_off, Fld.dirent_bytes, Fld.d_ino, Fld.d_type.
      rewrite Nat2Z.id, ld_st_ne by lia. apply ld_st_eq; [lia|done].
    + unfold dirent_off, Fld.d_ino, Fld.d_name. lia.
    + unfold dirent_off, Fld.d_ino, Fld.d_name. lia.
  - unfold de_type, ld. rewrite !slice_splice_ne.
    + fold (ld 1 (dirent_off (Z.of_nat i) Fld.d_type) d1). unfold d1. apply ld_st_eq; [|done].
      rewrite length_st. unfold dirent_off, Fld.dirent_bytes, Fld.d_type. rewrite Nat2Z.id. lia.
    + unfold dirent_off, Fld.d_type, Fld.d_name. lia.
    + unfold dirent_off, Fld.d_type, Fld.d_name. lia.
  - set (o := dirent_off (Z.of_nat i) Fld.d_name).
    assert (o + 27 <= 512)%nat as Ho by (unfold o, dirent_off, Fld.dirent_bytes, Fld.d_name; rewrite Nat2Z.id; lia).
    apply list_eq. intros k. destruct (decide (k < 27)%nat) as [Hk|Hk].
    + rewrite lookup_slice by done. destruct (decide (k < length name)%nat).
      * rewrite lookup_splice_in by (rewrite ?length_splice; lia). by rewrite lookup_app_l.
      * rewrite lookup_splice_out by lia. unfold zeros. rewrite lookup_splice_in by (rewrite length_replicate; lia).
        rewrite lookup_app_r by lia. rewrite !lookup_replicate_2 by lia. done.
    + rewrite !lookup_ge_None_2; [done|unfold zeros; rewrite length_app, length_replicate; lia|].
      unfold slice. rewrite length_take. lia.
Qed.

(** ** Inodes as fields *)

Record inode_fields (b : list Z) (size : Z) (direct : list Z) : Prop := {
  nf_len : length b = 60%nat;
  nf_bytes : bytes_ok b;
  nf_mode : mode_of b = MCSFS1_MODE_FILE;
  nf_size : size_of b = size;
  nf_dlen : length direct = 8%nat;
  nf_direct j x : direct !! j = Some x → direct_of b j = x
}.

Lemma bytes_ok_zeros n : bytes_ok (zeros n).
Proof. apply Forall_replicate. unfold byte_ok. lia. Qed.

Lemma new_inode_fields b : fits 32 b → inode_fields (new_inode MCSFS1_MODE_FILE 0 b) 0 (b :: replicate 7 0).
Proof.
  intros Hb. unfold new_inode. constructor; try done.
  - apply bytes_ok_st, bytes_ok_st, bytes_ok_st, bytes_ok_st, bytes_ok_zeros.
  - intros j x Hj. pose proof (lookup_lt_Some _ _ _ Hj) as Hlt. simpl in Hlt. unfold direct_of.
    destruct j as [|j]; simpl in Hj.
    + injection Hj as <-. apply ld_st_eq; [|done]. rewrite !length_st. unfold zeros. rewrite length_replicate. unfold Fld.direct, Fld.inode_bytes. lia.
    + apply (lookup_replicate 7) in Hj as [-> Hj]. unfold Fld.direct, Fld.size, Fld.links, Fld.mode.
      rewrite !ld_st_ne by lia. apply ld_replicate.
Qed.

Lemma set_direct_fields b size direct i x :
  inode_fields b size direct → (i < 8)%nat → fits 32 x →
  inode_fields (st 4 (Fld.direct i) x b) size (<[i := x]> direct).
Proof.
  intros [H1 H2 H3 H4 H5 H6] Hi Hx. constructor.
  - by rewrite length_st.
  - by apply bytes_ok_st.
  - rewrite <-H3. unfold mode_of, Fld.mode, Fld.direct. apply ld_st_ne. lia.
  - rewrite <-H4. unfold size_of, Fld.size, Fld.direct. apply ld_st_ne. lia.
  - by rewrite length_insert.
  - intros j y Hj. unfold direct_of. destruct (decide (i = j)) as [<-|Hne].
    + rewrite list_lookup_insert_eq in Hj by lia. injection Hj as <-. apply ld_st_eq; [unfold Fld.direct; lia|done].
    + rewrite list_lookup_insert_ne in Hj by done. rewrite <-(H6 j y Hj). unfold direct_of, Fld.direct.
      apply ld_st_ne. pose proof (lookup_lt_Some _ _ _ Hj). lia.
Qed.

Lemma set_size_fields b size direct n :
  inode_fields b size direct → fits 32 n → inode_fields (st 4 Fld.size n b) n direct.
Proof.
  intros [H1 H2 H3 H4 H5 H6] Hn. constructor; try done.
  - by rewrite length_st.
  - by apply bytes_ok_st.
  - rewrite <-H3. unfold mode_of, Fld.mode, Fld.size. apply ld_st_ne. lia.
  - unfold size_of. apply ld_st_eq; [rewrite H1; unfold Fld.size; lia|done].
  - intros j y Hj. rewrite <-(H6 j y Hj). unfold direct_of, Fld.direct, Fld.size. apply ld_st_ne. lia.
Qed.

Lemma file_fields bs f : disk_wf bs → file_rep bs f →
  inode_fields (inode_of bs (f_ino f)) (Z.of_nat (length (f_data f))) (f_direct f).
Proof.
  intros W Hr. pose proof (fr_ino _ _ Hr). constructor; try apply Hr.
  - apply length_inode_of; [done|]. unfold ino_ok. lia.
  - apply inode_bytes_ok; [done|]. unfold ino_ok. lia.
Qed.

(** ** Allocation *)

Definition full (bs : list (list Z)) : Prop := ∀ b, 8 <= b < Z.of_nat (length bs) → bm_test (bb_of bs) b = true.

(** Every data block marked used belongs to a file. *)
Definition exact (bs : list (list Z)) (fs : list (option file)) : Prop :=
  ∀ b, 8 <= b < Z.of_nat (length bs) → bm_test (bb_of bs) b = true → ∃ i f j, fs !! i = Some (Some f) ∧ f_direct f !! j = Some b.

(** Block [b] is marked used and belongs to no file. *)
Definition lost (bs : list (list Z)) (fs : list (option file)) (b : Z) : Prop :=
  8 <= b < Z.of_nat (length bs) ∧ bm_test (bb_of bs) b = true ∧
  ∀ i f, fs !! i = Some (Some f) → b ∉ f_direct f.

Definition keeps_lost (bs : list (list Z)) (fs : list (option file)) (bs' : list (list Z)) (fs' : list (option file)) : Prop :=
  ∀ b, lost bs fs b → lost bs' fs' b.

Lemma keeps_lost_refl bs fs : keeps_lost bs fs bs fs.
Proof. by intros b. Qed.
#[export] Hint Resolve keeps_lost_refl : core.

Lemma slot_cases {A} (fs : list (option A)) i o j f :
  <[i := o]> fs !! j = Some (Some f) → (i = j ∧ o = Some f) ∨ (i ≠ j ∧ fs !! j = Some (Some f)).
Proof.
  intros H. destruct (decide (i = j)) as [<-|Hne].
  - left. split; [done|]. pose proof (lookup_lt_Some _ _ _ H) as Hl. rewrite length_insert in Hl.
    rewrite list_lookup_insert_eq in H by done. congruence.
  - right. by rewrite list_lookup_insert_ne in H.
Qed.

(** A file changes, and its new blocks were free. *)
Lemma keeps_lost_slot bs fs bs' i o :
  length bs' = length bs →
  (∀ b, lost bs fs b → bm_test (bb_of bs') b = true) →
  (∀ f b, o = Some f → b ∈ f_direct f → lost bs fs b → False) →
  keeps_lost bs fs bs' (<[i := o]> fs).
Proof.
  intros Hl Hbits Ho b Hb. pose proof Hb as (Hr & Ht & Hno). split; [by rewrite Hl|]. split; [by apply Hbits|].
  intros j f [[-> ->]|[Hne Hj]]%slot_cases Hin.
  - by apply (Ho f b).
  - by apply (Hno j f).
Qed.

Section alloc.
Context {C : Type} {rd : C → Z → Z * list Z * C} {wr : C → Z → list Z → Z * C} {fl : C → Z * C}.
Context {BS : BlockStore rd wr fl}.

Lemma alloc_data_run bs : disk_wf bs →
  (runs (BS := BS) alloc_data_block bs (Err MCSFS1_ERR_NOSPC) bs ∧ full bs) ∨
  ∃ b, 8 <= b < Z.of_nat (length bs) ∧ bm_test (bb_of bs) b = false ∧
    runs (BS := BS) alloc_data_block bs (Ok b) (put_bmaps bs (ib_of bs) (bit_set (bb_of bs) b)).
Proof.
  intros W. pose proof (dw_len _ W) as Hl. pose proof (bb_ok _ W) as Hbb. pose proof (ib_ok _ W) as [Hil _]. unfold alloc_data_block.
  destruct (first_clear_run (bb_of bs) 8 (Z.to_nat (Z.of_nat (length bs) - 8))) as [[E Hf]|(b & E & Hb & Ht)]; [apply Hbb|lia|lia| |].
  - left. split; [|intros b Hb; apply Hf; lia]. eapply runs_bind; [by apply runs_load_bmaps|]. cbv beta iota.
    apply runs_deref. intros d Hd. rewrite Hd. unfold MCSFS1_DATA_START_LBA. rewrite E.
    eapply runs_bind; [apply runs_lift|]. apply runs_bind_err, runs_stop. done.
  - right. exists b. split; [lia|]. split; [done|]. eapply runs_bind; [by apply runs_load_bmaps|]. cbv beta iota.
    apply runs_deref. intros d Hd. rewrite Hd. unfold MCSFS1_DATA_START_LBA. rewrite E.
    eapply runs_bind; [apply runs_lift|]. eapply runs_bind; [apply runs_pass; lia|].
    eapply runs_bind; [apply runs_store_bmaps; [done|done|apply (set_bit_ok _ b Hbb); lia]|]. apply runs_ret.
Qed.

Lemma omap_length_le {A B} (f : A → option B) l : (length (omap f l) <= length l)%nat.
Proof. induction l as [|x l IH]; [done|]. change (omap f (x :: l)) with (match f x with Some y => y :: omap f l | None => omap f l end). destruct (f x); cbn [length]; lia. Qed.

(** There are more inodes than directory slots. *)
Lemma free_inode bs fs : fs_rep bs fs → ∃ ino, 2 <= ino <= 32 ∧ bm_test (ib_of bs) ino = false.
Proof.
  intros R. destruct (decide (Forall (λ ino, bm_test (ib_of bs) ino = true) (seqZ 2 31))) as [Hall|Hn].
  - exfalso. assert (length (seqZ 2 31) <= length (omap (λ o, f_ino <$> o) fs))%nat as Hle.
    { apply NoDup_incl_length; [apply NoDup_ListNoDup, NoDup_seqZ|]. intros ino Hino%list_elem_of_In.
      rewrite Forall_forall in Hall. pose proof (Hall ino Hino) as Hb. apply elem_of_seqZ in Hino.
      destruct (rp_ibits _ _ R ino ltac:(lia) Hb) as (i & f & Hf & <-). apply list_elem_of_In, list_elem_of_omap.
      exists (Some f). split; [by eapply list_elem_of_lookup_2|done]. }
    pose proof (omap_length_le (λ o : option file, f_ino <$> o) fs) as Hom.
    rewrite (rp_slots _ _ R) in Hom. rewrite length_seqZ in Hle. lia.
  - apply not_Forall_Exists, Exists_exists in Hn as (ino & Hi & Hb); [|apply _]. apply elem_of_seqZ in Hi.
    exists ino. split; [lia|]. by apply not_true_iff_false.
Qed.

Lemma alloc_inode_free bs k : disk_wf bs → 2 <= k <= 32 → bm_test (ib_of bs) k = false →
  (runs (BS := BS) alloc_inode_block bs (Err MCSFS1_ERR_NOSPC) bs ∧ full bs) ∨
  ∃ ino b, 2 <= ino <= 32 ∧ bm_test (ib_of bs) ino = false ∧ 8 <= b < Z.of_nat (length bs) ∧ bm_test (bb_of bs) b = false ∧
    runs (BS := BS) alloc_inode_block bs (Ok (ino, b)) (put_bmaps bs (bit_set (ib_of bs) ino) (bit_set (bb_of bs) b)).
Proof.
  intros W Hk Hkt. pose proof (dw_len _ W) as Hl. pose proof (bb_ok _ W) as Hbb. pose proof (ib_ok _ W) as Hib.
  unfold alloc_inode_block. change (Z.to_nat (MCSFS1_MAX_INODES - 1)) with 31%nat.
  destruct (first_clear_run (ib_of bs) 2 31) as [[Ei Hall]|(ino & Ei & Hino & Hit)]; [apply Hib|lia|lia| |].
  { rewrite Hall in Hkt by lia. done. }
  destruct (first_clear_run (bb_of bs) 8 (Z.to_nat (Z.of_nat (length bs) - 8))) as [[E Hf]|(b & E & Hb & Ht)]; [apply Hbb|lia|lia| |].
  - left. split; [|intros b Hb; apply Hf; lia]. eapply runs_bind; [by apply runs_load_bmaps|]. cbv beta iota. rewrite Ei.
    eapply runs_bind; [apply runs_lift|]. eapply runs_bind; [apply runs_pass; lia|].
    apply runs_deref. intros d Hd. rewrite Hd. unfold MCSFS1_DATA_START_LBA. rewrite E.
    eapply runs_bind; [apply runs_lift|]. apply runs_bind_err, runs_stop. done.
  - right. exists ino, b. split; [lia|]. split; [done|]. split; [lia|]. split; [done|].
    eapply runs_bind; [by apply runs_load_bmaps|]. cbv beta iota. rewrite Ei.
    eapply runs_bind; [apply runs_lift|]. eapply runs_bind; [apply runs_pass; lia|].
    apply runs_deref. intros d Hd. rewrite Hd. unfold MCSFS1_DATA_START_LBA. rewrite E.
    eapply runs_bind; [apply runs_lift|]. eapply runs_bind; [apply runs_pass; lia|].
    eapply runs_bind; [apply runs_store_bmaps; [done|apply (set_bit_ok _ ino Hib); lia|apply (set_bit_ok _ b Hbb); lia]|]. apply runs_ret.
Qed.

Lemma alloc_inode_run bs fs : fs_rep bs fs →
  (runs (BS := BS) alloc_inode_block bs (Err MCSFS1_ERR_NOSPC) bs ∧ full bs) ∨
  ∃ ino b, 2 <= ino <= 32 ∧ bm_test (ib_of bs) ino = false ∧ 8 <= b < Z.of_nat (length bs) ∧ bm_test (bb_of bs) b = false ∧
    runs (BS := BS) alloc_inode_block bs (Ok (ino, b)) (put_bmaps bs (bit_set (ib_of bs) ino) (bit_set (bb_of bs) b)).
Proof. intros R. destruct (free_inode bs fs R) as (k & Hk & Ht). apply (alloc_inode_free bs k); [apply R|done..]. Qed.
End alloc.

(** ** Changing one slot *)

(** [f] shares neither inode, name nor block with [g]. *)
Record apart (f g : file) : Prop := {
  ap_ino : f_ino f ≠ f_ino g;
  ap_name : f_name f ≠ f_name g;
  ap_block j j' b : f_direct f !! j = Some b → f_direct g !! j' = Some b → b = 0
}.

Definition direct_inj (d : list Z) : Prop := ∀ j j' b, d !! j = Some b → d !! j' = Some b → b ≠ 0 → j = j'.

Record slot_ok (bs : list (list Z)) (fs : list (option file)) (i : nat) (o : option file) : Prop := {
  so_slot : match o with
            | Some f => slot_file (dir_of bs) i f ∧ file_rep bs f ∧ direct_inj (f_direct f)
            | None => de_ino (dir_of bs) (Z.of_nat i) = 0
            end;
  so_apart j f g : o = Some f → fs !! j = Some (Some g) → i ≠ j → apart f g
}.

Record keeps (bs bs' : list (list Z)) : Prop := {
  kp_wf : disk_wf bs';
  kp_len : length bs' = length bs;
  kp_super : blk bs' MCSFS1_SB_LBA = blk bs MCSFS1_SB_LBA;
  kp_root : inode_of bs' MCSFS1_ROOT_INO = inode_of bs MCSFS1_ROOT_INO;
  kp_root_bit : bm_test (ib_of bs) MCSFS1_ROOT_INO = true → bm_test (ib_of bs') MCSFS1_ROOT_INO = true;
  kp_meta b : 0 <= b < 8 → bm_test (bb_of bs) b = true → bm_test (bb_of bs') b = true
}.

Lemma rep_slot bs bs' fs i o :
  fs_rep bs fs → keeps bs bs' → (i < 16)%nat →
  (∀ j, i ≠ j → slot_bytes (dir_of bs') j = slot_bytes (dir_of bs) j) →
  (∀ j g, i ≠ j → fs !! j = Some (Some g) → file_rep bs' g) →
  slot_ok bs' fs i o →
  (∀ ino, 2 <= ino <= 32 → bm_test (ib_of bs') ino = true →
     (∃ f, o = Some f ∧ f_ino f = ino) ∨ ∃ j g, i ≠ j ∧ fs !! j = Some (Some g) ∧ f_ino g = ino) →
  fs_rep bs' (<[i := o]> fs).
Proof.
  intros R K Hi Hdir Hoth [Hs Ha] Hbits. pose proof (rp_slots _ _ R) as H16. constructor.
  - apply K.
  - rewrite (kp_super _ _ K), (kp_len _ _ K). apply R.
  - rewrite (kp_root _ _ K). apply R.
  - apply K, R.
  - intros b Hb. apply K; [done|]. by apply R.
  - by rewrite length_insert.
  - intros j Hj. destruct (decide (i = j)) as [<-|Hne].
    + rewrite list_lookup_insert_eq in Hj by lia. injection Hj as ->. exact Hs.
    + rewrite list_lookup_insert_ne in Hj by done. rewrite (de_ino_ext _ _ _ (Hdir j Hne)). by apply R.
  - intros j f [[<- ->]|[Hne Hj]]%slot_cases; [apply Hs|]. apply (slot_file_ext _ _ _ _ (Hdir j Hne)). by apply R.
  - intros j f [[<- ->]|[Hne Hj]]%slot_cases; [apply Hs|]. by eapply Hoth.
  - intros j j' f f' [[<- ->]|[Hne Hj]]%slot_cases [[<- E]|[Hne' Hj']]%slot_cases; [done|..].
    + intros E'. by destruct (ap_ino _ _ (Ha j' f f' eq_refl Hj' Hne')).
    + intros E'. destruct (ap_ino _ _ (Ha j f' f E Hj Hne)). done.
    + by apply R.
  - intros j j' f f' [[<- ->]|[Hne Hj]]%slot_cases [[<- E]|[Hne' Hj']]%slot_cases; [done|..].
    + intros E'. by destruct (ap_name _ _ (Ha j' f f' eq_refl Hj' Hne')).
    + intros E'. destruct (ap_name _ _ (Ha j f' f E Hj Hne)). done.
    + by apply R.
  - intros j j' f f' k k' b [[<- ->]|[Hne Hj]]%slot_cases [[<- E]|[Hne' Hj']]%slot_cases Hb Hb' Hz.
    + injection E as <-. split; [done|]. by apply (proj2 (proj2 Hs) k k' b).
    + by destruct Hz, (ap_block _ _ (Ha j' f f' eq_refl Hj' Hne') k k' b).
    + by destruct Hz, (ap_block _ _ (Ha j f' f E Hj Hne) k' k b).
    + by apply (rp_blocks _ _ R j j' f f' k k' b).
  - intros ino Hr Hb. destruct (Hbits ino Hr Hb) as [(f & -> & E)|(j & g & Hne & Hj & E)].
    + exists i, f. split; [|done]. apply list_lookup_insert_eq. lia.
    + exists j, g. split; [|done]. by rewrite list_lookup_insert_ne.
Qed.

(** ** Create *)

Definition created (bs : list (list Z)) (i : nat) (ino b : Z) (name : list Z) : list (list Z) :=
  <[7%nat := set_dirent (dir_of bs) (Z.of_nat i) ino name (Z.of_nat (length name))]>
    (put_inode (put_bmaps bs (bit_set (ib_of bs) ino) (bit_set (bb_of bs) b)) ino (new_inode MCSFS1_MODE_FILE 0 b)).

Definition new_file (name : list Z) (ino b : Z) : file := mk_file name ino (b :: replicate 7 0) [].

Lemma new_file_direct name ino b j x :
  f_direct (new_file name ino b) !! j = Some x → (j = 0%nat ∧ x = b) ∨ (x = 0 ∧ (j < 8)%nat).
Proof.
  cbn [new_file f_direct]. destruct j as [|j]; cbn [lookup list_lookup]; [intros [= <-]; by left|].
  intros [-> Hj]%(lookup_replicate 7). right. split; [done|lia].
Qed.

Section created_disk.
Context (bs : list (list Z)) (W : disk_wf bs) (i : nat) (ino b : Z) (name : list Z).
Context (Hino : 2 <= ino <= 32) (Hb : 8 <= b < Z.of_nat (length bs)) (Hbytes : bytes_ok name).

Let bs1 := put_bmaps bs (bit_set (ib_of bs) ino) (bit_set (bb_of bs) b).
Let bs2 := put_inode bs1 ino (new_inode MCSFS1_MODE_FILE 0 b).
Let bs3 := created bs i ino b name.

Lemma created_disk :
  disk_wf bs3 ∧ length bs3 = length bs ∧ ib_of bs3 = bit_set (ib_of bs) ino ∧ bb_of bs3 = bit_set (bb_of bs) b ∧
  dir_of bs3 = set_dirent (dir_of bs) (Z.of_nat i) ino name (Z.of_nat (length name)) ∧
  (∀ lba, lba = 0 ∨ 8 <= lba → blk bs3 lba = blk bs lba) ∧
  inode_of bs3 ino = new_inode MCSFS1_MODE_FILE 0 b ∧
  (∀ k, ino_ok k → k ≠ ino → inode_of bs3 k = inode_of bs k).
Proof.
  pose proof (dw_len _ W). pose proof (ib_ok _ W) as Hi0. pose proof (bb_ok _ W) as Hb0.
  destruct (set_bit_ok _ ino Hi0 ltac:(lia)) as [Hi1 _]. destruct (set_bit_ok _ b Hb0 ltac:(lia)) as [Hb1 _].
  pose proof (wf_put_bmaps bs W _ _ Hi1 Hb1) as W1. assert (ino_ok ino) as Hk by (unfold ino_ok; lia).
  pose proof (new_inode_fields b ltac:(unfold fits; lia)) as Hf. destruct (wf_blk bs 7 W ltac:(lia)) as [Hd Hdb].
  pose proof (wf_put_inode bs1 ino _ W1 Hk (nf_bytes _ _ _ Hf)) as W2. pose proof (length_put_bmaps bs (bit_set (ib_of bs) ino) (bit_set (bb_of bs) b)) as L1.
  assert (length bs2 = length bs) as L2 by (unfold bs2; by rewrite length_put_inode).
  split_and!.
  - apply (wf_insert _ 7); [exact W2| |].
    + unfold set_dirent. by rewrite !length_splice, !length_st.
    + unfold set_dirent. apply bytes_ok_splice; [|apply bytes_ok_splice; [apply bytes_ok_zeros|by apply bytes_ok_st, bytes_ok_st]].
      by apply Forall_take.
  - unfold bs3, created. rewrite length_insert. exact L2.
  - unfold ib_of, bs3, created, MCSFS1_INODE_BMAP_LBA. rewrite (blk_insert_ne _ 7), blk_put_inode by (done || lia).
    by apply (ib_put_bmaps bs W).
  - unfold bb_of, bs3, created, MCSFS1_BLOCK_BMAP_LBA. rewrite (blk_insert_ne _ 7), blk_put_inode by (done || lia).
    by apply (bb_put_bmaps bs W).
  - unfold dir_of at 1, bs3, created, MCSFS1_ROOT_DIR_LBA. apply (blk_insert_eq _ 7). fold bs1 bs2. lia.
  - intros lba Hl. unfold bs3, created. rewrite (blk_insert_ne _ 7), blk_put_inode, blk_put_bmaps by (done || lia). done.
  - unfold inode_of, bs3, created. rewrite (blk_insert_ne _ 7) by (pose proof (inode_lba_range ino Hk); lia).
    apply (inode_of_put_eq bs1); [done..|apply Hf].
  - intros k Hko Hne. unfold inode_of, bs3, created. rewrite (blk_insert_ne _ 7) by (pose proof (inode_lba_range k Hko); lia).
    fold bs1 bs2. fold (inode_of bs2 k). unfold bs2. rewrite inode_of_put_ne by (done || apply Hf). by apply inode_put_bmaps.
Qed.

(** The end of [mcsfs1_create], from [alloc_inode_block] on. *)
Lemma create_store {C : Type} {rd : C → Z → Z * list Z * C} {wr : C → Z → list Z → Z * C} {fl : C → Z * C} {BS : BlockStore rd wr fl} :
  runs (BS := BS) alloc_inode_block bs (Ok (ino, b)) bs1 →
  runs (BS := BS)
    (let* '(ino, first_data) := alloc_inode_block in
     write_inode ino (new_inode MCSFS1_MODE_FILE 0 first_data) ;;
     dev_write MCSFS1_ROOT_DIR_LBA (set_dirent (dir_of bs) (Z.of_nat i) ino name (Z.of_nat (length name))) ;;
     dev_flush) bs (Ok tt) bs3.
Proof using W Hino Hb.
  intros Ha. pose proof (dw_len _ W). eapply runs_bind; [exact Ha|]. cbv beta iota. pose proof (ib_ok _ W) as Hi0. pose proof (bb_ok _ W) as Hb0.
  eapply runs_bind; [apply runs_write_inode; [|unfold ino_ok; lia]|].
  { apply wf_put_bmaps; [done|apply (set_bit_ok _ ino Hi0); lia|apply (set_bit_ok _ b Hb0); lia]. }
  eapply runs_bind; [apply runs_write|apply runs_flush].
  - unfold bs1. rewrite length_put_inode, length_put_bmaps. unfold MCSFS1_ROOT_DIR_LBA. lia.
  - unfold set_dirent. rewrite !length_splice, !length_st. apply (wf_blk bs); [done|unfold MCSFS1_ROOT_DIR_LBA; lia].
Qed.

(** The start of [mcsfs1_create] for a name that is not found. *)
Lemma create_missing {C : Type} {rd : C → Z → Z * list Z * C} {wr : C → Z → list Z → Z * C} {fl : C → Z * C} {BS : BlockStore rd wr fl} m e r bs' :
  valid_name (Some name) = Ok (Z.of_nat (length name)) → runs (BS := BS) (find_dirent (Some name)) bs (Err e) bs →
  runs (BS := BS) (match find_z (λ i, de_ino (dir_of bs) i =? 0) 0 16 with
    | None => fail MCSFS1_ERR_NOSPC
    | Some free_slot =>
        let* '(ino, first_data) := alloc_inode_block in
        write_inode ino (new_inode MCSFS1_MODE_FILE 0 first_data) ;;
        dev_write MCSFS1_ROOT_DIR_LBA (set_dirent (dir_of bs) free_slot ino name (Z.of_nat (length name))) ;;
        dev_flush
    end) bs r bs' → runs (BS := BS) (mcsfs1_create (Some m) (Some name)) bs r bs'.
Proof using W.
  intros Hv Hf H'. pose proof (dw_len _ W). unfold mcsfs1_create, mounted. eapply runs_bind; [eapply runs_bind; [apply runs_null|apply runs_ret]|].
  rewrite Hv. eapply runs_bind; [apply runs_lift|].
  eapply runs_bind; [eapply runs_on_error; [eapply runs_bind_err; exact Hf|apply runs_ret]|].
  eapply runs_bind; [by apply runs_pass|]. eapply runs_bind; [apply runs_read; unfold MCSFS1_ROOT_DIR_LBA; lia|]. exact H'.
Qed.
End created_disk.

Section create.
Context (bs : list (list Z)) (fs : list (option file)) (R : fs_rep bs fs).
Context (i : nat) (ino b : Z) (name : list Z).
Context (Hslot : fs !! i = Some None) (Hino : 2 <= ino <= 32) (Hib : bm_test (ib_of bs) ino = false).
Context (Hb : 8 <= b < Z.of_nat (length bs)) (Hbb : bm_test (bb_of bs) b = false).
Context (Hname : name_ok name) (Hbytes : bytes_ok name) (Hnew : find_slot fs name = None).

Local Notation bs3 := (created bs i ino b name).
Let created_facts := created_disk bs (rp_wf _ _ R) i ino b name Hino Hb Hbytes.

Lemma created_keeps : keeps bs bs3.
Proof.
  destruct created_facts as (W3 & L3 & Ei & Eb & _ & Hblk & _ & Hin). pose proof (rp_wf _ _ R) as W. pose proof (dw_len _ W).
  constructor; try done.
  - apply Hblk. by left.
  - apply Hin; unfold ino_ok, MCSFS1_ROOT_INO; lia.
  - intros Hr. rewrite Ei. destruct (set_bit_ok _ ino (ib_ok _ W) ltac:(lia)) as [_ ->]; [|done]. by rewrite Hr.
  - intros k Hk Hm. rewrite Eb. destruct (set_bit_ok _ b (bb_ok _ W) ltac:(lia)) as [_ ->]; [|lia]. by rewrite Hm.
Qed.

Lemma other_ino j g : fs !! j = Some (Some g) → f_ino g ≠ ino.
Proof. intros Hj <-. pose proof (fr_ibit _ _ (rp_file _ _ R j g Hj)). congruence. Qed.

Lemma other_block j g k x : fs !! j = Some (Some g) → f_direct g !! k = Some x → x ≠ b.
Proof.
  intros Hj Hk ->. destruct (fr_block _ _ (rp_file _ _ R j g Hj) k b Hk ltac:(lia)) as [_ H]. congruence.
Qed.

Lemma created_other j g : fs !! j = Some (Some g) → file_rep bs3 g.
Proof.
  intros Hj. destruct created_facts as (W3 & L3 & Ei & Eb & _ & Hblk & _ & Hin). pose proof (rp_wf _ _ R) as W. pose proof (dw_len _ W).
  pose proof (rp_file _ _ R j g Hj) as Hg. pose proof (fr_ino _ _ Hg). apply (file_frame bs); try done.
  - apply Hin; [unfold ino_ok; lia|]. by apply (other_ino j).
  - rewrite Ei. destruct (set_bit_ok _ ino (ib_ok _ W) ltac:(lia)) as [_ ->]; [|lia]. by rewrite (fr_ibit _ _ Hg).
  - intros k x Hk Hx. destruct (fr_block _ _ Hg k x Hk Hx) as [Hr Hbit]. split; [|apply Hblk; lia].
    rewrite Eb. destruct (set_bit_ok _ b (bb_ok _ W) ltac:(lia)) as [_ ->]; [|lia]. by rewrite Hbit.
Qed.

Lemma created_slot : slot_ok bs3 fs i (Some (new_file name ino b)).
Proof.
  destruct created_facts as (W3 & L3 & Ei & Eb & Ed & Hblk & Hnew' & _). pose proof (rp_wf _ _ R) as W. pose proof (dw_len _ W).
  pose proof (lookup_lt_Some _ _ _ Hslot) as Hi16. rewrite (rp_slots _ _ R) in Hi16. pose proof (no_len _ Hname).
  pose proof (new_inode_fields b ltac:(unfold fits; lia)) as Hf. constructor.
  - split; [|split].
    + rewrite Ed. assert (length (dir_of bs) = 512%nat) as Hd by (apply (wf_blk bs); [done|unfold MCSFS1_ROOT_DIR_LBA; lia]).
      destruct (set_dirent_slot (dir_of bs) i ino name Hd Hi16 ltac:(unfold fits; lia) ltac:(lia)) as [H1 H2 H3]. by constructor.
    + constructor; cbn [new_file f_name f_ino f_direct f_data length]; rewrite ?Hnew', ?L3; try done; try apply Hf.
      * lia.
      * rewrite Ei. destruct (set_bit_ok _ ino (ib_ok _ W) ltac:(lia)) as [_ ->]; [|lia]. by rewrite Z.eqb_refl, orb_true_r.
      * intros j x Hj Hx. apply (new_file_direct name ino) in Hj as [[-> ->]|[-> _]]; [|done]. split; [lia|]. rewrite Eb.
        destruct (set_bit_ok _ b (bb_ok _ W) ltac:(lia)) as [_ ->]; [|lia]. by rewrite Z.eqb_refl, orb_true_r.
      * change (needed (Z.of_nat 0)) with 1. intros j x Hj Hlt. assert (j = 0%nat) as -> by lia. injection Hj as <-. lia.
    + intros j j' x Hj Hj' Hx. destruct (new_file_direct _ _ _ _ _ Hj) as [[? ?]|[? ?]], (new_file_direct _ _ _ _ _ Hj') as [[? ?]|[? ?]]; congruence.
  - intros j f g [= <-] Hj Hne. constructor; cbn [new_file f_ino f_name].
    + intros E. by apply (other_ino j g Hj).
    + intros E. by apply (find_slot_None fs name j g Hnew Hj).
    + intros k k' x Hk Hk'. apply new_file_direct in Hk as [[_ ->]|[-> _]]; [|done]. by destruct (other_block j g k' b Hj Hk').
Qed.

Lemma created_exact : exact bs fs → exact bs3 (<[i := Some (new_file name ino b)]> fs).
Proof.
  intros He k. destruct created_facts as (_ & L3 & _ & Eb & _). pose proof (rp_wf _ _ R) as W. pose proof (dw_len _ W).
  pose proof (lookup_lt_Some _ _ _ Hslot). rewrite L3, Eb. intros Hk.
  destruct (set_bit_ok _ b (bb_ok _ W) ltac:(lia)) as [_ ->]; [|lia]. intros [Hbit| ->%Z.eqb_eq]%orb_true_iff.
  - destruct (He k Hk Hbit) as (j & g & l & Hj & Hl). exists j, g, l. split; [|done]. rewrite list_lookup_insert_ne; [done|].
    intros ->. congruence.
  - exists i, (new_file name ino b), 0%nat. split; [by apply list_lookup_insert_eq|done].
Qed.

Lemma created_lost : keeps_lost bs fs bs3 (<[i := Some (new_file name ino b)]> fs).
Proof using R Hino Hb Hbb Hbytes.
  destruct created_facts as (_ & L3 & _ & Eb & _). pose proof (rp_wf _ _ R) as W. pose proof (dw_len _ W).
  apply keeps_lost_slot; [done|..].
  - intros k (Hk & Hbit & _). rewrite Eb. destruct (set_bit_ok _ b (bb_ok _ W) ltac:(lia)) as [_ ->]; [|lia]. by rewrite Hbit.
  - intros f k [= <-] [j Hj]%list_elem_of_lookup (Hk & Hbit & _). apply new_file_direct in Hj as [[_ ->]|[-> _]]; [congruence|lia].
Qed.

Lemma created_rep : fs_rep bs3 (<[i := Some (new_file name ino b)]> fs).
Proof.
  destruct created_facts as (_ & _ & Ei & _ & Ed & _). pose proof (rp_wf _ _ R) as W.
  pose proof (lookup_lt_Some _ _ _ Hslot) as Hi16. rewrite (rp_slots _ _ R) in Hi16. pose proof (no_len _ Hname).
  apply (rep_slot bs bs3 fs i); [done|apply created_keeps|done|..|apply created_slot|].
  - intros j Hne. rewrite Ed. apply set_dirent_other; [done|lia].
  - intros j g _ Hj. by eapply created_other.
  - intros k Hk. rewrite Ei. destruct (set_bit_ok _ ino (ib_ok _ W) ltac:(lia)) as [_ ->]; [|lia].
    intros [Hbit|Heq%Z.eqb_eq]%orb_true_iff; [|left; by eexists].
    right. destruct (rp_ibits _ _ R k Hk Hbit) as (j & g & Hj & E). exists j, g. split; [|done]. intros <-. congruence.
Qed.
End create.

Section fs_create_run.
Context {C : Type} {rd : C → Z → Z * list Z * C} {wr : C → Z → list Z → Z * C} {fl : C → Z * C}.
Context {BS : BlockStore rd wr fl} (bs : list (list Z)) (fs : list (option file)) (R : fs_rep bs fs).

Lemma free_slot_spec :
  match find_z (λ i, de_ino (dir_of bs) i =? 0) 0 16 with
  | Some s => ∃ i, s = Z.of_nat i ∧ fs !! i = Some None
  | None => ∀ i, fs !! i ≠ Some None
  end.
Proof.
  pose proof (rp_slots _ _ R) as H16. destruct (find_z _ 0 16) as [s|] eqn:E.
  - apply find_z_Some in E as (Hs & Hz%Z.eqb_eq & _). exists (Z.to_nat s). split; [lia|].
    destruct (lookup_lt_is_Some_2 fs (Z.to_nat s) ltac:(lia)) as [[f|] Hf]; [exfalso|done].
    pose proof (sf_ino _ _ _ (rp_slot _ _ R _ f Hf)) as Ei. pose proof (fr_ino _ _ (rp_file _ _ R _ f Hf)).
    rewrite Z2Nat.id in Ei by lia. lia.
  - intros i Hi. pose proof (lookup_lt_Some _ _ _ Hi). rewrite find_z_None in E.
    specialize (E (Z.of_nat i) ltac:(lia)). rewrite (rp_free _ _ R i Hi) in E. done.
Qed.

Lemma fs_create_run m name :
  c_name name →
  ∃ r bs' fs', runs (BS := BS) (mcsfs1_create (Some m) (Some name)) bs r bs' ∧ fs_rep bs' fs' ∧ length bs' = length bs ∧
    (exact bs fs → exact bs' fs') ∧ keeps_lost bs fs bs' fs' ∧
    match name_err name, find_slot fs name with
    | Some e, _ => r = Err e ∧ fs' = fs
    | None, Some _ => r = Err MCSFS1_ERR_EXIST ∧ fs' = fs
    | None, None =>
        (r = Err MCSFS1_ERR_NOSPC ∧ fs' = fs ∧ ((∀ i, fs !! i ≠ Some None) ∨ full bs)) ∨
        (r = Ok tt ∧ ∃ i f, fs !! i = Some None ∧ f_name f = name ∧ f_data f = [] ∧ fs' = <[i := Some f]> fs)
    end.
Proof.
  intros Hn. pose proof (rp_wf _ _ R) as W. pose proof (dw_len _ W). pose proof (c_name_nz _ Hn) as Hz.
  unfold mcsfs1_create, mounted. pose proof (find_dirent_run bs fs R name Hn) as Hf. unfold find_spec in Hf.
  pose proof (valid_name_run name Hz) as Hv. destruct (name_err name) as [e|] eqn:En.
  { exists (Err e), bs, fs. split; [|done]. eapply runs_bind; [eapply runs_bind; [apply runs_null|apply runs_ret]|].
    rewrite Hv. by apply runs_bind_err, runs_lift. }
  destruct (find_slot fs name) as [[j g]|] eqn:Es.
  { exists (Err MCSFS1_ERR_EXIST), bs, fs. split; [|done]. eapply runs_bind; [eapply runs_bind; [apply runs_null|apply runs_ret]|].
    rewrite Hv. eapply runs_bind; [apply runs_lift|].
    eapply runs_bind; [eapply runs_no_error, runs_bind; [exact Hf|apply runs_ret]|]. by apply runs_bind_err, runs_stop. }
  pose proof free_slot_spec as Hfree.
  assert (∀ r bs', _ → runs (BS := BS) (mcsfs1_create (Some m) (Some name)) bs r bs') as Hpre
    by (intros r bs'; exact (create_missing bs W name m _ r bs' Hv Hf)).
  destruct (find_z _ 0 16) as [s|].
  2:{ exists (Err MCSFS1_ERR_NOSPC), bs, fs. split; [apply Hpre, runs_fail|]. split; [done|]. split; [done|]. split; [done|]. split; [done|]. left.
      split; [done|]. split; [done|]. by left. }
  destruct Hfree as (i & -> & Hi). destruct (alloc_inode_run (BS := BS) bs fs R) as [[Ha Hfull]|(ino & b & Hino & Hib & Hb & Hbb & Ha)].
  { exists (Err MCSFS1_ERR_NOSPC), bs, fs. split; [by apply Hpre, runs_bind_err|]. split; [done|]. split; [done|]. split; [done|]. split; [done|]. left.
    split; [done|]. split; [done|]. by right. }
  assert (name_ok name) as Hok by (apply name_err_ok; [done|apply Hn|done]).
  pose proof (created_rep bs fs R i ino b name Hi Hino Hib Hb Hbb Hok (c_name_bytes _ Hn) Es) as R3.
  destruct (created_disk bs W i ino b name Hino Hb (c_name_bytes _ Hn)) as (W3 & L3 & _).
  exists (Ok tt), (created bs i ino b name), (<[i := Some (new_file name ino b)]> fs).
  split_and!; [|done|done|by apply created_exact; [..|apply c_name_bytes]|by apply created_lost; [..|apply c_name_bytes]|].
  - apply Hpre. by apply create_store.
  - right. split; [done|]. by exists i, (new_file name ino b).
Qed.
End fs_create_run.

(** ** Unlink *)

Lemma clear_blocks_run n inode size d l : ∀ bb,
  inode_fields inode size d → n <= 4096 → bm_ok bb → Forall (λ j, (j < 8)%nat) l →
  (∀ j x, d !! j = Some x → x ≠ 0 → 0 <= x < n) →
  ∃ bb', clear_blocks n inode bb l = Ok bb' ∧ bm_ok bb' ∧
    ∀ k, 0 <= k → bm_test bb' k = true ↔ bm_test bb k = true ∧ (∀ j, j ∈ l → d !! j = Some k → k = 0).
Proof.
  induction l as [|i l IH]; intros bb Hf Hn Hb Hl Hd; cbn [clear_blocks].
  { exists bb. split; [done|]. split; [done|]. intros k _. split; [|by intros [? _]]. intros Ht. split; [done|].
    intros j Hj. by apply elem_of_nil in Hj. }
  apply Forall_cons in Hl as [Hi Hl]. destruct (lookup_lt_is_Some_2 d i) as [x Hx]; [rewrite (nf_dlen _ _ _ Hf); lia|].
  rewrite (nf_direct _ _ _ Hf i x Hx). destruct (Z.eqb_spec x 0) as [->|Hx0]; cbn [negb andb].
  - destruct (IH bb Hf Hn Hb Hl Hd) as (bb' & E & Hok & Hk). exists bb'. split; [done|]. split; [done|]. intros k Hk0.
    rewrite Hk by done. split; intros [Ht Hj]; (split; [done|]).
    + intros j [->|Hjl]%elem_of_cons Hdj; [|by eapply Hj]. congruence.
    + intros j Hjl. apply Hj. by right.
  - pose proof (Hd i x Hx Hx0) as Hr. rewrite (proj2 (Z.ltb_lt x n)) by lia. pose proof Hb as [Hbl _].
    rewrite Hbl, (proj2 (Z.leb_gt _ x)) by lia. destruct (clear_bit_ok bb x Hb ltac:(lia)) as [Hb' Ht].
    destruct (IH (bit_clear bb x) Hf Hn Hb' Hl Hd) as (bb' & E & Hok & Hk). exists bb'. split; [done|]. split; [done|].
    intros k Hk0. rewrite Hk, Ht, andb_true_iff, negb_true_iff, Z.eqb_neq by done. split.
    + intros [[H1 H2] H3]. split; [done|]. intros j [->|Hjl]%elem_of_cons Hdj; [congruence|by eapply H3].
    + intros [H1 H2]. split; [split; [done|]|].
      * intros ->. destruct Hx0. apply (H2 i); [by left|done].
      * intros j Hjl. apply H2. by right.
Qed.

Definition removed (bs : list (list Z)) (i : nat) (ino : Z) (bb' : list Z) : list (list Z) :=
  put_inode (put_bmaps (<[7%nat := splice (dirent_off (Z.of_nat i) 0) (zeros 32) (dir_of bs)]> bs) (bit_clear (ib_of bs) ino) bb')
    ino (zeros 60).

Section remove.
Context (bs : list (list Z)) (fs : list (option file)) (R : fs_rep bs fs) (i : nat) (f : file).
Context (Hi : fs !! i = Some (Some f)) (bb' : list Z) (Hbb : bm_ok bb').
Context (Hbits : ∀ k, 0 <= k → bm_test bb' k = true ↔
  bm_test (bb_of bs) k = true ∧ (∀ j, j ∈ seq 0 8 → f_direct f !! j = Some k → k = 0)).

Let bs1 := <[7%nat := splice (dirent_off (Z.of_nat i) 0) (zeros 32) (dir_of bs)]> bs.
Let bs2 := put_bmaps bs1 (bit_clear (ib_of bs) (f_ino f)) bb'.
Let bs3 := removed bs i (f_ino f) bb'.

Lemma removed_wf1 : disk_wf bs1 ∧ length bs1 = length bs.
Proof using R.
  pose proof (rp_wf _ _ R) as W. pose proof (dw_len _ W). destruct (wf_blk bs 7 W ltac:(lia)) as [Hd Hdb].
  split; [|apply length_insert]. apply (wf_insert _ 7); [done|by rewrite length_splice|].
  apply bytes_ok_splice; [apply bytes_ok_zeros|done].
Qed.

Lemma removed_facts :
  disk_wf bs2 ∧ disk_wf bs3 ∧ length bs3 = length bs ∧ ib_of bs3 = bit_clear (ib_of bs) (f_ino f) ∧ bb_of bs3 = bb' ∧
  dir_of bs3 = splice (dirent_off (Z.of_nat i) 0) (zeros 32) (dir_of bs) ∧
  (∀ lba, lba = 0 ∨ 8 <= lba → blk bs3 lba = blk bs lba) ∧
  (∀ k, ino_ok k → k ≠ f_ino f → inode_of bs3 k = inode_of bs k).
Proof using R Hi Hbb.
  pose proof (rp_wf _ _ R) as W. pose proof (dw_len _ W). pose proof (fr_ino _ _ (rp_file _ _ R i f Hi)) as Hino.
  assert (ino_ok (f_ino f)) as Hk by (unfold ino_ok; lia). destruct removed_wf1 as [W1 L1].
  destruct (clear_bit_ok _ (f_ino f) (ib_ok _ W) ltac:(lia)) as [Hi1 _]. pose proof (wf_put_bmaps bs1 W1 _ _ Hi1 Hbb) as W2.
  assert (length (zeros 60) = 60%nat) as Hz by done. split_and!.
  - exact W2.
  - apply wf_put_inode; [exact W2|done|apply bytes_ok_zeros].
  - unfold bs3, removed. by rewrite length_put_inode, length_put_bmaps, length_insert.
  - unfold ib_of at 1, bs3, removed, MCSFS1_INODE_BMAP_LBA. rewrite blk_put_inode by (done || lia). by apply (ib_put_bmaps bs1 W1).
  - unfold bb_of at 1, bs3, removed, MCSFS1_BLOCK_BMAP_LBA. rewrite blk_put_inode by (done || lia). by apply (bb_put_bmaps bs1 W1).
  - unfold dir_of at 1, bs3, removed, MCSFS1_ROOT_DIR_LBA. rewrite blk_put_inode, blk_put_bmaps by (done || lia).
    apply (blk_insert_eq _ 7). lia.
  - intros lba Hl. unfold bs3, removed. rewrite blk_put_inode, blk_put_bmaps, (blk_insert_ne _ 7) by (done || lia). done.
  - intros k Hko Hne. unfold bs3, removed. rewrite inode_of_put_ne; [|done..]. rewrite inode_put_bmaps by done.
    unfold inode_of. rewrite (blk_insert_ne _ 7); [done|pose proof (inode_lba_range k Hko); lia..].
Qed.

Lemma removed_keeps : keeps bs bs3.
Proof using R Hi Hbb Hbits.
  destruct removed_facts as (_ & W3 & L3 & Ei & Eb & _ & Hblk & Hin). pose proof (rp_wf _ _ R) as W. pose proof (dw_len _ W).
  pose proof (fr_ino _ _ (rp_file _ _ R i f Hi)) as Hino. constructor; try done.
  - apply Hblk. by left.
  - apply Hin; unfold ino_ok, MCSFS1_ROOT_INO; lia.
  - intros Hr. rewrite Ei. destruct (clear_bit_ok _ (f_ino f) (ib_ok _ W) ltac:(lia)) as [_ ->]; [|done].
    rewrite Hr. unfold MCSFS1_ROOT_INO. lia.
  - intros k Hk Hm. rewrite Eb. apply Hbits; [lia|]. split; [done|]. intros j _ Hj. destruct (decide (k = 0)); [done|].
    destruct (fr_block _ _ (rp_file _ _ R i f Hi) j k Hj); lia.
Qed.

Lemma removed_other j g : i ≠ j → fs !! j = Some (Some g) → file_rep bs3 g.
Proof using R Hi Hbb Hbits.
  intros Hne Hj. destruct removed_facts as (_ & W3 & L3 & Ei & Eb & _ & Hblk & Hin). pose proof (rp_wf _ _ R) as W.
  pose proof (rp_file _ _ R j g Hj) as Hg. pose proof (fr_ino _ _ Hg). pose proof (fr_ino _ _ (rp_file _ _ R i f Hi)) as Hino.
  assert (f_ino g ≠ f_ino f) as Hd by (intros E; by apply Hne, (rp_inos _ _ R i j f g)).
  apply (file_frame bs); try done.
  - apply Hin; [unfold ino_ok; lia|done].
  - rewrite Ei. destruct (clear_bit_ok _ (f_ino f) (ib_ok _ W) ltac:(lia)) as [_ ->]; [|lia]. rewrite (fr_ibit _ _ Hg). lia.
  - intros k x Hk Hx. destruct (fr_block _ _ Hg k x Hk Hx) as [Hr Hbit]. split; [|apply Hblk; lia].
    rewrite Eb. apply Hbits; [lia|]. split; [done|]. intros k' _ Hk'.
    destruct (rp_blocks _ _ R i j f g k' k x Hi Hj Hk' Hk Hx) as [? _]. done.
Qed.

Lemma removed_exact : exact bs fs → exact bs3 (<[i := None]> fs).
Proof using R Hi Hbb Hbits.
  intros He k. destruct removed_facts as (_ & _ & L3 & _ & Eb & _). rewrite L3, Eb. intros Hk [Hbit Hno]%Hbits; [|lia].
  destruct (He k Hk Hbit) as (j & g & l & Hj & Hl). exists j, g, l. split; [|done]. rewrite list_lookup_insert_ne; [done|].
  intros <-. assert (g = f) as -> by congruence. pose proof (lookup_lt_Some _ _ _ Hl) as Hlt.
  rewrite (fr_dlen _ _ (rp_file _ _ R i f Hi)) in Hlt. assert (k = 0) by (apply (Hno l); [apply elem_of_seq; lia|done]). lia.
Qed.

Lemma removed_lost : keeps_lost bs fs bs3 (<[i := None]> fs).
Proof using R Hi Hbb Hbits.
  destruct removed_facts as (_ & _ & L3 & _ & Eb & _). apply keeps_lost_slot; [done| |done].
  intros k (Hk & Hbit & Hno). rewrite Eb. apply Hbits; [lia|]. split; [done|]. intros j _ Hj.
  destruct (Hno i f Hi). by eapply list_elem_of_lookup_2.
Qed.

Lemma removed_rep : fs_rep bs3 (<[i := None]> fs).
Proof using R Hi Hbb Hbits.
  destruct removed_facts as (_ & W3 & L3 & Ei & Eb & Ed & Hblk & Hin). pose proof (rp_wf _ _ R) as W. pose proof (dw_len _ W).
  pose proof (lookup_lt_Some _ _ _ Hi) as Hi16. rewrite (rp_slots _ _ R) in Hi16.
  destruct (wf_blk bs 7 W ltac:(lia)) as [Hd512 _]. pose proof (fr_ino _ _ (rp_file _ _ R i f Hi)) as Hino.
  apply (rep_slot bs bs3 fs i); [done|apply removed_keeps|done|..].
  - intros j Hne. rewrite Ed. unfold slot_bytes. apply slice_splice_ne. unfold dirent_off. rewrite Nat2Z.id.
    change (length (zeros 32)) with 32%nat. unfold Fld.dirent_bytes. lia.
  - intros j g Hne Hj. by apply (removed_other j).
  - constructor; [|by intros j g h]. rewrite Ed. unfold de_ino, ld.
    rewrite <-(Nat.add_0_r (dirent_off (Z.of_nat i) Fld.d_ino)). change (dirent_off (Z.of_nat i) Fld.d_ino) with (dirent_off (Z.of_nat i) 0).
    rewrite <-(slice_slice _ _ 32) by lia. rewrite slice_splice_eq; [done|done|].
    change (length (zeros 32)) with 32%nat. unfold dirent_off, Fld.dirent_bytes. rewrite Nat2Z.id. unfold dir_of, MCSFS1_ROOT_DIR_LBA. lia.
  - intros k Hk. rewrite Ei. destruct (clear_bit_ok _ (f_ino f) (ib_ok _ W) ltac:(lia)) as [_ ->]; [|lia].
    intros [Hbit Hne%negb_true_iff%Z.eqb_neq]%andb_true_iff. right.
    destruct (rp_ibits _ _ R k Hk Hbit) as (j & g & Hj & E). exists j, g. split; [|done]. intros <-. congruence.
Qed.
End remove.

Section unlink_run.
Context {C : Type} {rd : C → Z → Z * list Z * C} {wr : C → Z → list Z → Z * C} {fl : C → Z * C}.
Context {BS : BlockStore rd wr fl} (bs : list (list Z)) (fs : list (option file)) (R : fs_rep bs fs).

Lemma unlink_run m name :
  c_name name →
  ∃ bs' fs', runs (BS := BS) (mcsfs1_unlink (Some m) (Some name)) bs (rmap (λ _, tt) (find_spec fs name)) bs' ∧
    fs_rep bs' fs' ∧ length bs' = length bs ∧ (exact bs fs → exact bs' fs') ∧ keeps_lost bs fs bs' fs' ∧
    fs' = match find_spec fs name with Ok (i, _) => <[i := None]> fs | _ => fs end.
Proof.
  intros Hn. pose proof (rp_wf _ _ R) as W. pose proof (dw_len _ W). unfold mcsfs1_unlink, mounted.
  pose proof (open_file_run bs fs R name Hn) as Hf. pose proof (find_spec_not_ub fs name) as Hub.
  destruct (find_spec fs name) as [[i f]|rc|] eqn:E; cbn [rmap fst snd] in *; [| |done].
  2:{ exists bs, fs. split; [|done]. eapply runs_bind; [eapply runs_bind; [apply runs_null|apply runs_ret]|]. by apply runs_bind_err. }
  apply find_spec_Ok in E as [Hi _]. pose proof (rp_file _ _ R i f Hi) as Hr. pose proof (fr_ino _ _ Hr) as Hino.
  pose proof (file_fields bs f W Hr) as Hfl. assert (ino_ok (f_ino f)) as Hk by (unfold ino_ok; lia).
  destruct (clear_blocks_run (Z.of_nat (length bs)) (inode_of bs (f_ino f)) _ _ (seq 0 8) (bb_of bs) Hfl) as (bb' & Hc & Hbb & Hbits).
  { lia. } { by apply bb_ok. } { apply Forall_forall. intros j Hj%elem_of_seq. lia. }
  { intros j x Hj Hx. destruct (fr_block _ _ Hr j x Hj Hx). lia. }
  destruct (removed_facts bs fs R i f Hi bb' Hbb) as (W2 & W3 & L3 & _). destruct (removed_wf1 bs fs R i) as [W1 L1].
  exists (removed bs i (f_ino f) bb'), (<[i := None]> fs). split_and!; [|by apply removed_rep|done|by apply removed_exact|by apply removed_lost|done].
  eapply runs_bind; [eapply runs_bind; [apply runs_null|apply runs_ret]|].
  eapply runs_bind; [exact Hf|]. cbv beta iota.
  eapply runs_bind; [apply runs_read; unfold MCSFS1_ROOT_DIR_LBA; lia|].
  eapply runs_bind. { apply runs_write; [unfold MCSFS1_ROOT_DIR_LBA; lia|]. rewrite length_splice. apply (wf_blk bs); [done|unfold MCSFS1_ROOT_DIR_LBA; lia]. }
  fold (dir_of bs). change (Z.to_nat MCSFS1_ROOT_DIR_LBA) with 7%nat.
  change Fld.dirent_bytes with 32%nat. change Fld.inode_bytes with 60%nat.
  set (bs1 := <[7%nat := splice (dirent_off (Z.of_nat i) 0) (zeros 32) (dir_of bs)]> bs) in *.
  assert (ib_of bs1 = ib_of bs ∧ bb_of bs1 = bb_of bs) as [Eib Ebb].
  { unfold ib_of, bb_of, bs1, MCSFS1_INODE_BMAP_LBA, MCSFS1_BLOCK_BMAP_LBA. by rewrite !(blk_insert_ne _ 7) by done. }
  eapply runs_bind.
  { unfold free_inode_and_blocks. eapply runs_bind; [by apply runs_load_bmaps|]. cbv beta iota. apply runs_deref. intros d Hd.
    rewrite Hd, L1, Ebb, Eib. change (Z.to_nat MCSFS1_DIRECT_BLOCKS) with 8%nat. rewrite Hc.
    eapply runs_bind; [apply runs_lift|]. apply runs_store_bmaps; [done| |apply Hbb].
    apply (clear_bit_ok _ (f_ino f) (ib_ok _ W)). lia. }
  eapply runs_bind; [apply runs_write_inode; [exact W2|done]|apply runs_flush].
Qed.
End unlink_run.

(** ** Counting blocks *)

Definition blocks_of (fs : list (option file)) : list Z := concat (from_option f_direct [] <$> fs).

Lemma blocks_of_elem fs i f j b : fs !! i = Some (Some f) → f_direct f !! j = Some b → b ∈ blocks_of fs.
Proof.
  intros Hi Hj. apply list_elem_of_In, in_concat. exists (f_direct f). split; [|by apply list_elem_of_In, list_elem_of_lookup_2 with j].
  apply list_elem_of_In, list_elem_of_fmap. exists (Some f). split; [done|]. by apply list_elem_of_lookup_2 with i.
Qed.

Lemma blocks_of_length fs : (∀ i f, fs !! i = Some (Some f) → length (f_direct f) = 8%nat) → (length (blocks_of fs) <= 8 * length fs)%nat.
Proof.
  induction fs as [|o fs IH]; intros H; [done|]. unfold blocks_of in *. cbn [fmap list_fmap concat length]. rewrite length_app.
  assert (length (from_option f_direct [] o) <= 8)%nat by (destruct o as [f|]; cbn; [rewrite (H 0%nat f); [lia|done]|lia]).
  specialize (IH (λ i f Hf, H (S i) f Hf)). cbn [fmap] in IH. lia.
Qed.

(** A device whose data blocks are all owned is small. *)
Lemma owned_small bs fs :
  (∀ i f, fs !! i = Some (Some f) → length (f_direct f) = 8%nat) → exact bs fs → full bs →
  Z.of_nat (length bs) <= 8 + Z.of_nat (length (blocks_of fs)).
Proof.
  intros Hf He Hfull. destruct (decide (Z.of_nat (length bs) <= 8)); [lia|].
  assert (seqZ 8 (Z.of_nat (length bs) - 8) ⊆+ blocks_of fs) as Hs%submseteq_length.
  { apply NoDup_submseteq; [apply NoDup_seqZ|]. intros b Hb%elem_of_seqZ.
    destruct (He b ltac:(lia) (Hfull b ltac:(lia))) as (i & f & j & Hi & Hj). by eapply blocks_of_elem. }
  rewrite length_seqZ in Hs. lia.
Qed.
