(* ===== verification/Mcsfs1Write.v ===== *)
(** * MCSFS1: writing a file *)

From Stdlib Require Import ZArith Lia.
From stdpp Require Import base numbers option list.
From S2P Require Import Prelude Bitmap Mcsfs1 Mcsfs1Proof Mcsfs1Ops.

Local Open Scope Z_scope.
Local Open Scope cm_scope.

(** ** More blocks marked used *)

Record grown (bs bs' : list (list Z)) : Prop := {
  gr_wf : disk_wf bs → disk_wf bs';
  gr_len : length bs' = length bs;
  gr_blk lba : 0 <= lba → lba ≠ 2 → blk bs' lba = blk bs lba;
  gr_bits : bits_le (bb_of bs) (bb_of bs')
}.

#[export] Instance grown_preorder : PreOrder grown.
Proof.
  split.
  - intros bs. constructor; try done. by intros k _.
  - intros b1 b2 b3 [A1 A2 A3 A4] [B1 B2 B3 B4]. constructor; [auto|congruence| |].
    + intros lba H0 H2. by rewrite B3, A3.
    + intros k Hk Ht. auto.
Qed.

Lemma grown_set bs b : disk_wf bs → 0 <= b < 4096 → grown bs (put_bmaps bs (ib_of bs) (bit_set (bb_of bs) b)).
Proof.
  intros W Hb. destruct (set_bit_ok _ b (bb_ok _ W) Hb) as [Hok Ht]. constructor.
  - intros _. apply wf_put_bmaps; [done|by apply ib_ok|done].
  - apply length_put_bmaps.
  - intros lba H0 H2. destruct (decide (lba = 1)) as [->|]; [|by apply blk_put_bmaps].
    change (blk (put_bmaps bs (ib_of bs) (bit_set (bb_of bs) b)) 1) with (ib_of (put_bmaps bs (ib_of bs) (bit_set (bb_of bs) b))).
    by apply ib_put_bmaps.
  - intros k Hk Hbit. rewrite bb_put_bmaps by done. rewrite Ht by done. by rewrite Hbit.
Qed.

Lemma grown_inode bs bs' ino : grown bs bs' → ino_ok ino → inode_of bs' ino = inode_of bs ino.
Proof. intros G Hi. pose proof (inode_lba_range ino Hi). unfold inode_of. by rewrite (gr_blk _ _ G) by lia. Qed.

Lemma grown_keeps bs bs' : disk_wf bs → grown bs bs' → keeps bs bs'.
Proof.
  intros W G. constructor.
  - by apply G.
  - apply G.
  - by apply G.
  - apply grown_inode; [done|]. unfold ino_ok, MCSFS1_ROOT_INO. lia.
  - unfold ib_of. by rewrite (gr_blk _ _ G).
  - intros b Hb. apply (gr_bits _ _ G). lia.
Qed.

Lemma grown_file bs bs' f : grown bs bs' → file_rep bs f → file_rep bs' f.
Proof.
  intros G Hr. pose proof (fr_ino _ _ Hr). apply (file_frame bs); [done|apply G|..].
  - apply grown_inode; [done|]. unfold ino_ok. lia.
  - unfold ib_of. rewrite (gr_blk _ _ G) by done. apply Hr.
  - intros j b Hj Hb. destruct (fr_block _ _ Hr j b Hj Hb) as [? Hbit]. split; [|apply G; lia]. apply (gr_bits _ _ G); [lia|done].
Qed.

Lemma grown_rep bs bs' fs : grown bs bs' → fs_rep bs fs → fs_rep bs' fs.
Proof.
  intros G R. pose proof (grown_keeps bs bs' (rp_wf _ _ R) G) as K.
  assert (dir_of bs' = dir_of bs) as Ed by (unfold dir_of; by apply G).
  assert (ib_of bs' = ib_of bs) as Ei by (unfold ib_of; by apply G).
  pose proof R as []. constructor; rewrite ?Ed, ?Ei, ?(kp_super _ _ K), ?(kp_len _ _ K), ?(kp_root _ _ K); try done.
  - apply K.
  - intros b Hb. apply K; [done|]. by apply rp_meta.
  - intros i f Hf. by eapply grown_file, rp_file.
Qed.

(** ** Growing *)

(** The blocks of an inode, as the bitmap of [bs] has them. *)
Definition direct_ok (bs : list (list Z)) (d : list Z) : Prop :=
  ∀ j x, d !! j = Some x → x ≠ 0 → 8 <= x < Z.of_nat (length bs) ∧ bm_test (bb_of bs) x = true.

Lemma direct_ok_grown bs bs' d : grown bs bs' → direct_ok bs d → direct_ok bs' d.
Proof.
  intros G H j x Hj Hx. destruct (H j x Hj Hx) as [Hr Hb]. rewrite (gr_len _ _ G). split; [done|].
  apply (gr_bits _ _ G); [lia|done].
Qed.

(** [d'] extends [d] with blocks that were free in [bs]. *)
Definition extends (bs : list (list Z)) (d d' : list Z) : Prop :=
  ∀ j x, d' !! j = Some x → d !! j = Some x ∨ bm_test (bb_of bs) x = false.

(** A free block joins the blocks of an inode. *)
Lemma insert_direct_ok bs bs1 d i b :
  grown bs bs1 → direct_ok bs d → 8 <= b < Z.of_nat (length bs) → bm_test (bb_of bs1) b = true → direct_ok bs1 (<[i := b]> d).
Proof.
  intros G Hd Hb Hbit j y [(_ & <- & _)|[_ Hj]]%list_lookup_insert_Some Hy; [by rewrite (gr_len _ _ G)|].
  by apply (direct_ok_grown bs bs1 d G Hd j).
Qed.

Lemma insert_direct_inj bs d i b : direct_ok bs d → direct_inj d → bm_test (bb_of bs) b = false → direct_inj (<[i := b]> d).
Proof.
  intros Hd Hinj Hb j j' y [(<- & <- & _)|[Hne Hj]]%list_lookup_insert_Some [(<- & E & _)|[Hne' Hj']]%list_lookup_insert_Some Hy.
  - done.
  - destruct (Hd j' b Hj' Hy). congruence.
  - destruct (Hd j y Hj Hy). congruence.
  - by apply (Hinj j j' y).
Qed.

Lemma insert_extends bs bs1 d i b d' :
  grown bs bs1 → bm_test (bb_of bs) b = false → (∀ j y, d' !! j = Some y → 0 <= y) →
  extends bs1 (<[i := b]> d) d' → extends bs d d'.
Proof.
  intros G Hb H0 He j y Hj. destruct (He j y Hj) as [[(_ & <- & _)|[_ Hd]]%list_lookup_insert_Some|Hfree]; [by right|by left|].
  right. destruct (bm_test (bb_of bs) y) eqn:Ey; [|done]. by rewrite (gr_bits _ _ G y (H0 j y Hj) Ey) in Hfree.
Qed.

Lemma direct_ok_pos bs d : direct_ok bs d → ∀ j y, d !! j = Some y → 0 <= y.
Proof. intros H j y Hj. destruct (decide (y = 0)); [lia|]. destruct (H j y Hj); lia. Qed.

(** [d'] keeps the blocks of [d], and every block marked from [bs] to [bs'] is
    in it. *)
Record accounts (bs : list (list Z)) (d : list Z) (bs' : list (list Z)) (d' : list Z) : Prop := {
  ac_len : length d' = length d;
  ac_keep j x : d !! j = Some x → x ≠ 0 → d' !! j = Some x;
  ac_bits b : 0 <= b → bm_test (bb_of bs') b = true → bm_test (bb_of bs) b = true ∨ ∃ j, d' !! j = Some b
}.

Lemma accounts_refl bs d : accounts bs d bs d.
Proof. constructor; [done|done|]. intros b _ Hb. by left. Qed.

(** What [grow_loop] gives. *)
Definition grow_post (size : Z) (bs : list (list Z)) (d : list Z) (l : list nat) (r : res (list Z)) (bs' : list (list Z)) : Prop :=
  ∃ d', accounts bs d bs' d' ∧
  match r with
  | Ok inode' => inode_fields inode' size d' ∧ direct_ok bs' d' ∧ direct_inj d' ∧ extends bs d d' ∧
      (∀ j x, j ∈ l → d' !! j = Some x → x ≠ 0)
  | Err rc => rc = MCSFS1_ERR_NOSPC ∧ full bs' ∧ ∃ j, d' !! j = Some 0
  | Ub => False
  end.

Lemma grow_post_insert size bs bs1 bs' d i b l r :
  grown bs bs1 → (∀ x, 0 <= x → bm_test (bb_of bs1) x = true → bm_test (bb_of bs) x = true ∨ x = b) →
  d !! i = Some 0 → 8 <= b → bm_test (bb_of bs) b = false →
  grow_post size bs1 (<[i := b]> d) l r bs' → grow_post size bs d (i :: l) r bs'.
Proof.
  intros G Hone Hi Hb Hfree (d' & [A1 A2 A3] & Hr). pose proof (lookup_lt_Some _ _ _ Hi) as Hlt. rewrite length_insert in A1.
  assert (d' !! i = Some b) as Hib by (apply A2; [by apply list_lookup_insert_eq|lia]). exists d'. split.
  - constructor; [done| |].
    + intros j y Hj Hy. apply A2; [|done]. apply list_lookup_insert_Some. right. split; [|done]. intros <-. congruence.
    + intros x Hx Hbit. destruct (A3 x Hx Hbit) as [H1|H1]; [|by right]. destruct (Hone x Hx H1) as [| ->]; [by left|right; by exists i].
  - destruct r as [inode'|rc|]; [|done|done]. destruct Hr as (H1 & H2 & H3 & H4 & H6). split_and!; try done.
    + eapply insert_extends; [done|done|by eapply direct_ok_pos|done].
    + intros j y [->|Hjl]%elem_of_cons Hj; [|by eapply H6]. assert (y = b) as -> by congruence. lia.
Qed.

Section grow.
Context {C : Type} {rd : C → Z → Z * list Z * C} {wr : C → Z → list Z → Z * C} {fl : C → Z * C}.
Context {BS : BlockStore rd wr fl}.

Lemma grow_run size l : ∀ bs inode d,
  disk_wf bs → inode_fields inode size d → direct_ok bs d → direct_inj d → Forall (λ j, (j < 8)%nat) l →
  ∃ r bs', runs (BS := BS) (grow_loop inode l) bs r bs' ∧ grown bs bs' ∧ grow_post size bs d l r bs'.
Proof.
  induction l as [|i l IH]; intros bs inode d W Hf Hd Hinj Hl; cbn [grow_loop].
  { exists (Ok inode), bs. split; [apply runs_ret|]. split; [done|]. exists d. split; [apply accounts_refl|]. split_and!; try done.
    - intros j x Hj. by left.
    - intros j x Hj. by apply elem_of_nil in Hj. }
  apply Forall_cons in Hl as [Hi Hl]. pose proof (dw_len _ W) as Hn.
  destruct (lookup_lt_is_Some_2 d i) as [x Hx]; [rewrite (nf_dlen _ _ _ Hf); lia|].
  rewrite (nf_direct _ _ _ Hf i x Hx). destruct (Z.eqb_spec x 0) as [->|Hx0].
  - destruct (alloc_data_run (BS := BS) bs W) as [[Ha Hfull]|(b & Hb & Hbit & Ha)].
    { exists (Err MCSFS1_ERR_NOSPC), bs. split; [by apply runs_bind_err|]. split; [done|]. exists d. split; [apply accounts_refl|].
      split_and!; [done|done|by exists i]. }
    pose proof (grown_set bs b W ltac:(lia)) as G1. set (bs1 := put_bmaps _ _ _) in *.
    assert (∀ x, 0 <= x → bm_test (bb_of bs1) x = (bm_test (bb_of bs) x || (x =? b))%bool) as Hbits.
    { unfold bs1. rewrite bb_put_bmaps by done. apply set_bit_ok; [by apply bb_ok|lia]. }
    destruct (IH bs1 (st 4 (Fld.direct i) b inode) (<[i := b]> d)) as (r & bs' & Hrun & G2 & Hr).
    + by apply G1.
    + apply set_direct_fields; [done|done|unfold fits; lia].
    + apply (insert_direct_ok bs); [done|done|done|]. rewrite Hbits by lia. by rewrite Z.eqb_refl, orb_true_r.
    + by apply (insert_direct_inj bs).
    + done.
    + exists r, bs'. split; [eapply runs_bind; [exact Ha|exact Hrun]|]. split; [by transitivity bs1|].
      apply (grow_post_insert size bs bs1 bs' d i b); [done| |done|lia|done|done].
      intros x Hx0. rewrite Hbits by done. intros [|?%Z.eqb_eq]%orb_true_iff; [by left|by right].
  - destruct (IH bs inode d W Hf Hd Hinj Hl) as (r & bs' & Hrun & G2 & Hr). exists r, bs'. split; [done|]. split; [done|].
    destruct Hr as (d' & Ha & Hr). exists d'. split; [done|].
    destruct r as [inode'|rc|]; [|done|done]. destruct Hr as (H1 & H2 & H3 & H4 & H6). split_and!; try done.
    intros j y [->|Hjl]%elem_of_cons Hj; [|by eapply H6]. assert (d' !! i = Some x) by (by apply (ac_keep _ _ _ _ Ha)). congruence.
Qed.
End grow.

(** ** Writing the data *)

Definition chunk_at (D : list Z) (i : nat) : list Z := take 512 (drop (512 * i) D).
Definition data_block (D : list Z) (i : nat) : list Z := chunk_at D i ++ zeros (512 - length (chunk_at D i)).

Lemma length_chunk D i : length (chunk_at D i) = min 512 (length D - 512 * i).
Proof. unfold chunk_at. by rewrite length_take, length_drop. Qed.

Lemma length_data_block D i : length (data_block D i) = 512%nat.
Proof. unfold data_block, zeros. rewrite length_app, length_replicate, length_chunk. lia. Qed.

Lemma data_block_bytes D i : bytes_ok D → bytes_ok (data_block D i).
Proof. intros H. apply Forall_app_2; [by apply Forall_take, Forall_drop|apply bytes_ok_zeros]. Qed.

(** The copy loop of [mcsfs1_write] fills a block. *)
Lemma chunk_copy buf len i :
  (512 * i <= len <= length buf)%nat → let D := take len buf in
  c_memcpy (zeros 512) (drop (Z.to_nat (Z.of_nat (min (512 * i) len))) buf) (Z.of_nat (length (chunk_at D i))) = Ok (data_block D i).
Proof.
  intros Hl D. assert (length D = len) as HD by (unfold D; rewrite length_take; lia).
  pose proof (length_chunk D i) as Hc. rewrite HD in Hc. replace (min (512 * i) len) with (512 * i)%nat by lia.
  unfold c_memcpy. rewrite length_drop, !Nat2Z.id. unfold zeros at 1. rewrite length_replicate.
  rewrite (proj2 (orb_false_iff _ _)) by (split; apply Z.ltb_ge; lia). unfold data_block. f_equal. f_equal.
  - rewrite Hc. unfold chunk_at, D. rewrite skipn_firstn_comm, take_take. f_equal.
  - unfold zeros. by rewrite drop_replicate.
Qed.

(** The blocks hold the data. *)
Lemma data_blocks D k i :
  (length D <= 512 * (i + k))%nat →
  take (length D - 512 * i) (concat (data_block D <$> seq i k)) = drop (512 * i) D.
Proof.
  revert i. induction k as [|k IH]; intros i Hl.
  { rewrite drop_ge by lia. apply take_nil. }
  cbn [seq fmap list_fmap concat]. rewrite firstn_app, length_data_block.
  replace (length D - 512 * i - 512)%nat with (length D - 512 * S i)%nat by lia. specialize (IH (S i)). cbn [fmap] in IH.
  rewrite IH by lia. unfold data_block. pose proof (length_chunk D i) as Hc.
  destruct (decide (512 <= length D - 512 * i)%nat) as [Hge|Hlt].
  - replace (512 - length (chunk_at D i))%nat with 0%nat by lia. change (zeros 0) with (@nil Z). rewrite app_nil_r.
    rewrite take_ge by lia. unfold chunk_at. replace (512 * S i)%nat with (512 * i + 512)%nat by lia.
    rewrite <-drop_drop. apply take_drop.
  - rewrite (drop_ge D (512 * S i)) by lia. rewrite app_nil_r. rewrite take_app_le by lia.
    rewrite take_ge by lia. unfold chunk_at. rewrite take_ge; [done|]. rewrite length_drop. lia.
Qed.

Definition put_data (d D : list Z) (bs : list (list Z)) (l : list nat) : list (list Z) :=
  foldl (λ bs j, <[Z.to_nat (default 0 (d !! j)) := data_block D j]> bs) bs l.

Lemma put_data_cons d D bs j x l : d !! j = Some x → put_data d D bs (j :: l) = put_data d D (<[Z.to_nat x := data_block D j]> bs) l.
Proof. intros Hx. unfold put_data. cbn [foldl]. by rewrite Hx. Qed.

Lemma length_put_data d D l bs : length (put_data d D bs l) = length bs.
Proof.
  revert bs. induction l as [|j l IH]; intros bs; [done|].
  transitivity (length (<[Z.to_nat (default 0 (d !! j)) := data_block D j]> bs)); [apply IH|apply length_insert].
Qed.

(** The blocks at the positions [l] of [d] are data blocks of the device. *)
Definition targets (d : list Z) (n : nat) (l : list nat) : Prop :=
  Forall (λ j, ∃ x, d !! j = Some x ∧ 8 <= x < Z.of_nat n) l.

Section put_data.
Context (d D : list Z).

Lemma wf_put_data l bs : bytes_ok D → disk_wf bs → disk_wf (put_data d D bs l).
Proof.
  intros HD. revert bs. induction l as [|j l IH]; intros bs W; [done|].
  apply IH, wf_insert; [done|apply length_data_block|by apply data_block_bytes].
Qed.

Lemma blk_put_data_ne l bs lba :
  targets d (length bs) l → 0 <= lba → (∀ j, j ∈ l → d !! j ≠ Some lba) → blk (put_data d D bs l) lba = blk bs lba.
Proof.
  revert bs. induction l as [|j l IH]; intros bs Hl H0 Hne; [done|].
  apply Forall_cons in Hl as [(x & Hx & Hr) Hl]. rewrite (put_data_cons _ _ _ _ _ _ Hx).
  rewrite IH; [|by rewrite length_insert|done|].
  - apply blk_insert_ne; [|lia|done]. intros ->. by apply (Hne j); [left|].
  - intros k Hk. apply Hne. by right.
Qed.

Lemma blk_put_data_eq l bs j x :
  targets d (length bs) l → direct_inj d → NoDup l → j ∈ l → d !! j = Some x →
  blk (put_data d D bs l) x = data_block D j.
Proof.
  intros Hl Hinj. revert bs Hl. induction l as [|k l IH]; intros bs Hl Hnd Hj Hx; [by apply elem_of_nil in Hj|].
  apply NoDup_cons in Hnd as [Hk Hnd].
  apply Forall_cons in Hl as [(y & Hy & Hr) Hl]. rewrite (put_data_cons _ _ _ _ _ _ Hy).
  apply elem_of_cons in Hj as [->|Hj]; [|apply IH; [by rewrite length_insert|done..]].
  assert (y = x) as -> by congruence. rewrite blk_put_data_ne; [|by rewrite length_insert|lia|].
  - apply blk_insert_eq. lia.
  - intros j Hj Hjx. assert (j = k) by (apply (Hinj j k x); [done..|lia]). by subst.
Qed.
End put_data.

Section write_data.
Context {C : Type} {rd : C → Z → Z * list Z * C} {wr : C → Z → list Z → Z * C} {fl : C → Z * C}.
Context {BS : BlockStore rd wr fl}.

Lemma write_loop_run (inode buf d : list Z) (len : nat) size k : ∀ i bs,
  inode_fields inode size d → (len <= length buf)%nat → targets d (length bs) (seq i k) →
  runs (BS := BS) (write_loop inode buf (Z.of_nat len) (Z.of_nat (min (512 * i) len)) (seq i k)) bs (Ok tt)
    (put_data d (take len buf) bs (seq i k)).
Proof.
  induction k as [|k IH]; intros i bs Hf Hlen Ht; cbn [seq write_loop]; [apply runs_ret|].
  apply Forall_cons in Ht as [(x & Hx & Hr) Ht]. set (D := take len buf).
  assert (length D = len) as HD by (unfold D; rewrite length_take; lia). pose proof (length_chunk D i) as Hc. rewrite HD in Hc.
  assert (chunk_of (Z.of_nat len - Z.of_nat (min (512 * i) len)) = Z.of_nat (length (chunk_at D i))) as ->.
  { unfold chunk_of, MCSFS1_BLOCK_SIZE. destruct (Z.ltb_spec 512 (Z.of_nat len - Z.of_nat (min (512 * i) len))); lia. }
  apply (runs_bind _ _ _ (data_block D i) bs).
  - destruct (Z.eqb_spec (Z.of_nat (length (chunk_at D i))) 0) as [E|E].
    + unfold data_block. destruct (chunk_at D i); [apply runs_ret|cbn in E; lia].
    + rewrite chunk_copy by (rewrite ?length_take; lia). apply runs_lift.
  - rewrite (nf_direct _ _ _ Hf i x Hx). eapply runs_bind; [apply runs_write; [lia|apply length_data_block]|].
    replace (Z.of_nat (min (512 * i) len) + Z.of_nat (length (chunk_at D i))) with (Z.of_nat (min (512 * S i) len)) by lia.
    rewrite (put_data_cons _ _ _ _ _ _ Hx). apply IH; [done|done|]. by rewrite length_insert.
Qed.
End write_data.

(** ** The file after a write *)

Section update.
Context (bs : list (list Z)) (fs : list (option file)) (R : fs_rep bs fs) (i : nat) (f : file) (Hi : fs !! i = Some (Some f)).
Context (bs1 : list (list Z)) (G : grown bs bs1) (inode d D : list Z) (size : Z) (K : nat).
Context (HD : bytes_ok D) (Hlen : (length D <= 8 * 512)%nat) (HK : Z.of_nat K = needed (Z.of_nat (length D))).
Context (Hf : inode_fields inode size d) (Hd : direct_ok bs1 d) (Hinj : direct_inj d) (Hext : extends bs (f_direct f) d).
Context (Hnz : ∀ j x, j ∈ seq 0 K → d !! j = Some x → x ≠ 0).

Let bs2 := put_data d D bs1 (seq 0 K).
Let inode' := st 4 Fld.size (Z.of_nat (length D)) inode.
Definition updated : list (list Z) := put_inode bs2 (f_ino f) inode'.
Let bs3 := updated.

Lemma update_K : (1 <= K <= 8 ∧ length D <= 512 * K)%nat.
Proof using HK Hlen. destruct (blocks_for_bounds (Z.of_nat (length D)) ltac:(lia)) as (? & ? & Hn). lia. Qed.

Lemma update_targets : targets d (length bs1) (seq 0 K).
Proof using HK Hlen Hf Hd Hnz.
  pose proof update_K. apply Forall_forall. intros j Hj. pose proof (proj1 (elem_of_seq _ _ _) Hj).
  destruct (lookup_lt_is_Some_2 d j) as [x Hx]; [rewrite (nf_dlen _ _ _ Hf); lia|].
  exists x. split; [done|]. apply (Hd j x Hx). by apply (Hnz j).
Qed.

Lemma update_ino : ino_ok (f_ino f).
Proof using R Hi. clear Hlen HK. pose proof (fr_ino _ _ (rp_file _ _ R i f Hi)). unfold ino_ok. lia. Qed.

Lemma update_fields : inode_fields inode' (Z.of_nat (length D)) d.
Proof using Hf Hlen. clear HK. eapply set_size_fields; [done|]. unfold fits. lia. Qed.

Lemma updated_wf : disk_wf bs2 ∧ disk_wf bs3 ∧ length bs3 = length bs.
Proof using R Hi G HD Hf Hlen.
  assert (disk_wf bs2) as W2 by (apply wf_put_data; [done|apply G, R]). split; [done|]. split.
  - apply wf_put_inode; [done|apply update_ino|apply update_fields].
  - unfold bs3, updated, bs2. by rewrite length_put_inode, length_put_data, (gr_len _ _ G).
Qed.

(** Blocks other than the file's keep their contents; the block bitmap is that
    of [bs1]. *)
Lemma updated_blk lba :
  0 <= lba → ~ (3 <= lba <= 6) → (∀ j, j ∈ seq 0 K → d !! j ≠ Some lba) → blk bs3 lba = blk bs1 lba.
Proof using R Hi HK Hlen Hf Hd Hnz.
  intros H0 Hn Hne. unfold bs3, updated. rewrite blk_put_inode; [|apply update_ino|done|done].
  apply blk_put_data_ne; [apply update_targets|done|done].
Qed.

Lemma updated_meta lba : 0 <= lba < 8 → ~ (3 <= lba <= 6) → blk bs3 lba = blk bs1 lba.
Proof using R Hi HK Hlen Hf Hd Hnz.
  intros H0 Hn. apply updated_blk; [lia|done|]. intros j Hj Hx. destruct (Hd j lba Hx (Hnz j lba Hj Hx)). lia.
Qed.

Lemma updated_inode k : ino_ok k → k ≠ f_ino f → inode_of bs3 k = inode_of bs k.
Proof using R Hi G HD HK Hlen Hf Hd Hnz.
  intros Hk Hne. unfold bs3, updated. destruct updated_wf as [W2 _].
  rewrite inode_of_put_ne; [|apply W2 || apply update_ino || apply update_fields || done..].
  rewrite <-(grown_inode bs bs1 k G Hk). pose proof (inode_lba_range k Hk). unfold inode_of. f_equal.
  apply blk_put_data_ne; [apply update_targets|lia|]. intros j Hj Hx. destruct (Hd j _ Hx (Hnz j _ Hj Hx)). lia.
Qed.

(** No other file has a block of [d]. *)
Lemma updated_apart j g k k' b :
  fs !! j = Some (Some g) → i ≠ j → d !! k = Some b → f_direct g !! k' = Some b → b = 0.
Proof using R Hi Hext.
  intros Hj Hne Hk Hk'. destruct (decide (b = 0)) as [|Hb]; [done|exfalso]. destruct (Hext k b Hk) as [Ho|Hfree].
  - destruct (rp_blocks _ _ R i j f g k k' b Hi Hj Ho Hk' Hb). done.
  - destruct (fr_block _ _ (rp_file _ _ R j g Hj) k' b Hk' Hb). congruence.
Qed.

Lemma updated_other j g : i ≠ j → fs !! j = Some (Some g) → file_rep bs3 g.
Proof using R Hi G HD HK Hlen Hf Hd Hnz Hext.
  intros Hne Hj. pose proof (rp_file _ _ R j g Hj) as Hg. pose proof (fr_ino _ _ Hg). destruct updated_wf as (_ & W3 & L3).
  apply (file_frame bs); [done|done|..].
  - apply updated_inode; [unfold ino_ok; lia|]. intros E. by apply Hne, (rp_inos _ _ R i j f g).
  - unfold ib_of, MCSFS1_INODE_BMAP_LBA. rewrite updated_meta, (gr_blk _ _ G) by lia. apply Hg.
  - intros k x Hk Hx. destruct (fr_block _ _ Hg k x Hk Hx) as [Hr Hbit]. split.
    + unfold bb_of, MCSFS1_BLOCK_BMAP_LBA. rewrite updated_meta by lia. apply (gr_bits _ _ G); [lia|done].
    + rewrite updated_blk; [apply (gr_blk _ _ G); lia|lia|lia|]. intros k' _ Hk'.
      by apply Hx, (updated_apart j g k' k).
Qed.

Lemma updated_data : blocks_data bs3 d K = concat (data_block D <$> seq 0 K).
Proof using R Hi HK Hlen Hf Hd Hnz Hinj.
  unfold blocks_data. f_equal. pose proof update_K. pose proof (nf_dlen _ _ _ Hf).
  apply list_eq_same_length with (n := K); [by rewrite length_fmap, length_seq|rewrite length_fmap, length_take; lia|].
  intros j b b' Hj. rewrite !list_lookup_fmap, lookup_take_lt by done. rewrite lookup_seq_lt by done.
  destruct (d !! j) as [x|] eqn:Hx; [|done]. cbn. intros [= <-] [= <-]. assert (j ∈ seq 0 K) as Hjs by (apply elem_of_seq; lia).
  unfold bs3, updated. destruct (Hd j x Hx (Hnz j x Hjs Hx)). rewrite blk_put_inode; [|apply update_ino|lia|lia].
  apply blk_put_data_eq; [apply update_targets|done|apply NoDup_seq|done|done].
Qed.

Lemma updated_file : file_rep bs3 (mk_file (f_name f) (f_ino f) d D).
Proof using R Hi G HD HK Hlen Hf Hd Hnz Hinj.
  pose proof (rp_file _ _ R i f Hi) as Hr. pose proof (fr_ino _ _ Hr). destruct updated_wf as (W2 & W3 & L3).
  assert (inode_of bs3 (f_ino f) = inode') as Ei.
  { apply inode_of_put_eq; [done|apply update_ino|apply update_fields]. }
  pose proof update_fields as Hfl. constructor; cbn [f_name f_ino f_direct f_data]; rewrite ?Ei; try apply Hfl; try done; try apply Hr.
  - unfold ib_of, MCSFS1_INODE_BMAP_LBA. rewrite updated_meta, (gr_blk _ _ G) by lia. apply Hr.
  - intros j b Hj Hb. destruct (Hd j b Hj Hb) as [? ?]. unfold bb_of, MCSFS1_BLOCK_BMAP_LBA.
    rewrite updated_meta by lia. by rewrite L3, <-(gr_len _ _ G).
  - intros j b Hj Hlt. apply (Hnz j b); [|done]. apply elem_of_seq. lia.
  - rewrite <-HK, Nat2Z.id, updated_data. pose proof (data_blocks D K 0 ltac:(pose proof update_K; lia)) as E.
    rewrite Nat.mul_0_r, Nat.sub_0_r in E. by rewrite E.
Qed.

Lemma updated_exact fs' : exact bs1 fs' → exact bs3 fs'.
Proof using R Hi G HD HK Hlen Hf Hd Hnz.
  intros He b. destruct updated_wf as (_ & _ & ->). unfold bb_of, MCSFS1_BLOCK_BMAP_LBA. rewrite updated_meta by lia.
  rewrite <-(gr_len _ _ G). apply He.
Qed.

Lemma updated_lost : keeps_lost bs fs bs3 (<[i := Some (mk_file (f_name f) (f_ino f) d D)]> fs).
Proof using R Hi G HD HK Hlen Hf Hd Hnz Hext.
  destruct updated_wf as (_ & _ & L3). apply keeps_lost_slot; [done|..].
  - intros b (Hb & Hbit & _). unfold bb_of, MCSFS1_BLOCK_BMAP_LBA. rewrite updated_meta by lia. apply (gr_bits _ _ G); [lia|done].
  - intros g b [= <-] [j Hj]%list_elem_of_lookup (Hb & Hbit & Hno). destruct (Hext j b Hj) as [Ho|]; [|congruence].
    destruct (Hno i f Hi). by eapply list_elem_of_lookup_2.
Qed.

Lemma updated_rep : fs_rep bs3 (<[i := Some (mk_file (f_name f) (f_ino f) d D)]> fs).
Proof using R Hi G HD HK Hlen Hf Hd Hnz Hinj Hext.
  pose proof (lookup_lt_Some _ _ _ Hi) as Hi16. rewrite (rp_slots _ _ R) in Hi16. destruct updated_wf as (_ & W3 & L3).
  pose proof (grown_keeps bs bs1 (rp_wf _ _ R) G) as K1. pose proof (fr_ino _ _ (rp_file _ _ R i f Hi)).
  assert (dir_of bs3 = dir_of bs) as Ed by (unfold dir_of, MCSFS1_ROOT_DIR_LBA; rewrite updated_meta by lia; by apply G).
  assert (ib_of bs3 = ib_of bs) as Eib by (unfold ib_of, MCSFS1_INODE_BMAP_LBA; rewrite updated_meta by lia; by apply G).
  assert (bb_of bs3 = bb_of bs1) as Ebb by (unfold bb_of, MCSFS1_BLOCK_BMAP_LBA; by rewrite updated_meta by lia).
  apply (rep_slot bs bs3 fs i); [done| |done|..].
  - constructor; rewrite ?Eib, ?Ebb; try done; [|apply updated_inode; unfold ino_ok, MCSFS1_ROOT_INO; lia|apply K1].
    unfold MCSFS1_SB_LBA. rewrite updated_meta by lia. by apply G.
  - intros j _. by rewrite Ed.
  - intros j g Hne Hj. by apply (updated_other j).
  - constructor.
    + split; [rewrite Ed; by destruct (rp_slot _ _ R i f Hi)|]. split; [apply updated_file|done].
    + intros j h g [= <-] Hj Hne. constructor; cbn.
      * intros E. by apply Hne, (rp_inos _ _ R i j f g).
      * intros E. by apply Hne, (rp_names _ _ R i j f g).
      * intros k k' b. by apply (updated_apart j g k k' b).
  - intros k Hk. rewrite Eib. intros Hbit. destruct (rp_ibits _ _ R k Hk Hbit) as (j & g & Hj & E).
    destruct (decide (i = j)) as [<-|Hne]; [left|right; by exists j, g]. eexists. split; [done|]. cbn. congruence.
Qed.
End update.

(** The blocks of the file that grew are its own. *)
Section owners.
Context (bs : list (list Z)) (fs : list (option file)) (R : fs_rep bs fs) (i : nat) (f : file) (Hi : fs !! i = Some (Some f)).
Context (bs1 : list (list Z)) (d D : list Z) (Ha : accounts bs (f_direct f) bs1 d).

Let fs1 := <[i := Some (mk_file (f_name f) (f_ino f) d D)]> fs.

Lemma accounts_exact : length bs1 = length bs → exact bs fs → exact bs1 fs1.
Proof using Hi Ha.
  intros Hl He b Hb Hbit. pose proof (lookup_lt_Some _ _ _ Hi) as Hlt. rewrite Hl in Hb.
  assert (∀ j, d !! j = Some b → ∃ i g j, fs1 !! i = Some (Some g) ∧ f_direct g !! j = Some b) as Hd.
  { intros j Hj. exists i, (mk_file (f_name f) (f_ino f) d D), j. split; [by apply list_lookup_insert_eq|done]. }
  destruct (ac_bits _ _ _ _ Ha b ltac:(lia) Hbit) as [H1|[j Hj]]; [|by apply (Hd j)].
  destruct (He b Hb H1) as (k & g & j & Hk & Hj). destruct (decide (i = k)) as [<-|Hne].
  - apply (Hd j). assert (g = f) as -> by congruence. apply (ac_keep _ _ _ _ Ha); [done|lia].
  - exists k, g, j. split; [|done]. unfold fs1. by rewrite list_lookup_insert_ne.
Qed.

Lemma grow_small j : d !! j = Some 0 → full bs1 → exact bs1 fs1 → Z.of_nat (length bs1) < 136.
Proof using R Hi Ha.
  intros Hj Hfull He. pose proof (lookup_lt_Some _ _ _ Hi) as Hlt.
  assert (∀ k g, fs1 !! k = Some (Some g) → length (f_direct g) = 8%nat) as H8.
  { intros k g [[<- [= <-]]|[_ Hk]]%slot_cases; [cbn; rewrite (ac_len _ _ _ _ Ha)|]; by eapply fr_dlen, rp_file. }
  assert (0 :: seqZ 8 (Z.of_nat (length bs1) - 8) ⊆+ blocks_of fs1) as Hs%submseteq_length.
  { apply NoDup_submseteq; [apply NoDup_cons; split; [intros H%elem_of_seqZ; lia|apply NoDup_seqZ]|].
    intros b [->|Hb%elem_of_seqZ]%elem_of_cons.
    - apply (blocks_of_elem fs1 i (mk_file (f_name f) (f_ino f) d D) j); [by apply list_lookup_insert_eq|done].
    - destruct (He b ltac:(lia) (Hfull b ltac:(lia))) as (k & g & l & Hk & Hl). by eapply blocks_of_elem. }
  pose proof (blocks_of_length fs1 H8) as Hle. unfold fs1 in Hle at 2. rewrite length_insert, (rp_slots _ _ R) in Hle.
  cbn [length] in Hs. rewrite length_seqZ in Hs. lia.
Qed.
End owners.

Section write_run.
Context {C : Type} {rd : C → Z → Z * list Z * C} {wr : C → Z → list Z → Z * C} {fl : C → Z * C}.
Context {BS : BlockStore rd wr fl} (bs : list (list Z)) (fs : list (option file)) (R : fs_rep bs fs).

(** What [mcsfs1_write] gives: a result and the files. *)
Definition write_post (bs : list (list Z)) (fs : list (option file)) (name D : list Z) (r : res unit) (bs' : list (list Z)) (fs' : list (option file)) : Prop :=
  match find_spec fs name with
  | Ok (i, f) =>
      (r = Err MCSFS1_ERR_NOSPC ∧ fs' = fs ∧ full bs' ∧ (exact bs fs → Z.of_nat (length bs) < 136) ∧
        keeps_lost bs fs bs' fs' ∧ ∀ b, 8 <= b < Z.of_nat (length bs) → bm_test (bb_of bs) b = false → lost bs' fs' b) ∨
      (r = Ok tt ∧ (exact bs fs → exact bs' fs') ∧ keeps_lost bs fs bs' fs' ∧ ∃ d, fs' = <[i := Some (mk_file (f_name f) (f_ino f) d D)]> fs)
  | Err rc => r = Err rc ∧ bs' = bs ∧ fs' = fs
  | Ub => False
  end.

(** Blocks that are marked and stay without a file. *)
Lemma grown_lost bs1 b : grown bs bs1 → 8 <= b < Z.of_nat (length bs) → bm_test (bb_of bs1) b = true →
  (bm_test (bb_of bs) b = true → ∀ i f, fs !! i = Some (Some f) → b ∉ f_direct f) → lost bs1 fs b.
Proof using R.
  intros G Hb Hbit Hno. split; [by rewrite (gr_len _ _ G)|]. split; [done|]. intros i f Hi Hin.
  pose proof Hin as [j Hj]%list_elem_of_lookup. destruct (fr_block _ _ (rp_file _ _ R i f Hi) j b Hj ltac:(lia)) as [_ Ht].
  by apply (Hno Ht i f).
Qed.

Lemma write_range m name buf len :
  4096 < len → runs (BS := BS) (mcsfs1_write (Some m) (Some name) (Some buf) len) bs (Err MCSFS1_ERR_RANGE) bs.
Proof.
  intros Hl. unfold mcsfs1_write, mounted. eapply runs_bind; [eapply runs_bind; [apply runs_null|apply runs_ret]|].
  eapply runs_bind; [by apply runs_pass|]. apply runs_bind_err, runs_stop, Z.ltb_lt.
  unfold MCSFS1_DIRECT_BLOCKS, MCSFS1_BLOCK_SIZE. lia.
Qed.

(** The checks before the file is opened. *)
Lemma write_guards {A} m buf (len : nat) (k : M (mcsfs1_blkdev C) A) r bs' :
  (len <= 8 * 512)%nat → runs (BS := BS) k bs r bs' →
  runs (BS := BS) (let* _ := mounted (Some m) in
    fail_if (bool_decide (Some buf = @None (list Z)) && negb (Z.of_nat len =? 0)) MCSFS1_ERR_INVAL ;;
    fail_if (MCSFS1_DIRECT_BLOCKS * MCSFS1_BLOCK_SIZE <? Z.of_nat len) MCSFS1_ERR_RANGE ;; k) bs r bs'.
Proof.
  intros Hmax H'. unfold mounted. eapply runs_bind; [eapply runs_bind; [apply runs_null|apply runs_ret]|].
  eapply runs_bind; [by apply runs_pass|]. eapply runs_bind; [apply runs_pass, Z.ltb_ge|exact H'].
  unfold MCSFS1_DIRECT_BLOCKS, MCSFS1_BLOCK_SIZE. lia.
Qed.

Lemma write_run m name buf (len : nat) :
  c_name name → bytes_ok buf → (len <= length buf)%nat → (len <= 8 * 512)%nat →
  ∃ r bs' fs', runs (BS := BS) (mcsfs1_write (Some m) (Some name) (Some buf) (Z.of_nat len)) bs r bs' ∧ fs_rep bs' fs' ∧
    length bs' = length bs ∧ write_post bs fs name (take len buf) r bs' fs'.
Proof using R.
  intros Hn Hbuf Hlen Hmax. pose proof (rp_wf _ _ R) as W. unfold write_post. set (D := take len buf).
  assert (length D = len) as HD by (unfold D; rewrite length_take; lia).
  pose proof (open_file_run bs fs R name Hn) as Hf. pose proof (find_spec_not_ub fs name) as Hub.
  unfold mcsfs1_write.
  destruct (find_spec fs name) as [[i f]|rc|] eqn:E; cbn [rmap fst snd] in *; [| |done].
  2:{ exists (Err rc), bs, fs. split; [|done]. by apply write_guards; [done|apply runs_bind_err]. }
  apply find_spec_Ok in E as [Hi _]. pose proof (rp_file _ _ R i f Hi) as Hr. pose proof (fr_ino _ _ Hr) as Hino.
  set (K := Z.to_nat (needed (Z.of_nat len))).
  destruct (blocks_for_bounds (Z.of_nat len) ltac:(lia)) as (Hb1 & Hb2 & Hnd).
  destruct (grow_run (BS := BS) (Z.of_nat (length (f_data f))) (seq 0 K) bs (inode_of bs (f_ino f)) (f_direct f) W) as (r & bs1 & Hg & G & Hp).
  { by apply file_fields. } { exact (fr_block _ _ Hr). }
  { intros j j' b Hj Hj' Hb. by destruct (rp_blocks _ _ R i i f f j j' b Hi Hi Hj Hj' Hb). }
  { apply Forall_forall. intros j Hj%elem_of_seq. unfold K in Hj. lia. }
  destruct Hp as (d & Ha & Hp). pose proof (accounts_exact bs fs i f Hi bs1 d (take len buf) Ha (gr_len _ _ G)) as Hex.
  destruct r as [inode|rc|]; [|destruct Hp as (-> & Hfull & j & Hj)|done].
  2:{ exists (Err MCSFS1_ERR_NOSPC), bs1, fs. split_and!; [|by eapply grown_rep|apply G|left; split_and!; try done].
      - apply write_guards; [done|]. eapply runs_bind; [exact Hf|]. by apply runs_bind_err.
      - intros He. rewrite <-(gr_len _ _ G). apply (grow_small bs fs R i f Hi bs1 d (take len buf) Ha j Hj Hfull), Hex, He.
      - intros b (Hb & Hbit & Hno). apply grown_lost; try done. apply (gr_bits _ _ G); [lia|done].
      - intros b Hb Hbit. apply grown_lost; try done; [|by rewrite Hbit]. apply Hfull. by rewrite (gr_len _ _ G). }
  destruct Hp as (Hfl & Hd & Hinj & Hext & Hnz).
  assert (bytes_ok D) as HDb by (by apply Forall_take). assert (Z.of_nat K = needed (Z.of_nat (length D))) as HK by (rewrite HD; unfold K; lia).
  assert (length D <= 8 * 512)%nat as HDm by lia.
  exists (Ok tt), (updated f bs1 inode d D K), (<[i := Some (mk_file (f_name f) (f_ino f) d D)]> fs).
  destruct (updated_wf bs fs R i f Hi bs1 G inode d D _ K HDb HDm Hfl) as (W2 & W3 & L3).
  split_and!; [|by eapply updated_rep|done|right; split; [done|split_and!; [| |by exists d]]].
  2:{ intros He. eapply updated_exact; [done..|]. by apply Hex. }
  2:{ by eapply updated_lost. }
  apply write_guards; [done|]. eapply runs_bind; [exact Hf|]. eapply runs_bind; [exact Hg|].
  eapply runs_bind. { apply (write_loop_run inode buf d len _ K 0 bs1 Hfl Hlen). by eapply update_targets. }
  unfold updated. rewrite HD. eapply runs_bind; [|apply runs_flush]. apply runs_write_inode; [exact W2|unfold ino_ok; lia].
Qed.
End write_run.
