(* ===== verification/Mcsfs1Format.v ===== *)
(** * MCSFS1: formatting a device

    [mcsfs1_format] overwrites every block, so what the device held before does
    not matter: the result is a file system with sixteen free slots. *)

From Stdlib Require Import ZArith Lia.
From stdpp Require Import base numbers option list.
From S2P Require Import Prelude Bitmap Mcsfs1 Mcsfs1Proof Mcsfs1Ops.

Local Open Scope Z_scope.
Local Open Scope cm_scope.

(** The bitmaps and the root inode of a new file system. *)
Definition new_ib : list Z := bit_set (bit_set (zeros 512) 0) MCSFS1_ROOT_INO.
Definition new_bb : list Z := bit_set (foldl bit_set (zeros 512) (seqZ 0 MCSFS1_DATA_START_LBA)) MCSFS1_ROOT_DIR_LBA.
Definition new_root : list Z := new_inode MCSFS1_MODE_DIR MCSFS1_BLOCK_SIZE MCSFS1_ROOT_DIR_LBA.

Definition formatted (n : nat) : list (list Z) :=
  put_inode (put_bmaps (<[0%nat := new_super (Z.of_nat n)]> (replicate n (zeros 512))) new_ib new_bb) MCSFS1_ROOT_INO new_root.

Lemma new_super_ok n : fits 32 n → super_ok n (new_super n).
Proof.
  intros Hn. unfold super_ok. split_and!; try (vm_compute; reflexivity). unfold new_super.
  unfold Fld.sb_block_count, Fld.clean, Fld.data_start_lba, Fld.root_dir_lba, Fld.root_ino, Fld.inode_table_blocks,
    Fld.inode_table_lba, Fld.block_bmap_lba, Fld.inode_bmap_lba, Fld.inode_count.
  rewrite !ld_st_ne by lia. apply ld_st_eq; [|done]. rewrite !length_st. unfold zeros. rewrite length_replicate. lia.
Qed.

Lemma length_new_super n : length (new_super n) = 512%nat.
Proof. unfold new_super. rewrite !length_st. apply (length_replicate 512). Qed.

Lemma new_bitmaps : bm_ok new_ib ∧ bm_ok new_bb.
Proof. split; (split; [by vm_compute|]); by apply (bool_decide_unpack _); vm_compute. Qed.

Lemma new_bits :
  bm_test new_ib MCSFS1_ROOT_INO = true ∧ (∀ k, 2 <= k <= 32 → bm_test new_ib k = false) ∧ (∀ b, 0 <= b < 8 → bm_test new_bb b = true).
Proof.
  split; [by vm_compute|]. split.
  - intros k Hk. assert (Forall (λ k, bm_test new_ib k = false) (seqZ 2 31)) as H by (apply (bool_decide_unpack _); by vm_compute).
    apply (proj1 (Forall_forall _ _) H). apply elem_of_seqZ. lia.
  - intros k Hk. assert (Forall (λ k, bm_test new_bb k = true) (seqZ 0 8)) as H by (apply (bool_decide_unpack _); by vm_compute).
    apply (proj1 (Forall_forall _ _) H). apply elem_of_seqZ. lia.
Qed.

Lemma root_ok : ino_ok MCSFS1_ROOT_INO.
Proof. unfold ino_ok, MCSFS1_ROOT_INO. lia. Qed.

Lemma new_bb_data b : 8 <= b < 4096 → bm_test new_bb b = false.
Proof.
  intros Hb. assert (Forall (λ k, bm_test new_bb k = false) (seqZ 8 4088)) as H by (apply (bool_decide_unpack _); by vm_compute).
  apply (proj1 (Forall_forall _ _) H). apply elem_of_seqZ. lia.
Qed.

Section formatted.
Context (n : nat) (Hn : 16 <= Z.of_nat n <= 4096).

Let b0 := <[0%nat := new_super (Z.of_nat n)]> (replicate n (zeros 512)).
Let b1 := put_bmaps b0 new_ib new_bb.

Lemma formatted_wf : disk_wf b0 ∧ disk_wf b1 ∧ disk_wf (formatted n) ∧ length b0 = n.
Proof using Hn.
  assert (length b0 = n) as Hl by (unfold b0; by rewrite length_insert, length_replicate).
  assert (disk_wf (replicate n (zeros 512))) as Wz.
  { constructor; [by rewrite length_replicate|]. apply Forall_replicate. split; [done|apply bytes_ok_zeros]. }
  assert (disk_wf b0) as W0.
  { apply (wf_insert _ 0); [done| |].
    - apply length_new_super.
    - unfold new_super. repeat apply bytes_ok_st. apply bytes_ok_zeros. }
  assert (disk_wf b1) as W1 by (apply wf_put_bmaps; [done|apply new_bitmaps..]).
  split_and!; try done. apply wf_put_inode; [done|apply root_ok|]. unfold new_root, new_inode. repeat apply bytes_ok_st. apply bytes_ok_zeros.
Qed.

Lemma formatted_blk lba : 0 <= lba < Z.of_nat n → lba ≠ 1 → lba ≠ 2 → ~ (3 <= lba <= 6) →
  blk (formatted n) lba = if lba =? 0 then new_super (Z.of_nat n) else zeros 512.
Proof using Hn.
  intros H1 H2 H3 H4. destruct formatted_wf as (W0 & _ & _ & Hl). unfold formatted.
  rewrite blk_put_inode, blk_put_bmaps by (apply root_ok || lia). destruct (Z.eqb_spec lba 0) as [->|Hne].
  - apply (blk_insert_eq _ 0). rewrite length_replicate. lia.
  - rewrite (blk_insert_ne _ 0) by lia. unfold blk. by rewrite lookup_replicate_2 by lia.
Qed.

Lemma formatted_bitmaps : ib_of (formatted n) = new_ib ∧ bb_of (formatted n) = new_bb ∧ length (formatted n) = n.
Proof using Hn.
  destruct formatted_wf as (W0 & W1 & W & Hl). unfold ib_of, bb_of, formatted, MCSFS1_INODE_BMAP_LBA, MCSFS1_BLOCK_BMAP_LBA.
  rewrite !blk_put_inode by (apply root_ok || lia). rewrite length_put_inode, length_put_bmaps.
  split_and!; [by apply ib_put_bmaps|by apply bb_put_bmaps|done].
Qed.

Lemma formatted_exact fs : exact (formatted n) fs.
Proof using Hn.
  destruct formatted_bitmaps as (_ & Eb & El). intros b. rewrite Eb, El. intros Hb. by rewrite new_bb_data by lia.
Qed.

Lemma formatted_rep : fs_rep (formatted n) (replicate 16 None).
Proof using Hn.
  destruct formatted_wf as (W0 & W1 & W & Hl). destruct new_bits as (Hr & Hi & Hm).
  assert (∀ i (f : file), replicate 16 None !! i = Some (Some f) → False) as Hf.
  { intros i f Hj. apply lookup_replicate in Hj as [? _]. done. }
  destruct formatted_bitmaps as (Ei & Eb & HL).
  constructor; rewrite ?HL, ?Ei, ?Eb; try done; try (intros; exfalso; by eapply Hf).
  - unfold MCSFS1_SB_LBA. rewrite formatted_blk by lia. apply new_super_ok. unfold fits. lia.
  - unfold formatted. rewrite inode_of_put_eq; [by vm_compute|done|apply root_ok|done].
  - intros i Hf'. apply lookup_replicate in Hf' as [_ Hlt]. unfold dir_of, MCSFS1_ROOT_DIR_LBA. rewrite formatted_blk by lia.
    apply ld_replicate.
  - intros k Hk. by rewrite Hi.
Qed.
End formatted.

Section fs_format_run.
Context {C : Type} {rd : C → Z → Z * list Z * C} {wr : C → Z → list Z → Z * C} {fl : C → Z * C}.
Context {BS : BlockStore rd wr fl}.

Lemma clear_run b k : ∀ s bs,
  length b = 512%nat → length bs = (s + k)%nat → take s bs = replicate s b →
  runs (BS := BS) (iterM (λ lba, dev_write lba b) (seqZ (Z.of_nat s) (Z.of_nat k))) bs (Ok tt) (replicate (s + k) b).
Proof.
  induction k as [|k IH]; intros s bs Hb Hl Ht.
  { rewrite Nat.add_0_r, <-Ht, take_ge by lia. apply runs_ret. }
  rewrite seqZ_cons by lia. cbn [iterM]. eapply runs_bind; [apply runs_write; [lia|done]|].
  replace (Z.succ (Z.of_nat s)) with (Z.of_nat (S s)) by lia. replace (Z.pred (Z.of_nat (S k))) with (Z.of_nat k) by lia.
  replace (s + S k)%nat with (S s + k)%nat by lia. rewrite Nat2Z.id. apply IH; [done|rewrite length_insert; lia|].
  rewrite (take_S_r _ _ b) by (apply list_lookup_insert_eq; lia). rewrite take_insert_ge by lia. rewrite Ht.
  by rewrite replicate_S_end.
Qed.

Lemma fs_format_run bs :
  16 <= Z.of_nat (length bs) <= 4096 → runs (BS := BS) mcsfs1_format bs (Ok tt) (formatted (length bs)).
Proof.
  intros Hn. destruct (formatted_wf (length bs) Hn) as (W0 & W1 & _ & L0). unfold mcsfs1_format. eapply runs_bind; [apply runs_null|].
  apply runs_deref. intros d Hd. rewrite Hd. eapply runs_bind; [apply runs_pass; unfold MCSFS1_MIN_BLOCKS, MCSFS1_BLOCK_SIZE; lia|].
  eapply runs_bind; [apply (clear_run _ (length bs) 0); done|]. cbn [Nat.add].
  eapply runs_bind; [apply runs_write|].
  { rewrite length_replicate. unfold MCSFS1_SB_LBA. lia. }
  { apply length_new_super. }
  eapply runs_bind; [apply (runs_store_bmaps _ W0); apply new_bitmaps|].
  eapply runs_bind; [apply (runs_write_inode _ W1), root_ok|apply runs_flush].
Qed.

Lemma format_inval bs :
  ~ (16 <= Z.of_nat (length bs) <= 4096) → runs (BS := BS) mcsfs1_format bs (Err MCSFS1_ERR_INVAL) bs.
Proof.
  intros Hn. unfold mcsfs1_format. eapply runs_bind; [apply runs_null|]. apply runs_deref. intros d Hd. rewrite Hd.
  apply runs_bind_err, runs_stop. unfold MCSFS1_MIN_BLOCKS, MCSFS1_BLOCK_SIZE. lia.
Qed.
End fs_format_run.
