(* ===== verification/Mcsfs1Spec.v ===== *)
(** * MCSFS1 as a map from names to contents

    The file system on a device refines a finite map: a sequence of operations
    after [mcsfs1_format] and [mcsfs1_mount] returns what the map returns. *)

From Stdlib Require Import ZArith Lia.
From stdpp Require Import base numbers option list gmap.
From S2P Require Import Prelude Bitmap Mcsfs1 Mcsfs1Proof Mcsfs1Ops Mcsfs1Write Mcsfs1Format.

Local Open Scope Z_scope.
Local Open Scope cm_scope.

(** ** Operations and the map *)

Inductive op :=
  | OpCreate (name : list Z)
  | OpWrite (name data : list Z)
  | OpRead (name : list Z) (cap : nat)
  | OpUnlink (name : list Z)
  | OpStat (name : list Z)
  | OpFsck
  | OpRemount.

Inductive value := VUnit | VSize (n : Z) | VData (data : list Z).

Notation dirmap := (gmap (list Z) (list Z)).

Definition open_spec (m : dirmap) (name : list Z) : res (list Z) :=
  match name_err name with
  | Some e => Err e
  | None => match m !! name with Some data => Ok data | None => Err MCSFS1_ERR_NOENT end
  end.

(** What an operation returns and leaves when the device has room. *)
Definition spec (m : dirmap) (o : op) : res value * dirmap :=
  match o with
  | OpCreate name =>
      match open_spec m name with
      | Ok _ => (Err MCSFS1_ERR_EXIST, m)
      | Err e =>
          if negb (e =? MCSFS1_ERR_NOENT) then (Err e, m)
          else if (size m =? 16)%nat then (Err MCSFS1_ERR_NOSPC, m)
          else (Ok VUnit, <[name := []]> m)
      | Ub => (Ub, m)
      end
  | OpWrite name data =>
      if 4096 <? Z.of_nat (length data) then (Err MCSFS1_ERR_RANGE, m)
      else (rmap (λ _, VUnit) (open_spec m name), match open_spec m name with Ok _ => <[name := data]> m | _ => m end)
  | OpRead name cap =>
      (match open_spec m name with
       | Ok data => if (cap <? length data)%nat then Err MCSFS1_ERR_RANGE else Ok (VData data)
       | Err e => Err e
       | Ub => Ub
       end, m)
  | OpUnlink name =>
      (rmap (λ _, VUnit) (open_spec m name), match open_spec m name with Ok _ => delete name m | _ => m end)
  | OpStat name => (rmap (λ data, VSize (Z.of_nat (length data))) (open_spec m name), m)
  | OpFsck | OpRemount => (Ok VUnit, m)
  end.

Definition allocates (o : op) : bool := match o with OpCreate _ | OpWrite _ _ => true | _ => false end.

(** On a device of [n] blocks. With 136 blocks there is room for sixteen files
    of eight blocks, and the map is followed without exception. *)
Definition step (n : nat) (m : dirmap) (o : op) (r : res value) (m' : dirmap) : Prop :=
  (r, m') = spec m o ∨ (Z.of_nat n < 136 ∧ allocates o = true ∧ (spec m o).1 = Ok VUnit ∧ r = Err MCSFS1_ERR_NOSPC ∧ m' = m).

Fixpoint trace (n : nat) (m : dirmap) (ops : list op) (rs : list (res value)) : Prop :=
  match ops, rs with
  | [], [] => True
  | o :: ops, r :: rs => ∃ m', step n m o r m' ∧ trace n m' ops rs
  | _, _ => False
  end.

(** ** Running the operations *)

Section session.
Context {C : Type}.

Definition run_op (m : mcsfs1_mount) (o : op) : M (mcsfs1_blkdev C) (value * mcsfs1_mount) :=
  match o with
  | OpCreate name => mcsfs1_create (Some m) (Some name) ;; ret (VUnit, m)
  | OpWrite name data => mcsfs1_write (Some m) (Some name) (Some data) (Z.of_nat (length data)) ;; ret (VUnit, m)
  | OpRead name cap =>
      let* '(buf, len) := mcsfs1_read (Some m) (Some name) (Some (zeros cap)) (Z.of_nat cap) false in
      ret (VData (take (Z.to_nat len) buf), m)
  | OpUnlink name => mcsfs1_unlink (Some m) (Some name) ;; ret (VUnit, m)
  | OpStat name => let* size := mcsfs1_stat (Some m) (Some name) false in ret (VSize size, m)
  | OpFsck => mcsfs1_fsck ;; ret (VUnit, m)
  | OpRemount => let* m' := mcsfs1_mount_dev false in ret (VUnit, m')
  end.

(** A failed operation does not end the session. *)
Fixpoint run_ops (m : mcsfs1_mount) (ops : list op) : M (mcsfs1_blkdev C) (list (res value)) :=
  match ops with
  | [] => ret []
  | o :: ops =>
      let* '(r, m') := on_error (let* '(v, m') := run_op m o in ret (Ok v, m')) (λ rc, ret (Err rc, m)) in
      let* rs := run_ops m' ops in
      ret (r :: rs)
  end.

Definition run_session (ops : list op) : M (mcsfs1_blkdev C) (list (res value)) :=
  mcsfs1_format ;;
  let* m := mcsfs1_mount_dev false in
  run_ops m ops.
End session.

Definition op_ok (o : op) : Prop :=
  match o with
  | OpCreate name | OpRead name _ | OpUnlink name | OpStat name => c_name name
  | OpWrite name data => c_name name ∧ bytes_ok data
  | OpFsck | OpRemount => True
  end.

(** ** The map of a directory *)

Definition pairs (fs : list (option file)) : list (list Z * list Z) :=
  omap (fmap (λ f, (f_name f, f_data f))) fs.

Definition map_of (fs : list (option file)) : dirmap := list_to_map (pairs fs).

Definition distinct (fs : list (option file)) : Prop :=
  ∀ i i' f f', fs !! i = Some (Some f) → fs !! i' = Some (Some f') → f_name f = f_name f' → i = i'.

Lemma pairs_elem fs name data : (name, data) ∈ pairs fs ↔ ∃ i f, fs !! i = Some (Some f) ∧ f_name f = name ∧ f_data f = data.
Proof.
  unfold pairs. rewrite list_elem_of_omap. split.
  - intros (o & Ho & E). apply list_elem_of_lookup in Ho as [i Hi]. destruct o as [f|]; [|done]. injection E as <- <-. by exists i, f.
  - intros (i & f & Hi & <- & <-). exists (Some f). split; [|done]. by apply list_elem_of_lookup_2 with i.
Qed.

Lemma pairs_nodup fs : distinct fs → NoDup (pairs fs).*1.
Proof.
  induction fs as [|o fs IH]; intros Hd; [constructor|].
  assert (NoDup (pairs fs).*1) as IH'. { apply IH. intros i i' f f' Hi Hi' E. by injection (Hd (S i) (S i') f f' Hi Hi' E). }
  destruct o as [f|]; [|exact IH']. change (NoDup (f_name f :: (pairs fs).*1)). apply NoDup_cons. split; [|done].
  intros ([name data] & E & (i & g & Hi & Hg & _)%pairs_elem)%list_elem_of_fmap. cbn in E. subst name.
  specialize (Hd 0%nat (S i) f g eq_refl Hi (eq_sym Hg)). done.
Qed.

Lemma map_of_spec fs name data : distinct fs →
  map_of fs !! name = Some data ↔ ∃ i f, fs !! i = Some (Some f) ∧ f_name f = name ∧ f_data f = data.
Proof. intros Hd. rewrite <-pairs_elem. symmetry. apply elem_of_list_to_map, pairs_nodup, Hd. Qed.

Lemma map_of_insert fs i o f :
  distinct fs → distinct (<[i := Some f]> fs) → fs !! i = Some o → (∀ g, o = Some g → f_name g = f_name f) →
  map_of (<[i := Some f]> fs) = <[f_name f := f_data f]> (map_of fs).
Proof.
  intros Hd Hd' Hi Ho. pose proof (lookup_lt_Some _ _ _ Hi) as Hlt. apply map_eq. intros name. apply option_eq. intros data.
  rewrite map_of_spec, lookup_insert_Some, map_of_spec by done. split.
  - intros (j & g & [[<- [= <-]]|[Hne Hj]]%slot_cases & <- & <-); [by left|].
    destruct (decide (f_name f = f_name g)) as [E|E]; [|right; split; [done|by exists j, g]].
    exfalso. apply Hne. apply (Hd' i j f g); [by apply list_lookup_insert_eq|by rewrite list_lookup_insert_ne|done].
  - intros [[<- <-]|(Hne & j & g & Hj & <- & <-)]; [exists i, f; split; [by apply list_lookup_insert_eq|done]|].
    exists j, g. split; [|done]. rewrite list_lookup_insert_ne; [done|]. intros <-. apply Hne. symmetry. apply Ho. congruence.
Qed.

Lemma map_of_delete fs i f :
  distinct fs → distinct (<[i := None]> fs) → fs !! i = Some (Some f) → map_of (<[i := None]> fs) = delete (f_name f) (map_of fs).
Proof.
  intros Hd Hd' Hi. apply map_eq. intros name. apply option_eq. intros data.
  rewrite map_of_spec, lookup_delete_Some, map_of_spec by done. split.
  - intros (j & g & [[_ [=]]|[Hne Hj]]%slot_cases & <- & <-). split; [|by exists j, g].
    intros E. by apply Hne, (Hd i j f g).
  - intros (Hne & j & g & Hj & <- & <-). exists j, g. split; [|done]. rewrite list_lookup_insert_ne; [done|].
    intros <-. apply Hne. congruence.
Qed.

Lemma pairs_length fs :
  (length (pairs fs) <= length fs)%nat ∧ (length (pairs fs) = length fs ↔ ∀ i, fs !! i ≠ Some None).
Proof.
  induction fs as [|[f|] fs [IH1 IH2]]; [done|..].
  - change (pairs (Some f :: fs)) with ((f_name f, f_data f) :: pairs fs). cbn [length]. split; [lia|]. split.
    + intros E [|i]; [done|]. apply IH2. lia.
    + intros H. f_equal. apply IH2. intros i. exact (H (S i)).
  - change (pairs (None :: fs)) with (pairs fs). cbn [length]. split; [lia|]. split; [lia|]. intros H. by destruct (H 0%nat).
Qed.

Lemma blocks_of_pairs fs : (∀ i f, fs !! i = Some (Some f) → length (f_direct f) = 8%nat) → length (blocks_of fs) = (8 * length (pairs fs))%nat.
Proof.
  induction fs as [|o fs IH]; intros H; [done|]. specialize (IH (λ i f Hf, H (S i) f Hf)).
  change (blocks_of (o :: fs)) with (from_option f_direct [] o ++ blocks_of fs). rewrite length_app, IH. destruct o as [f|]; [|done].
  change (pairs (Some f :: fs)) with ((f_name f, f_data f) :: pairs fs). cbn [from_option length]. rewrite (H 0%nat f) by done. lia.
Qed.

Lemma map_of_size fs : distinct fs → size (map_of fs) = length (pairs fs).
Proof.
  intros Hd. unfold map_of. rewrite <-length_map_to_list. apply Permutation_length, map_to_list_to_map, pairs_nodup, Hd.
Qed.

Lemma splice_0_take {A} (a l : list A) : (length a <= length l)%nat → take (length a) (splice 0 a l) = a.
Proof. intros Hl. unfold splice. rewrite take_0, (take_ge a) by lia. apply (take_app_length a). Qed.

Lemma name_err_code name e : name_err name = Some e → (e =? MCSFS1_ERR_NOENT) = false.
Proof.
  unfold name_err. destruct (_ =? _)%nat; [by intros [= <-]|]. destruct (_ <? _)%nat; [by intros [= <-]|].
  destruct (existsb _ name); [by intros [= <-]|done].
Qed.

(** ** The simulation *)

Section simulation.
Context {C : Type} {rd : C → Z → Z * list Z * C} {wr : C → Z → list Z → Z * C} {fl : C → Z * C}.
Context {BS : BlockStore rd wr fl} (n : nat).

Record sim (bs : list (list Z)) (fs : list (option file)) : Prop := {
  sm_rep : fs_rep bs fs;
  sm_len : length bs = n;
  sm_exact : 136 <= Z.of_nat n → exact bs fs
}.

Lemma rep_distinct bs fs : fs_rep bs fs → distinct fs.
Proof. exact (λ R, rp_names _ _ R). Qed.

Lemma find_spec_map bs fs name : fs_rep bs fs → open_spec (map_of fs) name = rmap (λ p, f_data p.2) (find_spec fs name).
Proof.
  intros R. unfold open_spec, find_spec. destruct (name_err name); [done|]. destruct (find_slot fs name) as [[i f]|] eqn:E.
  - apply find_slot_Some in E as [Hi Hf]. rewrite (proj2 (map_of_spec fs name (f_data f) (rep_distinct _ _ R))); [done|]. by exists i, f.
  - destruct (map_of fs !! name) as [data|] eqn:Em; [|done].
    apply (map_of_spec fs name data (rep_distinct _ _ R)) in Em as (i & f & Hi & Hf & _). by destruct (find_slot_None _ _ _ _ E Hi).
Qed.

(** An operation on the device, its result and the files it leaves. *)
Definition op_sim (m : mcsfs1_mount) (bs : list (list Z)) (fs : list (option file)) (o : op) : Prop :=
  ∃ r bs' fs', runs (BS := BS) (run_op m o) bs (rmap (λ v, (v, m)) r) bs' ∧ r ≠ Ub ∧ sim bs' fs' ∧ keeps_lost bs fs bs' fs' ∧
    step n (map_of fs) o r (map_of fs').

Lemma runs_rmap {A B} (p : M (mcsfs1_blkdev C) A) (f : A → M (mcsfs1_blkdev C) B) (g : A → B) bs r bs' :
  runs (BS := BS) p bs r bs' → r ≠ Ub → (∀ a, f a = ret (g a)) → runs (BS := BS) (bind p f) bs (rmap g r) bs'.
Proof.
  intros Hp Hr Hf. destruct r as [a|rc|]; [|by apply runs_bind_err|done]. eapply runs_bind; [exact Hp|]. rewrite Hf. apply runs_ret.
Qed.

Context (m : mcsfs1_mount) (Hm : m = mk_mount (Z.of_nat n) MCSFS1_DATA_START_LBA) (bs : list (list Z)) (fs : list (option file)) (H : sim bs fs).

(** Operations that leave the device alone. *)
Lemma same_sim o r : (r, map_of fs) = spec (map_of fs) o → r ≠ Ub →
  runs (BS := BS) (run_op m o) bs (rmap (λ v, (v, m)) r) bs → op_sim m bs fs o.
Proof. intros Hs Hr Hrun. exists r, bs, fs. do 4 (split; [done|]). by left. Qed.

Lemma stat_sim name : c_name name → op_sim m bs fs (OpStat name).
Proof using H.
  intros Hn. pose proof (sm_rep _ _ H) as R. pose proof (stat_run (BS := BS) bs fs R m name Hn) as Hr.
  pose proof (find_spec_not_ub fs name) as Hub.
  apply (same_sim _ (rmap (λ data, VSize (Z.of_nat (length data))) (open_spec (map_of fs) name))); [done|..].
  - rewrite (find_spec_map _ _ _ R). by destruct (find_spec fs name).
  - rewrite (find_spec_map _ _ _ R). destruct (find_spec fs name) as [[i f]|e|]; [| |done].
    + eapply runs_bind; [exact Hr|apply runs_ret].
    + by apply runs_bind_err.
Qed.

Lemma fs_read_sim name cap : c_name name → op_sim m bs fs (OpRead name cap).
Proof using H Hm.
  intros Hn. pose proof (sm_rep _ _ H) as R. pose proof (sm_len _ _ H) as Hl.
  pose proof (read_run (BS := BS) bs fs R m name (zeros cap) (Z.of_nat cap) Hn) as Hr.
  rewrite Hl in Hr. specialize (Hr ltac:(by rewrite Hm) ltac:(unfold zeros; rewrite length_replicate; lia)).
  pose proof (find_spec_not_ub fs name) as Hub. eapply (same_sim _ (spec (map_of fs) (OpRead name cap)).1); [done|..].
  all: cbn [spec fst]; rewrite (find_spec_map _ _ _ R); destruct (find_spec fs name) as [[i f]|e|]; cbn [rmap snd]; try done.
  - by destruct (_ <? _)%nat.
  - destruct (Z.ltb_spec (Z.of_nat cap) (Z.of_nat (length (f_data f)))); destruct (Nat.ltb_spec cap (length (f_data f))); try lia.
    + by apply runs_bind_err.
    + eapply runs_bind; [exact Hr|]. cbv beta iota. rewrite Nat2Z.id. rewrite splice_0_take; [apply runs_ret|].
      unfold zeros. rewrite length_replicate. lia.
  - by apply runs_bind_err.
Qed.

Lemma fsck_sim : op_sim m bs fs OpFsck.
Proof using H.
  apply (same_sim _ (Ok VUnit)); [done|done|]. eapply runs_bind; [apply (fs_fsck_run bs fs), H|apply runs_ret].
Qed.

Lemma unlink_sim name : c_name name → op_sim m bs fs (OpUnlink name).
Proof using H.
  intros Hn. pose proof (sm_rep _ _ H) as R. destruct (unlink_run (BS := BS) bs fs R m name Hn) as (bs' & fs' & Hr & R' & Hl & Hx & Hlo & ->).
  pose proof (find_spec_not_ub fs name) as Hub.
  exists (rmap (λ _, VUnit) (open_spec (map_of fs) name)), bs', (match find_spec fs name with Ok (i, _) => <[i := None]> fs | _ => fs end).
  split_and!.
  - rewrite (find_spec_map _ _ _ R). destruct (find_spec fs name) as [[i f]|e|]; [| |done].
    + eapply runs_bind; [exact Hr|apply runs_ret].
    + by apply runs_bind_err.
  - rewrite (find_spec_map _ _ _ R). by destruct (find_spec fs name).
  - constructor; [done|by rewrite Hl, (sm_len _ _ H)|]. intros Hbig. by apply Hx, H.
  - done.
  - left. cbn [spec]. f_equal. rewrite (find_spec_map _ _ _ R). destruct (find_spec fs name) as [[i f]|e|] eqn:E; [|done|done].
    apply find_spec_Ok in E as [Hi <-]. cbn [rmap snd]. apply map_of_delete; [by eapply rep_distinct..|done].
Qed.

Lemma fs_write_sim name data : c_name name → bytes_ok data → op_sim m bs fs (OpWrite name data).
Proof using H.
  intros Hn Hd. pose proof (sm_rep _ _ H) as R. destruct (decide (length data <= 8 * 512)%nat) as [Hle|Hgt].
  2:{ apply (same_sim _ (Err MCSFS1_ERR_RANGE)); [|done|].
      - cbn [spec]. by rewrite (proj2 (Z.ltb_lt _ _)) by lia.
      - apply runs_bind_err, write_range. lia. }
  destruct (write_run (BS := BS) bs fs R m name data (length data) Hn Hd ltac:(lia) Hle) as (r & bs' & fs' & Hr & R' & Hl & Hp).
  unfold write_post in Hp. rewrite firstn_all in Hp.
  assert (spec (map_of fs) (OpWrite name data) = (rmap (λ _, VUnit) (open_spec (map_of fs) name),
    match open_spec (map_of fs) name with Ok _ => <[name := data]> (map_of fs) | _ => map_of fs end)) as Es.
  { cbn [spec]. by rewrite (proj2 (Z.ltb_ge _ _)) by lia. }
  rewrite (find_spec_map _ _ _ R) in Es. destruct (find_spec fs name) as [[i f]|e|] eqn:E; cbn [rmap snd] in Es; [| |done].
  2:{ destruct Hp as (-> & -> & ->). apply (same_sim _ (Err e)); [done|done|]. by apply runs_bind_err. }
  apply find_spec_Ok in E as [Hi Hname]. destruct Hp as [(-> & -> & Hfull & Hsmall & Hlo & _)|(-> & Hx & Hlo & d & ->)].
  - exists (Err MCSFS1_ERR_NOSPC), bs', fs. split; [by apply runs_bind_err|]. split; [done|].
    assert (Z.of_nat n < 136) as Hlt. { destruct (decide (Z.of_nat n < 136)) as [|Hge]; [done|]. rewrite (sm_len _ _ H) in Hsmall. apply Hsmall, H. lia. }
    split; [constructor; [done|by rewrite Hl, (sm_len _ _ H)|lia]|]. split; [done|]. right. by rewrite Es.
  - exists (Ok VUnit), bs', (<[i := Some (mk_file (f_name f) (f_ino f) d data)]> fs). split; [eapply runs_bind; [exact Hr|apply runs_ret]|].
    split; [done|]. split; [constructor; [done|by rewrite Hl, (sm_len _ _ H)|intros Hbig; by apply Hx, H]|]. split; [done|].
    left. rewrite Es. f_equal. rewrite <-Hname. apply (map_of_insert fs i (Some f)); [by eapply rep_distinct..|done|]. by intros g [= <-].
Qed.

Lemma remount_sim : op_sim m bs fs OpRemount.
Proof using H Hm.
  apply (same_sim _ (Ok VUnit)); [done|done|]. eapply runs_bind; [apply (fs_mount_run bs fs), H|].
  rewrite (sm_len _ _ H), Hm. apply runs_ret.
Qed.

(** Creating a file fails for want of room only when all slots are taken or the
    device is small. *)
Lemma create_nospc : (∀ i, fs !! i ≠ Some None) ∨ full bs → size (map_of fs) = 16%nat ∨ Z.of_nat n < 136.
Proof using H.
  pose proof (sm_rep _ _ H) as R. pose proof (rp_slots _ _ R) as H16. rewrite map_of_size by (by eapply rep_distinct).
  destruct (pairs_length fs) as [Hle Hfull16]. intros [Hall|Hfull]; [left; rewrite <-H16; by apply Hfull16|].
  destruct (decide (length (pairs fs) = 16%nat)) as [|Hne]; [by left|right].
  destruct (decide (Z.of_nat n < 136)) as [|Hge]; [done|].
  pose proof (owned_small bs fs (λ i f Hi, fr_dlen _ _ (rp_file _ _ R i f Hi)) (sm_exact _ _ H ltac:(lia)) Hfull) as Hb.
  pose proof (blocks_of_pairs fs (λ i f Hi, fr_dlen _ _ (rp_file _ _ R i f Hi))). rewrite (sm_len _ _ H) in Hb. lia.
Qed.

Lemma create_sim name : c_name name → op_sim m bs fs (OpCreate name).
Proof using H.
  intros Hn. pose proof (sm_rep _ _ H) as R. pose proof (rep_distinct _ _ R) as Hd. pose proof (rp_slots _ _ R) as H16.
  destruct (fs_create_run (BS := BS) bs fs R m name Hn) as (r & bs' & fs' & Hr & R' & Hl & Hx & Hlo & Hp).
  assert (sim bs' fs') as S' by (constructor; [done|by rewrite Hl, (sm_len _ _ H)|intros Hbig; by apply Hx, H]).
  pose proof (find_spec_map _ _ name R) as Ho. unfold find_spec in Ho. destruct (name_err name) as [e|] eqn:En.
  { destruct Hp as [-> ->]. exists (Err e), bs', fs. split; [by apply runs_bind_err|]. do 3 (split; [done|]). left. cbn [spec]. rewrite Ho.
    cbn [rmap]. by rewrite (name_err_code name e En). }
  destruct (find_slot fs name) as [[i f]|] eqn:Es.
  { destruct Hp as [-> ->]. exists (Err MCSFS1_ERR_EXIST), bs', fs. split; [by apply runs_bind_err|]. do 3 (split; [done|]).
    left. cbn [spec]. by rewrite Ho. }
  assert (spec (map_of fs) (OpCreate name) = if (size (map_of fs) =? 16)%nat then (Err MCSFS1_ERR_NOSPC, map_of fs) else (Ok VUnit, <[name := []]> (map_of fs))) as Esp.
  { cbn [spec]. by rewrite Ho. }
  destruct Hp as [(-> & -> & Hfull%create_nospc)|(-> & i & f & Hi & <- & Hdata & ->)].
  - exists (Err MCSFS1_ERR_NOSPC), bs', fs. split; [by apply runs_bind_err|]. do 3 (split; [done|]).
    unfold step. rewrite Esp. destruct (Nat.eqb_spec (size (map_of fs)) 16); [by left|]. right. split_and!; [|done..]. by destruct Hfull.
  - exists (Ok VUnit), bs', (<[i := Some f]> fs). split; [eapply runs_bind; [exact Hr|apply runs_ret]|]. do 3 (split; [done|]).
    left. rewrite Esp. rewrite (proj2 (Nat.eqb_neq _ _)).
    + f_equal. rewrite <-Hdata. apply (map_of_insert fs i None); [done|by eapply rep_distinct|done|done].
    + rewrite map_of_size, <-H16 by done. intros E. by apply (proj1 (proj2 (pairs_length fs)) E i).
Qed.

Lemma op_run o : op_ok o → op_sim m bs fs o.
Proof using H Hm.
  destruct o; intros Ho.
  - by apply create_sim.
  - by apply fs_write_sim; apply Ho.
  - by apply fs_read_sim.
  - by apply unlink_sim.
  - by apply stat_sim.
  - apply fsck_sim.
  - apply remount_sim.
Qed.
End simulation.

Section session_run.
Context {C : Type} {rd : C → Z → Z * list Z * C} {wr : C → Z → list Z → Z * C} {fl : C → Z * C}.
Context {BS : BlockStore rd wr fl} (n : nat).

Lemma run_ops_sim ops : ∀ bs fs, let m := mk_mount (Z.of_nat n) MCSFS1_DATA_START_LBA in
  Forall op_ok ops → sim n bs fs →
  ∃ rs bs' fs', runs (BS := BS) (run_ops m ops) bs (Ok rs) bs' ∧ sim n bs' fs' ∧ keeps_lost bs fs bs' fs' ∧ trace n (map_of fs) ops rs.
Proof.
  induction ops as [|o ops IH]; intros bs fs m Hok H; cbn [run_ops].
  { exists [], bs, fs. split; [apply runs_ret|done]. }
  apply Forall_cons in Hok as [Ho Hok]. destruct (op_run (BS := BS) n m eq_refl bs fs H o Ho) as (r & bs1 & fs1 & Hr & Hub & H1 & Hk1 & Hs).
  destruct (IH bs1 fs1 Hok H1) as (rs & bs2 & fs2 & Hrs & H2 & Hk2 & Ht). exists (r :: rs), bs2, fs2.
  split; [|split; [done|]; split; [intros b Hb; by apply Hk2, Hk1|by exists (map_of fs1)]].
  apply (runs_bind _ _ _ (r, m) bs1).
  - destruct r as [v|rc|]; [apply runs_no_error|eapply runs_on_error; [by apply runs_bind_err|apply runs_ret]|done].
    eapply runs_bind; [exact Hr|apply runs_ret].
  - cbv beta iota. eapply runs_bind; [exact Hrs|apply runs_ret].
Qed.
End session_run.

(** A write that fails for want of space loses every block that was free. *)
Section write_lost.
Context {C : Type} {rd : C → Z → Z * list Z * C} {wr : C → Z → list Z → Z * C} {fl : C → Z * C}.
Context {BS : BlockStore rd wr fl} (n : nat) (m : mcsfs1_mount) (bs : list (list Z)) (fs : list (option file)) (H : sim n bs fs).

End write_lost.

(** A block device in memory. *)
Definition ram_read (c : list (list Z)) (lba : Z) : Z * list Z * list (list Z) := (0, blk c lba, c).
Definition ram_write (c : list (list Z)) (lba : Z) (b : list Z) : Z * list (list Z) := (0, <[Z.to_nat lba := b]> c).
Definition ram_flush (c : list (list Z)) : Z * list (list Z) := (0, c).

#[export] Instance ram_store : BlockStore ram_read ram_write ram_flush.
Proof.
  refine {| bs_blocks := λ c, c |}.
  - intros c lba _. by exists c.
  - intros c lba b _ _. by eexists.
  - intros c. by exists c.
Defined.

Definition ram_dev (n : nat) : mcsfs1_blkdev (list (list Z)) :=
  mk_blkdev (replicate n (zeros 512)) (Z.of_nat n) (Some ram_read) (Some ram_write) (Some ram_flush).

(** Formatting and mounting, then any operations. *)
Lemma session_run {C : Type} {rd : C → Z → Z * list Z * C} {wr : C → Z → list Z → Z * C} {fl : C → Z * C}
    {BS : BlockStore rd wr fl} (bs : list (list Z)) (ops : list op) :
  16 <= Z.of_nat (length bs) <= 4096 → Forall op_ok ops →
  ∃ rs bs' fs', runs (BS := BS) (run_session ops) bs (Ok rs) bs' ∧ sim (length bs) bs' fs' ∧ trace (length bs) ∅ ops rs.
Proof.
  intros Hn Hok. pose proof (formatted_rep (length bs) Hn) as R. destruct (formatted_bitmaps (length bs) Hn) as (_ & _ & Hl).
  assert (sim (length bs) (formatted (length bs)) (replicate 16 None)) as H.
  { constructor; [done|done|]. intros _. by apply formatted_exact. }
  destruct (run_ops_sim (BS := BS) (length bs) ops _ _ Hok H) as (rs & bs' & fs' & Hr & H' & _ & Ht).
  exists rs, bs', fs'. split; [|done]. eapply runs_bind; [by apply fs_format_run|].
  eapply runs_bind; [by apply (fs_mount_run _ _ R)|]. by rewrite Hl.
Qed.

(** C4: on any device that stores blocks (16 to 4096 of them, whatever they
    hold), formatting, mounting and then running any sequence of creates,
    writes, reads, unlinks, stats, checks and remounts on names of any length but
    27 characters returns what a finite map of at most sixteen names to contents
    returns, error codes included ([MCSFS1_ERR_NOSPC] for a seventeenth file
    among them); no step is undefined and [mcsfs1_fsck] passes at every point.
    The only deviation is that on devices of fewer than 136 blocks, too small for
    sixteen files of eight blocks, a create or write the map allows may return
    [MCSFS1_ERR_NOSPC] and change no file. Names of exactly 27 characters are
    left out because the file system loses them. *)
Theorem mcsfs1_refines_map {C : Type} (rd : C → Z → Z * list Z * C) (wr : C → Z → list Z → Z * C) (fl : C → Z * C)
    (BS : BlockStore rd wr fl) (d : mcsfs1_blkdev C) (bs : list (list Z)) (ops : list op) :
  on_disk (BS := BS) d bs → 16 <= Z.of_nat (length bs) <= 4096 → Forall op_ok ops →
  ∃ rs d', run_session ops (Some d) = (Ok rs, Some d') ∧ trace (length bs) ∅ ops rs.
Proof.
  intros Hd Hn Hok. destruct (session_run (BS := BS) bs ops Hn Hok) as (rs & bs' & fs' & Hs & _ & Ht).
  destruct (Hs d Hd) as (d' & E & _). by exists rs, d'.
Qed.

Lemma mcsfs1_refines_map_witness :
  ∃ rs d', run_session [OpCreate [97]; OpWrite [97] [1; 2; 3]; OpRead [97] 3; OpFsck; OpUnlink [97]; OpStat [97]] (Some (ram_dev 136)) = (Ok rs, Some d') ∧
    trace 136 ∅ [OpCreate [97]; OpWrite [97] [1; 2; 3]; OpRead [97] 3; OpFsck; OpUnlink [97]; OpStat [97]] rs.
Proof.
  apply (mcsfs1_refines_map ram_read ram_write ram_flush ram_store (ram_dev 136) (replicate 136 (zeros 512))).
  - constructor; reflexivity.
  - rewrite length_replicate. lia.
  - assert (c_name [97]) as Hn by (split; [repeat constructor; lia|done]).
    assert (bytes_ok [1; 2; 3]) by (repeat constructor; lia). repeat constructor; done.
Defined.

(** ** Blocks lost *)



