(* ===== verification/Mcsfs1Name.v ===== *)
(** * MCSFS1: names of 27 characters

    [mcsfs1_create] accepts names of up to [MCSFS1_MAX_NAME] = 27 characters, and
    the [name] of a directory entry is 27 bytes, so such a name is stored without
    a terminating NUL. [find_dirent] measures the stored name with
    [mcsfs_strlen_bound], which then reads on into the next entry. *)

From Stdlib Require Import ZArith Lia.
From stdpp Require Import base numbers option list.
From S2P Require Import Prelude Bitmap Mcsfs1 Mcsfs1Proof Mcsfs1Ops Mcsfs1Write Mcsfs1Spec.

Local Open Scope Z_scope.
Local Open Scope cm_scope.

(** [name] is a valid name of 27 characters. *)
Record name27 (name : list Z) : Prop := {
  n27_len : length name = 27%nat;
  n27_chars : Forall (λ c, 0 < c < 256) name;
  n27_slash : existsb (λ c, c =? 47) name = false
}.

(** Slot [i] of the directory is in use and holds [name]. *)
Definition slot_holds (dir : list Z) (i : nat) (name : list Z) : Prop :=
  de_ino dir (Z.of_nat i) ≠ 0 ∧ slice (dirent_off (Z.of_nat i) Fld.d_name) 27 dir = name.

(** Slot [i] holds [name] and the slot after it is in use; the other slots are
    empty or hold files with shorter names. *)
Record followed (dir : list Z) (i : nat) (name : list Z) : Prop := {
  fo_slot : (i < 15)%nat;
  fo_holds : slot_holds dir i name;
  fo_next : de_ino dir (Z.of_nat (S i)) ≠ 0;
  fo_others j : (j < 16)%nat → j ≠ i →
    de_ino dir (Z.of_nat j) = 0 ∨ ∃ f, slot_file dir j f ∧ name_ok (f_name f) ∧ 2 <= f_ino f <= 32
}.

Lemma n27_nz name : name27 name → Forall (λ c, c ≠ 0) name.
Proof. intros [_ H _]. eapply Forall_impl; [exact H|]. simpl. lia. Qed.

Lemma n27_bytes name : name27 name → bytes_ok name.
Proof. intros [_ H _]. eapply Forall_impl; [exact H|]. unfold byte_ok. simpl. lia. Qed.

Lemma n27_valid name : name27 name → valid_name (Some name) = Ok (Z.of_nat (length name)).
Proof.
  intros H. rewrite (valid_name_run name (n27_nz _ H)). unfold name_err. by rewrite (n27_len _ H), (n27_slash _ H).
Qed.

(** The first byte of an inode number of at most 32. *)
Lemma low_byte dir off v : ld 4 off dir = v → 2 <= v <= 32 → ∃ c rest, drop off dir = c :: rest ∧ c ≠ 0.
Proof.
  unfold ld, slice. intros E Hv. destruct (drop off dir) as [|c rest].
  - rewrite take_nil in E. change (le_load []) with 0 in E. lia.
  - exists c, rest. split; [done|]. intros ->. cbn [take le_load] in E. lia.
Qed.

(** [mcsfs_strlen_bound] returns 28 for the name in slot [i]. *)
Lemma followed_length dir i name : name27 name → followed dir i name →
  mcsfs_strlen_bound (Some (de_name dir (Z.of_nat i))) (MCSFS1_MAX_NAME + 1) = Ok 28.
Proof.
  intros N [Hi [_ Hn] Hnext Ho]. destruct (Ho (S i) ltac:(lia) ltac:(lia)) as [?|(f & Hf & _ & Hino)]; [done|].
  pose proof (sf_ino _ _ _ Hf) as Ei. apply low_byte in Ei as (c & rest & Ed & Hc); [|done].
  rewrite de_name_split, Hn. replace (dirent_off (Z.of_nat i) Fld.d_name + 27)%nat with (dirent_off (Z.of_nat (S i)) Fld.d_ino)
    by (unfold dirent_off, Fld.dirent_bytes, Fld.d_name, Fld.d_ino; lia).
  rewrite Ed. cbn [mcsfs_strlen_bound]. change (Z.to_nat (MCSFS1_MAX_NAME + 1)) with 28%nat.
  assert (take 28 (name ++ c :: rest) = name ++ [c]) as Et.
  { rewrite firstn_app, (n27_len _ N), take_ge by (rewrite (n27_len _ N); lia). done. }
  rewrite strlen_long; [done| |].
  - rewrite Et. apply Forall_app. split; [by apply n27_nz|by constructor].
  - rewrite length_app, (n27_len _ N). simpl length. lia.
Qed.

Lemma followed_no_match dir i name j : name27 name → followed dir i name → (j < 16)%nat →
  de_matches dir name (Z.of_nat (length name)) (Z.of_nat j) = Ok false.
Proof.
  intros N F Hj. rewrite (n27_len _ N). unfold de_matches. destruct (decide (j = i)) as [->|Hne].
  - rewrite (followed_length dir i name N F). by destruct (_ =? 0).
  - destruct (fo_others _ _ _ F j Hj Hne) as [->|(f & [_ _ Hn] & [Hl Hz _] & _)]; [done|].
    destruct (_ =? 0); [done|]. rewrite de_name_split, Hn. cbn [mcsfs_strlen_bound]. change (Z.to_nat (MCSFS1_MAX_NAME + 1)) with 28%nat.
    destruct (27 - length (f_name f))%nat as [|k] eqn:Ek; [lia|]. change (zeros (S k)) with (0 :: zeros k).
    rewrite <-app_assoc. cbn [app]. rewrite strlen_nul by (done || lia). rewrite (proj2 (Z.eqb_neq _ _)) by lia. done.
Qed.

Lemma find_loop_none dir name len n i :
  (∀ j, i <= j < i + Z.of_nat n → de_matches dir name len j = Ok false) → find_loop dir name len i n = Err MCSFS1_ERR_NOENT.
Proof.
  revert i. induction n as [|n IH]; intros i H; [done|]. cbn [find_loop]. rewrite (H i) by lia. apply IH. intros j Hj. apply H. lia.
Qed.

Section lost_name.
Context {C : Type} {rd : C → Z → Z * list Z * C} {wr : C → Z → list Z → Z * C} {fl : C → Z * C}.
Context {BS : BlockStore rd wr fl} (bs : list (list Z)) (W : disk_wf bs) (m : mcsfs1_mount) (i : nat) (name : list Z).
Context (N : name27 name) (F : followed (dir_of bs) i name).

Lemma find_dirent_lost : runs (BS := BS) (find_dirent (Some name)) bs (Err MCSFS1_ERR_NOENT) bs.
Proof using W N F.
  pose proof (dw_len _ W). unfold find_dirent. rewrite (n27_valid _ N). eapply runs_bind; [apply runs_lift|].
  eapply runs_bind; [apply runs_read; unfold MCSFS1_ROOT_DIR_LBA; lia|]. fold (dir_of bs). change (Z.to_nat MCSFS1_DIRENT_COUNT) with 16%nat.
  change (default [] (Some name)) with name. rewrite find_loop_none; [apply runs_lift|]. intros j Hj.
  rewrite <-(Z2Nat.id j) by lia. apply (followed_no_match _ i); [done..|lia].
Qed.

Lemma open_file_lost : runs (BS := BS) (open_file (Some name)) bs (Err MCSFS1_ERR_NOENT) bs.
Proof using W N F. apply runs_bind_err, find_dirent_lost. Qed.

Lemma mounted_run : runs (BS := BS) (mounted (Some m)) bs (Ok m) bs.
Proof using. eapply runs_bind; [apply runs_null|apply runs_ret]. Qed.

(** The name is created again in the first empty slot. *)
Lemma create_lost ino b s : 2 <= ino <= 32 → bm_test (ib_of bs) ino = false →
  8 <= b < Z.of_nat (length bs) → bm_test (bb_of bs) b = false → (s < 16)%nat → de_ino (dir_of bs) (Z.of_nat s) = 0 →
  ∃ bs' j, runs (BS := BS) (mcsfs1_create (Some m) (Some name)) bs (Ok tt) bs' ∧
    j ≠ i ∧ slot_holds (dir_of bs') i name ∧ slot_holds (dir_of bs') j name.
Proof using W N F.
  intros Hino Hit Hb Hbt Hs Hse. pose proof (dw_len _ W). pose proof (n27_len _ N).
  destruct (find_z (λ i, de_ino (dir_of bs) i =? 0) 0 16) as [z|] eqn:Ez.
  2:{ rewrite find_z_None in Ez. specialize (Ez (Z.of_nat s) ltac:(lia)). by rewrite Hse in Ez. }
  pose proof Ez as Ez'. apply find_z_Some in Ez as (Hz & Hzero%Z.eqb_eq & _). set (j := Z.to_nat z).
  assert (z = Z.of_nat j) as Ezj by lia. rewrite Ezj in Ez', Hzero. destruct (fo_holds _ _ _ F) as [Hi Hn].
  assert (j ≠ i) as Hji by congruence.
  destruct (alloc_inode_free (BS := BS) bs ino W Hino Hit) as [[_ Hfull]|(ino' & b' & Hino' & _ & Hb' & _ & Ha)].
  { rewrite Hfull in Hbt by done. done. }
  destruct (created_disk bs W j ino' b' name Hino' Hb' (n27_bytes _ N)) as (_ & _ & _ & _ & Ed & _).
  exists (created bs j ino' b' name), j. split; [|split; [done|]].
  - eapply create_missing; [done|by apply n27_valid|apply find_dirent_lost|]. rewrite Ez'. by apply create_store.
  - assert (length (dir_of bs) = 512%nat) as Hd by (apply (wf_blk bs); [done|unfold MCSFS1_ROOT_DIR_LBA; lia]).
    pose proof (set_dirent_other (dir_of bs) j i ino' name (Z.of_nat (length name)) Hji ltac:(lia)) as Ei.
    destruct (set_dirent_slot (dir_of bs) j ino' name Hd ltac:(lia) ltac:(unfold fits; lia) ltac:(lia)) as [H1 _ H3].
    rewrite Ed. split; [split|split].
    + by rewrite (de_ino_ext _ _ _ Ei).
    + rewrite (slot_field _ _ _ Fld.d_name 27 Ei) by (unfold Fld.d_name; lia). done.
    + rewrite H1. cbn [f_ino]. lia.
    + rewrite H3. cbn [f_name]. rewrite (n27_len _ N), Nat.sub_diag. apply app_nil_r.
Qed.
End lost_name.

(** C39: on any disk whose directory holds a file with a name of 27 characters
    and has the slot after it in use (the other files having shorter names), that
    file is unreachable: [mcsfs1_stat],
    [mcsfs1_read], [mcsfs1_write] and [mcsfs1_unlink] of its name return
    [MCSFS1_ERR_NOENT] and leave the disk as it is. As long as an inode, a data
    block and a slot are free, [mcsfs1_create] of the name succeeds although the
    name is there, and the directory then holds it in two slots. *)
Theorem mcsfs1_name27_lost {C : Type} (rd : C → Z → Z * list Z * C) (wr : C → Z → list Z → Z * C) (fl : C → Z * C)
    (BS : BlockStore rd wr fl) (bs : list (list Z)) (m : mcsfs1_mount) (i : nat) (name : list Z) :
  disk_wf bs → name27 name → followed (dir_of bs) i name →
  runs (BS := BS) (mcsfs1_stat (Some m) (Some name) false) bs (Err MCSFS1_ERR_NOENT) bs ∧
  (∀ buf cap, runs (BS := BS) (mcsfs1_read (Some m) (Some name) (Some buf) cap false) bs (Err MCSFS1_ERR_NOENT) bs) ∧
  (∀ buf len, (len <= 8 * 512)%nat →
    runs (BS := BS) (mcsfs1_write (Some m) (Some name) (Some buf) (Z.of_nat len)) bs (Err MCSFS1_ERR_NOENT) bs) ∧
  runs (BS := BS) (mcsfs1_unlink (Some m) (Some name)) bs (Err MCSFS1_ERR_NOENT) bs ∧
  (∀ ino b s, 2 <= ino <= 32 → bm_test (ib_of bs) ino = false → 8 <= b < Z.of_nat (length bs) → bm_test (bb_of bs) b = false →
    (s < 16)%nat → de_ino (dir_of bs) (Z.of_nat s) = 0 →
    ∃ bs' j, runs (BS := BS) (mcsfs1_create (Some m) (Some name)) bs (Ok tt) bs' ∧
      j ≠ i ∧ slot_holds (dir_of bs') i name ∧ slot_holds (dir_of bs') j name).
Proof.
  intros W N F. pose proof (open_file_lost (BS := BS) bs W i name N F) as Ho. pose proof (mounted_run (BS := BS) bs m) as Hm.
  split_and!.
  - eapply runs_bind; [exact Hm|]. eapply runs_bind; [by apply runs_pass|]. by apply runs_bind_err.
  - intros buf cap. eapply runs_bind; [exact Hm|]. cbv beta iota. eapply runs_bind; [by apply runs_pass|]. by apply runs_bind_err.
  - intros buf len Hl. apply write_guards; [done|]. by apply runs_bind_err.
  - eapply runs_bind; [exact Hm|]. by apply runs_bind_err.
  - intros ino b s. by apply create_lost.
Qed.

(** Two files created one after the other on an empty device, the first with a
    name of 27 characters, give such a disk. *)
Definition long_name : list Z := replicate 27 97.
Definition name27_disk : list (list Z) :=
  default [] (ctx <$> (run_session [OpCreate long_name; OpCreate [98]] (Some (ram_dev 16))).2).
Definition short_file : file := mk_file [98] 3 [9; 0; 0; 0; 0; 0; 0; 0] [].

Lemma name27_disk_wf : disk_wf name27_disk.
Proof.
  assert (forallb (λ b, (length b =? 512)%nat && forallb (λ z, (0 <=? z) && (z <? 256)) b) name27_disk = true) as H by (vm_compute; reflexivity).
  assert (length name27_disk = 16%nat) as Hl16 by (vm_compute; reflexivity).
  generalize dependent name27_disk. intros D H Hl16. constructor; [lia|]. apply Forall_forall. intros b Hb%list_elem_of_In. rewrite forallb_forall in H.
  apply H, andb_true_iff in Hb as [Hl Hz]. split; [by apply Nat.eqb_eq|]. apply Forall_forall. intros z Hin%list_elem_of_In.
  rewrite forallb_forall in Hz. specialize (Hz z Hin). unfold byte_ok. lia.
Qed.

Lemma name27_disk_followed : followed (dir_of name27_disk) 0 long_name.
Proof.
  constructor; [lia|split; [vm_compute; discriminate|vm_compute; reflexivity]|vm_compute; discriminate|]. intros j Hj Hne.
  destruct (decide (j = 1%nat)) as [->|Hne1].
  - right. exists short_file. split; [constructor; vm_compute; reflexivity|]. split; [|cbn; lia].
    constructor; [cbn; lia|by repeat constructor|done].
  - left. do 16 (destruct j as [|j]; [first [lia|vm_compute; reflexivity]|]). lia.
Qed.

Lemma mcsfs1_name27_lost_witness :
  runs (BS := ram_store) (mcsfs1_stat (Some (mk_mount 16 8)) (Some long_name) false) name27_disk (Err MCSFS1_ERR_NOENT) name27_disk ∧
  ∃ bs' j, runs (BS := ram_store) (mcsfs1_create (Some (mk_mount 16 8)) (Some long_name)) name27_disk (Ok tt) bs' ∧
    j ≠ 0%nat ∧ slot_holds (dir_of bs') 0 long_name ∧ slot_holds (dir_of bs') j long_name.
Proof.
  destruct (mcsfs1_name27_lost ram_read ram_write ram_flush ram_store name27_disk (mk_mount 16 8) 0 long_name
    name27_disk_wf ltac:(constructor; [done|by repeat constructor|done]) name27_disk_followed) as (Hs & _ & _ & _ & Hc).
  split; [exact Hs|]. apply (Hc 4 10 2%nat); try lia; vm_compute; try done; reflexivity.
Defined.
