(* ===== verification/Elf.v ===== *)
(** * ELF64 loader: planning a process image
      (kernel/user/m11_elf_loader.c, include/mcsos/user/m11_elf_loader.h,
       m11_elf_smoke_test of kernel/core/kmain.c)

    The image is a list of bytes; a structure is read at its offset and a read
    beyond the bytes is undefined. The plan is the object behind [out_plan]. *)

From Stdlib Require Import ZArith Lia String.
From stdpp Require Import base numbers option list.
From S2P Require Import Prelude.

Local Open Scope Z_scope.
Local Open Scope cm_scope.

(** ** Constants *)

Definition M11_ELFMAG0 : Z := 0x7f.
Definition M11_ELFMAG1 : Z := 69.
Definition M11_ELFMAG2 : Z := 76.
Definition M11_ELFMAG3 : Z := 70.
Definition M11_ELFCLASS64 : Z := 2.
Definition M11_ELFDATA2LSB : Z := 1.
Definition M11_EV_CURRENT : Z := 1.
Definition M11_ET_EXEC : Z := 2.
Definition M11_ET_DYN : Z := 3.
Definition M11_EM_X86_64 : Z := 62.
Definition M11_PT_LOAD : Z := 1.
Definition M11_PF_X : Z := 1.
Definition M11_PF_W : Z := 2.
Definition M11_PF_R : Z := 4.
Definition M11_MAX_LOAD_SEGMENTS : Z := 8.

Definition M11_OK : Z := 0.
Definition M11_ERR_NULL : Z := -1.
Definition M11_ERR_SIZE : Z := -2.
Definition M11_ERR_MAGIC : Z := -3.
Definition M11_ERR_CLASS : Z := -4.
Definition M11_ERR_ENDIAN : Z := -5.
Definition M11_ERR_VERSION : Z := -6.
Definition M11_ERR_TYPE : Z := -7.
Definition M11_ERR_MACHINE : Z := -8.
Definition M11_ERR_EHSIZE : Z := -9.
Definition M11_ERR_PHENTSIZE : Z := -10.
Definition M11_ERR_PHBOUNDS : Z := -11.
Definition M11_ERR_ALIGN : Z := -12.
Definition M11_ERR_SEGBOUNDS : Z := -13.
Definition M11_ERR_SEGRANGE : Z := -14.
Definition M11_ERR_SEGCOUNT : Z := -15.
Definition M11_ERR_ENTRY : Z := -16.
Definition M11_ERR_FLAGS : Z := -17.

(** ** Structures *)

Record m11_elf64_ehdr := {
  e_ident : list Z;
  e_type : Z;
  e_machine : Z;
  e_version : Z;
  e_entry : Z;
  e_phoff : Z;
  e_ehsize : Z;
  e_phentsize : Z;
  e_phnum : Z
}.
Definition sizeof_ehdr : nat := 64.

Record m11_elf64_phdr := {
  p_type : Z;
  p_flags : Z;
  p_offset : Z;
  p_vaddr : Z;
  p_filesz : Z;
  p_memsz : Z;
  p_align : Z
}.
Definition sizeof_phdr : nat := 56.

Record m11_user_region := mk_region { r_base : Z; r_limit : Z }.

Record m11_segment_plan := mk_seg {
  file_offset : Z;
  vaddr : Z;
  filesz : Z;
  memsz : Z;
  align : Z;
  flags : Z
}.

Record m11_process_image_plan := mk_plan {
  entry : Z;
  segment_count : Z;
  segments : list m11_segment_plan
}.

(** The header overlaid on the image, and the program header at [off]; the
    fields the loader does not look at are left out. *)
Definition ehdr_of (image : list Z) : m11_elf64_ehdr := {|
  e_ident := slice 0 16 image; e_type := ld 2 16 image; e_machine := ld 2 18 image; e_version := ld 4 20 image;
  e_entry := ld 8 24 image; e_phoff := ld 8 32 image; e_ehsize := ld 2 52 image; e_phentsize := ld 2 54 image;
  e_phnum := ld 2 56 image |}.
Definition ehdr_at (image : list Z) : res m11_elf64_ehdr :=
  if (List.length image <? sizeof_ehdr)%nat then Ub else Ok (ehdr_of image).

Definition phdr_of (image : list Z) (off : Z) : m11_elf64_phdr :=
  let o := Z.to_nat off in {|
  p_type := ld 4 o image; p_flags := ld 4 (o + 4) image; p_offset := ld 8 (o + 8) image; p_vaddr := ld 8 (o + 16) image;
  p_filesz := ld 8 (o + 32) image; p_memsz := ld 8 (o + 40) image; p_align := ld 8 (o + 48) image |}.
Definition phdr_at (image : list Z) (off : Z) : res m11_elf64_phdr :=
  if Z.of_nat (List.length image) <? off + Z.of_nat sizeof_phdr then Ub else Ok (phdr_of image off).

(** ** Validation *)

(** [None] is the overflow. *)
Definition m11_add_overflow_u64 (a b : Z) : option Z :=
  let r := u64 (a + b) in
  if r <? a then None else Some r.

Definition m11_is_power_of_two_u64 (v : Z) : bool := negb (v =? 0) && (Z.land v (u64 (v - 1)) =? 0).

Definition zero_seg : m11_segment_plan := mk_seg 0 0 0 0 0 0.

Definition m11_zero_plan : m11_process_image_plan := mk_plan 0 0 (replicate 8 zero_seg).

(** [if (b) return rc;] in a check. *)
Definition reject (b : bool) (rc : Z) (k : res unit) : res unit := if b then Err rc else k.

Definition m11_validate_user_range (region : m11_user_region) (base size : Z) : res unit :=
  reject (r_limit region <=? r_base region) M11_ERR_SEGRANGE (
  reject (size =? 0) M11_ERR_SEGRANGE (
  match m11_add_overflow_u64 base size with
  | None => Err M11_ERR_SEGRANGE
  | Some end_ =>
      reject ((base <? r_base region) || (r_limit region <? end_) || (end_ <=? base)) M11_ERR_SEGRANGE (Ok tt)
  end)).

Definition m11_validate_ident (eh : m11_elf64_ehdr) : res unit :=
  let id i := default 0 (e_ident eh !! i) in
  reject (negb (id 0%nat =? M11_ELFMAG0) || negb (id 1%nat =? M11_ELFMAG1) || negb (id 2%nat =? M11_ELFMAG2)
    || negb (id 3%nat =? M11_ELFMAG3)) M11_ERR_MAGIC (
  reject (negb (id 4%nat =? M11_ELFCLASS64)) M11_ERR_CLASS (
  reject (negb (id 5%nat =? M11_ELFDATA2LSB)) M11_ERR_ENDIAN (
  reject (negb (id 6%nat =? M11_EV_CURRENT) || negb (e_version eh =? M11_EV_CURRENT)) M11_ERR_VERSION (Ok tt)))).

Definition m11_validate_phdr_bounds (eh : m11_elf64_ehdr) (image_size : Z) : res unit :=
  reject (e_phnum eh =? 0) M11_ERR_PHBOUNDS (
  reject (negb (e_phentsize eh =? Z.of_nat sizeof_phdr)) M11_ERR_PHENTSIZE (
  let ph_table_bytes := u64 (e_phentsize eh * e_phnum eh) in
  reject (negb (e_phnum eh =? 0) && negb (ph_table_bytes / e_phnum eh =? e_phentsize eh)) M11_ERR_PHBOUNDS (
  match m11_add_overflow_u64 (e_phoff eh) ph_table_bytes with
  | None => Err M11_ERR_PHBOUNDS
  | Some ph_end => reject ((image_size <? ph_end) || (image_size <? e_phoff eh)) M11_ERR_PHBOUNDS (Ok tt)
  end))).

Definition m11_validate_load_segment (ph : m11_elf64_phdr) (image_size : Z) (region : m11_user_region) : res unit :=
  reject (negb (Z.land (p_flags ph) (wnot 32 (Z.lor (Z.lor M11_PF_R M11_PF_W) M11_PF_X)) =? 0)) M11_ERR_FLAGS (
  reject (negb (Z.land (p_flags ph) M11_PF_W =? 0) && negb (Z.land (p_flags ph) M11_PF_X =? 0)) M11_ERR_FLAGS (
  reject (p_memsz ph <? p_filesz ph) M11_ERR_SEGBOUNDS (
  let aligned := negb (p_align ph =? 0) && negb (p_align ph =? 1) in
  reject (aligned && negb (m11_is_power_of_two_u64 (p_align ph))) M11_ERR_ALIGN (
  reject (aligned && negb (p_vaddr ph mod p_align ph =? p_offset ph mod p_align ph)) M11_ERR_ALIGN (
  match m11_add_overflow_u64 (p_offset ph) (p_filesz ph) with
  | None => Err M11_ERR_SEGBOUNDS
  | Some file_end =>
      reject ((image_size <? file_end) || (image_size <? p_offset ph)) M11_ERR_SEGBOUNDS (
      m11_validate_user_range region (p_vaddr ph) (p_memsz ph))
  end))))).

(** ** The plan *)

(** [segments[segment_count] = ...; segment_count++]; undefined outside the
    array. *)
Definition add_segment (ph : m11_elf64_phdr) : M m11_process_image_plan unit :=
  let* p := deref in
  if (List.length (segments p) <=? Z.to_nat (segment_count p))%nat then ub
  else
    let seg := mk_seg (p_offset ph) (p_vaddr ph) (p_filesz ph) (p_memsz ph) (p_align ph) (p_flags ph) in
    store (mk_plan (entry p) (u32 (segment_count p + 1)) (<[Z.to_nat (segment_count p) := seg]> (segments p))).

(** An error after the plan was started: zero it and return the code. *)
Definition zero_and_fail (rc : Z) : M m11_process_image_plan unit :=
  store m11_zero_plan ;;
  fail rc.

(** The body of the loop for one program header. *)
Definition plan_phdr (ph : m11_elf64_phdr) (image_size : Z) (region : m11_user_region) : M m11_process_image_plan unit :=
  if negb (p_type ph =? M11_PT_LOAD) then ret tt
  else
    let* p := deref in
    if M11_MAX_LOAD_SEGMENTS <=? segment_count p then zero_and_fail M11_ERR_SEGCOUNT
    else
      match m11_validate_load_segment ph image_size region with
      | Ok _ => add_segment ph
      | Err rc => zero_and_fail rc
      | Ub => ub
      end.

(** The checks of the header, from the size of the image to the entry point. *)
Definition plan_header (image : list Z) (image_size : Z) (region : m11_user_region) : M m11_process_image_plan m11_elf64_ehdr :=
  fail_if (image_size <? Z.of_nat sizeof_ehdr) M11_ERR_SIZE ;;
  let* eh := lift (ehdr_at image) in
  lift (m11_validate_ident eh) ;;
  fail_if (negb (e_type eh =? M11_ET_EXEC) && negb (e_type eh =? M11_ET_DYN)) M11_ERR_TYPE ;;
  fail_if (negb (e_machine eh =? M11_EM_X86_64)) M11_ERR_MACHINE ;;
  fail_if (negb (e_ehsize eh =? Z.of_nat sizeof_ehdr)) M11_ERR_EHSIZE ;;
  lift (m11_validate_phdr_bounds eh image_size) ;;
  on_error (lift (m11_validate_user_range region (e_entry eh) 1)) (λ _, fail M11_ERR_ENTRY) ;;
  ret eh.

Definition m11_elf64_plan_load (image : ptr (list Z)) (image_size : Z) (region : m11_user_region) : M m11_process_image_plan unit :=
  match image with
  | None => fail M11_ERR_NULL
  | Some image =>
      null_check M11_ERR_NULL ;;
      store m11_zero_plan ;;
      let* eh := plan_header image image_size region in
      let* p := deref in
      store (mk_plan (e_entry eh) (segment_count p) (segments p)) ;;
      iterM (λ i,
        let* ph := lift (phdr_at image (e_phoff eh + Z.of_nat sizeof_phdr * i)) in
        plan_phdr ph image_size region) (seqZ 0 (e_phnum eh)) ;;
      let* p := deref in
      fail_if (segment_count p =? 0) M11_ERR_SEGCOUNT
  end.

(** The cases of [m11_error_name]. *)
Definition error_names : list (Z * string) :=
  [(M11_OK, "M11_OK"); (M11_ERR_NULL, "M11_ERR_NULL"); (M11_ERR_SIZE, "M11_ERR_SIZE"); (M11_ERR_MAGIC, "M11_ERR_MAGIC");
   (M11_ERR_CLASS, "M11_ERR_CLASS"); (M11_ERR_ENDIAN, "M11_ERR_ENDIAN"); (M11_ERR_VERSION, "M11_ERR_VERSION");
   (M11_ERR_TYPE, "M11_ERR_TYPE"); (M11_ERR_MACHINE, "M11_ERR_MACHINE"); (M11_ERR_EHSIZE, "M11_ERR_EHSIZE");
   (M11_ERR_PHENTSIZE, "M11_ERR_PHENTSIZE"); (M11_ERR_PHBOUNDS, "M11_ERR_PHBOUNDS"); (M11_ERR_ALIGN, "M11_ERR_ALIGN");
   (M11_ERR_SEGBOUNDS, "M11_ERR_SEGBOUNDS"); (M11_ERR_SEGRANGE, "M11_ERR_SEGRANGE"); (M11_ERR_SEGCOUNT, "M11_ERR_SEGCOUNT");
   (M11_ERR_ENTRY, "M11_ERR_ENTRY"); (M11_ERR_FLAGS, "M11_ERR_FLAGS")]%string.

Definition m11_error_name (code : Z) : string :=
  match List.find (λ p, p.1 =? code) error_names with
  | Some p => p.2
  | None => "M11_ERR_UNKNOWN"%string
  end.

(** ** Start-up (kernel/core/kmain.c) *)

(** The fields [m11_elf_smoke_test] stores, as writes into the zeroed image. *)
Definition smoke_phdr (o : nat) (fl off va fsz : Z) (b : list Z) : list Z :=
  st 8 (o + 48) 4096 (st 8 (o + 40) 4096 (st 8 (o + 32) fsz (st 8 (o + 16) va (st 8 (o + 8) off (st 4 (o + 4) fl (st 4 o 1 b)))))).

Definition synthetic_elf : list Z :=
  let b := replicate 12288 0 in
  let b := splice 0 [0x7f; 69; 76; 70; 2; 1; 1] b in
  let b := st 4 20 1 (st 2 18 62 (st 2 16 2 b)) in
  let b := st 8 32 (Z.of_nat sizeof_ehdr) (st 8 24 0x401000 b) in
  let b := st 2 56 2 (st 2 54 (Z.of_nat sizeof_phdr) (st 2 52 (Z.of_nat sizeof_ehdr) b)) in
  smoke_phdr 120 6 0x2000 0x401000 8 (smoke_phdr 64 5 0x1000 0x400000 16 b).

Definition m11_elf_smoke_test : M m11_process_image_plan unit :=
  or_panic (m11_elf64_plan_load (Some synthetic_elf) 12288 (mk_region 0x400000 0x8000000000)).
