(* ===== verification/ElfSpec.v ===== *)
(** * ELF64 loader: what is accepted and what the plan holds *)

From Stdlib Require Import ZArith Lia.
From stdpp Require Import base numbers option list.
From S2P Require Import Prelude Elf.

Local Open Scope Z_scope.
Local Open Scope cm_scope.

(** ** The specification, in mathematical integers *)

(** [size] bytes from [base] on lie in the region. *)
Definition in_region (r : m11_user_region) (base size : Z) : Prop :=
  0 < size ∧ r_base r <= base ∧ base + size <= r_limit r.

Record seg_ok (n : Z) (r : m11_user_region) (ph : m11_elf64_phdr) : Prop := {
  sg_flags : p_flags ph < 8;
  sg_wx : ~ (Z.testbit (p_flags ph) 1 = true ∧ Z.testbit (p_flags ph) 0 = true);
  sg_sizes : p_filesz ph <= p_memsz ph;
  sg_align : 1 < p_align ph → (∃ k, 0 <= k ∧ p_align ph = 2 ^ k) ∧ (p_vaddr ph - p_offset ph) mod p_align ph = 0;
  sg_file : p_offset ph + p_filesz ph <= n;
  sg_memory : in_region r (p_vaddr ph) (p_memsz ph)
}.

Record header_ok (image : list Z) (r : m11_user_region) : Prop := {
  hd_size : (64 <= length image)%nat;
  hd_ident : take 7 image = [0x7f; 69; 76; 70; 2; 1; 1];
  hd_version : e_version (ehdr_of image) = 1;
  hd_type : e_type (ehdr_of image) = M11_ET_EXEC ∨ e_type (ehdr_of image) = M11_ET_DYN;
  hd_machine : e_machine (ehdr_of image) = M11_EM_X86_64;
  hd_ehsize : e_ehsize (ehdr_of image) = 64;
  hd_phentsize : e_phentsize (ehdr_of image) = 56;
  hd_phnum : e_phnum (ehdr_of image) ≠ 0;
  hd_table : e_phoff (ehdr_of image) + 56 * e_phnum (ehdr_of image) <= Z.of_nat (length image);
  hd_entry : in_region r (e_entry (ehdr_of image)) 1
}.

Definition phdr_table (image : list Z) : list m11_elf64_phdr :=
  (λ i, phdr_of image (e_phoff (ehdr_of image) + 56 * i)) <$> seqZ 0 (e_phnum (ehdr_of image)).

Definition is_load (ph : m11_elf64_phdr) : bool := p_type ph =? M11_PT_LOAD.
Definition loads (image : list Z) : list m11_elf64_phdr := List.filter is_load (phdr_table image).

Record image_ok (image : list Z) (r : m11_user_region) : Prop := {
  im_header : header_ok image r;
  im_segments : Forall (seg_ok (Z.of_nat (length image)) r) (loads image);
  im_count : (1 <= length (loads image) <= 8)%nat
}.

Definition seg_of (ph : m11_elf64_phdr) : m11_segment_plan :=
  mk_seg (p_offset ph) (p_vaddr ph) (p_filesz ph) (p_memsz ph) (p_align ph) (p_flags ph).

(** A plan with the segments [l]. *)
Definition plan_of (e : Z) (l : list m11_elf64_phdr) : m11_process_image_plan :=
  mk_plan e (Z.of_nat (length l)) ((seg_of <$> l) ++ replicate (8 - length l) zero_seg).

(** ** Checks *)

(** A check passes exactly when [P] holds, and fails with a negative code. *)
Definition checks (r : res unit) (P : Prop) : Prop := (r = Ok tt ∧ P) ∨ (∃ rc, r = Err rc ∧ rc < 0 ∧ ~ P).

Lemma checks_ok (P : Prop) : P → checks (Ok tt) P.
Proof. by left. Qed.

Lemma checks_err rc (P : Prop) : rc < 0 → ~ P → checks (Err rc) P.
Proof. right. by exists rc. Qed.

Lemma checks_iff r P Q : (P ↔ Q) → checks r P → checks r Q.
Proof. intros E [[-> HP]|(rc & -> & Hrc & HP)]; [apply checks_ok; tauto|apply checks_err; tauto]. Qed.

Lemma checks_reject b rc k P : rc < 0 → checks k P → checks (reject b rc k) (b = false ∧ P).
Proof.
  intros Hrc Hk. destruct b; cbn [reject].
  - apply checks_err; [done|]. by intros [? _].
  - eapply checks_iff; [|exact Hk]. tauto.
Qed.

Lemma add_overflow_spec a b : fits 64 a → fits 64 b →
  m11_add_overflow_u64 a b = if bool_decide (a + b < 2 ^ 64) then Some (a + b) else None.
Proof.
  unfold fits. intros Ha Hb. unfold m11_add_overflow_u64. case_bool_decide as Hc.
  - rewrite wrap_small by (unfold fits; lia). by rewrite (proj2 (Z.ltb_ge _ _)) by lia.
  - replace (u64 (a + b)) with (a + b - 2 ^ 64); [by rewrite (proj2 (Z.ltb_lt _ _)) by lia|].
    unfold wrap. apply (Z.mod_unique_pos _ _ 1); lia.
Qed.

Lemma power_of_two_spec v : fits 64 v → m11_is_power_of_two_u64 v = true ↔ ∃ k, 0 <= k ∧ v = 2 ^ k.
Proof.
  unfold m11_is_power_of_two_u64. intros Hv. rewrite andb_true_iff, negb_true_iff, Z.eqb_neq, Z.eqb_eq. unfold fits in Hv. split.
  - intros [H0 Hl]. rewrite wrap_small in Hl by (unfold fits; lia). exists (Z.log2 v). split; [apply Z.log2_nonneg|].
    pose proof (Z.log2_spec v ltac:(lia)) as [H1 H2]. destruct (decide (v = 2 ^ Z.log2 v)) as [|Hne]; [done|exfalso].
    assert (Z.log2 (v - 1) = Z.log2 v) as E. { apply Z.log2_unique; [apply Z.log2_nonneg|lia]. }
    assert (Z.testbit (Z.land v (v - 1)) (Z.log2 v) = true) as Hb; [|by rewrite Hl, Z.bits_0 in Hb].
    rewrite Z.land_spec, Z.bit_log2 by lia. rewrite <-E at 1. rewrite Z.bit_log2; [done|].
    assert (0 < 2 ^ Z.log2 v) by (apply Z.pow_pos_nonneg; [lia|apply Z.log2_nonneg]). lia.
  - intros (k & Hk & ->). assert (0 < 2 ^ k) by (apply Z.pow_pos_nonneg; lia). split; [lia|].
    rewrite wrap_small by (unfold fits; lia). rewrite land_ones_mod by done. apply Z.mod_same. lia.
Qed.

Definition region_ok (r : m11_user_region) : Prop := fits 64 (r_base r) ∧ fits 64 (r_limit r).

Lemma user_range_checks r base size : region_ok r → fits 64 base → fits 64 size →
  checks (m11_validate_user_range r base size) (in_region r base size).
Proof.
  intros [Hrb Hrl] Hb Hs. unfold m11_validate_user_range. rewrite add_overflow_spec by done. unfold in_region, fits in *.
  case_bool_decide as Ho.
  - eapply checks_iff; [|do 3 (apply checks_reject; [done|]); by apply (checks_ok True)].
    rewrite !orb_false_iff, Z.leb_gt, Z.eqb_neq, !Z.ltb_ge, Z.leb_gt. lia.
  - eapply checks_iff; [|do 2 (apply checks_reject; [done|]); apply (checks_err _ False); [done|tauto]]. lia.
Qed.

(** ** Fields *)

Record phdr_fits (ph : m11_elf64_phdr) : Prop := {
  pf_flags : fits 32 (p_flags ph);
  pf_offset : fits 64 (p_offset ph);
  pf_vaddr : fits 64 (p_vaddr ph);
  pf_filesz : fits 64 (p_filesz ph);
  pf_memsz : fits 64 (p_memsz ph);
  pf_align : fits 64 (p_align ph)
}.

Lemma phdr_of_fits image off : bytes_ok image → phdr_fits (phdr_of image off).
Proof. intros H. constructor; by apply ld_fits. Qed.

Lemma cong_sub a x y : 0 < a → x mod a = y mod a ↔ (x - y) mod a = 0.
Proof.
  intros Ha. split; intros H.
  - rewrite Zminus_mod, H, Z.sub_diag. apply Z.mod_0_l. lia.
  - apply Z.mod_divide in H as [q Hq]; [|lia]. replace x with (y + q * a) by lia. apply Z.mod_add. lia.
Qed.

Lemma flags_small f : fits 32 f → Z.land f (wnot 32 (Z.lor (Z.lor M11_PF_R M11_PF_W) M11_PF_X)) = 0 ↔ f < 8.
Proof.
  intros Hf. change (Z.lor (Z.lor M11_PF_R M11_PF_W) M11_PF_X) with (2 ^ 3 - 1). rewrite land_wnot_mask by (done || lia).
  unfold fits in Hf. change (2 ^ 3) with 8. pose proof (Z.div_mod f 8). pose proof (Z.mod_pos_bound f 8). lia.
Qed.

Lemma land_bit f k : 0 <= k → (Z.land f (2 ^ k) =? 0) = negb (Z.testbit f k).
Proof.
  intros Hk. rewrite land_pow2 by done. assert (0 < 2 ^ k) by (apply Z.pow_pos_nonneg; lia).
  destruct (Z.testbit f k); [by apply Z.eqb_neq; lia|done].
Qed.

Lemma align_checks ph : phdr_fits ph →
  let aligned := negb (p_align ph =? 0) && negb (p_align ph =? 1) in
  ((aligned && negb (m11_is_power_of_two_u64 (p_align ph)) = false) ∧
   (aligned && negb (p_vaddr ph mod p_align ph =? p_offset ph mod p_align ph) = false)) ↔
  (1 < p_align ph → (∃ k, 0 <= k ∧ p_align ph = 2 ^ k) ∧ (p_vaddr ph - p_offset ph) mod p_align ph = 0).
Proof.
  intros F aligned. pose proof (pf_align _ F) as Ha. pose proof Ha as Ha'. unfold fits in Ha'. subst aligned.
  rewrite <-power_of_two_spec by done. destruct (Z.eqb_spec (p_align ph) 0) as [->|H0]; [split; [lia|done]|].
  destruct (Z.eqb_spec (p_align ph) 1) as [->|H1]; [split; [lia|done]|]. cbn [negb andb].
  rewrite !negb_false_iff, Z.eqb_eq, cong_sub by lia. split; [tauto|]. intros H. apply H. lia.
Qed.

Lemma segment_checks ph n r : phdr_fits ph → region_ok r → fits 64 n →
  checks (m11_validate_load_segment ph n r) (seg_ok n r ph).
Proof.
  intros F Hr Hn. pose proof F as [F1 F2 F3 F4 F5 F6]. unfold m11_validate_load_segment. rewrite add_overflow_spec by done.
  pose proof (user_range_checks r (p_vaddr ph) (p_memsz ph) Hr F3 F5) as Hu. unfold fits in *. case_bool_decide as Ho.
  - eapply checks_iff; [|do 6 (apply checks_reject; [done|]); exact Hu].
    rewrite negb_false_iff, Z.eqb_eq, flags_small by done. change M11_PF_W with (2 ^ 1). change M11_PF_X with (2 ^ 0).
    rewrite !land_bit, !negb_involutive, andb_false_iff by lia. rewrite Z.ltb_ge, orb_false_iff, !Z.ltb_ge.
    pose proof (align_checks ph F) as Ha. cbv zeta in Ha. split.
    + intros (H1 & H2 & H3 & H4 & H5 & [H6 H7] & H8). constructor; [done| |done|by apply Ha|done|done].
      intros [E1 E2]. destruct H2; congruence.
    + intros [H1 H2 H3 H4 H5 H6]. split; [done|]. split; [|split; [done|]].
      * destruct (Z.testbit (p_flags ph) 1); [|by left]. right. destruct (Z.testbit (p_flags ph) 0); [|done]. by destruct H2.
      * apply Ha in H4 as [H4 H4']. split_and!; try done. lia.
  - eapply checks_iff; [|do 5 (apply checks_reject; [done|]); apply (checks_err _ False); [done|tauto]].
    split; [tauto|]. intros [H1 H2 H3 H4 H5 H6]. lia.
Qed.

(** ** The loop *)

Lemma length_plan e l : (length l <= 8)%nat → length (segments (plan_of e l)) = 8%nat.
Proof. intros H. cbn. rewrite length_app, length_fmap, length_replicate. lia. Qed.

Lemma add_segment_run e l ph : (length l < 8)%nat → add_segment ph (Some (plan_of e l)) = (Ok tt, Some (plan_of e (l ++ [ph]))).
Proof.
  intros Hl. unfold add_segment. rewrite (bind_ok _ _ _ (plan_of e l) (Some (plan_of e l))) by done.
  rewrite length_plan by lia. cbn [segment_count plan_of entry segments]. rewrite Nat2Z.id.
  rewrite (proj2 (Nat.leb_gt _ _)) by lia. rewrite store_run. unfold plan_of. do 3 f_equal.
  - rewrite wrap_small by (unfold fits; lia). rewrite length_app. cbn [length]. lia.
  - rewrite fmap_app, length_app. cbn [length fmap list_fmap].
    replace (8 - length l)%nat with (S (8 - (length l + 1))) by lia. cbn [replicate].
    rewrite insert_app_r_alt by (rewrite length_fmap; lia). rewrite length_fmap, Nat.sub_diag. cbn. by rewrite <-app_assoc.
Qed.

Lemma plan_phdr_run e n r ph l :
  region_ok r → fits 64 n → phdr_fits ph → (length l <= 8)%nat → p_type ph = M11_PT_LOAD →
  (plan_phdr ph n r (Some (plan_of e l)) = (Ok tt, Some (plan_of e (l ++ [ph]))) ∧ seg_ok n r ph ∧ (length l < 8)%nat) ∨
  (∃ c, plan_phdr ph n r (Some (plan_of e l)) = (Err c, Some m11_zero_plan) ∧ c < 0 ∧ ~ (seg_ok n r ph ∧ (length l < 8)%nat)).
Proof.
  intros Hr Hn Hf Hl Et. unfold plan_phdr. rewrite Et, Z.eqb_refl. cbn [negb].
  rewrite (bind_ok _ _ _ (plan_of e l) (Some (plan_of e l))) by done. cbn [segment_count plan_of].
  destruct (Z.leb_spec M11_MAX_LOAD_SEGMENTS (Z.of_nat (length l))) as [H8|H8]; unfold M11_MAX_LOAD_SEGMENTS in H8.
  { right. exists M11_ERR_SEGCOUNT. split_and!; [done|done|lia]. }
  destruct (segment_checks ph n r Hf Hr Hn) as [[-> Hok]|(c & -> & Hc & Hno)].
  - left. split; [apply add_segment_run; lia|]. split; [done|lia].
  - right. exists c. split_and!; [done|done|tauto].
Qed.

Lemma plan_loop_run e n r l : ∀ done_,
  region_ok r → fits 64 n → Forall phdr_fits l → (length done_ <= 8)%nat →
  ∃ rc p, iterM (λ ph, plan_phdr ph n r) l (Some (plan_of e done_)) = (rc, Some p) ∧
    ((rc = Ok tt ∧ p = plan_of e (done_ ++ List.filter is_load l) ∧ Forall (seg_ok n r) (List.filter is_load l) ∧
      (length done_ + length (List.filter is_load l) <= 8)%nat) ∨
     (∃ c, rc = Err c ∧ c < 0 ∧ p = m11_zero_plan ∧
      ~ (Forall (seg_ok n r) (List.filter is_load l) ∧ (length done_ + length (List.filter is_load l) <= 8)%nat))).
Proof.
  induction l as [|ph l IH]; intros done_ Hr Hn Hf Hd; cbn [iterM List.filter].
  { exists (Ok tt), (plan_of e done_). split; [done|]. left. rewrite app_nil_r. cbn. split_and!; try done. lia. }
  apply Forall_cons in Hf as [Fp Hf]. destruct (is_load ph) eqn:Et.
  2:{ rewrite (bind_ok _ _ _ tt (Some (plan_of e done_))); [by apply IH|]. unfold plan_phdr. fold (is_load ph). by rewrite Et. }
  apply Z.eqb_eq in Et.
  destruct (plan_phdr_run e n r ph done_ Hr Hn Fp Hd Et) as [(Hrun & Hok & Hlt)|(c & Hrun & Hc & Hno)].
  - rewrite (bind_ok _ _ _ _ _ Hrun). destruct (IH (done_ ++ [ph]) Hr Hn Hf) as (rc & p & Hl & Hcase); [rewrite length_app; cbn; lia|].
    exists rc, p. split; [done|]. rewrite length_app in Hcase. cbn [length] in *. rewrite Forall_cons.
    destruct Hcase as [(-> & -> & Hs & Hle)|(c & -> & Hc & -> & Hno)].
    + left. rewrite <-app_assoc. split_and!; try done. lia.
    + right. exists c. split_and!; try done. intros [[_ Hs]%Forall_cons Hle]. apply Hno. split; [done|lia].
  - rewrite (bind_err _ _ _ _ _ Hrun). exists (Err c), m11_zero_plan. split; [done|]. right. exists c. split_and!; try done.
    cbn [length]. intros [[Hs _]%Forall_cons Hle]. apply Hno. split; [done|lia].
Qed.

(** ** The header *)

Definition ident_ok (image : list Z) : Prop := take 7 image = [0x7f; 69; 76; 70; 2; 1; 1].

Lemma ident_checks image : (64 <= length image)%nat →
  checks (m11_validate_ident (ehdr_of image)) (ident_ok image ∧ e_version (ehdr_of image) = 1).
Proof.
  intros Hl. unfold m11_validate_ident, ident_ok. cbn [e_ident ehdr_of].
  do 7 (destruct image as [|? image]; [cbn in Hl; lia|]). cbn [slice drop take].
  eapply checks_iff; [|do 4 (apply checks_reject; [done|]); by apply (checks_ok True)].
  cbn. rewrite !orb_false_iff, !negb_false_iff, !Z.eqb_eq. split.
  - intros ([[[-> ->] ->] ->] & -> & -> & [-> ?] & _). done.
  - intros [[= -> -> -> -> -> -> ->] ?]. done.
Qed.

Lemma phdr_bounds_checks image : bytes_ok image → fits 64 (Z.of_nat (length image)) →
  checks (m11_validate_phdr_bounds (ehdr_of image) (Z.of_nat (length image)))
    (e_phnum (ehdr_of image) ≠ 0 ∧ e_phentsize (ehdr_of image) = 56 ∧
     e_phoff (ehdr_of image) + 56 * e_phnum (ehdr_of image) <= Z.of_nat (length image)).
Proof.
  intros Hb Hn. set (eh := ehdr_of image). assert (fits 16 (e_phnum eh)) as F1 by (by apply (ld_fits 2)).
  assert (fits 64 (e_phoff eh)) as F2 by (by apply (ld_fits 8)). unfold m11_validate_phdr_bounds.
  unfold fits in *. destruct (Z.eqb_spec (e_phnum eh) 0) as [E0|E0]; cbn [reject]; [apply checks_err; [done|tauto]|].
  change (Z.of_nat sizeof_phdr) with 56. destruct (Z.eqb_spec (e_phentsize eh) 56) as [E1|E1]; cbn [negb reject]; [|apply checks_err; [done|tauto]].
  rewrite E1, wrap_small by (unfold fits; lia). rewrite Z.div_mul, Z.eqb_refl by done. cbn [negb andb reject].
  rewrite add_overflow_spec by (unfold fits; lia). case_bool_decide as Ho.
  - eapply checks_iff; [|apply checks_reject; [done|]; by apply (checks_ok True)]. rewrite orb_false_iff, !Z.ltb_ge. lia.
  - apply checks_err; [done|lia].
Qed.

Lemma table_loop image r n s : bytes_ok image → header_ok image r →
  iterM (λ i, let* ph := lift (phdr_at image (e_phoff (ehdr_of image) + Z.of_nat sizeof_phdr * i)) in plan_phdr ph n r)
    (seqZ 0 (e_phnum (ehdr_of image))) (Some s) =
  iterM (λ ph, plan_phdr ph n r) (phdr_table image) (Some s).
Proof.
  intros Hb H. unfold phdr_table. rewrite iterM_fmap. apply iterM_ext_in. intros i q Hi%elem_of_seqZ.
  pose proof (hd_table _ _ H). change (Z.of_nat sizeof_phdr) with 56. unfold phdr_at. change (Z.of_nat sizeof_phdr) with 56.
  by rewrite (proj2 (Z.ltb_ge _ _)) by lia.
Qed.

Lemma loads_fit image : bytes_ok image → Forall phdr_fits (phdr_table image).
Proof. intros Hb. apply Forall_fmap, Forall_forall. intros i _. by apply phdr_of_fits. Qed.

(** Everything before the loop. *)
Lemma header_run image r q :
  bytes_ok image → fits 64 (Z.of_nat (length image)) → region_ok r →
  let run := plan_header image (Z.of_nat (length image)) r (Some q) in
  (run = (Ok (ehdr_of image), Some q) ∧ header_ok image r) ∨ (∃ rc, run = (Err rc, Some q) ∧ rc < 0 ∧ ~ header_ok image r).
Proof.
  intros Hb Hn Hr run. subst run. unfold plan_header. set (eh := ehdr_of image).
  assert (fits 64 (e_entry eh)) as Fe by (by apply (ld_fits 8)).
  destruct (Z.ltb_spec (Z.of_nat (length image)) (Z.of_nat sizeof_ehdr)) as [H1|H1]; unfold sizeof_ehdr in H1.
  { right. exists M11_ERR_SIZE. split_and!; [done|done|]. intros H. pose proof (hd_size _ _ H). lia. }
  rewrite (bind_ok _ _ _ tt (Some q)) by done. rewrite (bind_ok _ _ _ eh (Some q)).
  2:{ unfold lift, ehdr_at, sizeof_ehdr. by rewrite (proj2 (Nat.ltb_ge _ _)) by lia. }
  destruct (ident_checks image ltac:(lia)) as [[E [P2 P3]]|(rc & E & Hrc & Hno)]; fold eh in E.
  2:{ right. exists rc. rewrite (bind_err _ _ _ rc (Some q)) by (unfold lift; by rewrite E). split_and!; [done|done|]. intros []. tauto. }
  rewrite (bind_ok _ _ _ tt (Some q)) by (unfold lift; by rewrite E).
  destruct (negb (e_type eh =? M11_ET_EXEC) && negb (e_type eh =? M11_ET_DYN)) eqn:E4.
  { right. exists M11_ERR_TYPE. split_and!; [done|done|]. intros H. pose proof (hd_type _ _ H). fold eh in H0. lia. }
  rewrite (bind_ok _ _ _ tt (Some q)) by done.
  destruct (Z.eqb_spec (e_machine eh) M11_EM_X86_64) as [P5|P5]; cbn [negb].
  2:{ right. exists M11_ERR_MACHINE. split_and!; [done|done|]. by intros []. }
  rewrite (bind_ok _ _ _ tt (Some q)) by done. change (Z.of_nat sizeof_ehdr) with 64.
  destruct (Z.eqb_spec (e_ehsize eh) 64) as [P6|P6]; cbn [negb].
  2:{ right. exists M11_ERR_EHSIZE. split_and!; [done|done|]. by intros []. }
  rewrite (bind_ok _ _ _ tt (Some q)) by done.
  destruct (phdr_bounds_checks image Hb Hn) as [[E7 (P7 & P8 & P9)]|(rc & E7 & Hrc & Hno)]; fold eh in E7.
  2:{ right. exists rc. rewrite (bind_err _ _ _ rc (Some q)) by (unfold lift; by rewrite E7). split_and!; [done|done|]. intros []. tauto. }
  rewrite (bind_ok _ _ _ tt (Some q)) by (unfold lift; by rewrite E7).
  destruct (user_range_checks r (e_entry eh) 1 Hr Fe ltac:(unfold fits; lia)) as [[E10 P10]|(rc & E10 & Hrc & Hno)].
  2:{ right. exists M11_ERR_ENTRY. rewrite (bind_err _ _ _ M11_ERR_ENTRY (Some q)) by (unfold on_error, lift; by rewrite E10).
      split_and!; [done|done|]. by intros []. }
  rewrite (bind_ok _ _ _ tt (Some q)) by (unfold on_error, lift; by rewrite E10).
  left. split; [done|]. constructor; try done; [lia|fold eh; lia].
Qed.

(** C14: [m11_elf64_plan_load] on any image accepts exactly the images the
    specification accepts (header, table and every loadable segment inside the
    image and the user region in mathematical integers, no segment writable and
    executable, one to eight of them), never reads outside the image, and the
    plan is then the entry point and the loadable segments in order. Otherwise
    the code is negative and the plan is zeroed, save that an image without
    loadable segments leaves its entry point in the plan. *)
Theorem m11_plan_load_exact (image : list Z) (r : m11_user_region) (p : m11_process_image_plan) :
  bytes_ok image → fits 64 (Z.of_nat (length image)) → region_ok r →
  let run := m11_elf64_plan_load (Some image) (Z.of_nat (length image)) r (Some p) in
  let e := e_entry (ehdr_of image) in
  (run = (Ok tt, Some (plan_of e (loads image))) ∧ image_ok image r) ∨
  (∃ rc q, run = (Err rc, Some q) ∧ rc < 0 ∧ ~ image_ok image r ∧ (q = m11_zero_plan ∨ (loads image = [] ∧ q = plan_of e []))).
Proof.
  intros Hb Hn Hr run e. subst run. unfold m11_elf64_plan_load. rewrite (bind_ok _ _ _ tt (Some p)) by done.
  rewrite (bind_ok _ _ _ tt (Some m11_zero_plan)) by done.
  destruct (header_run image r m11_zero_plan Hb Hn Hr) as [[E H]|(rc & E & Hrc & Hno)].
  2:{ right. exists rc, m11_zero_plan. rewrite (bind_err _ _ _ _ _ E). split_and!; [done|done|by intros []|by left]. }
  rewrite (bind_ok _ _ _ _ _ E), (bind_ok _ _ _ m11_zero_plan (Some m11_zero_plan)) by done.
  rewrite (bind_ok _ _ _ tt (Some (plan_of e []))) by done.
  destruct (plan_loop_run e (Z.of_nat (length image)) r (phdr_table image) [] Hr Hn (loads_fit image Hb) ltac:(cbn; lia))
    as (rc & q & Hl & Hcase). rewrite <-(table_loop image r) in Hl by done. fold (loads image) in Hcase.
  destruct Hcase as [(-> & -> & Hs & Hle)|(c & -> & Hc & -> & Hno)].
  - rewrite (bind_ok _ _ _ _ _ Hl), (bind_ok _ _ _ (plan_of e (loads image)) (Some (plan_of e (loads image)))) by done.
    cbn [segment_count plan_of]. destruct (loads image) as [|ph l] eqn:El.
    + right. exists M11_ERR_SEGCOUNT, (plan_of e []). split_and!; [done|done| |by right]. intros [_ _ Hc]. rewrite El in Hc. cbn in Hc. lia.
    + left. split; [done|]. constructor; [done|by rewrite El|]. rewrite El. cbn [length] in *. lia.
  - right. exists c, m11_zero_plan. rewrite (bind_err _ _ _ _ _ Hl). split_and!; [done|done| |by left].
    intros [_ Hs Hc']. apply Hno. split; [done|]. cbn [length]. lia.
Qed.

(** The image of the smoke test is accepted. *)
Lemma m11_elf_smoke_test_ok p : m11_elf_smoke_test (Some p) = (Ok tt, Some (plan_of 0x401000 (loads synthetic_elf))).
Proof. vm_compute. reflexivity. Qed.

Lemma m11_plan_load_exact_witness :
  let r := mk_region 0x400000 0x8000000000 in
  let run := m11_elf64_plan_load (Some synthetic_elf) (Z.of_nat (length synthetic_elf)) r (Some m11_zero_plan) in
  let e := e_entry (ehdr_of synthetic_elf) in
  (run = (Ok tt, Some (plan_of e (loads synthetic_elf))) ∧ image_ok synthetic_elf r) ∨
  (∃ rc q, run = (Err rc, Some q) ∧ rc < 0 ∧ ~ image_ok synthetic_elf r ∧
     (q = m11_zero_plan ∨ (loads synthetic_elf = [] ∧ q = plan_of e []))).
Proof.
  apply (m11_plan_load_exact synthetic_elf (mk_region 0x400000 0x8000000000) m11_zero_plan).
  - apply (bool_decide_unpack _). vm_compute. exact I.
  - split; [apply Nat2Z.is_nonneg|]. vm_compute. reflexivity.
  - split; (split; [vm_compute; discriminate|vm_compute; reflexivity]).
Defined.
