(* ===== verification/Console.v ===== *)
(** * Console: port I/O, the serial line and the log
      (kernel/arch/x86_64/include/mcsos/arch/io.h, kernel/core/serial.c,
       kernel/core/log.c, kernel/core/panic.c)

    The devices behind the ports are a parameter: a state with what a read and a
    write of a port do to it ([Ports]). *)

From Stdlib Require Import ZArith Lia String.
From stdpp Require Import base numbers option list.
From S2P Require Import Prelude.

Local Open Scope Z_scope.
Local Open Scope cm_scope.

Class Ports (H : Type) := {
  port_in : H → Z → Z * H;
  port_out : H → Z → Z → H
}.

Definition COM1_PORT : Z := 0x3F8.
Definition SERIAL_TIMEOUT_LIMIT : Z := 100000.
Definition MCSOS_NAME : string := "MCSOS".
Definition MCSOS_VERSION : string := "260502".
Definition MCSOS_MILESTONE : string := "M4".

Definition digits : list Z := chars "0123456789abcdef".

Section console.
Context {H : Type} `{Ports H}.

Record console := mk_console {
  hw : H;
  g_log_ready : Z
}.

(** ** Ports *)

Definition outb (port value : Z) : M console unit :=
  let* c := deref in
  store (mk_console (port_out (hw c) port value) (g_log_ready c)).

Definition inb (port : Z) : M console Z :=
  let* c := deref in
  let '(v, h) := port_in (hw c) port in
  store (mk_console h (g_log_ready c)) ;;
  ret v.

Definition io_wait : M console unit := outb 0x80 0.

(** ** Serial line *)

Definition serial_transmit_empty : M console bool :=
  let* v := inb (COM1_PORT + 5) in
  ret (negb (Z.land v 0x20 =? 0)).

Definition serial_init : M console unit :=
  outb (COM1_PORT + 1) 0x00 ;;
  outb (COM1_PORT + 3) 0x80 ;;
  outb (COM1_PORT + 0) 0x03 ;;
  outb (COM1_PORT + 1) 0x00 ;;
  outb (COM1_PORT + 3) 0x03 ;;
  outb (COM1_PORT + 2) 0xC7 ;;
  outb (COM1_PORT + 4) 0x0B.

(** The loop of [serial_putc] with [n] polls left; the result says whether the
    transmitter became empty. *)
Fixpoint wait_empty (n : nat) : M console bool :=
  match n with
  | O => ret false
  | S n =>
      let* e := serial_transmit_empty in
      if e then ret true else wait_empty n
  end.

Definition send_byte (c : Z) : M console unit :=
  let* e := wait_empty (Z.to_nat SERIAL_TIMEOUT_LIMIT) in
  if e then outb COM1_PORT (u8 c) else ret tt.

(** The call for a carriage return does not call itself again. *)
Definition serial_putc (c : Z) : M console unit :=
  (if c =? 10 then send_byte 13 else ret tt) ;;
  send_byte c.

(** A string is the list of its characters before the NUL. *)
Definition serial_write (s : ptr (list Z)) : M console unit :=
  match s with
  | None => ret tt
  | Some s => iterM serial_putc s
  end.

(** ** Log *)

Definition log_init : M console unit :=
  serial_init ;;
  let* c := deref in
  store (mk_console (hw c) 1).

(** [if (g_log_ready == 0) { serial_init(); g_log_ready = 1; }] *)
Definition log_ensure : M console unit :=
  let* c := deref in
  if g_log_ready c =? 0 then log_init else ret tt.

Definition log_putc (c : Z) : M console unit :=
  log_ensure ;;
  serial_putc c.

Definition log_write (s : ptr (list Z)) : M console unit :=
  log_ensure ;;
  serial_write s.

Definition log_writeln (s : ptr (list Z)) : M console unit :=
  log_write s ;;
  log_putc 10.

Definition nibble (value shift : Z) : Z := Z.land (Z.shiftr value shift) 0x0F.

Definition log_hex64 (value : Z) : M console unit :=
  log_write (Some (chars "0x")) ;;
  iterM (λ shift, log_putc (default 0 (digits !! Z.to_nat (nibble value shift))))
    ((λ i, 60 - 4 * Z.of_nat i) <$> seq 0 16).

Definition log_key_value_hex64 (key : ptr (list Z)) (value : Z) : M console unit :=
  log_write key ;;
  log_write (Some (chars "=")) ;;
  log_hex64 value ;;
  log_putc 10.

(** ** Panic *)

(** The first loop of [log_dec_u32] with [n] places left in [buf]: the digits it
    stores, the lowest first. *)
Fixpoint dec_loop (n : nat) (value : Z) : list Z :=
  match n with
  | O => []
  | S n => if value =? 0 then [] else 48 + value mod 10 :: dec_loop n (value / 10)
  end.

Definition log_dec_u32 (value : Z) : M console unit :=
  if value =? 0 then log_putc 48
  else iterM log_putc (rev (dec_loop 11 value)).

(** It does not return; [rflags] is what [cpu_read_rflags] read. *)
Definition kernel_panic_at (file : ptr (list Z)) (line : Z) (reason : ptr (list Z)) (code rflags : Z) : M console unit :=
  log_writeln (Some []) ;;
  log_writeln (Some (chars "================ MCSOS KERNEL PANIC ================")) ;;
  log_write (Some (chars "system=")) ;; log_write (Some (chars MCSOS_NAME)) ;;
  log_write (Some (chars " version=")) ;; log_write (Some (chars MCSOS_VERSION)) ;;
  log_write (Some (chars " milestone=")) ;; log_writeln (Some (chars MCSOS_MILESTONE)) ;;
  log_write (Some (chars "reason=")) ;;
  log_writeln (Some (default (chars "<null>") reason)) ;;
  log_write (Some (chars "location=")) ;;
  log_write (Some (default (chars "<unknown>") file)) ;;
  log_write (Some (chars ":")) ;;
  log_dec_u32 (u32 line) ;;
  log_putc 10 ;;
  log_key_value_hex64 (Some (chars "panic_code")) code ;;
  log_key_value_hex64 (Some (chars "rflags_before_cli")) rflags ;;
  log_writeln (Some (chars "state=halted")) ;;
  log_writeln (Some (chars "====================================================")) ;;
  fail KERNEL_PANIC.
End console.
Arguments console : clear implicits.
