(* ===== verification/ConsoleSpec.v ===== *)
(** * Console: what reaches the serial line *)

From Stdlib Require Import ZArith Lia String.
From stdpp Require Import base numbers option list.
From S2P Require Import Prelude Console.

Local Open Scope Z_scope.
Local Open Scope cm_scope.

(** ** The serial device *)

Definition LSR : Z := COM1_PORT + 5.
Definition lsr_ready {H} `{Ports H} (h : H) : bool := negb (Z.land (port_in h LSR).1 0x20 =? 0).

(** The transmitter is reported empty after [n] polls that report it busy. *)
Fixpoint ready_in {H} `{Ports H} (n : nat) (h : H) : Prop :=
  match n with
  | O => lsr_ready h = true
  | S n => lsr_ready h = false ∧ ready_in n (port_in h LSR).2
  end.

(** What the code relies on of the UART at [COM1_PORT]: the line control
    register selects between data and divisor, a data byte is transmitted, the
    other registers transmit nothing, and the transmitter is empty again before
    the polling loop gives up. *)
Class Uart (H : Type) {P : Ports H} := {
  u_sent : H → list Z;
  u_dlab : H → bool;
  u_lsr h : u_sent (port_in h LSR).2 = u_sent h ∧ u_dlab (port_in h LSR).2 = u_dlab h;
  u_ready h : ∃ n, Z.of_nat n < SERIAL_TIMEOUT_LIMIT ∧ ready_in n h;
  u_data h v : u_sent (port_out h COM1_PORT v) = (if u_dlab h then u_sent h else u_sent h ++ [v]) ∧
    u_dlab (port_out h COM1_PORT v) = u_dlab h;
  u_control h v : u_sent (port_out h (COM1_PORT + 3) v) = u_sent h ∧ u_dlab (port_out h (COM1_PORT + 3) v) = Z.testbit v 7;
  u_config h i v : i = 1 ∨ i = 2 ∨ i = 4 → u_sent (port_out h (COM1_PORT + i) v) = u_sent h ∧ u_dlab (port_out h (COM1_PORT + i) v) = u_dlab h
}.

(** ** The text *)

(** A line feed is sent as carriage return and line feed. *)
Definition crlf (b : Z) : list Z := if b =? 10 then [13; 10] else [b].
Definition text (s : list Z) : list Z := concat (crlf <$> s).

Definition digit_value (c : Z) : Z := if c <? 58 then c - 48 else c - 87.
Definition read_base (b : Z) (l : list Z) : Z := foldl (λ a c, b * a + digit_value c) 0 l.

Definition hex_shifts : list Z := (λ i, 60 - 4 * Z.of_nat i) <$> seq 0 16.
Definition hex16 (v : Z) : list Z := (λ s, default 0 (digits !! Z.to_nat (nibble v s))) <$> hex_shifts.

(** ** Runs that send *)

Section sends.
Context {H : Type} `{U : Uart H}.

Definition sent (c : console H) : list Z := u_sent (hw c).

(** The line is set up for data. *)
Definition open_line (c : console H) : Prop := g_log_ready c ≠ 0 ∧ u_dlab (hw c) = false.

(** [m] returns [a] and sends [l]. *)
Definition sends {A} (m : M (console H) A) (r : res A) (l : list Z) : Prop :=
  ∀ c, open_line c → ∃ c', m (Some c) = (r, Some c') ∧ open_line c' ∧ sent c' = sent c ++ l.

Lemma sends_ret {A} (a : A) : sends (ret a) (Ok a) [].
Proof. intros c Hc. exists c. by rewrite app_nil_r. Qed.

Lemma sends_fail {A} rc : sends (fail (A := A) rc) (Err rc) [].
Proof. intros c Hc. exists c. by rewrite app_nil_r. Qed.

Lemma sends_bind {A B} (m : M (console H) A) (k : A → M (console H) B) a r l l' :
  sends m (Ok a) l → sends (k a) r l' → sends (bind m k) r (l ++ l').
Proof.
  intros Hm Hk c Hc. destruct (Hm c Hc) as (c1 & E & H1 & S1). rewrite (bind_ok _ _ _ _ _ E).
  destruct (Hk c1 H1) as (c2 & E2 & H2 & S2). exists c2. split; [done|]. split; [done|]. by rewrite S2, S1, app_assoc.
Qed.

Lemma sends_iter {A} (f : A → M (console H) unit) (g : A → list Z) l :
  (∀ x, x ∈ l → sends (f x) (Ok tt) (g x)) → sends (iterM f l) (Ok tt) (concat (g <$> l)).
Proof.
  induction l as [|x l IH]; intros Hf; [apply sends_ret|]. cbn [iterM fmap list_fmap concat]. apply (sends_bind _ _ tt).
  - apply Hf. by left.
  - apply IH. intros y Hy. apply Hf. by right.
Qed.

Lemma inb_run (c : console H) port :
  inb port (Some c) = (Ok (port_in (hw c) port).1, Some (mk_console (port_in (hw c) port).2 (g_log_ready c))).
Proof. unfold inb. rewrite (bind_ok _ _ _ c (Some c)) by done. by destruct (port_in (hw c) port). Qed.

Lemma transmit_empty_run (c : console H) :
  serial_transmit_empty (Some c) = (Ok (lsr_ready (hw c)), Some (mk_console (port_in (hw c) LSR).2 (g_log_ready c))).
Proof. unfold serial_transmit_empty. fold LSR. by rewrite (bind_ok _ _ _ _ _ (inb_run c LSR)). Qed.

Lemma wait_empty_run n k : ∀ c : console H,
  ready_in k (hw c) → (k < n)%nat → open_line c →
  ∃ c', wait_empty n (Some c) = (Ok true, Some c') ∧ open_line c' ∧ sent c' = sent c.
Proof.
  revert n. induction k as [|k IH]; intros [|n] c Hk Hn [Hr Hd]; try lia; cbn [wait_empty ready_in] in *.
  all: rewrite (bind_ok _ _ _ _ _ (transmit_empty_run c)); destruct (u_lsr (hw c)) as [E1 E2].
  - rewrite Hk. eexists. split; [done|]. unfold open_line, sent. cbn. by rewrite E1, E2.
  - destruct Hk as [-> Hk].
    destruct (IH n (mk_console (port_in (hw c) LSR).2 (g_log_ready c)) Hk ltac:(lia)) as (c' & E & Ho & Hs); [by split; [|cbn; rewrite E2]|].
    exists c'. split; [done|]. split; [done|]. rewrite Hs. unfold sent. cbn. by rewrite E1.
Qed.

Lemma send_byte_sends b : byte_ok b → sends (send_byte b) (Ok tt) [b].
Proof.
  intros Hb c Hc. destruct (u_ready (hw c)) as (k & Hk & Hr). unfold send_byte.
  destruct (wait_empty_run (Z.to_nat SERIAL_TIMEOUT_LIMIT) k c Hr ltac:(lia) Hc) as (c' & E & [Hr' Hd'] & Hs).
  rewrite (bind_ok _ _ _ _ _ E). unfold outb. rewrite (bind_ok _ _ _ c' (Some c')) by done. rewrite store_run.
  rewrite wrap_small by (unfold byte_ok in Hb; unfold fits; lia). destruct (u_data (hw c') b) as [E1 E2].
  eexists. split; [done|]. unfold open_line, sent in *. cbn. rewrite E1, E2, Hd', Hs. done.
Qed.

Lemma serial_putc_sends b : byte_ok b → sends (serial_putc b) (Ok tt) (crlf b).
Proof.
  intros Hb. unfold serial_putc, crlf. destruct (Z.eqb_spec b 10) as [->|Hne].
  - apply (sends_bind _ _ tt (Ok tt) [13] [10]); apply send_byte_sends; unfold byte_ok; lia.
  - apply (sends_bind _ _ tt (Ok tt) []); [apply sends_ret|by apply send_byte_sends].
Qed.

Lemma log_ensure_sends : sends log_ensure (Ok tt) [].
Proof.
  intros c [Hr Hd]. exists c. unfold log_ensure. rewrite (bind_ok _ _ _ c (Some c)) by done.
  rewrite (proj2 (Z.eqb_neq _ _)) by done. rewrite app_nil_r. done.
Qed.

Lemma log_putc_sends b : byte_ok b → sends (log_putc b) (Ok tt) (crlf b).
Proof. intros Hb. apply (sends_bind _ _ tt (Ok tt) []); [apply log_ensure_sends|by apply serial_putc_sends]. Qed.

Lemma log_write_sends s : bytes_ok s → sends (log_write (Some s)) (Ok tt) (text s).
Proof.
  intros Hs. apply (sends_bind _ _ tt (Ok tt) []); [apply log_ensure_sends|]. apply sends_iter. intros b Hb.
  apply serial_putc_sends. by apply (proj1 (Forall_forall _ _) Hs).
Qed.

Lemma log_writeln_sends s : bytes_ok s → sends (log_writeln (Some s)) (Ok tt) (text s ++ [13; 10]).
Proof. intros Hs. apply (sends_bind _ _ tt (Ok tt)); [by apply log_write_sends|]. by apply log_putc_sends. Qed.

Lemma digit_ok n : 0 <= n < 16 → ∃ d, digits !! Z.to_nat n = Some d ∧ byte_ok d ∧ crlf d = [d] ∧ digit_value d = n.
Proof.
  intros Hn. assert (Forall (λ n, ∃ d, digits !! Z.to_nat n = Some d ∧ byte_ok d ∧ crlf d = [d] ∧ digit_value d = n) (seqZ 0 16)) as HF.
  { vm_compute seqZ. repeat constructor; eexists; (split; [reflexivity|]); (split; [split; [discriminate|reflexivity]|]); split; reflexivity. }
  apply (proj1 (Forall_forall _ _) HF). apply elem_of_seqZ. lia.
Qed.

Lemma nibble_range v s : 0 <= nibble v s < 16.
Proof. unfold nibble. change 0x0F with (2 ^ 4 - 1). rewrite land_ones_mod by lia. apply Z.mod_pos_bound. lia. Qed.

Lemma log_hex64_sends v : sends (log_hex64 v) (Ok tt) (chars "0x" ++ hex16 v).
Proof.
  apply (sends_bind _ _ tt (Ok tt)); [by apply (log_write_sends (chars "0x")); apply (bool_decide_unpack _); vm_compute|].
  assert (hex16 v = concat ((λ s, [default 0 (digits !! Z.to_nat (nibble v s))]) <$> hex_shifts)) as ->.
  { unfold hex16. induction hex_shifts as [|s l IH]; [done|]. cbn. by f_equal. }
  apply sends_iter. intros s _. cbv beta. destruct (digit_ok (nibble v s) (nibble_range v s)) as (d & -> & Hd & Hc & _). change (default 0 (Some d)) with d.
  rewrite <-Hc. by apply log_putc_sends.
Qed.

Lemma log_kv_sends key v : bytes_ok key →
  sends (log_key_value_hex64 (Some key) v) (Ok tt) (text key ++ chars "=0x" ++ hex16 v ++ [13; 10]).
Proof.
  intros Hk. apply (sends_bind _ _ tt (Ok tt)); [by apply log_write_sends|].
  change (chars "=0x") with (text (chars "=") ++ chars "0x"). rewrite <-app_assoc.
  apply (sends_bind _ _ tt (Ok tt)); [apply log_write_sends; apply (bool_decide_unpack _); by vm_compute|].
  rewrite app_assoc. apply (sends_bind _ _ tt (Ok tt)); [apply log_hex64_sends|]. by apply log_putc_sends.
Qed.
End sends.

(** ** Reading numbers back *)

Lemma read_base_app b l l' : read_base b (l ++ l') = foldl (λ a c, b * a + digit_value c) (read_base b l) l'.
Proof. unfold read_base. by rewrite foldl_app. Qed.

Lemma nibble_div v k : 0 <= k → nibble v (4 * k) = (v / 16 ^ k) mod 16.
Proof.
  intros Hk. unfold nibble. change 0x0F with (2 ^ 4 - 1). rewrite land_ones_mod, Z.shiftr_div_pow2 by lia.
  by rewrite Z.pow_mul_r by lia.
Qed.

(** The [k] lowest hexadecimal digits, the highest first. *)
Lemma read_nibbles v k : ∀ a,
  foldl (λ a c, 16 * a + digit_value c) a ((λ i, default 0 (digits !! Z.to_nat (nibble v (4 * (Z.of_nat k - 1 - Z.of_nat i))))) <$> seq 0 k) =
  16 ^ Z.of_nat k * a + v mod 16 ^ Z.of_nat k.
Proof.
  induction k as [|k IH]; intros a.
  { cbn. rewrite Z.mod_1_r. lia. }
  cbn [seq]. rewrite <-fmap_S_seq. cbn [fmap list_fmap foldl]. rewrite <-list_fmap_compose. unfold compose.
  destruct (digit_ok (nibble v (4 * (Z.of_nat (S k) - 1 - Z.of_nat 0))) (nibble_range _ _)) as (d & -> & _ & _ & Hd).
  change (default 0 (Some d)) with d. rewrite Hd.
  rewrite (list_fmap_ext _ (λ i, default 0 (digits !! Z.to_nat (nibble v (4 * (Z.of_nat k - 1 - Z.of_nat i)))))).
  2:{ intros i j _. do 4 f_equal. lia. }
  rewrite IH. replace (4 * (Z.of_nat (S k) - 1 - Z.of_nat 0)) with (4 * Z.of_nat k) by lia. rewrite nibble_div by lia.
  rewrite Nat2Z.inj_succ, Z.pow_succ_r by lia. rewrite (Z.mul_comm 16 (16 ^ Z.of_nat k)).
  assert (0 < 16 ^ Z.of_nat k) by (apply Z.pow_pos_nonneg; lia).
  rewrite (Z.rem_mul_r v (16 ^ Z.of_nat k) 16) by lia. lia.
Qed.

Lemma hex16_read v : fits 64 v → length (hex16 v) = 16%nat ∧ read_base 16 (hex16 v) = v.
Proof.
  intros Hv. split; [done|]. unfold read_base, hex16, hex_shifts. rewrite <-list_fmap_compose. unfold compose.
  rewrite (list_fmap_ext _ (λ i, default 0 (digits !! Z.to_nat (nibble v (4 * (Z.of_nat 16 - 1 - Z.of_nat i)))))).
  2:{ intros i j _. do 4 f_equal. lia. }
  rewrite (read_nibbles v 16). rewrite Z.mul_0_r, Z.add_0_l. apply Z.mod_small. exact Hv.
Qed.

(** The decimal digits. *)
Lemma dec_loop_read n v : 0 <= v < 10 ^ Z.of_nat n →
  Forall (λ c, 48 <= c < 58) (dec_loop n v) ∧ read_base 10 (rev (dec_loop n v)) = v.
Proof.
  revert v. induction n as [|n IH]; intros v Hv; cbn [dec_loop].
  { split; [done|]. cbn. cbn in Hv. lia. }
  destruct (Z.eqb_spec v 0) as [->|Hne]; [done|]. rewrite Nat2Z.inj_succ, Z.pow_succ_r in Hv by lia.
  pose proof (Z.mod_pos_bound v 10 ltac:(lia)). pose proof (Z.div_mod v 10 ltac:(lia)).
  destruct (IH (v / 10)) as [IH1 IH2]. { split; [apply Z.div_pos; lia|]. apply Z.div_lt_upper_bound; lia. }
  split; [apply Forall_cons; split; [lia|done]|]. cbn [rev]. rewrite read_base_app, IH2. cbn [foldl].
  unfold digit_value. rewrite (proj2 (Z.ltb_lt _ _)) by lia. lia.
Qed.

Definition dec_text (v : Z) : list Z := if v =? 0 then [48] else rev (dec_loop 11 v).

Lemma dec_text_read v : fits 32 v → Forall (λ c, 48 <= c < 58) (dec_text v) ∧ read_base 10 (dec_text v) = v.
Proof.
  unfold fits, dec_text. intros Hv. destruct (Z.eqb_spec v 0) as [->|_]; [split; [by repeat constructor|done]|].
  destruct (dec_loop_read 11 v) as [H1 H2]; [lia|]. split; [by apply Forall_rev|done].
Qed.

Lemma text_plain s : Forall (λ c, c ≠ 10) s → text s = s.
Proof.
  induction 1 as [|c s Hc Hs IH]; [done|]. unfold text in *. cbn [fmap list_fmap concat]. rewrite IH. unfold crlf.
  by rewrite (proj2 (Z.eqb_neq _ _) Hc).
Qed.

Lemma chars_bytes s : bytes_ok (chars s).
Proof.
  unfold bytes_ok, chars. apply Forall_fmap, Forall_forall. intros c _. unfold byte_ok, compose.
  pose proof (Ascii.N_ascii_bounded c). lia.
Qed.

(** The transcript of a panic. *)
Definition panic_text (file : ptr (list Z)) (line : Z) (reason : ptr (list Z)) (code rflags : Z) : list Z :=
  let nl := [13; 10] in
  nl ++ chars "================ MCSOS KERNEL PANIC ================" ++ nl ++
  chars "system=MCSOS version=260502 milestone=M4" ++ nl ++
  chars "reason=" ++ text (default (chars "<null>") reason) ++ nl ++
  chars "location=" ++ text (default (chars "<unknown>") file) ++ chars ":" ++ dec_text (u32 line) ++ nl ++
  chars "panic_code=0x" ++ hex16 code ++ nl ++
  chars "rflags_before_cli=0x" ++ hex16 rflags ++ nl ++
  chars "state=halted" ++ nl ++
  chars "====================================================" ++ nl.

Ltac not_newline := apply (bool_decide_unpack _); vm_compute; exact I.

Section panic.
Context {H : Type} `{U : Uart H}.

Lemma log_dec_sends v : fits 32 v → sends (log_dec_u32 v) (Ok tt) (dec_text v).
Proof.
  intros Hv. destruct (dec_text_read v Hv) as [Hd _]. unfold log_dec_u32, dec_text in *.
  destruct (v =? 0); [by apply (log_putc_sends 48); unfold byte_ok; lia|].
  rewrite <-(text_plain (rev (dec_loop 11 v))) at 2 by (eapply Forall_impl; [exact Hd|intros c [? ?]; lia]).
  apply sends_iter. intros c Hc. apply log_putc_sends. pose proof (proj1 (Forall_forall _ _) Hd c Hc) as Hr. unfold byte_ok. cbn in Hr. lia.
Qed.

Lemma sends_then {A B} (m : M (console H) A) (k : M (console H) B) a r l l' :
  sends m (Ok a) l → sends k r l' → sends (m ;; k) r (l ++ l').
Proof. intros Hm Hk. by apply (sends_bind m (λ _, k) a). Qed.

Lemma sends_eq {A} (m : M (console H) A) r l l' : sends m r l → l = l' → sends m r l'.
Proof. by intros Hm <-. Qed.

Lemma sends_lit s : Forall (λ c, c ≠ 10) (chars s) → sends (log_write (Some (chars s))) (Ok tt) (chars s).
Proof. intros Hs. rewrite <-(text_plain (chars s)) at 2 by done. apply log_write_sends, chars_bytes. Qed.

Lemma sends_lit_ln s : Forall (λ c, c ≠ 10) (chars s) → sends (log_writeln (Some (chars s))) (Ok tt) (chars s ++ [13; 10]).
Proof. intros Hs. rewrite <-(text_plain (chars s)) at 2 by done. apply log_writeln_sends, chars_bytes. Qed.

Lemma panic_sends file line reason code rflags :
  bytes_ok (default [] file) → bytes_ok (default [] reason) →
  sends (kernel_panic_at file line reason code rflags) (Err KERNEL_PANIC) (panic_text file line reason code rflags).
Proof.
  intros Hf Hr. unfold kernel_panic_at, panic_text.
  assert (bytes_ok (default (chars "<null>") reason)) as Hr' by (destruct reason; [done|apply chars_bytes]).
  assert (bytes_ok (default (chars "<unknown>") file)) as Hf' by (destruct file; [done|apply chars_bytes]).
  change (chars "system=MCSOS version=260502 milestone=M4") with
    (chars "system=" ++ chars MCSOS_NAME ++ chars " version=" ++ chars MCSOS_VERSION ++ chars " milestone=" ++ chars MCSOS_MILESTONE).
  change (chars "panic_code=0x") with (text (chars "panic_code") ++ chars "=0x").
  change (chars "rflags_before_cli=0x") with (text (chars "rflags_before_cli") ++ chars "=0x").
  eapply sends_eq.
  - eapply sends_then; [apply (sends_lit_ln ""); constructor|].
    eapply sends_then; [apply sends_lit_ln; not_newline|].
    do 5 (eapply sends_then; [apply sends_lit; not_newline|]). eapply sends_then; [apply sends_lit_ln; not_newline|].
    eapply sends_then; [apply sends_lit; not_newline|]. eapply sends_then; [by apply log_writeln_sends|].
    eapply sends_then; [apply sends_lit; not_newline|]. eapply sends_then; [by apply log_write_sends|].
    eapply sends_then; [apply sends_lit; not_newline|]. eapply sends_then; [apply log_dec_sends, wrap_fits; lia|].
    eapply sends_then; [by apply log_putc_sends|]. do 2 (eapply sends_then; [apply log_kv_sends, chars_bytes|]).
    do 2 (eapply sends_then; [apply sends_lit_ln; not_newline|]). apply sends_fail.
  - rewrite <-!app_assoc, ?app_nil_r. reflexivity.
Qed.
End panic.

(** ** From the first use on *)

Section first_use.
Context {H : Type} `{U : Uart H}.

(** Nothing was logged yet, or the line is open. *)
Definition usable (c : console H) : Prop := g_log_ready c = 0 ∨ open_line c.

Lemma outb_run (c : console H) port v : outb port v (Some c) = (Ok tt, Some (mk_console (port_out (hw c) port v) (g_log_ready c))).
Proof. done. Qed.

Lemma log_init_run (c : console H) : ∃ c', log_init (Some c) = (Ok tt, Some c') ∧ open_line c' ∧ sent c' = sent c.
Proof.
  eexists. split; [reflexivity|]. unfold open_line, sent. cbn [hw g_log_ready].
  set (h := hw c). clearbody h. rewrite !(proj1 (u_config _ 4 _ ltac:(lia))), !(proj2 (u_config _ 4 _ ltac:(lia))).
  rewrite !(proj1 (u_config _ 2 _ ltac:(lia))), !(proj2 (u_config _ 2 _ ltac:(lia))).
  rewrite (proj1 (u_control _ _)), (proj2 (u_control _ _)). split; [by vm_compute|].
  rewrite (proj1 (u_config _ 1 _ ltac:(lia))). rewrite Z.add_0_r, (proj1 (u_data _ _)), (proj2 (u_control _ _)).
  change (Z.testbit 0x80 7) with true. cbv iota. rewrite (proj1 (u_control _ _)). apply u_config. lia.
Qed.

Lemma first_use (c : console H) : usable c →
  ∃ c', open_line c' ∧ sent c' = sent c ∧ ∀ s, log_write s (Some c) = log_write s (Some c').
Proof.
  intros [H0|Ho]; [|by exists c]. destruct (log_init_run c) as (c' & E & Ho & Hs). exists c'. split; [done|]. split; [done|].
  intros s. unfold log_write. assert (log_ensure (Some c) = (Ok tt, Some c')) as E1.
  { unfold log_ensure. rewrite (bind_ok _ _ _ c (Some c)) by done. by rewrite H0. }
  assert (log_ensure (Some c') = (Ok tt, Some c')) as E2.
  { unfold log_ensure. rewrite (bind_ok _ _ _ c' (Some c')) by done. by rewrite (proj2 (Z.eqb_neq _ _) (proj1 Ho)). }
  by rewrite (bind_ok _ _ _ _ _ E1), (bind_ok _ _ _ _ _ E2).
Qed.

(** A run that starts with [log_write] can be the first. *)
Lemma sends_first {A} (s : ptr (list Z)) (k : M (console H) A) r l c :
  sends (log_write s ;; k) r l → usable c →
  ∃ c', (log_write s ;; k) (Some c) = (r, Some c') ∧ open_line c' ∧ sent c' = sent c ++ l.
Proof.
  intros Hm Hc. destruct (first_use c Hc) as (c0 & Ho & Hs & E). destruct (Hm c0 Ho) as (c' & Er & Ho' & Hs').
  exists c'. split; [|split; [done|by rewrite Hs', Hs]]. rewrite <-Er. unfold bind. by rewrite E.
Qed.
End first_use.

(** C28: on a UART that keeps up, [log_key_value_hex64] sends the key, [=0x],
    sixteen digits and a line end, also when it is the first use of the line and
    has to set it up; reading the digits in base 16 gives the value back. *)
Theorem log_key_value_readable {H : Type} (P : Ports H) (U : Uart H) (c : console H) (key : list Z) (v : Z) :
  usable c → bytes_ok key → fits 64 v →
  ∃ c' hex, log_key_value_hex64 (Some key) v (Some c) = (Ok tt, Some c') ∧ open_line c' ∧
    sent c' = sent c ++ text key ++ chars "=0x" ++ hex ++ [13; 10] ∧ length hex = 16%nat ∧ read_base 16 hex = v.
Proof.
  intros Hc Hk Hv. destruct (sends_first _ _ _ _ c (log_kv_sends key v Hk) Hc) as (c' & E & Ho & Hs).
  exists c', (hex16 v). split; [done|]. split; [done|]. split; [done|]. by apply hex16_read.
Qed.

(** C29: [kernel_panic_at] does not return, and on a UART that keeps up it sends
    the whole report first: the reason, the place with its line number in
    decimal, the code and the flags. The decimal digits read back as the line
    number, so the eleven characters of [buf] are enough. *)
Theorem kernel_panic_report {H : Type} (P : Ports H) (U : Uart H) (c : console H) (file : ptr (list Z)) (line : Z)
    (reason : ptr (list Z)) (code rflags : Z) :
  usable c → bytes_ok (default [] file) → bytes_ok (default [] reason) → fits 31 line →
  (∃ c', kernel_panic_at file line reason code rflags (Some c) = (Err KERNEL_PANIC, Some c') ∧
    sent c' = sent c ++ panic_text file line reason code rflags) ∧ read_base 10 (dec_text (u32 line)) = line.
Proof.
  intros Hc Hf Hr Hl. split.
  - pose proof (panic_sends file line reason code rflags Hf Hr) as Hp. unfold kernel_panic_at, log_writeln at 1 in Hp.
    destruct (first_use c Hc) as (c0 & Ho & Hs & E). destruct (Hp c0 Ho) as (c' & Er & _ & Hs'). exists c'.
    split; [|by rewrite Hs', Hs]. rewrite <-Er. unfold kernel_panic_at, log_writeln at 1, bind. by rewrite E.
  - unfold fits in *. rewrite wrap_small by (unfold fits; lia). apply dec_text_read. unfold fits. lia.
Qed.

(** ** A device *)

(** Busy for one poll after each byte. *)
Record uart := mk_uart { ua_busy : bool; ua_dlab : bool; ua_sent : list Z }.

#[export] Instance uart_ports : Ports uart := {|
  port_in u port := (if (port =? LSR) && negb (ua_busy u) then 0x20 else 0,
    if port =? LSR then mk_uart false (ua_dlab u) (ua_sent u) else u);
  port_out u port v :=
    if port =? COM1_PORT then (if ua_dlab u then u else mk_uart true (ua_dlab u) (ua_sent u ++ [v]))
    else if port =? COM1_PORT + 3 then mk_uart (ua_busy u) (Z.testbit v 7) (ua_sent u)
    else u
|}.

#[export] Instance uart_ok : Uart uart.
Proof.
  refine {| u_sent := ua_sent; u_dlab := ua_dlab |}.
  - done.
  - intros [[] d s]; [by exists 1%nat|by exists 0%nat].
  - intros [b [] s] v; done.
  - done.
  - intros u i v [->|[->| ->]]; done.
Defined.

Lemma log_key_value_readable_witness :
  let c := mk_console (mk_uart false false []) 0 in
  ∃ c' hex, log_key_value_hex64 (Some (chars "ticks")) 100 (Some c) = (Ok tt, Some c') ∧ open_line c' ∧
    sent c' = sent c ++ text (chars "ticks") ++ chars "=0x" ++ hex ++ [13; 10] ∧ length hex = 16%nat ∧ read_base 16 hex = 100.
Proof.
  apply (log_key_value_readable uart_ports uart_ok (mk_console (mk_uart false false []) 0) (chars "ticks") 100).
  - by left.
  - apply chars_bytes.
  - unfold fits. lia.
Defined.

Lemma kernel_panic_report_witness :
  let c := mk_console (mk_uart false false []) 0 in
  (∃ c', kernel_panic_at (Some (chars "kmain.c")) 148 (Some (chars "failed")) 7 0x202 (Some c) = (Err KERNEL_PANIC, Some c') ∧
    sent c' = sent c ++ panic_text (Some (chars "kmain.c")) 148 (Some (chars "failed")) 7 0x202) ∧ read_base 10 (dec_text (u32 148)) = 148.
Proof.
  apply (kernel_panic_report uart_ports uart_ok (mk_console (mk_uart false false []) 0) (Some (chars "kmain.c")) 148 (Some (chars "failed")) 7 0x202).
  - by left.
  - apply chars_bytes.
  - apply chars_bytes.
  - unfold fits. lia.
Defined.

(** ** Devices that do not keep up *)

(** Any devices, with the accesses to their ports counted. *)
Record counted (H : Type) := mk_counted { dev : H; n_in : Z; n_out : Z }.
Arguments mk_counted {H}.
Arguments dev {H}.
Arguments n_in {H}.
Arguments n_out {H}.

#[export] Instance counted_ports {H} {P : Ports H} : Ports (counted H) := {|
  port_in h port := ((port_in (dev h) port).1, mk_counted (port_in (dev h) port).2 (n_in h + 1) (n_out h));
  port_out h port v := mk_counted (port_out (dev h) port v) (n_in h) (n_out h + 1)
|}.

Section bounded.
Context {H : Type} {P : Ports H}.

(** [m] returns after at most [i] port reads and [o] port writes. *)
Definition within {A} (m : M (console (counted H)) A) (i o : Z) : Prop :=
  ∀ c, ∃ a c', m (Some c) = (Ok a, Some c') ∧ n_in (hw c') <= n_in (hw c) + i ∧ n_out (hw c') <= n_out (hw c) + o.

Lemma within_bind {A B} (m : M (console (counted H)) A) (k : A → M (console (counted H)) B) i o i' o' :
  within m i o → (∀ a, within (k a) i' o') → within (bind m k) (i + i') (o + o').
Proof.
  intros Hm Hk c. destruct (Hm c) as (a & c1 & E & H1 & H2). destruct (Hk a c1) as (b & c2 & E2 & H3 & H4).
  exists b, c2. rewrite (bind_ok _ _ _ _ _ E). split; [done|lia].
Qed.

Lemma within_ret {A} (a : A) i o : 0 <= i → 0 <= o → within (ret a) i o.
Proof. intros Hi Ho c. exists a, c. split; [done|lia]. Qed.

Lemma wait_empty_within n : within (wait_empty n) (Z.of_nat n) 0.
Proof.
  induction n as [|n IH]; cbn [wait_empty]; [by apply within_ret|].
  replace (Z.of_nat (S n)) with (1 + Z.of_nat n) by lia. apply (within_bind _ _ 1 0 _ 0).
  - intros c. eexists _, _. split; [reflexivity|]. cbn. lia.
  - intros []; [apply within_ret; lia|exact IH].
Qed.

Lemma send_byte_within b : within (send_byte b) SERIAL_TIMEOUT_LIMIT 1.
Proof.
  unfold send_byte. replace SERIAL_TIMEOUT_LIMIT with (Z.of_nat (Z.to_nat SERIAL_TIMEOUT_LIMIT) + 0) at 2 by (rewrite Z2Nat.id; done).
  apply (within_bind _ _ _ 0 0 1); [apply wait_empty_within|]. intros []; [|by apply within_ret].
  intros c. eexists _, _. split; [reflexivity|]. cbn. lia.
Qed.

(** C30: whatever the devices do, [serial_write] returns: a transmitter that is
    never reported empty costs [SERIAL_TIMEOUT_LIMIT] polls for each byte, two
    bytes for a line feed, and the bytes it does not take are dropped. *)
Theorem serial_write_bounded (s : list Z) (c : console (counted H)) :
  ∃ c', serial_write (Some s) (Some c) = (Ok tt, Some c') ∧
    n_in (hw c') <= n_in (hw c) + 2 * SERIAL_TIMEOUT_LIMIT * Z.of_nat (length s) ∧
    n_out (hw c') <= n_out (hw c) + 2 * Z.of_nat (length s).
Proof.
  cbn [serial_write]. revert c. induction s as [|b s IH]; intros c; cbn [iterM length].
  { exists c. split; [done|lia]. }
  assert (within (serial_putc b) (SERIAL_TIMEOUT_LIMIT + SERIAL_TIMEOUT_LIMIT) (1 + 1)) as Hp.
  { apply within_bind; [|intros _; apply send_byte_within]. destruct (b =? 10); [apply send_byte_within|by apply within_ret]. }
  destruct (Hp c) as ([] & c1 & E & H1 & H2). rewrite (bind_ok _ _ _ _ _ E). destruct (IH c1) as (c' & E' & H3 & H4).
  exists c'. split; [done|lia].
Qed.
End bounded.
