(* ===== verification/Arch.v ===== *)
(** * Interrupts: descriptor table, entry stubs, PIC, PIT and trap dispatch
      (kernel/arch/x86_64/idt.c, isr.S, pic.c, pit.c, their headers,
       kernel/core/trap.c, and the interrupt set-up of kernel/core/kmain.c)

    Link-time addresses (the table and the entry stubs) are parameters. The
    processor is modelled as far as the stubs use it: registers, a stack of
    64-bit words with the top first, and the words an interrupt pushes. *)

From Stdlib Require Import ZArith Lia String.
From stdpp Require Import base numbers option list.
From S2P Require Import Prelude Console.

Local Open Scope Z_scope.
Local Open Scope cm_scope.

(** ** Constants *)

Definition X86_64_IDT_VECTOR_COUNT : Z := 256.
Definition X86_64_KERNEL_CODE_SELECTOR : Z := 0x28.
Definition X86_64_IDT_GATE_INTERRUPT : Z := 0x8E.
Definition X86_64_IDT_GATE_TRAP : Z := 0x8F.
Definition X86_64_PIC_MASTER_COMMAND : Z := 0x20.
Definition X86_64_PIC_MASTER_DATA : Z := 0x21.
Definition X86_64_PIC_SLAVE_COMMAND : Z := 0xA0.
Definition X86_64_PIC_SLAVE_DATA : Z := 0xA1.
Definition X86_64_PIC_MASTER_VECTOR_OFFSET : Z := 0x20.
Definition X86_64_PIC_SLAVE_VECTOR_OFFSET : Z := 0x28.
Definition X86_64_PIC_EOI : Z := 0x20.
Definition X86_64_PIT_CHANNEL0_DATA : Z := 0x40.
Definition X86_64_PIT_COMMAND : Z := 0x43.
Definition X86_64_PIT_BASE_FREQUENCY_HZ : Z := 1193182.
Definition X86_64_PIT_CMD_CH0_LOHI_MODE3_BINARY : Z := 0x36.

(** ** Structures *)

Record x86_64_idt_entry := mk_entry {
  offset_low : Z;
  selector : Z;
  ist : Z;
  type_attributes : Z;
  offset_mid : Z;
  offset_high : Z;
  reserved : Z
}.

(** What the processor reads from a gate. *)
Definition gate_handler (e : x86_64_idt_entry) : Z := offset_low e + 2 ^ 16 * offset_mid e + 2 ^ 32 * offset_high e.
Definition gate_present (e : x86_64_idt_entry) : bool := Z.testbit (type_attributes e) 7.

Record x86_64_idtr := mk_idtr { limit : Z; base : Z }.

(** The general registers, in the order of [x86_64_trap_frame_t]. *)
Record regs := mk_regs {
  r15 : Z; r14 : Z; r13 : Z; r12 : Z; r11 : Z; r10 : Z; r9 : Z; r8 : Z;
  rsi : Z; rdi : Z; rbp : Z; rdx : Z; rcx : Z; rbx : Z; rax : Z
}.

Record x86_64_trap_frame := mk_frame {
  f_regs : regs;
  f_vector : Z;
  f_error_code : Z;
  f_rip : Z;
  f_cs : Z;
  f_rflags : Z
}.

(** The frame overlaid on the words at the stack pointer. *)
Definition frame_at (stack : list Z) : option x86_64_trap_frame :=
  match stack with
  | r15 :: r14 :: r13 :: r12 :: r11 :: r10 :: r9 :: r8 :: rsi :: rdi :: rbp :: rdx :: rcx :: rbx :: rax
      :: vector :: error_code :: rip :: cs :: rflags :: _ =>
      Some (mk_frame (mk_regs r15 r14 r13 r12 r11 r10 r9 r8 rsi rdi rbp rdx rcx rbx rax) vector error_code rip cs rflags)
  | _ => None
  end.

(** ** Entry stubs (isr.S) *)

Inductive reg :=
  | RAX | RBX | RCX | RDX | RBP | RDI | RSI | R8 | R9 | R10 | R11 | R12 | R13 | R14 | R15.

Definition get (r : reg) (g : regs) : Z :=
  match r with
  | RAX => rax g | RBX => rbx g | RCX => rcx g | RDX => rdx g | RBP => rbp g | RDI => rdi g | RSI => rsi g
  | R8 => r8 g | R9 => r9 g | R10 => r10 g | R11 => r11 g | R12 => r12 g | R13 => r13 g | R14 => r14 g | R15 => r15 g
  end.

Definition set (r : reg) (v : Z) (g : regs) : regs :=
  let pick q old := match q, r with
    | RAX, RAX | RBX, RBX | RCX, RCX | RDX, RDX | RBP, RBP | RDI, RDI | RSI, RSI | R8, R8 | R9, R9 | R10, R10
    | R11, R11 | R12, R12 | R13, R13 | R14, R14 | R15, R15 => v
    | _, _ => old
    end in
  mk_regs (pick R15 (r15 g)) (pick R14 (r14 g)) (pick R13 (r13 g)) (pick R12 (r12 g)) (pick R11 (r11 g)) (pick R10 (r10 g))
    (pick R9 (r9 g)) (pick R8 (r8 g)) (pick RSI (rsi g)) (pick RDI (rdi g)) (pick RBP (rbp g)) (pick RDX (rdx g))
    (pick RCX (rcx g)) (pick RBX (rbx g)) (pick RAX (rax g)).

Inductive instr :=
  | PushImm (v : Z)
  | Push (r : reg)
  | Pop (r : reg)
  | MovRspRdi
  | CallDispatch
  | AddRsp (words : nat)
  | Iretq.

(** The stubs declared with [ISR_ERR]; the others are [ISR_NOERR]. *)
Definition isr_err : list Z := [8; 10; 11; 12; 13; 14; 17; 21; 29; 30].

Definition isr_stub (vector : Z) : list instr :=
  if bool_decide (vector ∈ isr_err) then [PushImm vector] else [PushImm 0; PushImm vector].

Definition isr_common : list instr :=
  (Push <$> [RAX; RBX; RCX; RDX; RBP; RDI; RSI; R8; R9; R10; R11; R12; R13; R14; R15]) ++
  [MovRspRdi; CallDispatch] ++
  (Pop <$> [R15; R14; R13; R12; R11; R10; R9; R8; RSI; RDI; RBP; RDX; RCX; RBX; RAX]) ++
  [AddRsp 2; Iretq].

Definition exception_names : list string :=
  ["#DE Divide Error"; "#DB Debug"; "NMI Interrupt"; "#BP Breakpoint"; "#OF Overflow"; "#BR Bound Range Exceeded";
   "#UD Invalid Opcode"; "#NM Device Not Available"; "#DF Double Fault"; "Coprocessor Segment Overrun"; "#TS Invalid TSS";
   "#NP Segment Not Present"; "#SS Stack Segment Fault"; "#GP General Protection Fault"; "#PF Page Fault"; "Reserved";
   "#MF x87 Floating-Point Exception"; "#AC Alignment Check"; "#MC Machine Check"; "#XM SIMD Floating-Point Exception";
   "#VE Virtualization Exception"; "#CP Control Protection Exception"; "Reserved"; "Reserved"; "Reserved"; "Reserved";
   "Reserved"; "Reserved"; "#HV Hypervisor Injection Exception"; "#VC VMM Communication Exception"; "#SX Security Exception";
   "Reserved"]%string.

Section arch.
Context {H : Type} `{Ports H}.

(** ** The state of the kernel *)

Record machine := mk_machine {
  con : console H;
  g_ticks : Z;
  trap_count : Z;
  idt : list x86_64_idt_entry;
  idtr : x86_64_idtr;
  cpu_idtr : option x86_64_idtr;
  rflags : Z
}.

Definition on_con {A} (m : M (console H) A) : M machine A := λ p,
  match p with
  | None => (Ub, p)
  | Some s =>
      match m (Some (con s)) with
      | (r, Some c) => (r, Some (mk_machine c (g_ticks s) (trap_count s) (idt s) (idtr s) (cpu_idtr s) (rflags s)))
      | (r, None) => (Ub, p)
      end
  end.

Definition set_ticks (t : Z) : M machine unit :=
  let* s := deref in
  store (mk_machine (con s) t (trap_count s) (idt s) (idtr s) (cpu_idtr s) (rflags s)).
Definition set_trap_count (n : Z) : M machine unit :=
  let* s := deref in
  store (mk_machine (con s) (g_ticks s) n (idt s) (idtr s) (cpu_idtr s) (rflags s)).
Definition set_idt (t : list x86_64_idt_entry) : M machine unit :=
  let* s := deref in
  store (mk_machine (con s) (g_ticks s) (trap_count s) t (idtr s) (cpu_idtr s) (rflags s)).
Definition set_idtr (d : x86_64_idtr) : M machine unit :=
  let* s := deref in
  store (mk_machine (con s) (g_ticks s) (trap_count s) (idt s) d (cpu_idtr s) (rflags s)).
Definition lidt : M machine unit :=
  let* s := deref in
  store (mk_machine (con s) (g_ticks s) (trap_count s) (idt s) (idtr s) (Some (idtr s)) (rflags s)).

Definition log_line (s : string) : M machine unit := on_con (log_writeln (Some (chars s))).
Definition log_kv (key : string) (v : Z) : M machine unit := on_con (log_key_value_hex64 (Some (chars key)) v).

(** The interrupt flag (cpu.h). *)
Definition cpu_sti : M machine unit :=
  let* s := deref in
  store (mk_machine (con s) (g_ticks s) (trap_count s) (idt s) (idtr s) (cpu_idtr s) (Z.lor (rflags s) 0x200)).
Definition cpu_cli : M machine unit :=
  let* s := deref in
  store (mk_machine (con s) (g_ticks s) (trap_count s) (idt s) (idtr s) (cpu_idtr s) (Z.ldiff (rflags s) 0x200)).

(** [KERNEL_PANIC] and [KERNEL_ASSERT] at a line of a file. *)
Definition panic_here (file : string) (line : Z) (reason : string) (code : Z) : M machine unit :=
  let* s := deref in
  cpu_cli ;;
  on_con (kernel_panic_at (Some (chars file)) line (Some (chars reason)) code (rflags s)).
Definition assert_here (file : string) (line : Z) (b : bool) (reason : string) : M machine unit :=
  if b then ret tt else panic_here file line reason 0xA55E4710.

(** ** Descriptor table (idt.c) *)

Definition x86_64_idt_set_gate (vector handler type_attributes : Z) : M machine unit :=
  let* s := deref in
  if (List.length (idt s) <=? Z.to_nat vector)%nat then ub
  else
    set_idt (<[Z.to_nat vector := mk_entry
      (Z.land handler 0xFFFF) X86_64_KERNEL_CODE_SELECTOR 0 type_attributes
      (Z.land (Z.shiftr handler 16) 0xFFFF) (Z.land (Z.shiftr handler 32) 0xFFFFFFFF) 0]> (idt s)).

Definition x86_64_idt_base_for_test : M machine Z := let* s := deref in ret (base (idtr s)).
Definition x86_64_idt_limit_for_test : M machine Z := let* s := deref in ret (limit (idtr s)).

(** [sizeof(x86_64_idt_entry_t)] and [sizeof(idt)]. *)
Definition sizeof_entry : Z := 16.
Definition sizeof_idt : Z := X86_64_IDT_VECTOR_COUNT * sizeof_entry.

Context (idt_addr : Z) (interrupt_stubs : Z → Z).

Definition gate_type (vector : Z) : Z := if vector =? 3 then X86_64_IDT_GATE_TRAP else X86_64_IDT_GATE_INTERRUPT.

Definition x86_64_idt_init : M machine unit :=
  iterM (λ i, x86_64_idt_set_gate (u8 i) 0 0) (seqZ 0 X86_64_IDT_VECTOR_COUNT) ;;
  iterM (λ vector, x86_64_idt_set_gate vector (interrupt_stubs vector) (gate_type vector)) (seqZ 0 48) ;;
  set_idtr (mk_idtr (u16 (sizeof_idt - 1)) idt_addr) ;;
  assert_here "kernel/arch/x86_64/idt.c" 42 (sizeof_entry =? 16) "assertion failed: sizeof(x86_64_idt_entry_t) == 16u" ;;
  let* s := deref in
  assert_here "kernel/arch/x86_64/idt.c" 43 (limit (idtr s) =? u16 (X86_64_IDT_VECTOR_COUNT * sizeof_entry - 1))
    "assertion failed: idtr.limit == (uint16_t)((X86_64_IDT_VECTOR_COUNT * sizeof(x86_64_idt_entry_t)) - 1u)" ;;
  lidt ;;
  log_kv "idt_base" (base (idtr s)) ;;
  log_kv "idt_limit" (limit (idtr s)) ;;
  log_line "[M4] IDT loaded".

(** ** PIC (pic.c) *)

Definition x86_64_pic_remap (master_offset slave_offset : Z) : M machine unit :=
  let* saved_master_mask := on_con (inb X86_64_PIC_MASTER_DATA) in
  let* saved_slave_mask := on_con (inb X86_64_PIC_SLAVE_DATA) in
  on_con (
    outb X86_64_PIC_MASTER_COMMAND 0x11 ;; io_wait ;;
    outb X86_64_PIC_SLAVE_COMMAND 0x11 ;; io_wait ;;
    outb X86_64_PIC_MASTER_DATA master_offset ;; io_wait ;;
    outb X86_64_PIC_SLAVE_DATA slave_offset ;; io_wait ;;
    outb X86_64_PIC_MASTER_DATA 0x04 ;; io_wait ;;
    outb X86_64_PIC_SLAVE_DATA 0x02 ;; io_wait ;;
    outb X86_64_PIC_MASTER_DATA 0x01 ;; io_wait ;;
    outb X86_64_PIC_SLAVE_DATA 0x01 ;; io_wait ;;
    outb X86_64_PIC_MASTER_DATA saved_master_mask ;;
    outb X86_64_PIC_SLAVE_DATA saved_slave_mask) ;;
  log_kv "pic_master_offset" master_offset ;;
  log_kv "pic_slave_offset" slave_offset ;;
  log_line "[M5] PIC remapped".

Definition x86_64_pic_mask_all : M machine unit :=
  on_con (outb X86_64_PIC_MASTER_DATA 0xFF ;; outb X86_64_PIC_SLAVE_DATA 0xFF).

(** The data port and the line of an IRQ. *)
Definition pic_port (irq : Z) : Z := if 8 <=? irq then X86_64_PIC_SLAVE_DATA else X86_64_PIC_MASTER_DATA.
Definition pic_line (irq : Z) : Z := if 8 <=? irq then u8 (irq - 8) else irq.

(** [1u << line] is undefined for a line of 32 or more. *)
Definition x86_64_pic_unmask_irq (irq : Z) : M machine unit :=
  let* mask := on_con (inb (pic_port irq)) in
  if 32 <=? pic_line irq then ub
  else on_con (outb (pic_port irq) (Z.land mask (u8 (wnot 32 (2 ^ pic_line irq))))).

Definition x86_64_pic_mask_irq (irq : Z) : M machine unit :=
  let* mask := on_con (inb (pic_port irq)) in
  if 32 <=? pic_line irq then ub
  else on_con (outb (pic_port irq) (u8 (Z.lor mask (u8 (2 ^ pic_line irq))))).

Definition x86_64_pic_send_eoi (irq : Z) : M machine unit :=
  on_con (if 8 <=? irq then outb X86_64_PIC_SLAVE_COMMAND X86_64_PIC_EOI else ret tt) ;;
  on_con (outb X86_64_PIC_MASTER_COMMAND X86_64_PIC_EOI).

Definition x86_64_pic_read_master_mask : M machine Z := on_con (inb X86_64_PIC_MASTER_DATA).
Definition x86_64_pic_read_slave_mask : M machine Z := on_con (inb X86_64_PIC_SLAVE_DATA).

(** ** PIT (pit.c) *)

Definition pit_divisor (hz : Z) : Z :=
  let divisor := X86_64_PIT_BASE_FREQUENCY_HZ / hz in
  let divisor := if 0xFFFF <? divisor then 0xFFFF else divisor in
  if divisor =? 0 then 1 else divisor.

(** A division by zero is undefined. *)
Definition x86_64_pit_configure_hz (hz : Z) : M machine unit :=
  if hz =? 0 then ub
  else
    let divisor := pit_divisor hz in
    on_con (
      outb X86_64_PIT_COMMAND X86_64_PIT_CMD_CH0_LOHI_MODE3_BINARY ;;
      outb X86_64_PIT_CHANNEL0_DATA (Z.land divisor 0xFF) ;;
      outb X86_64_PIT_CHANNEL0_DATA (Z.land (Z.shiftr divisor 8) 0xFF)) ;;
    log_kv "pit_hz" hz ;;
    log_kv "pit_divisor" divisor ;;
    log_line "[M5] PIT configured".

Definition x86_64_timer_ticks : M machine Z := let* s := deref in ret (g_ticks s).

Definition x86_64_timer_on_irq0 : M machine unit :=
  let* s := deref in
  set_ticks (u64 (g_ticks s + 1)) ;;
  let* s := deref in
  if g_ticks s mod 100 =? 0 then log_kv "ticks" (g_ticks s) else ret tt.

(** ** Trap dispatch (trap.c) *)

Definition trap_name (vector : Z) : string :=
  if vector <? 32 then default ""%string (exception_names !! Z.to_nat vector)
  else if vector <? 48 then "external-hardware-irq"
  else "external-or-user-defined-interrupt".

Definition log_trap_frame (frame : x86_64_trap_frame) : M machine unit :=
  log_kv "trap_vector" (f_vector frame) ;;
  log_kv "trap_error" (f_error_code frame) ;;
  log_kv "trap_rip" (f_rip frame) ;;
  log_kv "trap_cs" (f_cs frame) ;;
  log_kv "trap_rflags" (f_rflags frame) ;;
  log_kv "trap_rax" (rax (f_regs frame)) ;;
  log_kv "trap_rbx" (rbx (f_regs frame)) ;;
  log_kv "trap_rcx" (rcx (f_regs frame)) ;;
  log_kv "trap_rdx" (rdx (f_regs frame)).

Definition m4_trap_count_for_test : M machine Z := let* s := deref in ret (trap_count s).

Definition handle_irq (vector : Z) : M machine unit :=
  let irq := u8 (vector - 32) in
  (if irq =? 0 then x86_64_timer_on_irq0
   else
     on_con (log_write (Some (chars "[M5] unexpected IRQ received: "))) ;;
     log_line (trap_name vector)) ;;
  x86_64_pic_send_eoi irq.

Definition x86_64_trap_dispatch (frame : ptr x86_64_trap_frame) : M machine unit :=
  match frame with
  | None => panic_here "kernel/core/trap.c" 79 "assertion failed: frame != (x86_64_trap_frame_t *)0" 0xA55E4710
  | Some frame =>
      let* s := deref in
      set_trap_count (u64 (trap_count s + 1)) ;;
      if (32 <=? f_vector frame) && (f_vector frame <? 48) then handle_irq (f_vector frame)
      else
        on_con (log_write (Some (chars "[M4] trap dispatch: "))) ;;
        log_line (trap_name (f_vector frame)) ;;
        log_trap_frame frame ;;
        if f_vector frame =? 3 then log_line "[M4] breakpoint handled; returning with iretq"
        else panic_here "kernel/core/trap.c" 96 "unrecoverable CPU exception" (f_vector frame)
  end.

(** ** Running a stub *)

(** [stack_base] is the address above the words of the stack, and [clobber] what
    the compiled [x86_64_trap_dispatch] leaves in the registers. The result is
    the registers and the stack at [iretq]. *)
Context (stack_base : Z) (clobber : regs → regs).

Definition rsp (stack : list Z) : Z := stack_base - 8 * Z.of_nat (List.length stack).

Fixpoint exec (prog : list instr) (g : regs) (stack : list Z) : M machine (regs * list Z) :=
  match prog with
  | [] => ub
  | PushImm v :: prog => exec prog g (v :: stack)
  | Push r :: prog => exec prog g (get r g :: stack)
  | Pop r :: prog => match stack with [] => ub | w :: stack => exec prog (set r w g) stack end
  | MovRspRdi :: prog => exec prog (set RDI (rsp stack) g) stack
  | CallDispatch :: prog =>
      if negb (get RDI g =? rsp stack) then ub
      else
        match frame_at stack with
        | None => ub
        | Some frame =>
            x86_64_trap_dispatch (Some frame) ;;
            exec prog (clobber g) stack
        end
  | AddRsp n :: prog => if (List.length stack <? n)%nat then ub else exec prog g (drop n stack)
  | Iretq :: _ => ret (g, stack)
  end.

(** ** Set-up (kmain.c) *)

Context (kernel_start kernel_end : Z).

Definition kmain_c : string := "kernel/core/kmain.c".

Definition m4_selftest : M machine unit :=
  assert_here kmain_c 59 (kernel_start <? kernel_end) "assertion failed: __kernel_end > __kernel_start" ;;
  assert_here kmain_c 60 (8 =? 8) "assertion failed: sizeof(uintptr_t) == 8u" ;;
  assert_here kmain_c 61 (sizeof_entry =? 16) "assertion failed: sizeof(x86_64_idt_entry_t) == 16u" ;;
  let* b := x86_64_idt_base_for_test in
  assert_here kmain_c 62 (negb (b =? 0)) "assertion failed: x86_64_idt_base_for_test() != 0u" ;;
  let* l := x86_64_idt_limit_for_test in
  assert_here kmain_c 63 (l =? 4095) "assertion failed: x86_64_idt_limit_for_test() == 4095u" ;;
  log_line "[M4] selftest: IDT invariants passed".

Definition m5_selftest : M machine unit :=
  let* master_mask := x86_64_pic_read_master_mask in
  assert_here kmain_c 69 (Z.land master_mask 0x01 =? 0) "assertion failed: (master_mask & 0x01u) == 0u" ;;
  assert_here kmain_c 70 (Z.land master_mask 0xFE =? 0xFE) "assertion failed: (master_mask & 0xFEu) == 0xFEu" ;;
  log_line "[M5] selftest: PIC mask invariants passed".

(** The part of [kmain] that brings external interrupts up. *)
Definition interrupt_bring_up : M machine unit :=
  log_line "[M5] boot: external interrupt bring-up start" ;;
  x86_64_pic_remap X86_64_PIC_MASTER_VECTOR_OFFSET X86_64_PIC_SLAVE_VECTOR_OFFSET ;;
  x86_64_pic_mask_all ;;
  x86_64_pic_unmask_irq 0 ;;
  m5_selftest ;;
  x86_64_pit_configure_hz 100 ;;
  log_line "[M5] sti: enabling interrupts" ;;
  cpu_sti ;;
  log_line "[M4] IDT and exception dispatch path installed" ;;
  log_line "[M5] ready for QEMU smoke test and GDB audit".
End arch.
Arguments machine : clear implicits.
