(* ===== verification/ArchSpec.v ===== *)
(** * Interrupts: from the entry stub to the end of interrupt *)

From Stdlib Require Import ZArith Lia String.
From stdpp Require Import base numbers option list.
From S2P Require Import Prelude Console Arch.

Local Open Scope Z_scope.
Local Open Scope cm_scope.

(** ** Devices *)

(** An 8259 interrupt controller: the initialisation words it still expects,
    what they set, the mask and the lines in service. *)
Inductive icw := ICW2 | ICW3 | ICW4.

Record chip := mk_chip {
  ch_expect : list icw;
  ch_offset : Z;
  ch_cascade : Z;
  ch_mode : Z;
  ch_imr : Z;
  ch_isr : Z
}.

(** The lowest line in service, which the non-specific end of interrupt ends. *)
Definition end_lowest (isr : Z) : Z :=
  match find_z (Z.testbit isr) 0 8 with Some i => Z.clearbit isr i | None => isr end.

(** A write to the command port: ICW1 starts the initialisation and clears the
    mask, 0x20 is the non-specific end of interrupt. *)
Definition chip_cmd (ch : chip) (v : Z) : chip :=
  if Z.testbit v 4 then
    mk_chip (ICW2 :: (if Z.testbit v 1 then [] else [ICW3]) ++ (if Z.testbit v 0 then [ICW4] else []))
      (ch_offset ch) (ch_cascade ch) 0 0 0
  else if v =? 0x20 then
    mk_chip (ch_expect ch) (ch_offset ch) (ch_cascade ch) (ch_mode ch) (ch_imr ch) (end_lowest (ch_isr ch))
  else ch.

(** A write to the data port: the next initialisation word, or the mask. *)
Definition chip_data (ch : chip) (v : Z) : chip :=
  match ch_expect ch with
  | [] => mk_chip [] (ch_offset ch) (ch_cascade ch) (ch_mode ch) v (ch_isr ch)
  | ICW2 :: e => mk_chip e v (ch_cascade ch) (ch_mode ch) (ch_imr ch) (ch_isr ch)
  | ICW3 :: e => mk_chip e (ch_offset ch) v (ch_mode ch) (ch_imr ch) (ch_isr ch)
  | ICW4 :: e => mk_chip e (ch_offset ch) (ch_cascade ch) v (ch_imr ch) (ch_isr ch)
  end.

Definition cmd_port (slave : bool) : Z := if slave then X86_64_PIC_SLAVE_COMMAND else X86_64_PIC_MASTER_COMMAND.
Definition data_port (slave : bool) : Z := if slave then X86_64_PIC_SLAVE_DATA else X86_64_PIC_MASTER_DATA.

(** What the code relies on of the two controllers. *)
Class Pic (H : Type) {P : Ports H} := {
  pic : H → bool → chip;
  pic_out h p v x : pic (port_out h p v) x =
    if p =? cmd_port x then chip_cmd (pic h x) v else if p =? data_port x then chip_data (pic h x) v else pic h x;
  pic_in h p x : pic (port_in h p).2 x = pic h x;
  pic_read h x : ch_expect (pic h x) = [] → (port_in h (data_port x)).1 = ch_imr (pic h x)
}.

(** Channel 0 of an 8254 timer: the bytes still expected and the count. *)
Record channel := mk_channel { pt_control : Z; pt_low : option Z; pt_count : option Z }.

Definition pit_write (t : channel) (p v : Z) : channel :=
  if p =? X86_64_PIT_COMMAND then mk_channel v None None
  else if p =? X86_64_PIT_CHANNEL0_DATA then
    match pt_low t with
    | None => mk_channel (pt_control t) (Some v) (pt_count t)
    | Some lo => mk_channel (pt_control t) None (Some (lo + 256 * v))
    end
  else t.

Class Pit (H : Type) {P : Ports H} := {
  pit : H → channel;
  pit_out h p v : pit (port_out h p v) = pit_write (pit h) p v;
  pit_in h p : pit (port_in h p).2 = pit h
}.

(** ** Logging leaves the controllers alone *)

Section quiet.
Context {H : Type} {P : Ports H} (I : H → Prop).

(** The serial line's ports. *)
Definition com (p : Z) : Prop := COM1_PORT <= p <= COM1_PORT + 5.

Context (I_in : ∀ h p, com p → I h → I (port_in h p).2) (I_out : ∀ h p v, com p → I h → I (port_out h p v)).

(** [m] returns and keeps [I]. *)
Definition quiet {A} (m : M (console H) A) : Prop :=
  ∀ c, I (hw c) → ∃ a c', m (Some c) = (Ok a, Some c') ∧ I (hw c').

Lemma quiet_ret {A} (a : A) : quiet (ret a).
Proof. intros c Hc. by exists a, c. Qed.

Lemma quiet_bind {A B} (m : M (console H) A) (k : A → M (console H) B) : quiet m → (∀ a, quiet (k a)) → quiet (bind m k).
Proof. intros Hm Hk c Hc. destruct (Hm c Hc) as (a & c1 & E & H1). rewrite (bind_ok _ _ _ _ _ E). by apply Hk. Qed.

Lemma quiet_iter {A} (f : A → M (console H) unit) l : (∀ x, quiet (f x)) → quiet (iterM f l).
Proof. intros Hf. induction l as [|x l IH]; [apply quiet_ret|]. by apply quiet_bind. Qed.

Lemma quiet_outb p v : com p → quiet (outb p v).
Proof. intros Hp c Hc. eexists _, _. split; [reflexivity|]. by apply I_out. Qed.

Lemma quiet_inb p : com p → quiet (inb p).
Proof.
  intros Hp c Hc. unfold inb. rewrite (bind_ok _ _ _ c (Some c)) by done. destruct (port_in (hw c) p) as [v h] eqn:E.
  eexists _, _. split; [reflexivity|]. cbn. change h with ((v, h).2). rewrite <-E. by apply I_in.
Qed.

Lemma quiet_init : quiet log_init.
Proof using I_out.
  assert (∀ i v, 0 <= i <= 5 → quiet (outb (COM1_PORT + i) v)) as Ho by (intros i v Hi; apply quiet_outb; unfold com; lia).
  unfold log_init, serial_init. repeat first [apply quiet_bind; [|intros _]|apply Ho; lia].
  intros c Hc. by eexists _, _.
Qed.

Lemma quiet_ensure : quiet log_ensure.
Proof using I_out. intros c Hc. unfold log_ensure. rewrite (bind_ok _ _ _ c (Some c)) by done. destruct (g_log_ready c =? 0); [by apply quiet_init|by apply quiet_ret]. Qed.

Lemma quiet_wait n : quiet (wait_empty n).
Proof using I_in.
  induction n as [|n IH]; cbn [wait_empty]; [apply quiet_ret|]. apply quiet_bind; [|intros []; [apply quiet_ret|exact IH]].
  apply quiet_bind; [apply quiet_inb; unfold com; lia|]. intros v. apply quiet_ret.
Qed.

Lemma quiet_putc b : quiet (serial_putc b).
Proof using I_in I_out.
  assert (∀ b, quiet (send_byte b)) as Hs.
  { intros b'. apply quiet_bind; [apply quiet_wait|]. intros []; [apply quiet_outb; unfold com; lia|apply quiet_ret]. }
  apply quiet_bind; [destruct (b =? 10); [apply Hs|apply quiet_ret]|]. intros _. apply Hs.
Qed.

Lemma quiet_log_putc b : quiet (log_putc b).
Proof using I_in I_out. apply quiet_bind; [apply quiet_ensure|]. intros _. apply quiet_putc. Qed.

Lemma quiet_log_write s : quiet (log_write s).
Proof using I_in I_out.
  apply quiet_bind; [apply quiet_ensure|]. intros _. destruct s as [s|]; [apply quiet_iter, quiet_putc|apply quiet_ret].
Qed.

Lemma quiet_log_writeln s : quiet (log_writeln s).
Proof using I_in I_out. apply quiet_bind; [apply quiet_log_write|]. intros _. apply quiet_log_putc. Qed.

Lemma quiet_hex v : quiet (log_hex64 v).
Proof using I_in I_out. apply quiet_bind; [apply quiet_log_write|]. intros _. apply quiet_iter. intros s. apply quiet_log_putc. Qed.

Lemma quiet_kv key v : quiet (log_key_value_hex64 key v).
Proof using I_in I_out.
  apply quiet_bind; [apply quiet_log_write|]. intros _. apply quiet_bind; [apply quiet_log_write|]. intros _.
  apply quiet_bind; [apply quiet_hex|]. intros _. apply quiet_log_putc.
Qed.
End quiet.

(** ** The kernel's state *)

Section machine.
Context {H : Type} {P : Ports H} {PIC : Pic H} {PIT : Pit H}.

Definition with_con (s : machine H) (c : console H) : machine H :=
  mk_machine c (g_ticks s) (trap_count s) (idt s) (idtr s) (cpu_idtr s) (rflags s).

(** The same controllers and timer. *)
Definition same_dev (h h' : H) : Prop := (∀ x, pic h x = pic h' x) ∧ pit h = pit h'.

Lemma same_dev_refl h : same_dev h h.
Proof. done. Qed.

Lemma com_in h0 h p : com p → same_dev h h0 → same_dev (port_in h p).2 h0.
Proof. intros _ [H1 H2]. split; [intros x; by rewrite pic_in|by rewrite pit_in]. Qed.

Lemma com_out h0 h p v : com p → same_dev h h0 → same_dev (port_out h p v) h0.
Proof.
  unfold com, COM1_PORT. intros Hp [H1 H2]. split.
  - intros x. rewrite pic_out, <-H1. destruct x; cbn [cmd_port data_port];
      unfold X86_64_PIC_SLAVE_COMMAND, X86_64_PIC_SLAVE_DATA, X86_64_PIC_MASTER_COMMAND, X86_64_PIC_MASTER_DATA;
      by rewrite !(proj2 (Z.eqb_neq p _)) by lia.
  - rewrite pit_out, <-H2. unfold pit_write, X86_64_PIT_COMMAND, X86_64_PIT_CHANNEL0_DATA. by rewrite !(proj2 (Z.eqb_neq p _)) by lia.
Qed.

Lemma quiet_run {A} (m : M (console H) A) (s : machine H) :
  (∀ I, (∀ h p, com p → I h → I (port_in h p).2) → (∀ h p v, com p → I h → I (port_out h p v)) → quiet I m) →
  ∃ a c, on_con m (Some s) = (Ok a, Some (with_con s c)) ∧ same_dev (hw c) (hw (con s)).
Proof.
  intros Hq. destruct (Hq (λ h, same_dev h (hw (con s))) (com_in _) (com_out _) (con s) (same_dev_refl _)) as (a & c & E & Hd).
  exists a, c. split; [|done]. unfold on_con. by rewrite E.
Qed.

Lemma log_line_run t (s : machine H) : ∃ c, log_line t (Some s) = (Ok tt, Some (with_con s c)) ∧ same_dev (hw c) (hw (con s)).
Proof. destruct (quiet_run (log_writeln (Some (chars t))) s) as ([] & c & E & Hd); [by intros; apply quiet_log_writeln|]. by exists c. Qed.

Lemma log_kv_run k v (s : machine H) : ∃ c, log_kv k v (Some s) = (Ok tt, Some (with_con s c)) ∧ same_dev (hw c) (hw (con s)).
Proof. destruct (quiet_run (log_key_value_hex64 (Some (chars k)) v) s) as ([] & c & E & Hd); [by intros; apply quiet_kv|]. by exists c. Qed.

Lemma log_text_run t (s : machine H) : ∃ c, on_con (log_write (Some (chars t))) (Some s) = (Ok tt, Some (with_con s c)) ∧ same_dev (hw c) (hw (con s)).
Proof. destruct (quiet_run (log_write (Some (chars t))) s) as ([] & c & E & Hd); [by intros; apply quiet_log_write|]. by exists c. Qed.

(** [m] changes nothing but the console, whose devices stay as they are. *)
Definition silent_at (m : M (machine H) unit) (s : machine H) : Prop :=
  ∃ c, m (Some s) = (Ok tt, Some (with_con s c)) ∧ same_dev (hw c) (hw (con s)).
Definition silent (m : M (machine H) unit) : Prop :=
  ∀ s, silent_at m s.

Lemma silent_then m k : silent m → silent k → silent (m ;; k).
Proof.
  intros Hm Hk s. destruct (Hm s) as (c & E & [D1 D2]). unfold silent_at. rewrite (bind_ok _ _ _ _ _ E). destruct (Hk (with_con s c)) as (c' & E' & [D1' D2']).
  exists c'. split; [done|]. split; [intros x; by rewrite D1', <-D1|by rewrite D2', <-D2].
Qed.

Lemma panic_run file line reason code (s : machine H) : ∃ s', panic_here file line reason code (Some s) = (Err KERNEL_PANIC, Some s').
Proof.
  unfold panic_here. rewrite (bind_ok _ _ _ s (Some s)) by done.
  assert (∀ A (m : M (console H) A) k, quiet (λ _, True) m → (∀ c, ∃ c', k (Some c) = (Err KERNEL_PANIC, Some c')) →
    ∀ c, ∃ c' : console H, (m ;; k : M (console H) unit) (Some c) = (Err KERNEL_PANIC, Some c')) as Hb.
  { intros A m k Hm Hk c. destruct (Hm c I) as (a & c1 & E & _). rewrite (bind_ok _ _ _ _ _ E). apply Hk. }
  assert (∀ c, ∃ c', kernel_panic_at (Some (chars file)) line (Some (chars reason)) code (rflags s) (Some c) = (Err KERNEL_PANIC, Some c')) as Hp.
  { unfold kernel_panic_at.
    repeat first [apply Hb; [first [by apply quiet_log_writeln|by apply quiet_log_write|by apply quiet_kv|by apply quiet_log_putc|
      unfold log_dec_u32; destruct (_ =? 0); [by apply quiet_log_putc|by apply quiet_iter; intros; apply quiet_log_putc]]|]].
    intros c. by exists c. }
  destruct (Hp (con s)) as (c' & E). eexists. rewrite (bind_ok _ _ _ tt _) by done. unfold on_con. cbn [con]. by rewrite E.
Qed.
End machine.

(** ** The descriptor table *)

Definition gate (handler ty : Z) : x86_64_idt_entry :=
  mk_entry (Z.land handler 0xFFFF) X86_64_KERNEL_CODE_SELECTOR 0 ty
    (Z.land (Z.shiftr handler 16) 0xFFFF) (Z.land (Z.shiftr handler 32) 0xFFFFFFFF) 0.

Lemma gate_handler_eq handler ty : fits 64 handler → gate_handler (gate handler ty) = handler.
Proof.
  unfold fits. intros Hh. unfold gate_handler, gate. cbn [offset_low offset_mid offset_high].
  change 0xFFFF with (2 ^ 16 - 1). change 0xFFFFFFFF with (2 ^ 32 - 1). rewrite !land_ones_mod, !Z.shiftr_div_pow2 by lia.
  rewrite (Z.mod_small (handler / 2 ^ 32)) by (split; [apply Z.div_pos; lia|apply Z.div_lt_upper_bound; lia]).
  change (2 ^ 32) with (2 ^ 16 * 2 ^ 16). rewrite <-Z.div_div by lia.
  pose proof (Z.div_mod handler (2 ^ 16) ltac:(lia)). pose proof (Z.div_mod (handler / 2 ^ 16) (2 ^ 16) ltac:(lia)). lia.
Qed.

Section idt.
Context {H : Type} {P : Ports H}.

Definition with_idt (s : machine H) (t : list x86_64_idt_entry) : machine H :=
  mk_machine (con s) (g_ticks s) (trap_count s) t (idtr s) (cpu_idtr s) (rflags s).

Lemma gates_run (h ty : Z → Z) n : ∀ a (s : machine H),
  length (idt s) = 256%nat → 0 <= a → a + Z.of_nat n <= 256 →
  ∃ t, iterM (λ i, x86_64_idt_set_gate i (h i) (ty i)) (seqZ a (Z.of_nat n)) (Some s) = (Ok tt, Some (with_idt s t)) ∧
    length t = 256%nat ∧
    ∀ v, 0 <= v → t !! Z.to_nat v = if (a <=? v) && (v <? a + Z.of_nat n) then Some (gate (h v) (ty v)) else idt s !! Z.to_nat v.
Proof.
  induction n as [|n IH]; intros a s Hl Ha Hn.
  { exists (idt s). split; [by destruct s|]. split; [done|]. intros v Hv.
    destruct (Z.leb_spec a v), (Z.ltb_spec v (a + Z.of_nat 0)); try done; lia. }
  rewrite seqZ_cons by lia. cbn [iterM]. replace (Z.pred (Z.of_nat (S n))) with (Z.of_nat n) by lia.
  rewrite (bind_ok _ _ _ tt (Some (with_idt s (<[Z.to_nat a := gate (h a) (ty a)]> (idt s))))).
  2:{ unfold x86_64_idt_set_gate. rewrite (bind_ok _ _ _ s (Some s)) by done. by rewrite (proj2 (Nat.leb_gt _ _)) by lia. }
  destruct (IH (Z.succ a) (with_idt s (<[Z.to_nat a := gate (h a) (ty a)]> (idt s)))) as (t & E & Ht & Hlook); [cbn; by rewrite length_insert|lia|lia|].
  exists t. split; [done|]. split; [done|]. intros v Hv. rewrite Hlook by done. cbn [idt with_idt].
  destruct (decide (v = a)) as [->|Hne].
  - rewrite (proj2 (Z.leb_gt (Z.succ a) a)) by lia. cbn [andb]. rewrite list_lookup_insert_eq by lia.
    by rewrite (proj2 (Z.leb_le a a)), (proj2 (Z.ltb_lt a (a + Z.of_nat (S n)))) by lia.
  - rewrite list_lookup_insert_ne by lia.
    destruct (Z.leb_spec (Z.succ a) v), (Z.leb_spec a v), (Z.ltb_spec v (Z.succ a + Z.of_nat n)), (Z.ltb_spec v (a + Z.of_nat (S n))); try done; lia.
Qed.
End idt.

Section idt_init.
Context {H : Type} {P : Ports H} {PIC : Pic H} {PIT : Pit H}.

(** C21: [x86_64_idt_init] returns with the table loaded into the processor: its
    limit covers the 256 gates, gates 0 to 47 are present and lead to their
    entry stubs when the processor puts the three parts of the offset together
    (vector 3 as a trap gate, the others as interrupt gates), and no other gate
    is present. *)
Theorem idt_installed (idt_addr : Z) (stubs : Z → Z) (s : machine H) :
  length (idt s) = 256%nat → (∀ v, fits 64 (stubs v)) →
  ∃ s', x86_64_idt_init idt_addr stubs (Some s) = (Ok tt, Some s') ∧
    cpu_idtr s' = Some (mk_idtr (256 * 16 - 1) idt_addr) ∧ length (idt s') = 256%nat ∧
    ∀ v, 0 <= v < 256 → ∃ e, idt s' !! Z.to_nat v = Some e ∧ gate_present e = (v <? 48) ∧
      (v < 48 → gate_handler e = stubs v ∧ selector e = 0x28 ∧ type_attributes e = if v =? 3 then 0x8F else 0x8E).
Proof.
  intros Hl Hs. unfold x86_64_idt_init.
  destruct (gates_run (λ _, 0) (λ _, 0) 256 0 s Hl ltac:(lia) ltac:(lia)) as (t0 & E0 & L0 & K0).
  rewrite (bind_ok _ _ _ tt (Some (with_idt s t0))).
  2:{ rewrite <-E0. apply iterM_ext_in. intros i q Hi%elem_of_seqZ. unfold X86_64_IDT_VECTOR_COUNT in Hi.
      by rewrite wrap_small by (unfold fits; lia). }
  destruct (gates_run stubs gate_type 48 0 (with_idt s t0) L0 ltac:(lia) ltac:(lia)) as (t1 & E1 & L1 & K1).
  rewrite (bind_ok _ _ _ _ _ E1). set (s1 := with_idt (with_idt s t0) t1).
  set (s2 := mk_machine (con s1) (g_ticks s1) (trap_count s1) (idt s1) (mk_idtr (u16 (sizeof_idt - 1)) idt_addr) (cpu_idtr s1) (rflags s1)).
  rewrite (bind_ok _ _ _ tt (Some s2)) by done. rewrite (bind_ok _ _ _ tt (Some s2)) by done.
  rewrite (bind_ok _ _ _ s2 (Some s2)) by done. rewrite (bind_ok _ _ _ tt (Some s2)) by done.
  set (s3 := mk_machine (con s2) (g_ticks s2) (trap_count s2) (idt s2) (idtr s2) (Some (idtr s2)) (rflags s2)).
  rewrite (bind_ok _ _ _ tt (Some s3)) by done.
  destruct (silent_then _ _ (log_kv_run "idt_base" (base (idtr s2))) (silent_then _ _ (log_kv_run "idt_limit" (limit (idtr s2)))
    (log_line_run "[M4] IDT loaded")) s3) as (c & E & _).
  exists (with_con s3 c). split; [done|]. split; [done|]. split; [done|]. intros v Hv.
  change (idt (with_con s3 c)) with t1. rewrite K1 by lia. destruct (Z.ltb_spec v 48) as [Hlt|Hge].
  - rewrite (proj2 (Z.leb_le 0 v)), (proj2 (Z.ltb_lt v (0 + Z.of_nat 48))) by lia. cbn [andb]. eexists. split; [done|]. split.
    + unfold gate_present, gate_type. cbn [type_attributes gate]. by destruct (v =? 3).
    + intros _. split; [by apply gate_handler_eq|]. split; [done|]. unfold gate_type. cbn [type_attributes gate]. by destruct (v =? 3).
  - rewrite (proj2 (Z.ltb_ge v (0 + Z.of_nat 48))), andb_false_r by lia. cbn [idt with_idt]. rewrite K0 by lia.
    rewrite (proj2 (Z.leb_le 0 v)), (proj2 (Z.ltb_lt v (0 + Z.of_nat 256))) by lia. cbn [andb]. eexists. split; [done|]. split; [done|lia].
Qed.
End idt_init.

(** ** Serving an interrupt *)

(** The exceptions for which the processor pushes an error code. *)
Definition cpu_pushes_error (v : Z) : bool := bool_decide (v ∈ [8; 10; 11; 12; 13; 14; 17; 21; 29; 30]).

(** The stack when the stub starts. *)
Definition entry_stack (v err rip cs fl : Z) (rest : list Z) : list Z :=
  (if cpu_pushes_error v then [err] else []) ++ rip :: cs :: fl :: rest.

Definition the_frame (g : regs) (v err rip cs fl : Z) : x86_64_trap_frame :=
  mk_frame g v (if cpu_pushes_error v then err else 0) rip cs fl.

Section isr.
Context {H : Type} {P : Ports H} (stack_base : Z) (clobber : regs → regs).

Lemma common_run g v e rip cs fl rest (s : machine H) :
  exec stack_base clobber isr_common g (v :: e :: rip :: cs :: fl :: rest) (Some s) =
  bind (x86_64_trap_dispatch (Some (mk_frame g v e rip cs fl))) (λ _, ret (g, rip :: cs :: fl :: rest)) (Some s).
Proof.
  destruct g. cbn. rewrite Z.eqb_refl. cbn. reflexivity.
Qed.

(** The stub calls the dispatcher with the interrupted registers and returns
    them. *)
Lemma stub_run g v err rip cs fl rest (s : machine H) :
  exec stack_base clobber (isr_stub v ++ isr_common) g (entry_stack v err rip cs fl rest) (Some s) =
  bind (x86_64_trap_dispatch (Some (the_frame g v err rip cs fl))) (λ _, ret (g, rip :: cs :: fl :: rest)) (Some s).
Proof.
  unfold isr_stub, entry_stack, the_frame, cpu_pushes_error. change isr_err with [8; 10; 11; 12; 13; 14; 17; 21; 29; 30].
  destruct (bool_decide _); apply common_run.
Qed.
End isr.

Section serve.
Context {H : Type} {P : Ports H} {PIC : Pic H} {PIT : Pit H}.

(** Exactly the line of [irq] is in service, through the cascade from 8 on. *)
Definition serving (h : H) (irq : Z) : Prop :=
  ch_isr (pic h false) = (if 8 <=? irq then 2 ^ 2 else 2 ^ irq) ∧ ch_isr (pic h true) = if 8 <=? irq then 2 ^ (irq - 8) else 0.

Definition idle (ch : chip) : chip := mk_chip (ch_expect ch) (ch_offset ch) (ch_cascade ch) (ch_mode ch) (ch_imr ch) 0.

Lemma end_lowest_one k : 0 <= k < 8 → end_lowest (2 ^ k) = 0.
Proof.
  intros Hk. assert (Forall (λ k, end_lowest (2 ^ k) = 0) (seqZ 0 8)) as HF by (apply (bool_decide_unpack _); by vm_compute).
  apply (proj1 (Forall_forall _ _) HF). apply elem_of_seqZ. lia.
Qed.

Lemma eoi_chip ch k : 0 <= k < 8 → ch_isr ch = 2 ^ k → chip_cmd ch X86_64_PIC_EOI = idle ch.
Proof. intros Hk E. unfold chip_cmd. change (Z.testbit X86_64_PIC_EOI 4) with false. cbn. by rewrite E, end_lowest_one. Qed.

Lemma pic_out_cmd h y v x : pic (port_out h (cmd_port y) v) x = if Bool.eqb y x then chip_cmd (pic h x) v else pic h x.
Proof. rewrite pic_out. by destruct x, y. Qed.

Lemma pic_out_data h y v x : pic (port_out h (data_port y) v) x = if Bool.eqb y x then chip_data (pic h x) v else pic h x.
Proof. rewrite pic_out. by destruct x, y. Qed.

Lemma send_eoi_run irq (s : machine H) : 0 <= irq < 16 → serving (hw (con s)) irq →
  ∃ c, x86_64_pic_send_eoi irq (Some s) = (Ok tt, Some (with_con s c)) ∧ (∀ x, pic (hw c) x = idle (pic (hw (con s)) x)).
Proof.
  intros Hi [Hm Hs]. unfold x86_64_pic_send_eoi. change X86_64_PIC_SLAVE_COMMAND with (cmd_port true). change X86_64_PIC_MASTER_COMMAND with (cmd_port false).
  destruct (Z.leb_spec 8 irq) as [Hge|Hlt].
  - eexists. split; [reflexivity|]. cbn [hw con]. intros [|]; rewrite !pic_out_cmd; cbn [Bool.eqb].
    + by apply (eoi_chip _ (irq - 8)); [lia|].
    + apply (eoi_chip _ 2); [lia|done].
  - eexists. split; [reflexivity|]. cbn [hw con]. intros [|]; rewrite !pic_out_cmd; cbn [Bool.eqb].
    + destruct (pic (hw (con s)) true). cbn in Hs. unfold idle. cbn. by rewrite Hs.
    + apply (eoi_chip _ irq); [lia|done].
Qed.

Definition counted_trap (s s' : machine H) : Prop :=
  trap_count s' = u64 (trap_count s + 1) ∧ idt s' = idt s ∧ idtr s' = idtr s ∧ cpu_idtr s' = cpu_idtr s.

Lemma timer_run (s : machine H) :
  ∃ c, x86_64_timer_on_irq0 (Some s) =
    (Ok tt, Some (mk_machine c (u64 (g_ticks s + 1)) (trap_count s) (idt s) (idtr s) (cpu_idtr s) (rflags s))) ∧
    same_dev (hw c) (hw (con s)).
Proof.
  unfold x86_64_timer_on_irq0. rewrite (bind_ok _ _ _ s (Some s)) by done.
  set (s1 := mk_machine (con s) (u64 (g_ticks s + 1)) (trap_count s) (idt s) (idtr s) (cpu_idtr s) (rflags s)).
  rewrite (bind_ok _ _ _ tt (Some s1)) by done. rewrite (bind_ok _ _ _ s1 (Some s1)) by done.
  destruct (g_ticks s1 mod 100 =? 0); [by apply (log_kv_run "ticks" (g_ticks s1) s1)|by exists (con s)].
Qed.

Lemma handle_irq_run v (s : machine H) : 32 <= v < 48 → serving (hw (con s)) (v - 32) →
  ∃ c, handle_irq v (Some s) = (Ok tt, Some (mk_machine c (if v =? 32 then u64 (g_ticks s + 1) else g_ticks s) (trap_count s) (idt s)
      (idtr s) (cpu_idtr s) (rflags s))) ∧ (∀ x, pic (hw c) x = idle (pic (hw (con s)) x)).
Proof.
  intros Hv Hserv. unfold handle_irq. rewrite wrap_small by (unfold fits; lia).
  assert (∃ c, (if v - 32 =? 0 then x86_64_timer_on_irq0
     else on_con (log_write (Some (chars "[M5] unexpected IRQ received: "))) ;; log_line (trap_name v)) (Some s) =
    (Ok tt, Some (mk_machine c (if v =? 32 then u64 (g_ticks s + 1) else g_ticks s) (trap_count s) (idt s) (idtr s) (cpu_idtr s) (rflags s))) ∧
    same_dev (hw c) (hw (con s))) as (c & E & [Hd _]).
  { destruct (Z.eqb_spec (v - 32) 0) as [E|E].
    - rewrite (proj2 (Z.eqb_eq v 32)) by lia. apply timer_run.
    - rewrite (proj2 (Z.eqb_neq v 32)) by lia. apply (silent_then _ _ (log_text_run _) (log_line_run _) s). }
  rewrite (bind_ok _ _ _ _ _ E). set (s1 := mk_machine c _ _ _ _ _ _).
  destruct (send_eoi_run (v - 32) s1) as (c' & E' & Hi); [lia| |].
  { unfold serving in *. cbn [con]. by rewrite !Hd. }
  exists c'. split; [done|]. intros x. rewrite Hi. cbn [con s1]. by rewrite Hd.
Qed.

Lemma log_frame_silent f : silent (log_trap_frame f).
Proof. unfold log_trap_frame. repeat first [apply silent_then; [exact (log_kv_run _ _)|]|exact (log_kv_run _ _)]. Qed.

(** C12: an interrupt or exception with vector 0 to 47, taken with any registers
    and stack. The entry stub hands the dispatcher a frame with exactly the
    interrupted registers, the vector, the error code (0 when the processor
    pushes none) and the return words. A hardware interrupt is counted, ticks
    the clock exactly when it is the timer's, ends in service at the
    controllers that serve it and nowhere else, and resumes with the registers
    and the stack restored, whatever the compiled dispatcher leaves in the
    registers. A breakpoint resumes in the same way; any other exception stops
    in a panic. *)
Theorem interrupt_served (stack_base : Z) (clobber : regs → regs) (g : regs) (v err rip cs fl : Z) (rest : list Z) (s : machine H) :
  0 <= v < 48 →
  let run := exec stack_base clobber (isr_stub v ++ isr_common) g (entry_stack v err rip cs fl rest) (Some s) in
  let resumed s' := run = (Ok (g, rip :: cs :: fl :: rest), Some s') ∧ counted_trap s s' in
  run = bind (x86_64_trap_dispatch (Some (the_frame g v err rip cs fl))) (λ _, ret (g, rip :: cs :: fl :: rest)) (Some s) ∧
  if 32 <=? v then
    serving (hw (con s)) (v - 32) →
    ∃ s', resumed s' ∧ g_ticks s' = (if v =? 32 then u64 (g_ticks s + 1) else g_ticks s) ∧
      ∀ x, pic (hw (con s')) x = idle (pic (hw (con s)) x)
  else if v =? 3 then ∃ s', resumed s' ∧ g_ticks s' = g_ticks s ∧ same_dev (hw (con s')) (hw (con s))
  else ∃ s', run = (Err KERNEL_PANIC, Some s').
Proof.
  intros Hv run resumed. subst run resumed. cbv beta. rewrite stub_run. split; [done|]. set (f := the_frame g v err rip cs fl).
  set (s1 := mk_machine (con s) (g_ticks s) (u64 (trap_count s + 1)) (idt s) (idtr s) (cpu_idtr s) (rflags s)).
  assert (x86_64_trap_dispatch (Some f) (Some s) =
    (if (32 <=? v) && (v <? 48) then handle_irq v
     else
       (on_con (log_write (Some (chars "[M4] trap dispatch: "))) ;; log_line (trap_name v) ;; log_trap_frame f ;;
        if v =? 3 then log_line "[M4] breakpoint handled; returning with iretq"
        else panic_here "kernel/core/trap.c" 96 "unrecoverable CPU exception" v)) (Some s1)) as Ed by reflexivity.
  rewrite (proj2 (Z.ltb_lt v 48)), andb_true_r in Ed by lia. destruct (Z.leb_spec 32 v) as [Hge|Hlt].
  - intros Hserv. destruct (handle_irq_run v s1 ltac:(lia) Hserv) as (c & E & Hi). rewrite E in Ed.
    eexists. split; [split; [by rewrite (bind_ok _ _ _ _ _ Ed)|done]|]. by split.
  - destruct (Z.eqb_spec v 3) as [E3|E3].
    + destruct (silent_then _ _ (log_text_run "[M4] trap dispatch: ") (silent_then _ _ (log_line_run (trap_name v)) (silent_then _ _
        (log_frame_silent f) (log_line_run "[M4] breakpoint handled; returning with iretq"))) s1) as (c & E & Hd). rewrite E in Ed.
      eexists. split; [split; [by rewrite (bind_ok _ _ _ _ _ Ed)|done]|]. by split.
    + destruct (log_text_run "[M4] trap dispatch: " s1) as (c1 & E1 & _). rewrite (bind_ok _ _ _ _ _ E1) in Ed.
      destruct (log_line_run (trap_name v) (with_con s1 c1)) as (c2 & E2 & _). rewrite (bind_ok _ _ _ _ _ E2) in Ed.
      destruct (log_frame_silent f (with_con (with_con s1 c1) c2)) as (c4 & E4 & _). rewrite (bind_ok _ _ _ _ _ E4) in Ed.
      destruct (panic_run "kernel/core/trap.c" 96 "unrecoverable CPU exception" v (with_con (with_con (with_con s1 c1) c2) c4)) as (s' & Ep).
      rewrite Ep in Ed. exists s'. by rewrite (bind_err _ _ _ _ _ Ed).
Qed.
End serve.

(** ** Bringing external interrupts up *)

Section bring_up.
Context {H : Type} {P : Ports H} {PIC : Pic H} {PIT : Pit H}.

Lemma pic_out_misc h p v x : p ∉ [0x20; 0x21; 0xA0; 0xA1] → pic (port_out h p v) x = pic h x.
Proof.
  intros Hp. rewrite pic_out. rewrite !(proj2 (Z.eqb_neq _ _)); [done|..]; intros ->; apply Hp; apply list_elem_of_In; destruct x; cbn; tauto.
Qed.

Lemma pit_out_misc h p v : p ≠ X86_64_PIT_COMMAND → p ≠ X86_64_PIT_CHANNEL0_DATA → pit (port_out h p v) = pit h.
Proof. intros H1 H2. rewrite pit_out. unfold pit_write. by rewrite !(proj2 (Z.eqb_neq _ _)). Qed.

(** Both controllers take commands, no initialisation is under way. *)
Definition settled (h : H) : Prop := ∀ x, ch_expect (pic h x) = [].

Definition remapped (off_m off_s : Z) (h h' : H) : Prop :=
  pic h' false = mk_chip [] off_m 4 1 (ch_imr (pic h false)) 0 ∧ pic h' true = mk_chip [] off_s 2 1 (ch_imr (pic h true)) 0 ∧ pit h' = pit h.

Lemma in_data_run x (s : machine H) : settled (hw (con s)) →
  ∃ c, on_con (inb (data_port x)) (Some s) = (Ok (ch_imr (pic (hw (con s)) x)), Some (with_con s c)) ∧ same_dev (hw c) (hw (con s)).
Proof.
  intros Hs. pose proof (pic_read (hw (con s)) x (Hs x)) as Hr. unfold on_con, inb. rewrite (bind_ok _ _ _ (con s) (Some (con s))) by done.
  destruct (port_in (hw (con s)) (data_port x)) as [v h] eqn:E. cbn in Hr. subst v. eexists. split; [reflexivity|].
  cbn [hw]. change h with ((ch_imr (pic (hw (con s)) x), h).2). rewrite <-E. split; [intros y; apply pic_in|apply pit_in].
Qed.

(** Remapping keeps the masks. *)
Lemma pic_remap_run off_m off_s (s : machine H) : settled (hw (con s)) →
  ∃ c, x86_64_pic_remap off_m off_s (Some s) = (Ok tt, Some (with_con s c)) ∧ remapped off_m off_s (hw (con s)) (hw c).
Proof.
  intros Hs. unfold x86_64_pic_remap. change X86_64_PIC_MASTER_DATA with (data_port false). change X86_64_PIC_SLAVE_DATA with (data_port true).
  destruct (in_data_run false s Hs) as (c1 & E1 & [D1 T1]). rewrite (bind_ok _ _ _ _ _ E1).
  destruct (in_data_run true (with_con s c1)) as (c2 & E2 & [D2 T2]); [intros x; cbn; by rewrite D1|]. rewrite (bind_ok _ _ _ _ _ E2).
  cbn [con with_con] in *. rewrite D1. set (m0 := ch_imr _). set (m1 := ch_imr _).
  match goal with |- ∃ c, bind (on_con ?m) _ _ = _ ∧ _ =>
    assert (∃ c3, on_con m (Some (with_con (with_con s c1) c2)) = (Ok tt, Some (with_con s c3)) ∧ remapped off_m off_s (hw (con s)) (hw c3)) as (c3 & E3 & R3) end.
  { eexists. split; [reflexivity|]. unfold remapped. cbn [hw con with_con]. 
    change X86_64_PIC_MASTER_COMMAND with (cmd_port false). change X86_64_PIC_SLAVE_COMMAND with (cmd_port true).
    assert (∀ h v x, pic (port_out h 0x80 v) x = pic h x) as Hw by (intros; apply pic_out_misc; apply (bool_decide_unpack _); by vm_compute).
    split_and!.
    - repeat first [rewrite Hw|rewrite pic_out_cmd|rewrite pic_out_data]. cbn [Bool.eqb]. reflexivity.
    - repeat first [rewrite Hw|rewrite pic_out_cmd|rewrite pic_out_data]. cbn [Bool.eqb]. reflexivity.
    - rewrite !pit_out_misc by done. by rewrite T2, T1. }
  rewrite (bind_ok _ _ _ _ _ E3).
  destruct (silent_then _ _ (log_kv_run "pic_master_offset" off_m) (silent_then _ _ (log_kv_run "pic_slave_offset" off_s)
    (log_line_run "[M5] PIC remapped")) (with_con s c3)) as (c4 & E4 & [D4 T4]).
  exists c4. split; [done|]. destruct R3 as (R1 & R2 & R3). unfold remapped. rewrite !D4, T4. cbn [con with_con]. by rewrite R1, R2, R3.
Qed.

(** A mask bit and the others. *)
Definition set_imr (ch : chip) (m : Z) : chip := mk_chip (ch_expect ch) (ch_offset ch) (ch_cascade ch) (ch_mode ch) m (ch_isr ch).

Lemma mask_bits m k : byte_ok m → 0 <= k < 8 →
  Z.land m (u8 (wnot 32 (2 ^ k))) = Z.clearbit m k ∧ u8 (Z.lor m (u8 (2 ^ k))) = Z.setbit m k.
Proof.
  intros Hm Hk. assert (Forall (λ m, Forall (λ k, Z.land m (u8 (wnot 32 (2 ^ k))) = Z.clearbit m k ∧ u8 (Z.lor m (u8 (2 ^ k))) = Z.setbit m k)
    (seqZ 0 8)) (seqZ 0 256)) as HF by (apply (bool_decide_unpack _); by vm_compute).
  pose proof (proj1 (Forall_forall _ _) HF m ltac:(apply elem_of_seqZ; unfold byte_ok in Hm; lia)) as HF'.
  apply (proj1 (Forall_forall _ _) HF' k). apply elem_of_seqZ. lia.
Qed.

(** [s] with the mask of one controller changed. *)
Definition masked_as (h h' : H) (y : bool) (m : Z) : Prop :=
  (∀ x, pic h' x = if Bool.eqb y x then set_imr (pic h x) m else pic h x) ∧ pit h' = pit h.

Lemma out_data_run y m (s : machine H) : settled (hw (con s)) →
  ∃ c, on_con (outb (data_port y) m) (Some s) = (Ok tt, Some (with_con s c)) ∧ masked_as (hw (con s)) (hw c) y m.
Proof.
  intros Hs. eexists. split; [reflexivity|]. cbn [hw]. split.
  - intros x. rewrite pic_out_data. destruct (Bool.eqb y x); [|done]. unfold chip_data, set_imr. by rewrite (Hs x).
  - apply pit_out_misc; by destruct y.
Qed.

Lemma pic_irq_runs irq (s : machine H) : 0 <= irq < 16 → settled (hw (con s)) →
  (∀ x, byte_ok (ch_imr (pic (hw (con s)) x))) →
  let y := 8 <=? irq in let k := irq mod 8 in let m := ch_imr (pic (hw (con s)) y) in
  (∃ c, x86_64_pic_unmask_irq irq (Some s) = (Ok tt, Some (with_con s c)) ∧ masked_as (hw (con s)) (hw c) y (Z.clearbit m k)) ∧
  (∃ c, x86_64_pic_mask_irq irq (Some s) = (Ok tt, Some (with_con s c)) ∧ masked_as (hw (con s)) (hw c) y (Z.setbit m k)).
Proof.
  intros Hi Hs Hb y k m. assert (pic_port irq = data_port y) as Ep by (unfold pic_port, y; by destruct (8 <=? irq)).
  assert (pic_line irq = k) as El.
  { unfold pic_line, k. destruct (Z.leb_spec 8 irq); [|by rewrite Z.mod_small by lia]. rewrite wrap_small by (unfold fits; lia).
    apply (Z.mod_unique_pos _ _ 1); lia. }
  assert (0 <= k < 8) as Hk by (apply Z.mod_pos_bound; lia). unfold x86_64_pic_unmask_irq, x86_64_pic_mask_irq. rewrite Ep, El.
  destruct (in_data_run y s Hs) as (c1 & E1 & [D1 T1]). fold m in E1. rewrite !(bind_ok _ _ _ _ _ E1), (proj2 (Z.leb_gt 32 k)) by lia.
  destruct (mask_bits m k (Hb y) Hk) as [-> ->].
  assert (settled (hw (con (with_con s c1)))) as Hs1 by (intros x; cbn; by rewrite D1).
  assert (∀ c m', masked_as (hw (con (with_con s c1))) (hw c) y m' → masked_as (hw (con s)) (hw c) y m') as Hm.
  { intros c m' [A1 A2]. split; [intros x; rewrite A1; cbn; by rewrite D1|by rewrite A2]. }
  split.
  - destruct (out_data_run y (Z.clearbit m k) (with_con s c1) Hs1) as (c & E & Hc). exists c. split; [done|by apply Hm].
  - destruct (out_data_run y (Z.setbit m k) (with_con s c1) Hs1) as (c & E & Hc). exists c. split; [done|by apply Hm].
Qed.

Lemma mask_all_run (s : machine H) : settled (hw (con s)) →
  ∃ c, x86_64_pic_mask_all (Some s) = (Ok tt, Some (with_con s c)) ∧ (∀ x, pic (hw c) x = set_imr (pic (hw (con s)) x) 0xFF) ∧ pit (hw c) = pit (hw (con s)).
Proof.
  intros Hs. eexists. split; [reflexivity|]. cbn [hw con].
  change X86_64_PIC_MASTER_DATA with (data_port false). change X86_64_PIC_SLAVE_DATA with (data_port true). split.
  - intros x. rewrite !pic_out_data. pose proof (Hs x) as E. destruct x; cbn [Bool.eqb]; unfold chip_data, set_imr; by rewrite E.
  - by rewrite !pit_out_misc.
Qed.

(** The divisor fits the counter, and its two bytes are the divisor. *)
Lemma pit_divisor_ok hz : 0 < hz → 1 <= pit_divisor hz <= 65535 ∧
  Z.land (pit_divisor hz) 0xFF + 256 * Z.land (Z.shiftr (pit_divisor hz) 8) 0xFF = pit_divisor hz.
Proof.
  intros Hz. assert (1 <= pit_divisor hz <= 65535) as Hr.
  { unfold pit_divisor. pose proof (Z.div_pos X86_64_PIT_BASE_FREQUENCY_HZ hz ltac:(done) Hz).
    destruct (Z.ltb_spec 0xFFFF (X86_64_PIT_BASE_FREQUENCY_HZ / hz)); [done|].
    destruct (Z.eqb_spec (X86_64_PIT_BASE_FREQUENCY_HZ / hz) 0); lia. }
  split; [done|]. change 0xFF with (2 ^ 8 - 1). rewrite !land_ones_mod, Z.shiftr_div_pow2 by lia.
  rewrite (Z.mod_small (_ / _)) by (split; [apply Z.div_pos; lia|apply Z.div_lt_upper_bound; lia]).
  pose proof (Z.div_mod (pit_divisor hz) (2 ^ 8) ltac:(lia)). lia.
Qed.

Lemma pit_run hz (s : machine H) : 0 < hz →
  ∃ c, x86_64_pit_configure_hz hz (Some s) = (Ok tt, Some (with_con s c)) ∧ (∀ x, pic (hw c) x = pic (hw (con s)) x) ∧
    pit (hw c) = mk_channel X86_64_PIT_CMD_CH0_LOHI_MODE3_BINARY None (Some (pit_divisor hz)).
Proof.
  intros Hz. unfold x86_64_pit_configure_hz. rewrite (proj2 (Z.eqb_neq hz 0)) by lia. destruct (pit_divisor_ok hz Hz) as [_ Hd].
  match goal with |- ∃ c, bind (on_con ?m) _ _ = _ ∧ _ =>
    assert (∃ c1, on_con m (Some s) = (Ok tt, Some (with_con s c1)) ∧ (∀ x, pic (hw c1) x = pic (hw (con s)) x) ∧
      pit (hw c1) = mk_channel X86_64_PIT_CMD_CH0_LOHI_MODE3_BINARY None (Some (pit_divisor hz))) as (c1 & E1 & D1 & T1) end.
  { eexists. split; [reflexivity|]. cbn [hw]. split.
    - intros x. rewrite !pic_out_misc; [done|apply (bool_decide_unpack _); by vm_compute..].
    - rewrite !pit_out. unfold pit_write. cbn -[Z.add Z.mul Z.land]. by rewrite Hd. }
  rewrite (bind_ok _ _ _ _ _ E1).
  destruct (silent_then _ _ (log_kv_run "pit_hz" hz) (silent_then _ _ (log_kv_run "pit_divisor" (pit_divisor hz))
    (log_line_run "[M5] PIT configured")) (with_con s c1)) as (c & E & [D T]).
  exists c. split; [done|]. split; [intros x; by rewrite D|by rewrite T].
Qed.

Lemma m5_selftest_run (s : machine H) : settled (hw (con s)) → ch_imr (pic (hw (con s)) false) = 0xFE → silent_at m5_selftest s.
Proof.
  intros Hs Hm. unfold m5_selftest, x86_64_pic_read_master_mask. change X86_64_PIC_MASTER_DATA with (data_port false).
  destruct (in_data_run false s Hs) as (c1 & E1 & [D1 T1]). rewrite Hm in E1. unfold silent_at. rewrite (bind_ok _ _ _ _ _ E1).
  rewrite !(bind_ok _ _ _ tt (Some (with_con s c1))) by done.
  destruct (log_line_run "[M5] selftest: PIC mask invariants passed" (with_con s c1)) as (c & E & [D T]).
  exists c. split; [done|]. split; [intros x; by rewrite D, <-D1|by rewrite T, <-T1].
Qed.

(** C22: [kmain]'s interrupt bring-up, from any settled state of the controllers:
    it returns with the master at vectors 0x20 to 0x27 and the slave at 0x28 to
    0x2F behind line 2, so that line [k] arrives at the vector [32 + k] that
    [handle_irq] expects; with only the timer's line unmasked, which its own self
    test confirms; with the timer counting 11931 (100 Hz); and with interrupts
    enabled. Vectors and handlers are as they were. *)
Theorem interrupts_brought_up (s : machine H) :
  settled (hw (con s)) →
  ∃ s', interrupt_bring_up (Some s) = (Ok tt, Some s') ∧
    pic (hw (con s')) false = mk_chip [] 0x20 (2 ^ 2) 1 0xFE 0 ∧ pic (hw (con s')) true = mk_chip [] 0x28 2 1 0xFF 0 ∧
    pit (hw (con s')) = mk_channel 0x36 None (Some 11931) ∧ Z.testbit (rflags s') 9 = true ∧
    idt s' = idt s ∧ cpu_idtr s' = cpu_idtr s ∧ g_ticks s' = g_ticks s.
Proof.
  intros Hs. unfold interrupt_bring_up.
  destruct (log_line_run "[M5] boot: external interrupt bring-up start" s) as (c0 & E0 & [D0 T0]). rewrite (bind_ok _ _ _ _ _ E0).
  destruct (pic_remap_run X86_64_PIC_MASTER_VECTOR_OFFSET X86_64_PIC_SLAVE_VECTOR_OFFSET (with_con s c0)) as (c1 & E1 & R1 & R2 & _).
  { intros x. cbn. by rewrite D0. }
  rewrite (bind_ok _ _ _ _ _ E1). change (with_con (with_con s c0) c1) with (with_con s c1).
  destruct (mask_all_run (with_con s c1)) as (c2 & E2 & D2 & _). { intros [|]; cbn; [by rewrite R2|by rewrite R1]. }
  rewrite (bind_ok _ _ _ _ _ E2). change (with_con (with_con s c1) c2) with (with_con s c2).
  assert (pic (hw c2) false = mk_chip [] 0x20 4 1 0xFF 0 ∧ pic (hw c2) true = mk_chip [] 0x28 2 1 0xFF 0) as [P1 P2].
  { rewrite !D2. cbn [con with_con]. by rewrite R1, R2. }
  destruct (pic_irq_runs 0 (with_con s c2)) as [(c3 & E3 & [D3 _]) _]; [lia|..].
  { intros [|]; cbn; [by rewrite P2|by rewrite P1]. } { intros [|]; cbn; [rewrite P2|rewrite P1]; split; done. }
  cbn [con with_con] in *. rewrite (bind_ok _ _ _ _ _ E3). change (with_con (with_con s c2) c3) with (with_con s c3).
  assert (pic (hw c3) false = mk_chip [] 0x20 4 1 0xFE 0 ∧ pic (hw c3) true = mk_chip [] 0x28 2 1 0xFF 0) as [Q1 Q2].
  { rewrite !D3. cbn. by rewrite P1, P2. }
  destruct (m5_selftest_run (with_con s c3)) as (c4 & E4 & [D4 T4]); [intros [|]; cbn; [by rewrite Q2|by rewrite Q1]|cbn; by rewrite Q1|].
  rewrite (bind_ok _ _ _ _ _ E4). destruct (pit_run 100 (with_con s c4) ltac:(lia)) as (c5 & E5 & D5 & T5).
  change (with_con (with_con s c3) c4) with (with_con s c4). rewrite (bind_ok _ _ _ _ _ E5).
  destruct (log_line_run "[M5] sti: enabling interrupts" (with_con s c5)) as (c6 & E6 & [D6 T6]).
  change (with_con (with_con s c4) c5) with (with_con s c5). rewrite (bind_ok _ _ _ _ _ E6).
  set (s7 := mk_machine c6 (g_ticks s) (trap_count s) (idt s) (idtr s) (cpu_idtr s) (Z.lor (rflags s) 0x200)).
  rewrite (bind_ok _ _ _ tt (Some s7)) by done.
  destruct (silent_then _ _ (log_line_run "[M4] IDT and exception dispatch path installed")
    (log_line_run "[M5] ready for QEMU smoke test and GDB audit") s7) as (c8 & E8 & [D8 T8]).
  exists (with_con s7 c8). split; [done|]. cbn [con with_con s7] in *. rewrite !D8, T8, !D6, T6, !D5, T5, !D4, Q1, Q2.
  split_and!; try done. cbn [rflags with_con s7]. rewrite Z.lor_spec. apply orb_true_r.
Qed.
End bring_up.

(** ** Devices that follow the specification *)

Record devices := mk_devices { d_master : chip; d_slave : chip; d_pit : channel }.
Definition d_chip (d : devices) (x : bool) : chip := if x then d_slave d else d_master d.

Definition chip_write (x : bool) (ch : chip) (p v : Z) : chip :=
  if p =? cmd_port x then chip_cmd ch v else if p =? data_port x then chip_data ch v else ch.

#[export] Instance devices_ports : Ports devices := {|
  port_in d p := (if p =? data_port true then ch_imr (d_slave d) else if p =? data_port false then ch_imr (d_master d) else 0, d);
  port_out d p v := mk_devices (chip_write false (d_master d) p v) (chip_write true (d_slave d) p v) (pit_write (d_pit d) p v)
|}.

#[export] Instance devices_pic : Pic devices.
Proof.
  refine {| pic := d_chip |}.
  - by intros h p v [|].
  - by intros h p [|].
  - by intros h [|] _.
Defined.

#[export] Instance devices_pit : Pit devices.
Proof. refine {| pit := d_pit |}; done. Defined.

Definition chip0 (isr : Z) : chip := mk_chip [] 0 0 0 0 isr.
Definition machine0 (isr : Z) : machine devices :=
  mk_machine (mk_console (mk_devices (chip0 isr) (chip0 0) (mk_channel 0 None None)) 1) 0 0 (replicate 256 (gate 0 0)) (mk_idtr 0 0) None 2.

Lemma idt_installed_witness :
  let stubs v := u64 (0x100000 + 16 * v) in
  ∃ s', x86_64_idt_init 0x200000 stubs (Some (machine0 0)) = (Ok tt, Some s') ∧
    cpu_idtr s' = Some (mk_idtr (256 * 16 - 1) 0x200000) ∧ length (idt s') = 256%nat ∧
    ∀ v, 0 <= v < 256 → ∃ e, idt s' !! Z.to_nat v = Some e ∧ gate_present e = (v <? 48) ∧
      (v < 48 → gate_handler e = stubs v ∧ selector e = 0x28 ∧ type_attributes e = if v =? 3 then 0x8F else 0x8E).
Proof.
  apply (idt_installed 0x200000 (λ v, u64 (0x100000 + 16 * v)) (machine0 0)).
  - reflexivity.
  - intros v. apply wrap_fits. lia.
Defined.

Lemma interrupt_served_witness :
  let g := mk_regs 15 14 13 12 11 10 9 8 7 6 5 4 3 2 1 in
  ∃ s', exec 0x300000 (λ _, mk_regs 0 0 0 0 0 0 0 0 0 0 0 0 0 0 0) (isr_stub 32 ++ isr_common) g (entry_stack 32 0 0x1000 0x28 0x202 [99])
      (Some (machine0 1)) = (Ok (g, [0x1000; 0x28; 0x202; 99]), Some s') ∧ g_ticks s' = 1.
Proof.
  destruct (interrupt_served 0x300000 (λ _, mk_regs 0 0 0 0 0 0 0 0 0 0 0 0 0 0 0) (mk_regs 15 14 13 12 11 10 9 8 7 6 5 4 3 2 1)
    32 0 0x1000 0x28 0x202 [99] (machine0 1) ltac:(lia)) as [_ (s' & [E _] & Ht & _)]; [by split|].
  exists s'. split; [exact E|exact Ht].
Defined.

Lemma interrupts_brought_up_witness :
  ∃ s', interrupt_bring_up (Some (machine0 0)) = (Ok tt, Some s') ∧
    pic (hw (con s')) false = mk_chip [] 0x20 (2 ^ 2) 1 0xFE 0 ∧ pic (hw (con s')) true = mk_chip [] 0x28 2 1 0xFF 0 ∧
    pit (hw (con s')) = mk_channel 0x36 None (Some 11931) ∧ Z.testbit (rflags s') 9 = true ∧
    idt s' = idt (machine0 0) ∧ cpu_idtr s' = cpu_idtr (machine0 0) ∧ g_ticks s' = g_ticks (machine0 0).
Proof. apply (interrupts_brought_up (machine0 0)). by intros [|]. Defined.
