(* ===== verification/Syscall.v ===== *)
(** * System calls
      (kernel/syscall/syscall.c, include/mcsos/syscall.h,
       kernel/syscall/syscall_entry.S, and the callbacks and start-up of
       kernel/core/kmain.c)

    The callbacks act on a world of their caller's. Memory is a map from
    addresses to bytes; reading an address without a byte is undefined. *)

From Stdlib Require Import ZArith Lia String.
From stdpp Require Import base numbers option list gmap.
From S2P Require Import Prelude Console Arch Thread.

Local Open Scope Z_scope.
Local Open Scope cm_scope.

(** ** Constants *)

Definition MCSOS_SYS_PING : Z := 0.
Definition MCSOS_SYS_GET_TICKS : Z := 1.
Definition MCSOS_SYS_WRITE_SERIAL : Z := 2.
Definition MCSOS_SYS_YIELD : Z := 3.
Definition MCSOS_SYS_EXIT_THREAD : Z := 4.
Definition MCSOS_SYS_MAX : Z := 5.
Definition MCSOS_OK : Z := 0.
Definition MCSOS_EINVAL : Z := -22.
Definition MCSOS_ENOSYS : Z := -38.
Definition MCSOS_EFAULT : Z := -14.
Definition MCSOS_EBUSY : Z := -16.

Record mcsos_syscall_frame := mk_sframe {
  sf_nr : Z; sf_arg0 : Z; sf_arg1 : Z; sf_arg2 : Z; sf_arg3 : Z; sf_arg4 : Z; sf_arg5 : Z; sf_ret : Z
}.

Record mcsos_user_region := mk_uregion { u_base : Z; u_limit : Z }.

Definition mcsos_user_check_range (r : mcsos_user_region) (addr len : Z) : bool :=
  if len =? 0 then true
  else if (u_base r =? 0) || (u_limit r <=? u_base r) then false
  else if addr <? u_base r then false
  else if u_limit r <? addr then false
  else
    let last := u64 (addr + len - 1) in
    if last <? addr then false
    else if u_limit r <=? last then false
    else true.

Section syscall.
(** The callers' world, and the bytes of memory in it. *)
Context {W : Type} (memory : W → gmap Z Z).

(** ** State *)

Record mcsos_syscall_ops := mk_ops {
  get_ticks : ptr (M W Z);
  yield_current : ptr (M W unit);
  exit_current : ptr (Z → M W unit);
  write_serial : ptr (Z → Z → M W Z)
}.

(** The static variables of syscall.c and the world. *)
Record sysworld := mk_sys {
  g_ops : mcsos_syscall_ops;
  g_user_region : mcsos_user_region;
  world : W
}.

Definition on_world {A} (m : M W A) : M sysworld A := λ p,
  match p with
  | None => (Ub, p)
  | Some s =>
      match m (Some (world s)) with
      | (r, Some w) => (r, Some (mk_sys (g_ops s) (g_user_region s) w))
      | (r, None) => (Ub, p)
      end
  end.

Definition default_write_serial (buf len : Z) : M W Z := ret (to_signed 64 len).

(** [a != 0 ? a : b] on callbacks. *)
Definition either {A} (a b : ptr A) : ptr A := match a with Some _ => a | None => b end.

Definition mcsos_syscall_init (ops : ptr mcsos_syscall_ops) : M sysworld unit :=
  let base := mk_ops None None None (Some default_write_serial) in
  let ops :=
    match ops with
    | None => base
    | Some o =>
        mk_ops (either (get_ticks o) (get_ticks base)) (either (yield_current o) (yield_current base))
          (either (exit_current o) (exit_current base)) (either (write_serial o) (write_serial base))
    end in
  let* s := deref in
  store (mk_sys ops (g_user_region s) (world s)).

Definition mcsos_syscall_set_user_region (region : mcsos_user_region) : M sysworld unit :=
  let* s := deref in
  store (mk_sys (g_ops s) region (world s)).

(** ** Copying from user memory *)

(** [for (i = 0; i < len; ++i) d[i] = s[i]] *)
Fixpoint copy_loop (m : gmap Z Z) (dst : list Z) (src : Z) (i : nat) (n : nat) : res (list Z) :=
  match n with
  | O => Ok dst
  | S n =>
      match m !! (src + Z.of_nat i), dst !! i with
      | Some b, Some _ => copy_loop m (<[i := b]> dst) src (S i) n
      | _, _ => Ub
      end
  end.

(** The result is the code and the bytes of [dst]. *)
Definition mcsos_copy_from_user (dst : ptr (list Z)) (src len : Z) : M sysworld (Z * ptr (list Z)) :=
  let* s := deref in
  if len =? 0 then ret (MCSOS_OK, dst)
  else
    match dst with
    | None => ret (MCSOS_EINVAL, dst)
    | Some d =>
        if src =? 0 then ret (MCSOS_EINVAL, dst)
        else if negb (mcsos_user_check_range (g_user_region s) src len) then ret (MCSOS_EFAULT, dst)
        else
          let* d := lift (copy_loop (memory (world s)) d src 0 (Z.to_nat len)) in
          ret (MCSOS_OK, Some d)
    end.

(** ** Calls *)

Definition sys_ping : M sysworld Z := ret 0x2605020A.

Definition sys_get_ticks : M sysworld Z :=
  let* s := deref in
  match get_ticks (g_ops s) with
  | None => ret MCSOS_EBUSY
  | Some f => let* t := on_world f in ret (to_signed 64 t)
  end.

(** A NULL [write_serial] is not called after [mcsos_syscall_init]; calling it
    is undefined. *)
Definition sys_write_serial (p len : Z) : M sysworld Z :=
  let* s := deref in
  if p =? 0 then ret MCSOS_EINVAL
  else if 4096 <? len then ret MCSOS_EINVAL
  else if negb (mcsos_user_check_range (g_user_region s) p len) then ret MCSOS_EFAULT
  else
    match write_serial (g_ops s) with
    | None => ub
    | Some f => on_world (f p len)
    end.

Definition sys_yield : M sysworld Z :=
  let* s := deref in
  match yield_current (g_ops s) with
  | None => ret MCSOS_EBUSY
  | Some f => on_world f ;; ret MCSOS_OK
  end.

Definition sys_exit_thread (code : Z) : M sysworld Z :=
  let* s := deref in
  match exit_current (g_ops s) with
  | None => ret MCSOS_EBUSY
  | Some f => on_world (f (to_signed 32 (u32 code))) ;; ret MCSOS_OK
  end.

(** Each call takes the six arguments; what it ignores is left out. *)
Definition g_table : list (Z → Z → M sysworld Z) :=
  [λ _ _, sys_ping; λ _ _, sys_get_ticks; sys_write_serial; λ _ _, sys_yield; λ a0 _, sys_exit_thread a0].

Definition mcsos_syscall_dispatch (nr arg0 arg1 : Z) : M sysworld Z :=
  if MCSOS_SYS_MAX <=? nr then ret MCSOS_ENOSYS
  else
    match g_table !! Z.to_nat nr with
    | None => ret MCSOS_ENOSYS
    | Some fn => fn arg0 arg1
    end.

(** The result is the frame with its [ret]. *)
Definition mcsos_syscall_dispatch_frame (frame : ptr mcsos_syscall_frame) : M sysworld (ptr mcsos_syscall_frame) :=
  match frame with
  | None => ret None
  | Some f =>
      let* r := mcsos_syscall_dispatch (sf_nr f) (sf_arg0 f) (sf_arg1 f) in
      ret (Some (mk_sframe (sf_nr f) (sf_arg0 f) (sf_arg1 f) (sf_arg2 f) (sf_arg3 f) (sf_arg4 f) (sf_arg5 f) r))
  end.

(** ** The entry stub (syscall_entry.S) *)

(** The eight words the stub stores at the stack pointer, and the frame the
    dispatcher sees there. *)
Definition int80_words (g : regs) : list Z := [rax g; rdi g; rsi g; rdx g; r10 g; r8 g; r9 g; 0].
Definition sframe_at (stack : list Z) : ptr mcsos_syscall_frame :=
  match stack with
  | nr :: a0 :: a1 :: a2 :: a3 :: a4 :: a5 :: r :: _ => Some (mk_sframe nr a0 a1 a2 a3 a4 a5 r)
  | _ => None
  end.

Definition sframe_words (f : mcsos_syscall_frame) : list Z :=
  [sf_nr f; sf_arg0 f; sf_arg1 f; sf_arg2 f; sf_arg3 f; sf_arg4 f; sf_arg5 f; u64 (sf_ret f)].

(** [stack] are the words from the stack pointer on, the interrupt frame first;
    the results are the registers and the stack [iretq] returns with. [clobber]
    is what the compiled dispatcher leaves in the registers. *)
Definition x86_64_syscall_int80_stub (clobber : regs → regs) (g : regs) (stack : list Z) : M sysworld (regs * list Z) :=
  let stack := int80_words g ++ stack in
  let* f := mcsos_syscall_dispatch_frame (sframe_at stack) in
  let stack := match f with Some f => sframe_words f ++ drop 8 stack | None => stack end in
  match stack !! 7%nat with
  | Some ret_word => ret (set RAX ret_word (clobber g), drop 8 stack)
  | None => ub
  end.
End syscall.
Arguments mcsos_syscall_ops : clear implicits.
Arguments sysworld : clear implicits.

(** ** The kernel's callbacks and start-up (kmain.c) *)

Section kernel.
Context {H : Type} `{Ports H}.

Record kworld := mk_kw {
  kw_machine : machine H;
  kw_threads : kstate;
  kw_mem : gmap Z Z
}.

Definition on_machine {A} (m : M (machine H) A) : M kworld A := λ p,
  match p with
  | None => (Ub, p)
  | Some w =>
      match m (Some (kw_machine w)) with
      | (r, Some s) => (r, Some (mk_kw s (kw_threads w) (kw_mem w)))
      | (r, None) => (Ub, p)
      end
  end.

Definition on_threads {A} (m : M kstate A) : M kworld A := λ p,
  match p with
  | None => (Ub, p)
  | Some w =>
      match m (Some (kw_threads w)) with
      | (r, Some k) => (r, Some (mk_kw (kw_machine w) k (kw_mem w)))
      | (r, None) => (Ub, p)
      end
  end.

(** [char c[2] = { buf[i], 0 }; log_write(c);] *)
Definition write_char (buf : Z) (i : Z) : M kworld unit :=
  let* w := deref in
  match kw_mem w !! (buf + i) with
  | None => ub
  | Some b => on_machine (on_con (log_write (Some (if b =? 0 then [] else [b]))))
  end.

Definition k_write_serial_bounded (buf len : Z) : M kworld Z :=
  let len := if 256 <? len then 256 else len in
  iterM (write_char buf) (seqZ 0 len) ;;
  ret (to_signed 64 len).

Definition k_get_ticks : M kworld Z := on_machine x86_64_timer_ticks.

(** [resume_rip] is where a switched-out thread continues. *)
Context (resume_rip : Z).

Definition k_yield_current : M kworld unit :=
  on_threads (on_error (mcsos_sched_yield resume_rip (Some tt)) (λ _, ret tt)).

Definition k_exit_current (code : Z) : M kworld unit :=
  on_machine (
    on_con (log_write (Some (chars "[M10] exit_thread stub called with code="))) ;;
    on_con (log_hex64 (u64 code)) ;;
    log_line "" ;;
    panic_here kmain_c 276 "M10 exit_thread stub: M9 has no real thread teardown yet" (u64 code)).

Definition kernel_ops : mcsos_syscall_ops kworld :=
  mk_ops (Some k_get_ticks) (Some k_yield_current) (Some k_exit_current) (Some k_write_serial_bounded).

(** Addresses of [m10_user_buf] and of the entry stub; [clobber] is what the
    compiled dispatcher leaves in the registers. *)
Context (m10_user_buf int80_addr : Z) (clobber : regs → regs).

(** [int $0x80]: the processor takes the handler from the table; [stack] is the
    interrupt frame it pushed and what lies below. *)
Definition int80 (g : regs) (stack : list Z) : M (sysworld kworld) (regs * list Z) :=
  let* s := deref in
  match idt (kw_machine (world s)) !! 128%nat with
  | Some e => if gate_present e && (gate_handler e =? int80_addr) then x86_64_syscall_int80_stub clobber g stack else ub
  | None => ub
  end.

Definition klog (t : string) : M (sysworld kworld) unit := on_world (on_machine (log_line t)).
Definition kpanic (line : Z) (reason : string) (code : Z) : M (sysworld kworld) unit :=
  on_world (on_machine (panic_here kmain_c line reason code)).

(** [g] and [stack] are the registers and the stack at [int $0x80]. *)
Definition m10_syscall_bootstrap (g : regs) (stack : list Z) : M (sysworld kworld) unit :=
  mcsos_syscall_init (Some kernel_ops) ;;
  mcsos_syscall_set_user_region (mk_uregion m10_user_buf (u64 (m10_user_buf + 64))) ;;
  klog "[M10] syscall init" ;;
  let* r := mcsos_syscall_dispatch MCSOS_SYS_PING 0 0 in
  (if negb (r =? 0x2605020A) then kpanic 298 "M10 syscall ping failed" (u64 r) else ret tt) ;;
  klog "[M10] syscall ping ok" ;;
  let* ticks := mcsos_syscall_dispatch MCSOS_SYS_GET_TICKS 0 0 in
  (if ticks <? 0 then kpanic 304 "M10 syscall get_ticks failed" (u64 ticks) else ret tt) ;;
  klog "[M10] syscall get_ticks ok" ;;
  klog "[M10] syscall smoke done" ;;
  on_world (on_machine (x86_64_idt_set_gate 0x80 int80_addr X86_64_IDT_GATE_INTERRUPT)) ;;
  klog "[M10] int 0x80 gate installed" ;;
  let* '(g, _) := int80 (set RAX 0 g) stack in
  (if negb (rax g =? 0x2605020A) then kpanic 323 "M10 int 0x80 ping mismatch" (rax g) else ret tt) ;;
  klog "[M10] int 0x80 ping ok".
End kernel.
Arguments kworld : clear implicits.
