(* ===== verification/SyscallSpec.v ===== *)
(** * System calls: user memory, output and start-up *)

From Stdlib Require Import ZArith Lia String.
From stdpp Require Import base numbers option list gmap.
From S2P Require Import Prelude Console ConsoleSpec Arch ArchSpec Thread Syscall.

Local Open Scope Z_scope.
Local Open Scope cm_scope.

(** ** User memory *)

(** [len] bytes from [addr] on lie in the region, in mathematical integers. *)
Definition in_user (r : mcsos_user_region) (addr len : Z) : Prop :=
  0 < u_base r ∧ u_base r <= addr ∧ addr + len <= u_limit r.

#[export] Instance in_user_dec r addr len : Decision (in_user r addr len).
Proof. apply _. Defined.

Lemma user_check_range_spec r addr len :
  fits 64 (u_base r) → fits 64 (u_limit r) → fits 64 addr → fits 64 len →
  mcsos_user_check_range r addr len = bool_decide (len = 0 ∨ in_user r addr len).
Proof.
  unfold fits, in_user, mcsos_user_check_range. intros Hb Hl Ha Hn. destruct (Z.eqb_spec len 0) as [->|Hne]; [by rewrite bool_decide_true by auto|].
  destruct (Z.eqb_spec (u_base r) 0), (Z.leb_spec (u_limit r) (u_base r)); cbn [orb]; try (rewrite bool_decide_false by lia; done).
  destruct (Z.ltb_spec addr (u_base r)); [by rewrite bool_decide_false by lia|].
  destruct (Z.ltb_spec (u_limit r) addr); [by rewrite bool_decide_false by lia|].
  destruct (decide (addr + len - 1 < 2 ^ 64)) as [Hs|Hs].
  - rewrite wrap_small by (unfold fits; lia). rewrite (proj2 (Z.ltb_ge _ _)) by lia.
    destruct (Z.leb_spec (u_limit r) (addr + len - 1)); [by rewrite bool_decide_false by lia|by rewrite bool_decide_true by lia].
  - replace (u64 (addr + len - 1)) with (addr + len - 1 - 2 ^ 64); [|unfold wrap; apply (Z.mod_unique_pos _ _ 1); lia].
    rewrite (proj2 (Z.ltb_lt _ _)) by lia. by rewrite bool_decide_false by lia.
Qed.

Definition region_fits (r : mcsos_user_region) : Prop := fits 64 (u_base r) ∧ fits 64 (u_limit r).

(** Every address of the region has a byte. *)
Definition mapped (m : gmap Z Z) (r : mcsos_user_region) : Prop :=
  ∀ a, u_base r <= a < u_limit r → ∃ b, m !! a = Some b ∧ byte_ok b.

Definition bytes_at (m : gmap Z Z) (a : Z) (n : nat) : list Z := (λ i, default 0 (m !! (a + Z.of_nat i))) <$> seq 0 n.

Lemma length_bytes_at m a n : length (bytes_at m a n) = n.
Proof. unfold bytes_at. by rewrite length_fmap, length_seq. Qed.

Lemma bytes_at_S m a n : bytes_at m a (S n) = default 0 (m !! a) :: bytes_at m (a + 1) n.
Proof.
  unfold bytes_at. cbn [seq]. rewrite <-fmap_S_seq. cbn [fmap list_fmap]. rewrite Z.add_0_r. f_equal.
  rewrite <-list_fmap_compose. apply list_fmap_ext. intros i j _. unfold compose. by replace (a + Z.of_nat (S j)) with (a + 1 + Z.of_nat j) by lia.
Qed.

Lemma copy_loop_run m src n : ∀ i dst,
  (∀ j, (i <= j < i + n)%nat → is_Some (m !! (src + Z.of_nat j))) → (i + n <= length dst)%nat →
  copy_loop m dst src i n = Ok (take i dst ++ bytes_at m (src + Z.of_nat i) n ++ drop (i + n) dst).
Proof.
  induction n as [|n IH]; intros i dst Hm Hl; cbn [copy_loop].
  { cbn. rewrite Nat.add_0_r. by rewrite take_drop. }
  destruct (Hm i ltac:(lia)) as [b Hb]. rewrite Hb. destruct (lookup_lt_is_Some_2 dst i ltac:(lia)) as [x Hx]. rewrite Hx.
  rewrite IH; [|intros j Hj; apply Hm; lia|rewrite length_insert; lia].
  rewrite (take_S_r _ _ b) by (apply list_lookup_insert_eq; lia). rewrite take_insert_ge, drop_insert_lt by lia.
  rewrite bytes_at_S, Hb. cbn [default]. rewrite <-app_assoc. cbn [app]. do 4 f_equal; [f_equal; lia|]. f_equal. lia.
Qed.

Section copy.
Context {W : Type} (memory : W → gmap Z Z).

Lemma copy_from_user_run (s : sysworld W) d src len :
  region_fits (g_user_region s) → fits 64 src → fits 64 len → mapped (memory (world s)) (g_user_region s) →
  len <= Z.of_nat (length d) →
  mcsos_copy_from_user memory (Some d) src len (Some s) =
  (Ok (if decide (len = 0 ∨ in_user (g_user_region s) src len)
       then (MCSOS_OK, Some (bytes_at (memory (world s)) src (Z.to_nat len) ++ drop (Z.to_nat len) d))
       else (if src =? 0 then MCSOS_EINVAL else MCSOS_EFAULT, Some d)), Some s).
Proof.
  intros [Hb Hl] Hs Hn Hm Hd. unfold mcsos_copy_from_user. rewrite (bind_ok _ _ _ s (Some s)) by done.
  destruct (Z.eqb_spec len 0) as [->|Hne]; [by rewrite decide_True by auto|].
  destruct (Z.eqb_spec src 0) as [->|Hs0]; [rewrite decide_False; [done|]; unfold in_user; lia|].
  rewrite user_check_range_spec by done. case_decide as Hu.
  - rewrite bool_decide_true by done. cbn [negb]. destruct Hu as [?|(Hu0 & Hu1 & Hu2)]; [done|].
    rewrite copy_loop_run; [by rewrite Z.add_0_r|..].
    + intros j Hj. destruct (Hm (src + Z.of_nat j)) as (b & Hb' & _); [lia|]. by exists b.
    + lia.
  - by rewrite bool_decide_false.
Qed.
End copy.

(** C23: [mcsos_copy_from_user] copies if and only if the whole source lies in
    the user region, in mathematical integers, so that no wrap-around lets a
    range through; it then stores exactly the user's bytes and leaves the rest
    of the destination. Otherwise it changes nothing and returns
    [MCSOS_EINVAL] for a NULL source and [MCSOS_EFAULT] for any other. Memory
    outside the region is never read. *)
Theorem copy_from_user_exact {W : Type} (memory : W → gmap Z Z) (s : sysworld W) (d : list Z) (src len : Z) :
  region_fits (g_user_region s) → fits 64 src → fits 64 len → len <= Z.of_nat (length d) →
  mapped (memory (world s)) (g_user_region s) →
  mcsos_copy_from_user memory (Some d) src len (Some s) =
  (Ok (if decide (len = 0 ∨ in_user (g_user_region s) src len)
       then (MCSOS_OK, Some (bytes_at (memory (world s)) src (Z.to_nat len) ++ drop (Z.to_nat len) d))
       else (if src =? 0 then MCSOS_EINVAL else MCSOS_EFAULT, Some d)), Some s).
Proof. intros Hr Hs Hn Hd Hm. by apply copy_from_user_run. Qed.

Definition sample_mem : gmap Z Z := list_to_map (zip (seqZ 4096 4) [80; 105; 110; 103]).
Definition sample_sys : sysworld unit := mk_sys (mk_ops None None None None) (mk_uregion 4096 4100) tt.

Lemma sample_mapped : mapped sample_mem (mk_uregion 4096 4100).
Proof.
  intros a Ha. cbn in Ha. assert (a = 4096 ∨ a = 4097 ∨ a = 4098 ∨ a = 4099) as [->|[->|[->| ->]]] by lia;
    (eexists; split; [vm_compute; reflexivity|by split]).
Qed.

(** Three bytes are copied; one more than the region has is refused. *)
Lemma copy_from_user_exact_witness :
  mcsos_copy_from_user (λ _, sample_mem) (Some [1; 2; 3; 4; 5]) 4097 3 (Some sample_sys) =
    (Ok (MCSOS_OK, Some [105; 110; 103; 4; 5]), Some sample_sys) ∧
  mcsos_copy_from_user (λ _, sample_mem) (Some [1; 2; 3; 4; 5]) 4097 4 (Some sample_sys) =
    (Ok (MCSOS_EFAULT, Some [1; 2; 3; 4; 5]), Some sample_sys).
Proof.
  split; (rewrite (copy_from_user_exact (λ _, sample_mem) sample_sys [1; 2; 3; 4; 5]); [by vm_compute|by split|by split|by split|by cbn|exact sample_mapped]).
Defined.

(** ** Output *)

Section output.
Context {H : Type} `{U : Uart H}.
Implicit Types (w : kworld H).

Definition console_of w : console H := con (kw_machine w).

(** [w] with another console. *)
Definition kw_con (c : console H) w : kworld H :=
  let m := kw_machine w in
  mk_kw (mk_machine c (g_ticks m) (trap_count m) (idt m) (idtr m) (cpu_idtr m) (rflags m)) (kw_threads w) (kw_mem w).

Lemma kw_con_eq w : kw_con (console_of w) w = w.
Proof. by destruct w as [[] ? ?]. Qed.

(** What a byte of the buffer sends: a NUL nothing. *)
Definition char_text (b : Z) : list Z := if b =? 0 then [] else crlf b.

Lemma write_char_run w buf i b : kw_mem w !! (buf + i) = Some b → byte_ok b → usable (console_of w) →
  ∃ c, write_char buf i (Some w) = (Ok tt, Some (kw_con c w)) ∧ usable c ∧ sent c = sent (console_of w) ++ char_text b.
Proof.
  intros Hb Hok Hu. unfold write_char. rewrite (bind_ok _ _ _ w (Some w)) by done. rewrite Hb.
  destruct (first_use _ Hu) as (c1 & Ho & Hs & E).
  set (t := if b =? 0 then [] else [b]). assert (bytes_ok t) as Ht by (unfold t; destruct (b =? 0); [constructor|]; apply Forall_cons; split; [done|constructor]).
  destruct (log_write_sends t Ht c1 Ho) as (c2 & E2 & Ho2 & Hs2). exists c2.
  unfold on_machine, on_con. fold (console_of w). rewrite E, E2. split; [done|]. split; [by right|]. rewrite Hs2, Hs. f_equal.
  unfold t, char_text, text. destruct (b =? 0); [done|]. cbn. apply app_nil_r.
Qed.

Lemma write_chars_run w buf n : ∀ i c,
  (∀ j, (i <= j < i + n)%nat → ∃ b, kw_mem w !! (buf + Z.of_nat j) = Some b ∧ byte_ok b) → usable c →
  ∃ c', iterM (write_char buf) (seqZ (Z.of_nat i) (Z.of_nat n)) (Some (kw_con c w)) = (Ok tt, Some (kw_con c' w)) ∧
    usable c' ∧ sent c' = sent c ++ concat (char_text <$> bytes_at (kw_mem w) (buf + Z.of_nat i) n).
Proof.
  induction n as [|n IH]; intros i c Hm Hu.
  { exists c. cbn. by rewrite app_nil_r. }
  destruct (Hm i ltac:(lia)) as (b & Hb & Hok).
  destruct (write_char_run (kw_con c w) buf (Z.of_nat i) b Hb Hok Hu) as (c1 & E & Hu1 & Hs1).
  destruct (IH (S i) c1) as (c2 & E2 & Hu2 & Hs2); [intros j Hj; apply Hm; lia|done|]. exists c2.
  rewrite seqZ_cons by lia. cbn [iterM]. rewrite (bind_ok _ _ _ _ _ E).
  replace (Z.succ (Z.of_nat i)) with (Z.of_nat (S i)) by lia. replace (Z.pred (Z.of_nat (S n))) with (Z.of_nat n) by lia.
  split; [exact E2|]. split; [done|]. rewrite Hs2, Hs1, bytes_at_S, Hb. cbn [default fmap list_fmap concat]. rewrite <-app_assoc.
  do 4 f_equal. f_equal. lia.
Qed.

Lemma k_write_run w buf len :
  0 <= len → (∀ j, 0 <= j < Z.min len 256 → ∃ b, kw_mem w !! (buf + j) = Some b ∧ byte_ok b) → usable (console_of w) →
  ∃ c, k_write_serial_bounded buf len (Some w) = (Ok (Z.min len 256), Some (kw_con c w)) ∧
    sent c = sent (console_of w) ++ concat (char_text <$> bytes_at (kw_mem w) buf (Z.to_nat (Z.min len 256))).
Proof.
  intros Hl Hm Hu. unfold k_write_serial_bounded. replace (if 256 <? len then 256 else len) with (Z.min len 256) by (destruct (Z.ltb_spec 256 len); lia).
  cbv zeta. destruct (write_chars_run w buf (Z.to_nat (Z.min len 256)) 0 (console_of w)) as (c & E & _ & Hs); [intros j Hj; apply Hm; lia|done|].
  exists c. rewrite kw_con_eq, Z2Nat.id in E by lia. change (Z.of_nat 0) with 0 in *. rewrite Z.add_0_r in Hs.
  rewrite (bind_ok _ _ _ _ _ E). split; [|done]. unfold ret. do 2 f_equal. unfold to_signed.
  destruct (Z.ltb_spec (Z.min len 256) (2 ^ (64 - 1))); lia.
Qed.
End output.

(** ** The call that writes *)

Section write.
Context {H : Type} {P : Ports H} {U : Uart H} (resume_rip : Z) (clobber : regs → regs).

(** What [MCSOS_SYS_WRITE_SERIAL] takes. *)
Definition accepted (r : mcsos_user_region) (p len : Z) : Prop := p ≠ 0 ∧ len <= 4096 ∧ (len = 0 ∨ in_user r p len).

#[local] Instance accepted_dec r p len : Decision (accepted r p len).
Proof. apply _. Defined.

Definition sys_con (c : console H) (s : sysworld (kworld H)) : sysworld (kworld H) :=
  mk_sys (g_ops s) (g_user_region s) (kw_con c (world s)).

Lemma sys_con_eq s : sys_con (console_of (world s)) s = s.
Proof. destruct s as [? ? w]. unfold sys_con. cbn. by rewrite kw_con_eq. Qed.

Lemma sys_write_run (s : sysworld (kworld H)) p len :
  g_ops s = kernel_ops resume_rip → region_fits (g_user_region s) → mapped (kw_mem (world s)) (g_user_region s) →
  usable (console_of (world s)) → fits 64 p → fits 64 len →
  ∃ r c, mcsos_syscall_dispatch MCSOS_SYS_WRITE_SERIAL p len (Some s) = (Ok r, Some (sys_con c s)) ∧
    if decide (accepted (g_user_region s) p len)
    then r = Z.min len 256 ∧
      sent c = sent (console_of (world s)) ++ concat (char_text <$> bytes_at (kw_mem (world s)) p (Z.to_nat (Z.min len 256)))
    else c = console_of (world s) ∧ (r = MCSOS_EINVAL ∨ r = MCSOS_EFAULT).
Proof.
  intros Hops [Hb Hl] Hm Hu Hp Hn. change (mcsos_syscall_dispatch MCSOS_SYS_WRITE_SERIAL p len (Some s)) with (sys_write_serial p len (Some s)).
  unfold sys_write_serial. rewrite (bind_ok _ _ _ s (Some s)) by done. rewrite user_check_range_spec by done.
  destruct (decide (accepted (g_user_region s) p len)) as [(Hp0 & Hle & Hin)|Hna].
  - rewrite (proj2 (Z.eqb_neq p 0)), (proj2 (Z.ltb_ge 4096 len)) by lia. rewrite bool_decide_true by done. cbn [negb].
    rewrite Hops. cbn [write_serial kernel_ops].
    destruct (k_write_run (world s) p len ltac:(unfold fits in Hn; lia)) as (c & E & Hs); [|done|].
    + intros j Hj. apply Hm. destruct Hin as [->|(H1 & H2 & H3)]; lia.
    + exists (Z.min len 256), c. unfold on_world. by rewrite E.
  - assert (∀ e, e = MCSOS_EINVAL ∨ e = MCSOS_EFAULT → ∃ r c, (Ok e, Some s) = (Ok r, Some (sys_con c s)) ∧
      c = console_of (world s) ∧ (r = MCSOS_EINVAL ∨ r = MCSOS_EFAULT)) as Hno.
    { intros e He. exists e, (console_of (world s)). by rewrite sys_con_eq. }
    destruct (Z.eqb_spec p 0); [apply Hno; auto|]. destruct (Z.ltb_spec 4096 len); [apply Hno; auto|].
    rewrite bool_decide_false by (intros Hin; by apply Hna). apply Hno. auto.
Qed.

(** C13: [int 0x80] with [MCSOS_SYS_WRITE_SERIAL] lets a user program send bytes
    of its own region and nothing else. The call is accepted when the pointer is
    not NULL, the length at most 4096, and the range inside the user region or
    empty. Then the first [min len 256] bytes of the range are sent on the serial
    line in order, NULs left out and line feeds with a carriage return before
    them, and [%rax] returns [min len 256]. Every other pointer and length
    returns [MCSOS_EINVAL] or [MCSOS_EFAULT] and changes nothing. In both cases
    the stack is the one the processor pushed, no state but the console changes,
    and memory outside the region need not be mapped. *)
Theorem syscall_write_confined (s : sysworld (kworld H)) (g : regs) (stack : list Z) :
  g_ops s = kernel_ops resume_rip → region_fits (g_user_region s) → mapped (kw_mem (world s)) (g_user_region s) →
  usable (console_of (world s)) → fits 64 (rdi g) → fits 64 (rsi g) → rax g = MCSOS_SYS_WRITE_SERIAL →
  ∃ g' c, x86_64_syscall_int80_stub clobber g stack (Some s) = (Ok (g', stack), Some (sys_con c s)) ∧
    if decide (accepted (g_user_region s) (rdi g) (rsi g))
    then rax g' = Z.min (rsi g) 256 ∧
      sent c = sent (console_of (world s)) ++
        concat (char_text <$> bytes_at (kw_mem (world s)) (rdi g) (Z.to_nat (Z.min (rsi g) 256)))
    else c = console_of (world s) ∧ (to_signed 64 (rax g') = MCSOS_EINVAL ∨ to_signed 64 (rax g') = MCSOS_EFAULT).
Proof.
  intros Hops Hr Hm Hu Hp Hn Hax. destruct (sys_write_run s (rdi g) (rsi g) Hops Hr Hm Hu Hp Hn) as (r & c & E & Hpost).
  exists (set RAX (u64 r) (clobber g)), c. split.
  - unfold x86_64_syscall_int80_stub, mcsos_syscall_dispatch_frame, int80_words, sframe_at. cbn [app sf_nr sf_arg0 sf_arg1].
    rewrite bind_assoc, Hax. by rewrite (bind_ok _ _ _ _ _ E).
  - change (rax (set RAX (u64 r) (clobber g))) with (u64 r). case_decide.
    + destruct Hpost as [-> Hs]. split; [|done]. apply wrap_small. unfold fits in *. lia.
    + destruct Hpost as [-> [-> | ->]]; (split; [done|]); [left|right]; by vm_compute.
Qed.
End write.

(** Registers of a call. *)
Definition call_regs (nr a0 a1 : Z) : regs := set RAX nr (set RDI a0 (set RSI a1 (mk_regs 0 0 0 0 0 0 0 0 0 0 0 0 0 0 0))).

Definition sample_threads : kstate := mk_k ∅ (mk_sched None None None None 0 0 0 0 0) ∅ zero_context false.
Definition sample_kernel : sysworld (kworld uart) :=
  mk_sys (kernel_ops 0) (mk_uregion 4096 4100)
    (mk_kw (mk_machine (mk_console (mk_uart false false []) 0) 7 0 (replicate 256 (gate 0 0)) (mk_idtr 0 0) None 2) sample_threads sample_mem).

(** The four bytes of the region are sent; a range that starts one byte later
    sends nothing. *)
Lemma syscall_write_confined_witness :
  (∃ g' c, x86_64_syscall_int80_stub id (call_regs 2 4096 4) [0x1000; 0x28; 0x202] (Some sample_kernel) = (Ok (g', [0x1000; 0x28; 0x202]), Some (sys_con c sample_kernel)) ∧
    rax g' = 4 ∧ sent c = [80; 105; 110; 103]) ∧
  (∃ g' c, x86_64_syscall_int80_stub id (call_regs 2 4097 4) [0x1000; 0x28; 0x202] (Some sample_kernel) = (Ok (g', [0x1000; 0x28; 0x202]), Some (sys_con c sample_kernel)) ∧
    sent c = []).
Proof.
  split.
  - destruct (syscall_write_confined 0 id sample_kernel (call_regs 2 4096 4) [0x1000; 0x28; 0x202]) as (g' & c & E & Hpost);
      [done|by split|exact sample_mapped|by left|by split|by split|done|].
    exists g', c. split; [exact E|]. destruct (decide _) as [_|n]; [destruct Hpost as [-> ->]; split; vm_compute; reflexivity|destruct n; split; [discriminate|]; split; [discriminate|right; repeat split; discriminate]].
  - destruct (syscall_write_confined 0 id sample_kernel (call_regs 2 4097 4) [0x1000; 0x28; 0x202]) as (g' & c & E & Hpost);
      [done|by split|exact sample_mapped|by left|by split|by split|done|].
    exists g', c. split; [exact E|]. destruct (decide _) as [(_ & _ & [y|(_ & _ & y)])|_]; [discriminate|by destruct y|by destruct Hpost as [-> _]].
Defined.

(** ** Start-up *)

Section bootstrap.
Context {H : Type} {P : Ports H} (resume_rip m10_user_buf int80_addr : Z) (clobber : regs → regs).
Implicit Types (s : sysworld (kworld H)).

Lemma klog_run t s : ∃ c, klog t (Some s) = (Ok tt, Some (sys_con c s)).
Proof.
  destruct (quiet_log_writeln (λ _, True) (λ _ _ _ _, I) (λ _ _ _ _ _, I) (Some (chars t)) (console_of (world s)) I) as ([] & c & E & _).
  exists c. unfold klog, on_world, on_machine, log_line, on_con. fold (console_of (world s)). by rewrite E.
Qed.

(** [s] with another table. *)
Definition sys_idt (t : list x86_64_idt_entry) s : sysworld (kworld H) :=
  mk_sys (g_ops s) (g_user_region s) (mk_kw (with_idt (kw_machine (world s)) t) (kw_threads (world s)) (kw_mem (world s))).

Lemma set_gate_run v addr ty s : (Z.to_nat v < length (idt (kw_machine (world s))))%nat →
  on_world (on_machine (x86_64_idt_set_gate v addr ty)) (Some s) =
  (Ok tt, Some (sys_idt (<[Z.to_nat v := gate addr ty]> (idt (kw_machine (world s)))) s)).
Proof.
  intros Hv. unfold on_world, on_machine, x86_64_idt_set_gate. rewrite (bind_ok _ _ _ (kw_machine (world s)) (Some (kw_machine (world s)))) by done.
  by rewrite (proj2 (Nat.leb_gt _ _)).
Qed.

(** What the registers hold after a call that leaves the state alone. *)
Definition answer s (g : regs) (r : Z) : Prop :=
  ∀ stack, int80 int80_addr clobber g stack (Some s) = (Ok (set RAX (u64 r) (clobber g), stack), Some s).

Definition gate_open s : Prop := ∃ e, idt (kw_machine (world s)) !! 128%nat = Some e ∧ gate_present e = true ∧ gate_handler e = int80_addr.

Lemma int80_run s g stack :
  gate_open s → int80 int80_addr clobber g stack (Some s) = x86_64_syscall_int80_stub clobber g stack (Some s).
Proof.
  intros (e & He & Hp & Hh). unfold int80. rewrite (bind_ok _ _ _ s (Some s)) by done. rewrite He, Hp, Hh, Z.eqb_refl. done.
Qed.

Lemma answers s : gate_open s → g_ops s = kernel_ops resume_rip →
  ∀ g, (rax g = MCSOS_SYS_PING → answer s g 0x2605020A) ∧
    (rax g = MCSOS_SYS_GET_TICKS → answer s g (to_signed 64 (g_ticks (kw_machine (world s))))) ∧
    (MCSOS_SYS_MAX <= rax g → answer s g MCSOS_ENOSYS).
Proof.
  intros Hg Ho g. unfold answer. destruct s as [ops r [m k mem]]. cbn in Ho. subst ops.
  split_and!; intros Hn stack; rewrite int80_run by done;
    unfold x86_64_syscall_int80_stub, mcsos_syscall_dispatch_frame, int80_words, sframe_at;
    cbn [app sf_nr sf_arg0 sf_arg1 sf_arg2 sf_arg3 sf_arg4 sf_arg5 world kw_machine]; rewrite bind_assoc.
  - by rewrite Hn.
  - by rewrite Hn.
  - unfold mcsos_syscall_dispatch. by rewrite (proj2 (Z.leb_le _ _) Hn).
Qed.

(** C24: [m10_syscall_bootstrap] (built with the [int 0x80] test) returns
    without a panic. The kernel's callbacks and the 64 bytes of the user buffer
    are installed, gate 0x80 is present and leads to the entry stub, and no
    other gate, thread or byte of memory changed. From then on [int $0x80]
    answers a ping with 0x2605020A, the clock with the tick counter and every
    number without a call with [MCSOS_ENOSYS], and leaves the state alone. *)
Theorem m10_bootstrap_ok (g : regs) (stack : list Z) (s : sysworld (kworld H)) :
  length (idt (kw_machine (world s))) = 256%nat → fits 64 int80_addr → fits 63 (g_ticks (kw_machine (world s))) →
  0 < m10_user_buf → m10_user_buf + 64 < 2 ^ 64 →
  ∃ s', m10_syscall_bootstrap resume_rip m10_user_buf int80_addr clobber g stack (Some s) = (Ok tt, Some s') ∧
    g_ops s' = kernel_ops resume_rip ∧ g_user_region s' = mk_uregion m10_user_buf (m10_user_buf + 64) ∧
    kw_threads (world s') = kw_threads (world s) ∧ kw_mem (world s') = kw_mem (world s) ∧
    (∀ v, v ≠ 128%nat → idt (kw_machine (world s')) !! v = idt (kw_machine (world s)) !! v) ∧ gate_open s' ∧
    ∀ g, (rax g = MCSOS_SYS_PING → answer s' g 0x2605020A) ∧
      (rax g = MCSOS_SYS_GET_TICKS → answer s' g (g_ticks (kw_machine (world s)))) ∧
      (MCSOS_SYS_MAX <= rax g → answer s' g MCSOS_ENOSYS).
Proof.
  intros Hl Ha Ht Hb1 Hb2. unfold m10_syscall_bootstrap. unfold fits in Ht.
  assert (to_signed 64 (g_ticks (kw_machine (world s))) = g_ticks (kw_machine (world s))) as Hsg.
  { unfold to_signed. by rewrite (proj2 (Z.ltb_lt _ _)) by (change (64 - 1) with 63; lia). }
  set (s0 := mk_sys (kernel_ops resume_rip) (mk_uregion m10_user_buf (u64 (m10_user_buf + 64))) (world s)).
  rewrite (bind_ok _ _ _ tt (Some (mk_sys (kernel_ops resume_rip) (g_user_region s) (world s)))) by done.
  rewrite (bind_ok _ _ _ tt (Some s0)) by done.
  destruct (klog_run "[M10] syscall init" s0) as (c1 & E1). rewrite (bind_ok _ _ _ _ _ E1).
  rewrite (bind_ok _ _ _ 0x2605020A (Some (sys_con c1 s0))) by done. rewrite (bind_ok _ _ _ tt (Some (sys_con c1 s0))) by done.
  destruct (klog_run "[M10] syscall ping ok" (sys_con c1 s0)) as (c2 & E2). rewrite (bind_ok _ _ _ _ _ E2).
  rewrite (bind_ok _ _ _ (to_signed 64 (g_ticks (kw_machine (world s)))) (Some (sys_con c2 s0))) by done.
  rewrite Hsg, (proj2 (Z.ltb_ge _ _)) by lia. rewrite (bind_ok _ _ _ tt (Some (sys_con c2 s0))) by done.
  destruct (klog_run "[M10] syscall get_ticks ok" (sys_con c2 s0)) as (c3 & E3). rewrite (bind_ok _ _ _ _ _ E3).
  destruct (klog_run "[M10] syscall smoke done" (sys_con c3 s0)) as (c4 & E4). rewrite (bind_ok _ _ _ _ _ E4).
  assert (128 < length (idt (kw_machine (world (sys_con c4 s0)))))%nat as Hl4 by (cbn; rewrite Hl; lia).
  rewrite (bind_ok _ _ _ _ _ (set_gate_run 0x80 int80_addr X86_64_IDT_GATE_INTERRUPT _ Hl4)).
  set (s5 := sys_idt _ _). assert (∀ c, gate_open (sys_con c s5)) as Hopen.
  { intros c. eexists. split; [by apply list_lookup_insert_eq|]. split; [done|]. by apply gate_handler_eq. }
  destruct (klog_run "[M10] int 0x80 gate installed" s5) as (c6 & E6). rewrite (bind_ok _ _ _ _ _ E6).
  rewrite (bind_ok _ _ _ _ _ (proj1 (answers (sys_con c6 s5) (Hopen c6) eq_refl (set RAX 0 g)) eq_refl stack)).
  rewrite (bind_ok _ _ _ tt (Some (sys_con c6 s5))) by done.
  destruct (klog_run "[M10] int 0x80 ping ok" (sys_con c6 s5)) as (c7 & E7). exists (sys_con c7 s5). split; [exact E7|].
  split; [done|]. split; [cbn; by rewrite wrap_small by (unfold fits; lia)|]. do 2 (split; [done|]).
  split; [intros v Hv; by apply list_lookup_insert_ne|]. split; [done|]. rewrite <-Hsg. by apply (answers (sys_con c7 s5)).
Qed.
End bootstrap.

Lemma m10_bootstrap_ok_witness :
  ∃ s', m10_syscall_bootstrap 0 0x8000 0x100000 id (call_regs 9 9 9) [] (Some sample_kernel) = (Ok tt, Some s') ∧
    gate_open 0x100000 s' ∧ answer 0x100000 id s' (call_regs 1 0 0) 7 ∧ answer 0x100000 id s' (call_regs 77 0 0) MCSOS_ENOSYS.
Proof.
  destruct (m10_bootstrap_ok 0 0x8000 0x100000 id (call_regs 9 9 9) [] sample_kernel) as (s' & E & _ & _ & _ & _ & _ & Hg & Ha);
    [reflexivity|by split|by split|lia|lia|].
  exists s'. split; [exact E|]. split; [exact Hg|]. split; [by apply (Ha (call_regs 1 0 0))|by apply (Ha (call_regs 77 0 0))].
Defined.
