(* ===== verification/Memory.v ===== *)
(** * Memory primitives (kernel/lib/memory.c)

    Memory is one map from addresses to bytes that both pointers share, so that
    overlapping buffers are what they are in the program. Accessing an address
    without a byte is undefined. *)

From Stdlib Require Import ZArith Lia.
From stdpp Require Import base numbers option list gmap.
From S2P Require Import Prelude.

Local Open Scope Z_scope.
Local Open Scope cm_scope.

Local Notation memory := (gmap Z Z).

Definition get_byte (a : Z) : M memory Z :=
  let* m := deref in match m !! a with Some b => ret b | None => ub end.

Definition put_byte (a b : Z) : M memory unit :=
  let* m := deref in match m !! a with Some _ => store (<[a := b]> m) | None => ub end.

(** [while (count-- != 0u) { *d++ = (unsigned char)value; }] *)
Fixpoint set_loop (count : nat) (d value : Z) : M memory unit :=
  match count with
  | O => ret tt
  | S count => put_byte d (u8 value) ;; set_loop count (d + 1) value
  end.

Definition memset (dest value count : Z) : M memory Z :=
  set_loop (Z.to_nat count) dest value ;;
  ret dest.

(** [while (count-- != 0u) { *d++ = *s++; }] *)
Fixpoint forward_loop (count : nat) (d s : Z) : M memory unit :=
  match count with
  | O => ret tt
  | S count => let* b := get_byte s in put_byte d b ;; forward_loop count (d + 1) (s + 1)
  end.

(** [while (count-- != 0u) { *--d = *--s; }] *)
Fixpoint backward_loop (count : nat) (d s : Z) : M memory unit :=
  match count with
  | O => ret tt
  | S count => let* b := get_byte (s - 1) in put_byte (d - 1) b ;; backward_loop count (d - 1) (s - 1)
  end.

Definition memcpy (dest src count : Z) : M memory Z :=
  forward_loop (Z.to_nat count) dest src ;;
  ret dest.

Definition memmove (dest src count : Z) : M memory Z :=
  if (dest =? src) || (count =? 0) then ret dest
  else if dest <? src then forward_loop (Z.to_nat count) dest src ;; ret dest
  else backward_loop (Z.to_nat count) (dest + count) (src + count) ;; ret dest.

(** ** What a copy leaves in memory *)

(** Every address from [a] on, [n] of them, has a byte. *)
Definition valid (m : memory) (a n : Z) : Prop := ∀ x, a <= x < a + n → is_Some (m !! x).

(** [m'] is [m] with [n] bytes from [d] on replaced by the bytes that were at [s]
    before. *)
Definition copied (m m' : memory) (d s n : Z) : Prop :=
  ∀ x, m' !! x = if (d <=? x) && (x <? d + n) then m !! (s + (x - d)) else m !! x.

Lemma copy_byte_run {A} (m : memory) d s b (k : M memory A) : m !! s = Some b → is_Some (m !! d) →
  (let* b := get_byte s in put_byte d b ;; k) (Some m) = k (Some (<[d := b]> m)).
Proof.
  intros Hs [y Hd]. rewrite (bind_ok _ _ _ b (Some m)).
  2:{ unfold get_byte. rewrite (bind_ok _ _ _ m (Some m)) by done. by rewrite Hs. }
  rewrite (bind_ok _ _ _ tt (Some (<[d := b]> m))); [done|]. unfold put_byte. rewrite (bind_ok _ _ _ m (Some m)) by done. by rewrite Hd.
Qed.

Lemma insert_some (m : memory) a b x : is_Some (m !! a) → is_Some (m !! x) → is_Some (<[a := b]> m !! x).
Proof. intros _ Hx. destruct (decide (a = x)) as [->|Hne]; [by rewrite lookup_insert_eq; eexists|by rewrite lookup_insert_ne]. Qed.

(** Address by address: the bytes the loop still has to copy are the old ones. *)
Lemma forward_run count : ∀ (m : memory) d s,
  valid m d (Z.of_nat count) → valid m s (Z.of_nat count) → d <= s ∨ s + Z.of_nat count <= d →
  ∃ m', forward_loop count d s (Some m) = (Ok tt, Some m') ∧ copied m m' d s (Z.of_nat count).
Proof.
  induction count as [|count IH]; intros m d s Hd Hs Ho; cbn [forward_loop].
  { exists m. split; [done|]. intros x. destruct (Z.leb_spec d x), (Z.ltb_spec x (d + Z.of_nat 0)); try done; lia. }
  destruct (Hs s ltac:(lia)) as [b Hb]. assert (is_Some (m !! d)) as Hsd by (apply Hd; lia).
  rewrite (copy_byte_run _ _ _ b) by done. destruct (IH (<[d := b]> m) (d + 1) (s + 1)) as (m' & E & Hc).
  - intros x Hx. apply insert_some; [done|apply Hd; lia].
  - intros x Hx. apply insert_some; [done|apply Hs; lia].
  - lia.
  - exists m'. split; [exact E|]. intros x. rewrite Hc.
    destruct (Z.leb_spec (d + 1) x), (Z.ltb_spec x (d + 1 + Z.of_nat count)), (Z.leb_spec d x), (Z.ltb_spec x (d + Z.of_nat (S count)));
      cbn [andb]; try lia.
    2-4: try (rewrite lookup_insert_ne by lia; reflexivity).
    + rewrite lookup_insert_ne by lia. f_equal. lia.
    + assert (x = d) as -> by lia. rewrite lookup_insert_eq. rewrite <-Hb. f_equal. lia.
Qed.

Lemma backward_run count : ∀ (m : memory) d s,
  valid m d (Z.of_nat count) → valid m s (Z.of_nat count) → s <= d →
  ∃ m', backward_loop count (d + Z.of_nat count) (s + Z.of_nat count) (Some m) = (Ok tt, Some m') ∧ copied m m' d s (Z.of_nat count).
Proof.
  induction count as [|count IH]; intros m d s Hd Hs Ho; cbn [backward_loop].
  { exists m. split; [done|]. intros x. destruct (Z.leb_spec d x), (Z.ltb_spec x (d + Z.of_nat 0)); try done; lia. }
  replace (d + Z.of_nat (S count) - 1) with (d + Z.of_nat count) by lia.
  replace (s + Z.of_nat (S count) - 1) with (s + Z.of_nat count) by lia.
  destruct (Hs (s + Z.of_nat count) ltac:(lia)) as [b Hb]. assert (is_Some (m !! (d + Z.of_nat count))) as Hsd by (apply Hd; lia).
  rewrite (copy_byte_run _ _ _ b) by done. destruct (IH (<[d + Z.of_nat count := b]> m) d s) as (m' & E & Hc).
  - intros x Hx. apply insert_some; [done|apply Hd; lia].
  - intros x Hx. apply insert_some; [done|apply Hs; lia].
  - lia.
  - exists m'. split; [exact E|]. intros x. rewrite Hc.
    destruct (Z.leb_spec d x), (Z.ltb_spec x (d + Z.of_nat count)), (Z.ltb_spec x (d + Z.of_nat (S count))); cbn [andb]; try lia.
    all: try (rewrite lookup_insert_ne by lia; reflexivity).
    assert (x = d + Z.of_nat count) as -> by lia. rewrite lookup_insert_eq, <-Hb. f_equal. lia.
Qed.

Lemma set_run count : ∀ (m : memory) d v, valid m d (Z.of_nat count) →
  ∃ m', set_loop count d v (Some m) = (Ok tt, Some m') ∧
    ∀ x, m' !! x = if (d <=? x) && (x <? d + Z.of_nat count) then Some (u8 v) else m !! x.
Proof.
  induction count as [|count IH]; intros m d v Hd; cbn [set_loop].
  { exists m. split; [done|]. intros x. destruct (Z.leb_spec d x), (Z.ltb_spec x (d + Z.of_nat 0)); try done; lia. }
  destruct (Hd d ltac:(lia)) as [b Hb]. rewrite (bind_ok _ _ _ tt (Some (<[d := u8 v]> m))).
  2:{ unfold put_byte. rewrite (bind_ok _ _ _ m (Some m)) by done. by rewrite Hb. }
  destruct (IH (<[d := u8 v]> m) (d + 1) v) as (m' & E & Hc).
  - intros x Hx. apply insert_some; [by exists b|apply Hd; lia].
  - exists m'. split; [exact E|]. intros x. rewrite Hc.
    destruct (Z.leb_spec (d + 1) x), (Z.ltb_spec x (d + 1 + Z.of_nat count)), (Z.leb_spec d x), (Z.ltb_spec x (d + Z.of_nat (S count)));
      cbn [andb]; try lia; try done.
    all: try (rewrite lookup_insert_ne by lia; reflexivity).
    assert (x = d) as -> by lia. by rewrite lookup_insert_eq.
Qed.

Lemma memcpy_run (m : memory) d s n : 0 <= n → valid m d n → valid m s n → d <= s ∨ s + n <= d →
  ∃ m', memcpy d s n (Some m) = (Ok d, Some m') ∧ copied m m' d s n.
Proof.
  intros Hn Hd Hs Ho. destruct (forward_run (Z.to_nat n) m d s) as (m' & E & Hc); rewrite ?Z2Nat.id by done; try done.
  exists m'. unfold memcpy. rewrite (bind_ok _ _ _ _ _ E). rewrite Z2Nat.id in Hc by done. done.
Qed.

Lemma memmove_run (m : memory) d s n : 0 <= n → valid m d n → valid m s n →
  ∃ m', memmove d s n (Some m) = (Ok d, Some m') ∧ copied m m' d s n.
Proof.
  intros Hn Hd Hs. unfold memmove. destruct (Z.eqb_spec d s) as [->|Hne]; [|destruct (Z.eqb_spec n 0) as [->|Hn0]]; cbn [orb].
  - exists m. split; [done|]. intros x. destruct (_ && _); [f_equal; lia|done].
  - exists m. split; [done|]. intros x. destruct (Z.leb_spec d x), (Z.ltb_spec x (d + 0)); try done; lia.
  - destruct (Z.ltb_spec d s).
    + destruct (memcpy_run m d s n) as (m' & E & Hc); try done; [lia|]. by exists m'.
    + destruct (backward_run (Z.to_nat n) m d s) as (m' & E & Hc); rewrite ?Z2Nat.id in * by done; try done.
      exists m'. by rewrite (bind_ok _ _ _ _ _ E).
Qed.

(** C27: [memmove] on any two buffers, overlapping in either direction or not,
    leaves in the destination the bytes the source had before the call and every
    other byte as it was, and returns the destination. [memcpy] gives the same
    memory wherever the destination does not start inside the source, and
    [memset] the byte of its argument over the whole range. *)
Theorem memmove_snapshot (m : memory) (d s n : Z) :
  0 <= n → valid m d n → valid m s n →
  (∃ m', memmove d s n (Some m) = (Ok d, Some m') ∧ copied m m' d s n) ∧
  (d <= s ∨ s + n <= d → memcpy d s n (Some m) = memmove d s n (Some m)) ∧
  (∀ v, ∃ m', memset d v n (Some m) = (Ok d, Some m') ∧
    ∀ x, m' !! x = if (d <=? x) && (x <? d + n) then Some (u8 v) else m !! x).
Proof.
  intros Hn Hd Hs. destruct (memmove_run m d s n Hn Hd Hs) as (m' & E & Hc). split; [by exists m'|]. split.
  - intros Ho. destruct (memcpy_run m d s n Hn Hd Hs Ho) as (m'' & E' & Hc'). rewrite E, E'. do 2 f_equal.
    apply map_eq. intros x. by rewrite Hc, Hc'.
  - intros v. destruct (set_run (Z.to_nat n) m d v) as (m'' & E'' & Hc''); rewrite ?Z2Nat.id in * by done; [done|].
    exists m''. unfold memset. by rewrite (bind_ok _ _ _ _ _ E'').
Qed.

Lemma memmove_snapshot_witness :
  let m : memory := list_to_map (zip (seqZ 10 5) [1; 2; 3; 4; 5]) in
  (∃ m', memmove 11 10 4 (Some m) = (Ok 11, Some m') ∧ copied m m' 11 10 4) ∧
  memmove 11 10 4 (Some m) = (Ok 11, Some (list_to_map (zip (seqZ 10 5) [1; 1; 2; 3; 4]))).
Proof.
  split; [|by vm_compute].
  assert (∀ a, 10 <= a → a + 4 <= 15 → valid (list_to_map (zip (seqZ 10 5) [1; 2; 3; 4; 5])) a 4) as Hv.
  { intros a H1 H2 x Hx. assert (x = 10 ∨ x = 11 ∨ x = 12 ∨ x = 13 ∨ x = 14) as [->|[->|[->|[->| ->]]]] by lia; by eexists. }
  apply (memmove_snapshot _ 11 10 4); [lia|apply Hv; lia|apply Hv; lia].
Defined.
